(** * mytoml: a shallow embedding of the TOML parser and serializer

    The development follows [src/mytoml.c] and [include/mytoml/mytoml.h]
    function by function.  C objects are modelled as follows.

    - [char] is the signed 8-bit type of the usual x86 ABIs, held in [Z];
      [EOF] is [-1] and the end-of-input sentinel stored by
      [_mytoml_tokenizer_load_input] is the character [-1].
    - [int] fields of the tokenizer ([cursor], [line], [col]) are held in [Z];
      they are bounded by the buffer length, which the loader keeps below
      [MYTOML_MAX_FILE_SIZE], so no signed overflow is written out.
    - [size_t] and [unsigned long] are 64 bits wide; their wrap-around is
      written out ([wrap64]).
    - [double] is the kernel's binary64 type [float].
    - [TomlKey *] pointers are addresses into an explicit store of key nodes,
      so that aliasing between the tree, the "current table" of the driver
      and the nodes returned by the key parsers is kept.
    - A [khash] string map is a [gmap] from C strings to addresses.
    - A C function runs in the monad [M]: it either returns in a new state,
      or leaves the model ([Undefined]: behaviour the C standard does not
      define, such as a read past the end of a buffer; [Unmodelled]: a libc
      service that is not described here), or exhausts the fuel that bounds
      its loops. *)

From Stdlib Require Import ZArith List Bool Lia String Ascii.
From Stdlib Require Import Floats.PrimFloat Floats.SpecFloat Floats.FloatOps.
From Stdlib Require Floats.FloatAxioms Numbers.Cyclic.Int63.Uint63.
From stdpp Require Import gmap list.

Local Open Scope Z_scope.

(** ** Characters and C strings *)

Definition ch (a : ascii) : Z :=
  let n := Z.of_N (N_of_ascii a) in if n <? 128 then n else n - 256.

Fixpoint chars (s : string) : list Z :=
  match s with
  | EmptyString => []
  | String a s' => ch a :: chars s'
  end.

Definition EOF : Z := -1.
Definition NUL : Z := 0.
Definition NL : Z := 10.
Definition DQUOTE : Z := 34.

(** [strlen]-bounded contents of a zero-terminated buffer. *)
Fixpoint cstr (buf : list Z) : list Z :=
  match buf with
  | [] => []
  | c :: buf' => if c =? 0 then [] else c :: cstr buf'
  end.

Definition MYTOML_MAX_DATE_FORMAT : Z := 64.
Definition MYTOML_MAX_ID_LENGTH : Z := 256.
Definition MYTOML_MAX_STRING_LENGTH : Z := 4096.
Definition MYTOML_MAX_FILE_SIZE : Z := 1073741824.
Definition MYTOML_MAX_NUM_LINES : Z := 16777216.
Definition MYTOML_MAX_SUBKEYS : Z := 131072.
Definition MYTOML_MAX_ARRAY_LENGTH : Z := 131072.

Definition wrap64 (z : Z) : Z := z mod 2 ^ 64.

(** ** The monad of C functions *)

Inductive result (S A : Type) : Type :=
| Done (a : A) (s : S)
| OutOfFuel
| Undefined
| Unmodelled.
Arguments Done {S A} a s.
Arguments OutOfFuel {S A}.
Arguments Undefined {S A}.
Arguments Unmodelled {S A}.

Definition M (S A : Type) : Type := S -> result S A.

Definition ret {S A} (a : A) : M S A := fun s => Done a s.

Definition bind {S A B} (m : M S A) (k : A -> M S B) : M S B :=
  fun s =>
    match m s with
    | Done a s' => k a s'
    | OutOfFuel => OutOfFuel
    | Undefined => Undefined
    | Unmodelled => Unmodelled
    end.

Definition get {S} : M S S := fun s => Done s s.
Definition put {S} (s : S) : M S unit := fun _ => Done tt s.
Definition undefined {S A} : M S A := fun _ => Undefined.
Definition unmodelled {S A} : M S A := fun _ => Unmodelled.
Definition out_of_fuel {S A} : M S A := fun _ => OutOfFuel.

Notation "'let*' x ':=' m 'in' k" := (bind m (fun x => k))
  (at level 10, x name, m at level 100, k at level 200).
Notation "'let*' ' p ':=' m 'in' k" := (bind m (fun x => match x with p => k end))
  (at level 10, p pattern, m at level 100, k at level 200).
Notation "m1 ';;' m2" := (bind m1 (fun _ => m2))
  (at level 100, m2 at level 200, right associativity).

(** ** Values and keys (mytoml.h) *)

Inductive TomlValueType : Set :=
| TOML_INT | TOML_BOOL | TOML_FLOAT | TOML_ARRAY | TOML_STRING
| TOML_DATETIME | TOML_DATELOCAL | TOML_TIMELOCAL | TOML_INLINETABLE
| TOML_DATETIMELOCAL.

Inductive TomlKeyType : Set :=
| TOML_KEY | TOML_TABLE | TOML_KEYLEAF | TOML_TABLELEAF | TOML_ARRAYTABLE.

Global Instance TomlKeyType_eq_dec : EqDecision TomlKeyType.
Proof. solve_decision. Defined.

Global Instance TomlValueType_eq_dec : EqDecision TomlValueType.
Proof. solve_decision. Defined.

(** Address of a [TomlKey] in the store. *)
Definition ptr : Set := nat.

(** [struct tm], the fields the parser fills. *)
Record tm : Set := mk_tm
  { tm_sec : Z; tm_min : Z; tm_hour : Z; tm_mday : Z; tm_mon : Z; tm_year : Z }.

(** What the [void *data] of a value points to. *)
Inductive Data : Set :=
| DataNull
| DataDouble (d : float)
| DataString (s : list Z)
| DataTm (t : tm)
| DataKey (k : ptr).

(** [struct TomlValue_t].  [arr] is [None] for a null pointer and otherwise
    the non-null prefix of the slot array. *)
Inductive TomlValue : Set := mkTomlValue
  { vtype : TomlValueType;
    arr : option (list TomlValue);
    len : Z;
    data : Data;
    precision : Z;
    scientific : bool;
    format : list Z }.

(** [struct TomlKey_t]. [idx] is a [size_t]. *)
Record TomlKey : Type := mkTomlKey
  { ktype : TomlKeyType;
    id : list Z;
    subkeys : gmap (list Z) ptr;
    value : option TomlValue;
    idx : Z }.

Definition set_ktype (t : TomlKeyType) (k : TomlKey) : TomlKey :=
  mkTomlKey t (id k) (subkeys k) (value k) (idx k).
Definition set_id (i : list Z) (k : TomlKey) : TomlKey :=
  mkTomlKey (ktype k) i (subkeys k) (value k) (idx k).
Definition set_subkeys (m : gmap (list Z) ptr) (k : TomlKey) : TomlKey :=
  mkTomlKey (ktype k) (id k) m (value k) (idx k).
Definition set_value (v : option TomlValue) (k : TomlKey) : TomlKey :=
  mkTomlKey (ktype k) (id k) (subkeys k) v (idx k).
Definition set_idx (i : Z) (k : TomlKey) : TomlKey :=
  mkTomlKey (ktype k) (id k) (subkeys k) (value k) i.

(** The store of key nodes: a node's address is its allocation rank. *)
Abbreviation heap := (list TomlKey).

Definition deref (p : ptr) : M heap TomlKey :=
  fun h => match h !! p with Some k => Done k h | None => Undefined end.

Definition store (p : ptr) (k : TomlKey) : M heap unit :=
  fun h => match h !! p with Some _ => Done tt (<[p := k]> h) | None => Undefined end.

Definition modify (p : ptr) (f : TomlKey -> TomlKey) : M heap unit :=
  let* k := deref p in store p (f k).

Definition alloc (k : TomlKey) : M heap ptr :=
  fun h => Done (length h) (h ++ [k]).

(** ** Keys (section "Myjson Key") *)

Definition _mytoml_value_new_key (type : TomlKeyType) : M heap ptr :=
  alloc (mkTomlKey type [] ∅ None (wrap64 (-1))).

Definition _mytoml_value_has_sub_key (key subkey : ptr) : M heap (option ptr) :=
  let* k := deref key in
  let* sk := deref subkey in
  ret (subkeys k !! id sk).

Definition _mytoml_value_keys_compatible (existing current : TomlKeyType) : bool :=
  if bool_decide (existing = TOML_KEYLEAF) then false
  else if bool_decide (existing = TOML_TABLELEAF) && bool_decide (current = TOML_TABLELEAF)
  then false
  else if (bool_decide (existing = TOML_TABLELEAF) || bool_decide (existing = TOML_KEY))
          && bool_decide (current = TOML_TABLE) then true
  else if bool_decide (existing = TOML_TABLE) && bool_decide (current = TOML_TABLELEAF)
  then true
  else if bool_decide (existing = TOML_ARRAYTABLE) && bool_decide (current = TOML_TABLE)
  then true
  else if bool_decide (current = existing) then true
  else false.

(** [key->value->arr[key->idx]->data] read as a [TomlKey *]. *)
Definition active_row (k : TomlKey) : M heap ptr :=
  match value k with
  | Some v =>
      match arr v with
      | Some rows =>
          match rows !! Z.to_nat (idx k) with
          | Some row =>
              match data row with
              | DataKey p => ret p
              | _ => undefined
              end
          | None => undefined
          end
      | None => undefined
      end
  | None => undefined
  end.

Fixpoint _mytoml_value_add_sub_key (fuel : nat) (key subkey : ptr) : M heap (option ptr) :=
  match fuel with
  | O => out_of_fuel
  | S fuel' =>
      let* s := _mytoml_value_has_sub_key key subkey in
      match s with
      | Some s =>
          let* e := deref s in
          let* sk := deref subkey in
          if _mytoml_value_keys_compatible (ktype e) (ktype sk) then
            (if bool_decide (ktype sk = TOML_TABLELEAF)
             then modify s (set_ktype TOML_TABLELEAF) else ret tt);;
            ret (Some s)
          else ret None
      | None =>
          let* k := deref key in
          let* sk := deref subkey in
          if Z.of_nat (size (subkeys k)) <? MYTOML_MAX_SUBKEYS then
            if bool_decide (ktype k = TOML_ARRAYTABLE) then
              let* row := active_row k in
              _mytoml_value_add_sub_key fuel' row subkey
            else
              modify key (fun k => set_subkeys (<[id sk := subkey]> (subkeys k)) k);;
              ret (Some subkey)
          else ret None
      end
  end.

(** [toml_get_key]. *)
Definition toml_get_key (key : option ptr) (id' : list Z) : M heap (option ptr) :=
  match key with
  | None => ret None
  | Some key =>
      let* k := deref key in
      if bool_decide (id k = id') then ret (Some key)
      else ret (subkeys k !! id')
  end.

(** ** The tokenizer (section "Tokenizer") *)

Inductive InputType : Set := I_FILE | I_File | I_STREAM.

(** The union [file] of [struct Input]: the member that was written.  An
    open [FILE *] is represented by the bytes it delivers, a file name by the
    path. *)
Inductive InputFile : Set :=
| FileUnset
| FileName (name : list Z)
| FilePointer (contents : list Z).

Record Input : Set := mkInput
  { type : InputType;
    file : InputFile;
    stream : option (list Z) }.

(** [lines] is the zero-initialised [int lines[MYTOML_MAX_NUM_LINES]]; an
    absent entry reads as [0]. *)
Record Tokenizer : Type := mkTokenizer
  { input : Input;
    cursor : Z;
    token : Z;
    prev : Z;
    prev_prev : Z;
    is_null : bool;
    newline : bool;
    line : Z;
    col : Z;
    lines : gmap Z Z }.

Definition _mytoml_new_tokenizer (input : Input) : Tokenizer :=
  mkTokenizer input 0 0 0 0 true false 0 0 ∅.

Definition lines_at (ls : gmap Z Z) (i : Z) : Z := default 0 (ls !! i).

Definition _mytoml_tokenizer_next_token : M Tokenizer Z := fun tok =>
  let prev_prev' := prev tok in
  let prev' := token tok in
  if is_null tok || (cursor tok =? 0) then
    match stream (input tok) with
    | None => Undefined
    | Some buf =>
        if cursor tok <? 0 then Undefined
        else
          match buf !! Z.to_nat (cursor tok) with
          | None => Undefined
          | Some c =>
              let newline1 :=
                if newline tok && negb (prev' =? 0) && negb (prev' =? ch " ")
                   && negb (prev' =? 9) && negb (prev' =? NL)
                then false else newline tok in
              let newline2 := if c =? NL then true else newline1 in
              let token' := if c =? EOF then 0 else c in
              let is_null' := if c =? EOF then false else is_null tok in
              if prev' =? NL then
                if line tok <? 0 then Undefined
                else
                  let lines' :=
                    if line tok <? MYTOML_MAX_NUM_LINES
                    then <[line tok := col tok]> (lines tok) else lines tok in
                  Done 1 (mkTokenizer (input tok) (cursor tok + 1) token' prev' prev_prev'
                            is_null' newline2 (line tok + 1) 0 lines')
              else
                Done 1 (mkTokenizer (input tok) (cursor tok + 1) token' prev' prev_prev'
                          is_null' newline2 (line tok) (col tok + 1) (lines tok))
          end
    end
  else
    Done 0 (mkTokenizer (input tok) (cursor tok) (token tok) prev' prev_prev'
              (is_null tok) (newline tok) (line tok) (col tok) (lines tok)).

(** The loop [while (tok->line >= 0 && pre_count > col)] of the backtrace:
    each turn reads [lines[--line]], so it runs at most [line] turns before
    the read falls below the array.  Returns [(line, pre_count, col)]. *)
Fixpoint backtrace_walk (turns : nat) (ls : gmap Z Z) (line pre_count col : Z)
  : option (Z * Z * Z) :=
  if (0 <=? line) && (col <? pre_count) then
    match turns with
    | O => None
    | S turns' =>
        if (0 <=? line - 1) && (line - 1 <? MYTOML_MAX_NUM_LINES)
        then backtrace_walk turns' ls (line - 1) (pre_count - col) (lines_at ls (line - 1))
        else None
    end
  else Some (line, pre_count, col).

Definition _mytoml_tokenizer_backtrace (count : Z) : M Tokenizer unit := fun tok =>
  let pre_count := count + 2 in
  if (0 <? count) && (pre_count <? cursor tok) then
    match backtrace_walk (Z.to_nat (line tok)) (lines tok) (line tok) pre_count (col tok) with
    | None => Undefined
    | Some (line1, pre_count1, col1) =>
        let col2 := col1 - pre_count1 in
        let line3 := if line1 <? 0 then 0 else line1 in
        let col3 := if col2 <? 0 then 0 else col2 in
        (_mytoml_tokenizer_next_token;; _mytoml_tokenizer_next_token;; ret tt)
          (mkTokenizer (input tok) (cursor tok - pre_count) (token tok) (prev tok)
             (prev_prev tok) true (newline tok) line3 col3 (lines tok))
    end
  else Done tt tok.

Definition set_stream (buf : list Z) (tok : Tokenizer) : Tokenizer :=
  mkTokenizer (mkInput (type (input tok)) (file (input tok)) (Some buf))
    (cursor tok) (token tok) (prev tok) (prev_prev tok) (is_null tok) (newline tok)
    (line tok) (col tok) (lines tok).

(** [fs] is the file system seen by [fopen]: the bytes of the file of a
    given name, if it can be opened.  [fread] is taken to deliver the whole
    file. *)
Definition _mytoml_tokenizer_load_input (fs : list Z -> option (list Z))
  : M Tokenizer bool := fun tok =>
  let load (contents : list Z) :=
    let size := Z.of_nat (length contents) in
    if MYTOML_MAX_FILE_SIZE <=? size then Done false tok
    else Done true (set_stream (contents ++ [EOF]) tok) in
  match type (input tok) with
  | I_STREAM => Done true tok
  | I_FILE =>
      match file (input tok) with
      | FilePointer contents => load contents
      | _ => Undefined
      end
  | I_File =>
      match file (input tok) with
      | FileName name =>
          match fs name with
          | Some contents => load contents
          | None => Undefined
          end
      | _ => Undefined
      end
  end.

Definition _mytoml_tokenizer_has_token : M Tokenizer bool :=
  fun tok => Done (is_null tok) tok.
Definition _mytoml_tokenizer_get_token : M Tokenizer Z :=
  fun tok => Done (token tok) tok.
Definition _mytoml_tokenizer_get_previous_token : M Tokenizer Z :=
  fun tok => Done (prev tok) tok.
Definition _mytoml_tokenizer_get_prev_prev_token : M Tokenizer Z :=
  fun tok => Done (prev_prev tok) tok.

Definition iter_next (n : nat) : M Tokenizer unit :=
  Nat.iter n (fun m => _mytoml_tokenizer_next_token;; m) (ret tt).

(** ** Character classes (section "Myjson Parser Utils") *)

Definition between (lo c hi : Z) : bool := (lo <=? c) && (c <=? hi).

Definition _mytoml_is_whitesapce (c : Z) : bool := (c =? ch " ") || (c =? 9).
Definition _mytoml_is_newline (c : Z) : bool := c =? NL.
Definition _mytoml_is_return (c : Z) : bool := c =? 13.
Definition _mytoml_is_comment_start (c : Z) : bool := c =? ch "#".
Definition _mytoml_is_equal (c : Z) : bool := c =? ch "=".
Definition _mytoml_is_escape (c : Z) : bool := c =? ch "\".
Definition _mytoml_is_basic_string_start (c : Z) : bool := c =? DQUOTE.
Definition _mytoml_is_literal_string_start (c : Z) : bool := c =? ch "'".
Definition _mytoml_is_table_start (c : Z) : bool := c =? ch "[".
Definition _mytoml_is_table_end (c : Z) : bool := c =? ch "]".
Definition _mytoml_is_inline_table_start (c : Z) : bool := c =? ch "{".
Definition _mytoml_is_inline_table_end (c : Z) : bool := c =? ch "}".
Definition _mytoml_is_inline_table_seperator (c : Z) : bool := c =? ch ",".
Definition _mytoml_is_dot (c : Z) : bool := c =? ch ".".
Definition _mytoml_is_digit (c : Z) : bool := between (ch "0") c (ch "9").
Definition _mytoml_is_hex_digit (c : Z) : bool :=
  between (ch "A") c (ch "F") || between (ch "a") c (ch "f").
Definition _mytoml_is_number_start (c : Z) : bool :=
  ((c =? ch "+") || (c =? ch "-")) || _mytoml_is_digit c.
Definition _mytoml_is_bare_ascii (c : Z) : bool :=
  between (ch "A") c (ch "Z") || between (ch "a") c (ch "z")
  || ((c =? ch "_") || (c =? ch "-")) || _mytoml_is_digit c.
Definition _mytoml_is_control (c : Z) : bool :=
  between 0 c 8 || between 10 c 31 || (c =? 127).
Definition _mytoml_is_control_multi (c : Z) : bool :=
  between 0 c 8 || ((c =? 11) || (c =? 12)) || between 14 c 31 || (c =? 127).
Definition _mytoml_is_control_literal (c : Z) : bool :=
  (negb (c =? 9) && negb (c =? 10) && between 0 c 31) || (c =? 127).
Definition _mytoml_is_number_end (c : Z) (end_ : list Z) : bool :=
  existsb (fun e => c =? e) end_.
Definition _mytoml_is_decimal_point (c : Z) : bool := c =? ch ".".
Definition _mytoml_is_underscore (c : Z) : bool := c =? ch "_".
Definition _mytoml_is_array_start (c : Z) : bool := c =? ch "[".
Definition _mytoml_is_array_end (c : Z) : bool := c =? ch "]".
Definition _mytoml_is_array_seperator (c : Z) : bool := c =? ch ",".

(** ** libc services used by the parser

    [strtoul] and [strtod] follow ISO C 7.22.1: leading white space, an
    optional sign, then the longest subject sequence; the second component
    of the result is [end - nptr].  [unsigned long] has 64 bits. *)

Definition isspace (c : Z) : bool := (c =? 32) || between 9 c 13.

Definition digit_value (c : Z) : option Z :=
  if between (ch "0") c (ch "9") then Some (c - ch "0")
  else if between (ch "a") c (ch "z") then Some (c - ch "a" + 10)
  else if between (ch "A") c (ch "Z") then Some (c - ch "A" + 10)
  else None.

Definition digit_in (base c : Z) : option Z :=
  match digit_value c with
  | Some v => if v <? base then Some v else None
  | None => None
  end.

Fixpoint skip_spaces (s : list Z) : list Z :=
  match s with
  | c :: s' => if isspace c then skip_spaces s' else s
  | [] => []
  end.

Definition read_sign (s : list Z) : bool * list Z :=
  match s with
  | c :: r => if c =? ch "-" then (true, r) else if c =? ch "+" then (false, r) else (false, s)
  | [] => (false, s)
  end.

(** Longest run of digits of [base]: its value, its length, what follows. *)
Fixpoint read_digits (base : Z) (s : list Z) (acc n : Z) : Z * Z * list Z :=
  match s with
  | c :: r =>
      match digit_in base c with
      | Some v => read_digits base r (acc * base + v) (n + 1)
      | None => (acc, n, s)
      end
  | [] => (acc, n, s)
  end.

Definition strtoul (s : list Z) (base : Z) : Z * Z :=
  let '(neg, s2) := read_sign (skip_spaces s) in
  let s3 :=
    if base =? 16 then
      match s2 with
      | c0 :: x :: d :: r =>
          if (c0 =? ch "0") && ((x =? ch "x") || (x =? ch "X"))
             && bool_decide (is_Some (digit_in 16 d))
          then d :: r else s2
      | _ => s2
      end
    else s2 in
  let '(v, n, rest) := read_digits base s3 0 0 in
  if n =? 0 then (0, 0)
  else
    let v' := if 2 ^ 64 <=? v then 2 ^ 64 - 1 else if neg then wrap64 (- v) else v in
    (v', Z.of_nat (length s) - Z.of_nat (length rest)).

(** Conversion of an [unsigned long] to [double]: round to nearest even. *)
Definition double_of_ulong (z : Z) : float :=
  SF2Prim (binary_normalize prec emax z 0 false).

(** The binary64 number nearest to [(-1)^neg * m * 10^e10]. *)
Definition decimal_to_double (neg : bool) (m e10 : Z) : float :=
  match m with
  | Zpos p =>
      SF2Prim (SFdiv prec emax
                 (S754_finite neg (p * Z.to_pos (10 ^ Z.max e10 0)) 0)
                 (S754_finite false (Z.to_pos (10 ^ Z.max (- e10) 0)) 0))
  | _ => if neg then neg_zero else zero
  end.

(** [strtod] on the decimal forms.  The spellings of infinity and NaN and
    hexadecimal floating constants are not described: [None] stands for a
    subject sequence that could begin one of them.  [parse_number] never
    stores the letters [i], [n], [x], [X] in the buffer it converts. *)
Definition strtod (s : list Z) : option (float * Z) :=
  let '(neg, s2) := read_sign (skip_spaces s) in
  let special :=
    match s2 with
    | c :: r =>
        (c =? ch "i") || (c =? ch "I") || (c =? ch "n") || (c =? ch "N")
        || ((c =? ch "0")
            && match r with x :: _ => (x =? ch "x") || (x =? ch "X") | [] => false end)
    | [] => false
    end in
  if special then None
  else
    let '(int_part, n1, s3) := read_digits 10 s2 0 0 in
    let '(mant, n2, s4) :=
      match s3 with
      | c :: r => if c =? ch "." then read_digits 10 r int_part 0 else (int_part, 0, s3)
      | [] => (int_part, 0, s3)
      end in
    if n1 + n2 =? 0 then Some (zero, 0)
    else
      let '(e, s5) :=
        match s4 with
        | c :: r =>
            if (c =? ch "e") || (c =? ch "E") then
              let '(eneg, r1) := read_sign r in
              let '(ev, en, r2) := read_digits 10 r1 0 0 in
              if en =? 0 then (0, s4) else ((if eneg then - ev else ev), r2)
            else (0, s4)
        | [] => (0, s4)
        end in
      Some (decimal_to_double neg mant (e - n2),
            Z.of_nat (length s) - Z.of_nat (length s5)).

(** Conversion to [char] of an integer outside its range. *)
Definition to_char (z : Z) : Z :=
  let b := z mod 256 in if b <? 128 then b else b - 256.

(** ** Buffers on the stack

    A [char buf[cap] = {0}] that is filled from index [0] upwards is the list
    of the characters written so far. *)

Definition buf_push {S} (cap : Z) (buf : list Z) (c : Z) : M S (list Z) :=
  if Z.of_nat (length buf) <? cap then ret (buf ++ [c]) else undefined.

(** Reading such a buffer as a C string: it must hold a zero within its
    capacity. *)
Definition c_string {S} (cap : Z) (buf : list Z) : M S (list Z) :=
  if (Z.of_nat (length buf) <? cap) || bool_decide (0 ∈ buf)
  then ret (cstr buf) else undefined.

(** ** Value constructors (section "Myjson Value") *)

Definition _mytoml_value_new_string (s : list Z) : TomlValue :=
  mkTomlValue TOML_STRING None 0 (DataString s) 0 false [].

Definition _mytoml_value_new_number (d : float) (type : TomlValueType)
    (precision : Z) (scientific : bool) : TomlValue :=
  mkTomlValue type None 0 (DataDouble d) precision scientific [].

Definition _mytoml_value_new_datetime (dt : tm) (type : TomlValueType)
    (format : list Z) (millis : Z) : TomlValue :=
  mkTomlValue type None 0 (DataTm dt) millis false
    (if Z.of_nat (length format) <? MYTOML_MAX_DATE_FORMAT then format else []).

Definition _mytoml_value_new_array : TomlValue :=
  mkTomlValue TOML_ARRAY (Some []) 0 DataNull 0 false [].

(** The entries of a [khash] map in the order of one traversal. *)
Definition kh_entries (m : gmap (list Z) ptr) : list ptr := (map_to_list m).*2.

Fixpoint for_each {S A} (l : list A) (body : A -> M S unit) : M S unit :=
  match l with
  | [] => ret tt
  | x :: l' => body x;; for_each l' body
  end.

Definition _mytoml_value_new_table (fuel : nat) (k : ptr) : M heap TomlValue :=
  let* h := _mytoml_value_new_key TOML_KEY in
  let* kk := deref k in
  for_each (kh_entries (subkeys kk))
    (fun sub => _mytoml_value_add_sub_key fuel h sub;; ret tt);;
  ret (mkTomlValue TOML_INLINETABLE None 0 (DataKey h) 0 false []).

(** ** The parser state: the tokenizer and the store of key nodes *)

Record machine : Type := mkMachine { mtok : Tokenizer; mheap : heap }.

Definition on_tok {A} (m : M Tokenizer A) : M machine A := fun s =>
  match m (mtok s) with
  | Done a t => Done a (mkMachine t (mheap s))
  | OutOfFuel => OutOfFuel
  | Undefined => Undefined
  | Unmodelled => Unmodelled
  end.

Definition on_heap {A} (m : M heap A) : M machine A := fun s =>
  match m (mheap s) with
  | Done a h => Done a (mkMachine (mtok s) h)
  | OutOfFuel => OutOfFuel
  | Undefined => Undefined
  | Unmodelled => Unmodelled
  end.

Abbreviation NEXT := (on_tok _mytoml_tokenizer_next_token).
Abbreviation HAS_TOKEN := (on_tok _mytoml_tokenizer_has_token).
Abbreviation TOKEN := (on_tok _mytoml_tokenizer_get_token).
Abbreviation PREV := (on_tok _mytoml_tokenizer_get_previous_token).
Abbreviation PREV_PREV := (on_tok _mytoml_tokenizer_get_prev_prev_token).
Abbreviation BACKTRACE n := (on_tok (_mytoml_tokenizer_backtrace n)).

(** ** White space, newlines, comments, escapes *)

Fixpoint _mytoml_parser_parse_whitespace (fuel : nat) : M machine unit :=
  match fuel with
  | O => out_of_fuel
  | S fuel' =>
      let* has := HAS_TOKEN in
      if has then
        let* c := TOKEN in
        if negb (_mytoml_is_whitesapce c) then ret tt
        else NEXT;; _mytoml_parser_parse_whitespace fuel'
      else ret tt
  end.

Definition _mytoml_parser_parse_newline : M machine bool :=
  let* c := TOKEN in
  if _mytoml_is_newline c then ret true
  else if _mytoml_is_return c then
    let* a := NEXT in
    let* c := TOKEN in
    if _mytoml_is_newline c then ret true
    else BACKTRACE (if a =? 0 then 0 else 1);; ret false
  else ret false.

Fixpoint _mytoml_parser_parse_comment (fuel : nat) : M machine bool :=
  match fuel with
  | O => out_of_fuel
  | S fuel' =>
      let* has := HAS_TOKEN in
      if has then
        NEXT;;
        let* nl := _mytoml_parser_parse_newline in
        if nl then NEXT;; ret true
        else
          let* c := TOKEN in
          if _mytoml_is_control c then ret false
          else _mytoml_parser_parse_comment fuel'
      else ret true
  end.

(** The result pairs the returned count with the bytes stored in
    [escaped]; [code] is the local [char code[9]]. *)
Fixpoint _mytoml_parser_parse_unicode_loop (fuel : nat) (code : list Z) (len : Z)
  : M machine (Z * list Z) :=
  match fuel with
  | O => out_of_fuel
  | S fuel' =>
      let digits := Z.of_nat (length code) in
      let* has := HAS_TOKEN in
      if has then
        if 8 <? digits then ret (0, [])
        else
          let* c := TOKEN in
          if _mytoml_is_hex_digit c || _mytoml_is_digit c then
            let* code' := buf_push 9 code c in
            NEXT;; _mytoml_parser_parse_unicode_loop fuel' code' len
          else if negb (digits =? 4) && negb (digits =? 8) then ret (0, [])
          else
            let* s := c_string 9 code in
            let '(num, consumed) := strtoul s 16 in
            if negb (consumed =? digits) then ret (0, [])
            else if between 0 num 55295 || between 57344 num 1114111 then
              if (num <=? 0) && (num <=? 127) then
                if len <? 1 then ret (0, [])
                else ret (1, [to_char (Z.land num 127)])
              else if between 128 num 2047 then
                if len <? 2 then ret (0, [])
                else ret (2, [to_char (Z.land (Z.lor 192 (Z.shiftr num 6)) 223);
                              to_char (Z.land (Z.lor 128 num) 191)])
              else if between 2048 num 65535 then
                if len <? 3 then ret (0, [])
                else ret (3, [to_char (Z.land (Z.lor 224 (Z.shiftr num 12)) 239);
                              to_char (Z.land (Z.lor 128 (Z.shiftr num 6)) 191);
                              to_char (Z.land (Z.lor 128 num) 191)])
              else
                if len <? 4 then ret (0, [])
                else ret (4, [to_char (Z.land (Z.lor 240 (Z.shiftr num 18)) 247);
                              to_char (Z.land (Z.lor 128 (Z.shiftr num 12)) 191);
                              to_char (Z.land (Z.lor 128 (Z.shiftr num 6)) 191);
                              to_char (Z.land (Z.lor 128 num) 191)])
            else ret (0, [])
      else ret (0, [])
  end.

Definition _mytoml_parser_parse_unicode (fuel : nat) (len : Z) : M machine (Z * list Z) :=
  _mytoml_parser_parse_unicode_loop fuel [] len.

Definition _mytoml_parser_parse_escape (fuel : nat) (len : Z) : M machine (Z * list Z) :=
  if len <? 1 then ret (0, [])
  else
    let* c := TOKEN in
    if c =? ch "b" then NEXT;; ret (1, [8])
    else if c =? ch "t" then NEXT;; ret (1, [9])
    else if c =? ch "n" then NEXT;; ret (1, [10])
    else if c =? ch "f" then NEXT;; ret (1, [12])
    else if c =? ch "r" then NEXT;; ret (1, [13])
    else if c =? DQUOTE then NEXT;; ret (1, [DQUOTE])
    else if c =? ch "\" then NEXT;; ret (1, [ch "\"])
    else if c =? ch "u" then NEXT;; _mytoml_parser_parse_unicode fuel len
    else if c =? ch "U" then NEXT;; _mytoml_parser_parse_unicode fuel len
    else ret (0, []).

(** [for (i = 0; i < c; i++) { buf[idx++] = escaped[i]; RETURN_IF_FAILED(idx < cap); }] *)
Fixpoint push_escaped {S} (cap : Z) (buf escaped : list Z) : M S (option (list Z)) :=
  match escaped with
  | [] => ret (Some buf)
  | b :: bs =>
      let* buf' := buf_push cap buf b in
      if Z.of_nat (length buf') <? cap then push_escaped cap buf' bs else ret None
  end.

(** ** Keys (section "Myjson Parser Key") *)

(** [subkey = _mytoml_value_new_key(type); memcpy(subkey->id, id, strlen(id));] *)
Definition new_key_named (type : TomlKeyType) (id_ : list Z) : M machine (option ptr) :=
  let* p := on_heap (_mytoml_value_new_key type) in
  let* s := c_string MYTOML_MAX_ID_LENGTH id_ in
  on_heap (modify p (set_id s));;
  ret (Some p).

Fixpoint _mytoml_parser_bare_key_loop (fuel : nat) (end_ : Z) (branch leaf : TomlKeyType)
    (id_ : list Z) (done : bool) : M machine (option ptr) :=
  match fuel with
  | O => out_of_fuel
  | S fuel' =>
      let idx_ := Z.of_nat (length id_) in
      let* has := HAS_TOKEN in
      if has then
        if negb (idx_ <? MYTOML_MAX_ID_LENGTH) then ret None
        else
          let* c := TOKEN in
          if _mytoml_is_dot c then
            if idx_ =? 0 then ret None else new_key_named branch id_
          else if c =? end_ then
            if idx_ =? 0 then ret None else new_key_named leaf id_
          else if _mytoml_is_whitesapce c then
            _mytoml_parser_parse_whitespace fuel';;
            _mytoml_parser_bare_key_loop fuel' end_ branch leaf id_ true
          else if _mytoml_is_bare_ascii c && negb done then
            let* id' := buf_push MYTOML_MAX_ID_LENGTH id_ c in
            NEXT;; _mytoml_parser_bare_key_loop fuel' end_ branch leaf id' done
          else ret None
      else ret None
  end.

Definition _mytoml_parser_bare_key (fuel : nat) (end_ : Z) (branch leaf : TomlKeyType)
  : M machine (option ptr) :=
  _mytoml_parser_bare_key_loop fuel end_ branch leaf [] false.

(** The closing quote of a quoted key, shared by both quoted forms. *)
Definition quoted_key_close (fuel : nat) (end_ : Z) (branch leaf : TomlKeyType)
    (id_ : list Z) : M machine (option ptr) :=
  NEXT;;
  let* c := TOKEN in
  (if _mytoml_is_whitesapce c then _mytoml_parser_parse_whitespace fuel else ret tt);;
  let* c := TOKEN in
  if _mytoml_is_dot c then new_key_named branch id_
  else if c =? end_ then new_key_named leaf id_
  else ret None.

Fixpoint _mytoml_parser_basic_quoted_key_loop (fuel : nat) (end_ : Z)
    (branch leaf : TomlKeyType) (id_ : list Z) : M machine (option ptr) :=
  match fuel with
  | O => out_of_fuel
  | S fuel' =>
      let idx_ := Z.of_nat (length id_) in
      let* has := HAS_TOKEN in
      if has then
        if negb (idx_ <? MYTOML_MAX_ID_LENGTH) then ret None
        else
          let* c := TOKEN in
          if _mytoml_is_basic_string_start c then
            quoted_key_close fuel' end_ branch leaf id_
          else if _mytoml_is_newline c then ret None
          else if _mytoml_is_escape c then
            NEXT;;
            let* '(n, escaped) := _mytoml_parser_parse_escape fuel' 5 in
            if n =? 0 then ret None
            else if negb (n <? 5) then ret None
            else
              let* r := push_escaped MYTOML_MAX_ID_LENGTH id_ escaped in
              match r with
              | None => ret None
              | Some id' =>
                  BACKTRACE 1;; NEXT;;
                  _mytoml_parser_basic_quoted_key_loop fuel' end_ branch leaf id'
              end
          else if _mytoml_is_control c then ret None
          else
            let* id' := buf_push MYTOML_MAX_ID_LENGTH id_ c in
            NEXT;; _mytoml_parser_basic_quoted_key_loop fuel' end_ branch leaf id'
      else ret None
  end.

Definition _mytoml_parser_basic_quoted_key (fuel : nat) (end_ : Z)
    (branch leaf : TomlKeyType) : M machine (option ptr) :=
  _mytoml_parser_basic_quoted_key_loop fuel end_ branch leaf [].

Fixpoint _mytoml_parser_literal_quoted_key_loop (fuel : nat) (end_ : Z)
    (branch leaf : TomlKeyType) (id_ : list Z) : M machine (option ptr) :=
  match fuel with
  | O => out_of_fuel
  | S fuel' =>
      let idx_ := Z.of_nat (length id_) in
      let* has := HAS_TOKEN in
      if has then
        if negb (idx_ <? MYTOML_MAX_ID_LENGTH) then ret None
        else
          let* c := TOKEN in
          if _mytoml_is_literal_string_start c then
            quoted_key_close fuel' end_ branch leaf id_
          else if _mytoml_is_newline c then ret None
          else if _mytoml_is_control_literal c then ret None
          else
            let* id' := buf_push MYTOML_MAX_ID_LENGTH id_ c in
            NEXT;; _mytoml_parser_literal_quoted_key_loop fuel' end_ branch leaf id'
      else ret None
  end.

Definition _mytoml_parser_literal_quoted_key (fuel : nat) (end_ : Z)
    (branch leaf : TomlKeyType) : M machine (option ptr) :=
  _mytoml_parser_literal_quoted_key_loop fuel end_ branch leaf [].

(** [_mytoml_parser_parse_key], [_mytoml_parser_parse_table] and
    [_mytoml_parser_parse_array_table] have one body up to the terminator
    ([=], [\]] or [\]\]]) and the pair of kinds given to the segments. *)
Fixpoint parse_dotted (fuel : nat) (end_ : Z) (branch leaf : TomlKeyType)
    (twice : bool) (key : ptr) (expecting : bool) : M machine (option ptr) :=
  match fuel with
  | O => out_of_fuel
  | S fuel' =>
      let attach (sub : option ptr) : M machine (option ptr) :=
        match sub with
        | None => ret None
        | Some sub =>
            let* r := on_heap (_mytoml_value_add_sub_key fuel' key sub) in
            match r with
            | None => ret None
            | Some subkey => parse_dotted fuel' end_ branch leaf twice subkey false
            end
        end in
      let* has := HAS_TOKEN in
      if has then
        let* c := TOKEN in
        if c =? end_ then
          if expecting then ret None
          else
            NEXT;;
            if twice then
              let* c := TOKEN in
              if _mytoml_is_table_end c then NEXT;; ret (Some key) else ret None
            else ret (Some key)
        else if _mytoml_is_dot c then
          if expecting then ret None
          else NEXT;; parse_dotted fuel' end_ branch leaf twice key true
        else if _mytoml_is_whitesapce c then
          _mytoml_parser_parse_whitespace fuel';;
          parse_dotted fuel' end_ branch leaf twice key expecting
        else if _mytoml_is_basic_string_start c then
          NEXT;;
          let* sub := _mytoml_parser_basic_quoted_key fuel' end_ branch leaf in
          attach sub
        else if _mytoml_is_literal_string_start c then
          NEXT;;
          let* sub := _mytoml_parser_literal_quoted_key fuel' end_ branch leaf in
          attach sub
        else
          let* sub := _mytoml_parser_bare_key fuel' end_ branch leaf in
          attach sub
      else ret None
  end.

Definition _mytoml_parser_parse_key (fuel : nat) : ptr -> bool -> M machine (option ptr) :=
  parse_dotted fuel (ch "=") TOML_KEY TOML_KEYLEAF false.

Definition _mytoml_parser_parse_table (fuel : nat) : ptr -> bool -> M machine (option ptr) :=
  parse_dotted fuel (ch "]") TOML_TABLE TOML_TABLELEAF false.

Definition _mytoml_parser_parse_array_table (fuel : nat)
  : ptr -> bool -> M machine (option ptr) :=
  parse_dotted fuel (ch "]") TOML_TABLE TOML_ARRAYTABLE true.

(** ** Strings (section "Myjson Parser Value") *)

(** The inner loop of a line continuation:
    [while (is_whitespace(token) || parse_newline(tok)) { ... }]. *)
Fixpoint line_continuation (fuel : nat) (hit : bool) : M machine bool :=
  match fuel with
  | O => out_of_fuel
  | S fuel' =>
      let* c := TOKEN in
      let* again :=
        if _mytoml_is_whitesapce c then ret true else _mytoml_parser_parse_newline in
      if again then
        let* c := TOKEN in
        (if _mytoml_is_whitesapce c then _mytoml_parser_parse_whitespace fuel' else ret tt);;
        let* nl := _mytoml_parser_parse_newline in
        if nl then NEXT;; line_continuation fuel' true
        else line_continuation fuel' hit
      else ret hit
  end.

(** The result is the contents of [value] when the C function returns it. *)
Fixpoint _mytoml_parser_parse_basic_string (fuel : nat) (value : list Z) (multi : bool)
  : M machine (option (list Z)) :=
  match fuel with
  | O => out_of_fuel
  | S fuel' =>
      let idx_ := Z.of_nat (length value) in
      let* has := HAS_TOKEN in
      if has then
        if negb (idx_ <? MYTOML_MAX_STRING_LENGTH) then ret None
        else
          let* c := TOKEN in
          if _mytoml_is_basic_string_start c then
            if negb multi then NEXT;; ret (Some value)
            else
              let* a := NEXT in
              let* b := NEXT in
              let* c1 := TOKEN in
              let* p1 := PREV in
              if _mytoml_is_basic_string_start c1 && _mytoml_is_basic_string_start p1 then
                NEXT;;
                let* c2 := TOKEN in
                let* value1 :=
                  if _mytoml_is_basic_string_start c2
                  then (let* v := buf_push MYTOML_MAX_STRING_LENGTH value DQUOTE in
                        NEXT;; ret v)
                  else ret value in
                if negb (Z.of_nat (length value1) <? MYTOML_MAX_STRING_LENGTH) then ret None
                else
                  let* c3 := TOKEN in
                  let* value2 :=
                    if _mytoml_is_basic_string_start c3
                    then (let* v := buf_push MYTOML_MAX_STRING_LENGTH value1 DQUOTE in
                          NEXT;; ret v)
                    else ret value1 in
                  ret (Some value2)
              else
                let* value' := buf_push MYTOML_MAX_STRING_LENGTH value DQUOTE in
                BACKTRACE (a + b - 1);;
                _mytoml_parser_parse_basic_string fuel' value' multi
          else
            let* nl1 := _mytoml_parser_parse_newline in
            if nl1 && negb multi then ret None
            else
              let* nl2 := _mytoml_parser_parse_newline in
              if nl2 && multi && (idx_ =? 0) then
                NEXT;; _mytoml_parser_parse_basic_string fuel' value multi
              else
                let* c := TOKEN in
                if _mytoml_is_escape c then
                  NEXT;;
                  let* '(n, escaped) := _mytoml_parser_parse_escape fuel' 5 in
                  if multi && (n =? 0) then
                    let* hit := line_continuation fuel' false in
                    if hit then _mytoml_parser_parse_basic_string fuel' value multi
                    else ret None
                  else if n =? 0 then ret None
                  else if negb (n <? 5) then ret None
                  else
                    let* r := push_escaped MYTOML_MAX_STRING_LENGTH value escaped in
                    match r with
                    | None => ret None
                    | Some value' =>
                        BACKTRACE 1;; NEXT;;
                        _mytoml_parser_parse_basic_string fuel' value' multi
                    end
                else if negb multi && _mytoml_is_control c then ret None
                else if multi && _mytoml_is_control_multi c then ret None
                else
                  let* value' := buf_push MYTOML_MAX_STRING_LENGTH value c in
                  NEXT;; _mytoml_parser_parse_basic_string fuel' value' multi
      else ret None
  end.

Fixpoint _mytoml_parser_parse_literal_string (fuel : nat) (value : list Z) (multi : bool)
  : M machine (option (list Z)) :=
  match fuel with
  | O => out_of_fuel
  | S fuel' =>
      let idx_ := Z.of_nat (length value) in
      let quote := ch "'" in
      let* has := HAS_TOKEN in
      if has then
        if negb (idx_ <? MYTOML_MAX_STRING_LENGTH) then ret None
        else
          let* c := TOKEN in
          if _mytoml_is_literal_string_start c then
            if negb multi then NEXT;; ret (Some value)
            else
              let* a := NEXT in
              let* b := NEXT in
              let* c1 := TOKEN in
              let* p1 := PREV in
              if _mytoml_is_literal_string_start c1 && _mytoml_is_literal_string_start p1
              then
                NEXT;;
                let* c2 := TOKEN in
                let* value1 :=
                  if _mytoml_is_literal_string_start c2
                  then (let* v := buf_push MYTOML_MAX_STRING_LENGTH value quote in
                        NEXT;; ret v)
                  else ret value in
                if negb (Z.of_nat (length value1) <? MYTOML_MAX_STRING_LENGTH) then ret None
                else
                  let* c3 := TOKEN in
                  let* value2 :=
                    if _mytoml_is_literal_string_start c3
                    then (let* v := buf_push MYTOML_MAX_STRING_LENGTH value1 quote in
                          NEXT;; ret v)
                    else ret value1 in
                  ret (Some value2)
              else
                let* value' := buf_push MYTOML_MAX_STRING_LENGTH value quote in
                BACKTRACE (a + b - 1);;
                _mytoml_parser_parse_literal_string fuel' value' multi
          else
            let* nl1 := _mytoml_parser_parse_newline in
            if nl1 && negb multi then ret None
            else
              let* nl2 := _mytoml_parser_parse_newline in
              if nl2 && multi && (idx_ =? 0) then
                NEXT;; _mytoml_parser_parse_literal_string fuel' value multi
              else
                let* c := TOKEN in
                if _mytoml_is_control_literal c then ret None
                else
                  let* value' := buf_push MYTOML_MAX_STRING_LENGTH value c in
                  NEXT;; _mytoml_parser_parse_literal_string fuel' value' multi
      else ret None
  end.

(** ** Numbers and booleans *)

Record Number : Set := mkNumber
  { ntype : TomlValueType; nprecision : Z; nscientific : bool }.

Definition minus_one : float := PrimFloat.opp PrimFloat.one.

Definition _mytoml_parser_parse_lnf_nan (negative : bool) : M machine float :=
  let* c := TOKEN in
  let* ret1 :=
    if c =? ch "i" then
      NEXT;; NEXT;;
      let* p := PREV in
      let* c := TOKEN in
      if (p =? ch "n") && (c =? ch "f")
      then ret (if negative then neg_infinity else infinity)
      else ret zero
    else ret zero in
  let* c := TOKEN in
  let* ret2 :=
    if c =? ch "n" then
      NEXT;; NEXT;;
      let* p := PREV in
      let* c := TOKEN in
      if (p =? ch "a") && (c =? ch "n")
      then ret (if negative then PrimFloat.opp nan else nan)
      else ret ret1
    else ret ret1 in
  NEXT;; ret ret2.

Definition _mytoml_parser_parse_boolean : M machine float :=
  let* c := TOKEN in
  let* r :=
    if c =? ch "t" then
      NEXT;; NEXT;; NEXT;;
      let* pp := PREV_PREV in
      let* p := PREV in
      let* c := TOKEN in
      if negb (pp =? ch "r") || negb (p =? ch "u") || negb (c =? ch "e")
      then ret 2%float else ret 1%float
    else if c =? ch "f" then
      NEXT;; NEXT;; NEXT;;
      let* pp := PREV_PREV in
      let* p := PREV in
      let* c := TOKEN in
      if negb (pp =? ch "a") || negb (p =? ch "l") || negb (c =? ch "s")
      then ret 2%float
      else
        NEXT;;
        let* c := TOKEN in
        if c =? ch "e" then ret 0%float else ret 2%float
    else ret 2%float in
  NEXT;; ret r.

(** The test applied to both neighbours of an underscore:
    [is_digit(c) || (base == 16 && is_hex_digit(c))]. *)
Definition base_digit (base c : Z) : bool :=
  _mytoml_is_digit c || ((base =? 16) && _mytoml_is_hex_digit c).

Fixpoint _mytoml_parser_parse_base_unit (fuel : nat) (base : Z) (value num_end : list Z)
  : M machine float :=
  match fuel with
  | O => out_of_fuel
  | S fuel' =>
      let idx_ := Z.of_nat (length value) in
      let* has := HAS_TOKEN in
      if has then
        if MYTOML_MAX_STRING_LENGTH <=? idx_ then ret minus_one
        else
          let* c := TOKEN in
          if _mytoml_is_number_end c num_end then
            if idx_ =? 0 then ret minus_one
            else
              let* s := c_string MYTOML_MAX_STRING_LENGTH value in
              let '(num, consumed) := strtoul s base in
              if consumed =? idx_ then ret (double_of_ulong num) else ret minus_one
          else if _mytoml_is_underscore c then
            NEXT;;
            let* c := TOKEN in
            let* pp := PREV_PREV in
            if base_digit base c && base_digit base pp then
              let* value' := buf_push MYTOML_MAX_STRING_LENGTH value c in
              NEXT;; _mytoml_parser_parse_base_unit fuel' base value' num_end
            else ret minus_one
          else
            let* value' := buf_push MYTOML_MAX_STRING_LENGTH value c in
            NEXT;; _mytoml_parser_parse_base_unit fuel' base value' num_end
      else ret minus_one
  end.

(** The conversion that [_mytoml_parser_parse_number] performs both when it
    meets a terminator and after its loop: [strtod], the check that the
    whole buffer was consumed, and the leading-zero rule. *)
Definition number_convert (value : list Z) (n : Number) : M machine (option (Number * float)) :=
  let idx_ := Z.of_nat (length value) in
  let* s := c_string MYTOML_MAX_STRING_LENGTH value in
  match strtod s with
  | None => unmodelled
  | Some (num, consumed) =>
      if negb (consumed =? idx_) then ret None
      else
        let n' := if 0 <? nprecision n
                  then mkNumber (ntype n) (nprecision n - 1) (nscientific n) else n in
        if bool_decide (ntype n' = TOML_INT) && negb (PrimFloat.eqb num zero) then
          let v0 := nth 0 value 0 in
          let v1 := nth 1 value 0 in
          if v0 =? ch "0" then ret None
          else if ((v0 =? ch "+") || (v0 =? ch "-")) && (v1 =? ch "0") then ret None
          else ret (Some (n', num))
        else ret (Some (n', num))
  end.

Fixpoint _mytoml_parser_parse_number_loop (fuel : nat) (value num_end : list Z) (n : Number)
  : M machine (option (Number * float)) :=
  match fuel with
  | O => out_of_fuel
  | S fuel' =>
      let idx_ := Z.of_nat (length value) in
      let base_unit (base : Z) : M machine (option (Number * float)) :=
        NEXT;;
        let* b := _mytoml_parser_parse_base_unit fuel' base value num_end in
        if PrimFloat.eqb b minus_one then ret None else ret (Some (n, b)) in
      let* has := HAS_TOKEN in
      if has then
        if negb (idx_ <? MYTOML_MAX_STRING_LENGTH) then ret None
        else
          let* c := TOKEN in
          if _mytoml_is_number_end c num_end then number_convert value n
          else if (idx_ =? 0) && (c =? ch "0") then
            NEXT;;
            let* c := TOKEN in
            if c =? ch "x" then base_unit 16
            else if c =? ch "o" then base_unit 8
            else if c =? ch "b" then base_unit 2
            else
              let* value' := buf_push MYTOML_MAX_STRING_LENGTH value (ch "0") in
              _mytoml_parser_parse_number_loop fuel' value' num_end n
          else if _mytoml_is_decimal_point c || _mytoml_is_underscore c then
            let* '(value1, n1) :=
              if _mytoml_is_decimal_point c
              then (let* v := buf_push MYTOML_MAX_STRING_LENGTH value c in
                    ret (v, mkNumber TOML_FLOAT 1 (nscientific n)))
              else ret (value, n) in
            if negb (Z.of_nat (length value1) <? MYTOML_MAX_STRING_LENGTH) then ret None
            else
              NEXT;;
              let* c := TOKEN in
              let* pp := PREV_PREV in
              if _mytoml_is_digit c && _mytoml_is_digit pp then
                let n2 := if 0 <? nprecision n1
                          then mkNumber (ntype n1) (nprecision n1 + 1) (nscientific n1)
                          else n1 in
                let* value2 := buf_push MYTOML_MAX_STRING_LENGTH value1 c in
                NEXT;; _mytoml_parser_parse_number_loop fuel' value2 num_end n2
              else ret None
          else if (c =? ch "i") || (c =? ch "n") then
            let* p := PREV in
            if (idx_ =? 1) && ((p =? ch "+") || (p =? ch "-")) then
              let* f := _mytoml_parser_parse_lnf_nan (p =? ch "-") in
              if PrimFloat.eqb f zero then number_convert value n
              else ret (Some (mkNumber TOML_FLOAT 0 (nscientific n), f))
            else ret None
          else if (c =? ch "x") || (c =? ch "X") || (c =? ch "b") || (c =? ch "B")
                  || (c =? ch "o") || (c =? ch "O") then
            number_convert value n
          else
            let* value' := buf_push MYTOML_MAX_STRING_LENGTH value c in
            let n1 := if 0 <? nprecision n
                      then mkNumber (ntype n) (nprecision n + 1) (nscientific n) else n in
            let n2 := if (c =? ch "e") || (c =? ch "E")
                      then mkNumber TOML_FLOAT (nprecision n1) true else n1 in
            NEXT;; _mytoml_parser_parse_number_loop fuel' value' num_end n2
      else number_convert value n
  end.

Definition _mytoml_parser_parse_number (fuel : nat) (num_end : list Z)
  : M machine (option (Number * float)) :=
  _mytoml_parser_parse_number_loop fuel [] num_end (mkNumber TOML_INT 0 false).

(** ** Values, arrays, inline tables *)

(** The date and time recogniser works through [sscanf] and [strftime]
    patterns that are not described here: a run that reaches it leaves the
    model. *)
Definition _mytoml_parser_parse_datetime (num_end : list Z) : M machine (option TomlValue) :=
  unmodelled.

(** [v->arr[i] = x] on the prefix representation of the slot array. *)
Definition arr_store {S} (v : TomlValue) (i : Z) (x : TomlValue) : M S TomlValue :=
  match arr v with
  | None => undefined
  | Some rows =>
      let with_rows (r : list TomlValue) :=
        mkTomlValue (vtype v) (Some r) (len v) (data v) (precision v) (scientific v)
          (format v) in
      if (i <? 0) || (MYTOML_MAX_ARRAY_LENGTH <=? i) then undefined
      else if i =? Z.of_nat (length rows) then ret (with_rows (rows ++ [x]))
      else if i <? Z.of_nat (length rows) then ret (with_rows (<[Z.to_nat i := x]> rows))
      else unmodelled
  end.

Definition set_len (n : Z) (v : TomlValue) : TomlValue :=
  mkTomlValue (vtype v) (arr v) n (data v) (precision v) (scientific v) (format v).

(** The loop that copies the entries of an inline table [h] under [target],
    leaving at the first entry that is refused. *)
Fixpoint merge_entries (fuel : nat) (target : ptr) (entries : list ptr) : M heap bool :=
  match entries with
  | [] => ret true
  | sub :: rest =>
      let* e := _mytoml_value_add_sub_key fuel target sub in
      match e with
      | None => ret false
      | Some _ => merge_entries fuel target rest
      end
  end.

(** The statements that attach a parsed value [v] to the key [k] it was
    written for, in [_mytoml_parser_parse_key_value] and in
    [_mytoml_parser_parse_inline_tabel]. *)
Definition attach_value (fuel : nat) (k : ptr) (v : TomlValue) : M heap bool :=
  if bool_decide (vtype v = TOML_INLINETABLE) then
    match data v with
    | DataKey h =>
        modify k (set_ktype TOML_KEY);;
        let* hk := deref h in
        let* ok := merge_entries fuel k (kh_entries (subkeys hk)) in
        if ok then modify k (set_ktype TOML_KEYLEAF);; ret true
        else ret false
    | _ => undefined
    end
  else modify k (set_value (Some v));; ret true.

Definition string_value (s : option (list Z)) : M machine (option TomlValue) :=
  match s with
  | None => ret None
  | Some value =>
      let* str := c_string MYTOML_MAX_STRING_LENGTH value in
      ret (Some (_mytoml_value_new_string str))
  end.

Definition number_value (fuel : nat) (num_end : list Z) : M machine (option TomlValue) :=
  let* r := _mytoml_parser_parse_number fuel num_end in
  match r with
  | None => ret None
  | Some (n, d) =>
      ret (Some (_mytoml_value_new_number d (ntype n) (nprecision n) (nscientific n)))
  end.

Fixpoint _mytoml_parser_parse_value (fuel : nat) (num_end : list Z)
  : M machine (option TomlValue) :=
  match fuel with
  | O => out_of_fuel
  | S fuel' =>
      let* has := HAS_TOKEN in
      if has then
        let* nl := _mytoml_parser_parse_newline in
        if nl then ret None
        else
          let* c := TOKEN in
          if _mytoml_is_whitesapce c then
            _mytoml_parser_parse_whitespace fuel';;
            _mytoml_parser_parse_value fuel' num_end
          else if _mytoml_is_basic_string_start c then
            NEXT;;
            let* has1 := HAS_TOKEN in
            let* c1 := TOKEN in
            if has1 && _mytoml_is_basic_string_start c1 then
              NEXT;;
              let* has2 := HAS_TOKEN in
              let* c2 := TOKEN in
              if has2 && _mytoml_is_basic_string_start c2 then
                NEXT;;
                let* s := _mytoml_parser_parse_basic_string fuel' [] true in
                string_value s
              else
                let* empty :=
                  if _mytoml_is_whitesapce c2 then ret true
                  else _mytoml_parser_parse_newline in
                if empty then string_value (Some []) else ret None
            else
              let* s := _mytoml_parser_parse_basic_string fuel' [] false in
              string_value s
          else if _mytoml_is_literal_string_start c then
            NEXT;;
            let* has1 := HAS_TOKEN in
            let* c1 := TOKEN in
            if has1 && _mytoml_is_literal_string_start c1 then
              NEXT;;
              let* has2 := HAS_TOKEN in
              let* c2 := TOKEN in
              if has2 && _mytoml_is_literal_string_start c2 then
                NEXT;;
                let* s := _mytoml_parser_parse_literal_string fuel' [] true in
                string_value s
              else
                let* empty :=
                  if _mytoml_is_whitesapce c2 then ret true
                  else _mytoml_parser_parse_newline in
                if empty then string_value (Some []) else ret None
            else
              let* s := _mytoml_parser_parse_literal_string fuel' [] false in
              string_value s
          else if _mytoml_is_number_start c then
            let* a := NEXT in
            let* b := NEXT in
            let* has1 := HAS_TOKEN in
            let* c1 := TOKEN in
            if has1 && (c1 =? ch ":") then
              BACKTRACE (a + b);; _mytoml_parser_parse_datetime num_end
            else
              let* p1 := PREV in
              if negb (_mytoml_is_digit p1) || negb (_mytoml_is_digit c1) then
                BACKTRACE (a + b);; number_value fuel' num_end
              else
                let* c_ := NEXT in
                let* d_ := NEXT in
                let* has2 := HAS_TOKEN in
                let* c2 := TOKEN in
                if has2 && (c2 =? ch "-") then
                  BACKTRACE (a + b + c_ + d_);; _mytoml_parser_parse_datetime num_end
                else
                  BACKTRACE (a + b + c_ + d_);; number_value fuel' num_end
          else if _mytoml_is_array_start c then
            NEXT;; _mytoml_parser_parse_array fuel' _mytoml_value_new_array true
          else if _mytoml_is_inline_table_start c then
            NEXT;;
            let* keys := on_heap (_mytoml_value_new_key TOML_TABLE) in
            let* r := _mytoml_parser_parse_inline_tabel fuel' keys true true in
            match r with
            | None => ret None
            | Some keys =>
                let* v := on_heap (_mytoml_value_new_table fuel' keys) in
                ret (Some v)
            end
          else if (c =? ch "t") || (c =? ch "f") then
            let* b := _mytoml_parser_parse_boolean in
            if PrimFloat.eqb b 1%float || PrimFloat.eqb b 0%float
            then ret (Some (_mytoml_value_new_number b TOML_BOOL 0 false))
            else ret None
          else if (c =? ch "i") || (c =? ch "n") then
            let* f := _mytoml_parser_parse_lnf_nan false in
            if PrimFloat.eqb f zero then ret None
            else ret (Some (_mytoml_value_new_number f TOML_FLOAT 0 false))
          else ret None
      else ret None
  end

with _mytoml_parser_parse_array (fuel : nat) (arr_ : TomlValue) (sep : bool)
  : M machine (option TomlValue) :=
  match fuel with
  | O => out_of_fuel
  | S fuel' =>
      let* has := HAS_TOKEN in
      if has then
        if negb (len arr_ <? MYTOML_MAX_ARRAY_LENGTH) then ret None
        else
          let* c := TOKEN in
          if _mytoml_is_array_end c then NEXT;; ret (Some arr_)
          else if _mytoml_is_array_seperator c then
            if sep then ret None
            else NEXT;; _mytoml_parser_parse_array fuel' arr_ true
          else
            let* nl := _mytoml_parser_parse_newline in
            if nl then NEXT;; _mytoml_parser_parse_array fuel' arr_ sep
            else
              let* c := TOKEN in
              if _mytoml_is_whitesapce c then
                _mytoml_parser_parse_whitespace fuel';;
                _mytoml_parser_parse_array fuel' arr_ sep
              else if _mytoml_is_comment_start c then
                let* ok := _mytoml_parser_parse_comment fuel' in
                if ok then _mytoml_parser_parse_array fuel' arr_ sep else ret None
              else if negb sep then ret None
              else
                let* v := _mytoml_parser_parse_value fuel' (chars "#,] " ++ [NL]) in
                match v with
                | None => ret None
                | Some v =>
                    let* arr1 := arr_store arr_ (len arr_) v in
                    _mytoml_parser_parse_array fuel' (set_len (len arr_ + 1) arr1) false
                end
      else ret None
  end

with _mytoml_parser_parse_inline_tabel (fuel : nat) (keys : ptr) (sep first : bool)
  : M machine (option ptr) :=
  match fuel with
  | O => out_of_fuel
  | S fuel' =>
      let* has := HAS_TOKEN in
      if has then
        let* c := TOKEN in
        if _mytoml_is_inline_table_end c then
          if negb (negb sep || first) then ret None
          else NEXT;; ret (Some keys)
        else if _mytoml_is_inline_table_seperator c then
          if sep then ret None
          else NEXT;; _mytoml_parser_parse_inline_tabel fuel' keys true first
        else
          let* nl := _mytoml_parser_parse_newline in
          if nl then ret None
          else
            let* c := TOKEN in
            if _mytoml_is_whitesapce c then
              _mytoml_parser_parse_whitespace fuel';;
              _mytoml_parser_parse_inline_tabel fuel' keys sep first
            else if negb sep then ret None
            else
              let* k := _mytoml_parser_parse_key fuel' keys true in
              match k with
              | None => ret None
              | Some k =>
                  let* v := _mytoml_parser_parse_value fuel' (chars ", }") in
                  match v with
                  | None => ret None
                  | Some v =>
                      let* ok := on_heap (attach_value fuel' k v) in
                      if ok then
                        _mytoml_parser_parse_whitespace fuel';;
                        _mytoml_parser_parse_inline_tabel fuel' keys false false
                      else ret None
                  end
              end
      else ret None
  end.

(** ** Statements and the drivers *)

Definition _mytoml_parser_parse_key_value (fuel : nat) (key root : ptr)
  : M machine (option ptr) :=
  let* c := TOKEN in
  if _mytoml_is_comment_start c then
    let* ok := _mytoml_parser_parse_comment fuel in
    if ok then ret (Some key) else ret None
  else if _mytoml_is_whitesapce c then
    _mytoml_parser_parse_whitespace fuel;; ret (Some key)
  else
    let* nl := _mytoml_parser_parse_newline in
    if nl then NEXT;; ret (Some key)
    else
      let* c := TOKEN in
      if _mytoml_is_table_start c then
        NEXT;;
        let* c := TOKEN in
        if _mytoml_is_table_start c then
          NEXT;;
          let* table := _mytoml_parser_parse_array_table fuel root true in
          match table with
          | None => ret None
          | Some table =>
              on_heap (
                let* t := deref table in
                (if value t is None
                 then store table (set_value (Some _mytoml_value_new_array) t)
                 else ret tt);;
                let* t := deref table in
                if negb (idx t <? MYTOML_MAX_ARRAY_LENGTH - 1) then ret None
                else
                  let* k := _mytoml_value_new_key TOML_TABLE in
                  let* row := _mytoml_value_new_table fuel k in
                  let* t := deref table in
                  let idx' := wrap64 (idx t + 1) in
                  match value t with
                  | None => undefined
                  | Some av =>
                      let* av' := arr_store av idx' row in
                      store table (set_idx idx' (set_value (Some av') t));;
                      ret (Some table)
                  end)
          end
        else _mytoml_parser_parse_table fuel root true
      else
        let* p := PREV in
        let* fresh := on_tok (fun tok => Done (newline tok) tok) in
        if (p =? 0) || _mytoml_is_newline p || (_mytoml_is_whitesapce p && fresh) then
          let* subkey := _mytoml_parser_parse_key fuel key true in
          match subkey with
          | None => ret None
          | Some subkey =>
              let* v := _mytoml_parser_parse_value fuel (chars "# " ++ [NL]) in
              match v with
              | None => ret None
              | Some v =>
                  let* ok := on_heap (attach_value fuel subkey v) in
                  if ok then _mytoml_parser_parse_whitespace fuel;; ret (Some key)
                  else ret None
              end
          end
        else ret None.

(** The loop shared by the three entry points:
    [while (has_token) { key = parse_key_value(tok, key, root); ... } return root;] *)
Fixpoint parse_document (fuel : nat) (key root : ptr) : M machine (option ptr) :=
  match fuel with
  | O => out_of_fuel
  | S fuel' =>
      let* has := HAS_TOKEN in
      if has then
        let* r := _mytoml_parser_parse_key_value fuel' key root in
        match r with
        | None => ret None
        | Some key' => parse_document fuel' key' root
        end
      else ret (Some root)
  end.

Definition new_root : M machine ptr :=
  let* root := on_heap (_mytoml_value_new_key TOML_TABLE) in
  on_heap (modify root (set_id (chars "root")));;
  ret root.

Definition start (input : Input) : machine :=
  mkMachine (_mytoml_new_tokenizer input) [].

Definition toml_load_file_name (fuel : nat) (fs : list Z -> option (list Z)) (file : list Z)
  : result machine (option ptr) :=
  (let* root := new_root in
   let* ok := on_tok (_mytoml_tokenizer_load_input fs) in
   if ok then NEXT;; parse_document fuel root root else ret None)
    (start (mkInput I_File (FileName file) None)).

(** The stream is a [FILE *]; the function stores it in the union but tags
    the input [I_File]. *)
Definition toml_load_file (fuel : nat) (fs : list Z -> option (list Z)) (file : list Z)
  : result machine (option ptr) :=
  (let* root := new_root in
   let* ok := on_tok (_mytoml_tokenizer_load_input fs) in
   if ok then NEXT;; parse_document fuel root root else ret None)
    (start (mkInput I_File (FilePointer file) None)).

(** [strdup(toml)]: the characters of [toml] and the terminating zero. *)
Definition toml_loads (fuel : nat) (toml : list Z) : result machine (option ptr) :=
  (let* root := new_root in
   NEXT;; parse_document fuel root root)
    (start (mkInput I_STREAM FileUnset (Some (cstr toml ++ [0])))).

(** ** The serializer

    [_mytoml_append_to_buffer] formats with [vsnprintf] and appends.  The
    output is kept as the sequence of appended pieces: the literal text of
    each format, and the conversions of [double]s and of [struct tm] that
    libc performs. *)

Inductive piece : Set :=
| Text (s : list Z)                      (* literal characters *)
| FmtG (f : float)                       (* [%g] *)
| FmtLf (precision : Z) (f : float)      (* [%.*lf] *)
| FmtTime (format : list Z) (t : tm).    (* [strftime] through [%s] *)

(** A C string literal, written with a backquote where C has an escaped
    double quote. *)
Definition lit (s : string) : list Z :=
  map (fun c => if c =? ch "`" then DQUOTE else c) (chars s).

Definition _mytoml_string_dump (s : list Z) : list piece :=
  map (fun c =>
         if c =? 8 then Text (chars "\b")
         else if c =? 10 then Text (chars "\n")
         else if c =? 13 then Text (chars "\r")
         else if c =? 9 then Text (chars "\t")
         else if c =? 12 then Text (chars "\f")
         else if c =? ch "\" then Text (chars "\\")
         else if c =? DQUOTE then Text (lit "\`")
         else Text [c]) s.

(** Separated traversal: [body] on each element, [,\n] between two. *)
Fixpoint dump_list {S A} (body : A -> M S (list piece)) (l : list A) : M S (list piece) :=
  match l with
  | [] => ret []
  | [x] => body x
  | x :: l' =>
      let* o1 := body x in
      let* o2 := dump_list body l' in
      ret (o1 ++ [Text (chars "," ++ [NL])] ++ o2)
  end.

Definition dump_tm (v : TomlValue) (tag : string) : M heap (list piece) :=
  match data v with
  | DataTm t =>
      ret [Text (lit "{`type`: `" ++ chars tag ++ lit "`, `value`: ");
           Text [DQUOTE]; FmtTime (format v) t; Text (lit "`}")]
  | _ => undefined
  end.

Fixpoint toml_value_dump_buffer (fuel : nat) (v : TomlValue) : M heap (list piece) :=
  match fuel with
  | O => out_of_fuel
  | S fuel' =>
      match vtype v with
      | TOML_STRING =>
          match data v with
          | DataString s =>
              ret ([Text (lit "{`type`: `string`, `value`: ")]
                     ++ _mytoml_string_dump s ++ [Text (lit "`}")])
          | _ => undefined
          end
      | TOML_FLOAT =>
          match data v with
          | DataDouble f =>
              ret ([Text (lit "{`type`: `float`, `value`: ")] ++
                   (if PrimFloat.eqb f infinity then
                      [Text (lit "`}"); Text (lit "`inf`}")]
                    else if PrimFloat.eqb f neg_infinity then [Text (lit "`-inf`}")]
                    else if PrimFloat.is_nan f then [Text (lit "`nan`}")]
                    else if scientific v then [Text [DQUOTE]; FmtG f; Text (lit "`}")]
                    else if PrimFloat.eqb f zero then [Text (lit "`0.0`}")]
                    else [Text [DQUOTE]; FmtLf (precision v) f; Text (lit "`}")]))
          | _ => undefined
          end
      | TOML_INT =>
          match data v with
          | DataDouble f =>
              ret [Text (lit "{`type`: `integer`, `value`: ");
                   Text [DQUOTE]; FmtLf 0 f; Text (lit "`}")]
          | _ => undefined
          end
      | TOML_BOOL =>
          match data v with
          | DataDouble f =>
              ret [Text (lit "{`type`: `bool`, `value`: ");
                   if PrimFloat.eqb f zero then Text (lit "`false`}")
                   else Text (lit "`true`}")]
          | _ => undefined
          end
      | TOML_DATETIME => dump_tm v "datetime"
      | TOML_DATETIMELOCAL => dump_tm v "datetime-local"
      | TOML_DATELOCAL => dump_tm v "date-local"
      | TOML_TIMELOCAL => dump_tm v "time-local"
      | TOML_ARRAY =>
          match arr v with
          | Some rows =>
              if Z.of_nat (length rows) <? MYTOML_MAX_ARRAY_LENGTH then
                let* o := dump_list (toml_value_dump_buffer fuel') rows in
                ret ([Text (chars "[" ++ [NL])] ++ o ++ [Text ([NL] ++ chars "]")])
              else undefined
          | None => undefined
          end
      | TOML_INLINETABLE =>
          match data v with
          | DataKey k =>
              let* kk := deref k in
              let* o := dump_list (toml_key_dump_buffer fuel') (kh_entries (subkeys kk)) in
              ret ([Text (chars "{" ++ [NL])] ++ o ++ [Text ([NL] ++ chars "}")])
          | _ => undefined
          end
      end
  end

with toml_key_dump_buffer (fuel : nat) (k : ptr) : M heap (list piece) :=
  match fuel with
  | O => out_of_fuel
  | S fuel' =>
      let* kk := deref k in
      let name := [Text [DQUOTE]] ++ _mytoml_string_dump (id kk) in
      let scalar_leaf :=
        match value kk with
        | Some v => bool_decide (ktype kk = TOML_KEYLEAF)
                    && negb (bool_decide (vtype v = TOML_INLINETABLE))
        | None => false
        end in
      if scalar_leaf then
        match value kk with
        | Some v =>
            let* o := toml_value_dump_buffer fuel' v in
            ret (name ++ [Text (lit "`: ")] ++ o)
        | None => undefined
        end
      else if bool_decide (ktype kk = TOML_ARRAYTABLE) then
        match value kk with
        | Some v =>
            match arr v with
            | Some rows =>
                if idx kk <? Z.of_nat (length rows) then
                  let* o := dump_list (toml_value_dump_buffer fuel')
                              (take (Z.to_nat (idx kk + 1)) rows) in
                  ret (name ++ [Text (lit "`: [" ++ [NL])] ++ o ++ [Text ([NL] ++ chars "]")])
                else undefined
            | None => undefined
            end
        | None => undefined
        end
      else
        let* o := dump_list (toml_key_dump_buffer fuel') (kh_entries (subkeys kk)) in
        ret (name ++ [Text (lit "`: {" ++ [NL])] ++ o ++ [Text ([NL] ++ chars "}")])
  end.

(** ** Dates (section "Myjson Parser Utils")

    [%] on [int] is the remainder of the division that truncates towards
    zero ([Z.rem]); [month] counts from [0] as [tm_mon] does. *)

Definition _mytoml_is_date (year month day : Z) : bool :=
  if month =? 0 then between 1 day 31
  else if month =? 1 then
    between 1 day 28
    || ((day =? 29) && (Z.rem year 4 =? 0) && negb (Z.rem year 100 =? 0))
    || ((day =? 29) && (Z.rem year 4 =? 0) && (Z.rem year 100 =? 0)
        && (Z.rem year 400 =? 0))
  else if month =? 2 then between 1 day 31
  else if month =? 3 then between 1 day 30
  else if month =? 4 then between 1 day 31
  else if month =? 5 then between 1 day 30
  else if month =? 6 then between 1 day 31
  else if month =? 7 then between 1 day 31
  else if month =? 8 then between 1 day 30
  else if month =? 9 then between 1 day 31
  else if month =? 10 then between 1 day 30
  else if month =? 11 then between 1 day 31
  else false.

Definition INT_MIN : Z := -2147483648.
Definition INT_MAX : Z := 2147483647.

(** [a + b] on [int].  A sum that [int] cannot hold is undefined behaviour,
    which is [None] here. *)
Definition int_add (a b : Z) : option Z :=
  if between INT_MIN (a + b) INT_MAX then Some (a + b) else None.

(** [_mytoml_is_valid_datetime].  The conjunction is evaluated from the
    left and stops at the first false operand, so [tm_year + 1900] is
    computed only when hour, minute and second are in range. *)
Definition _mytoml_is_valid_datetime (datetime : tm) : option bool :=
  if (between 0 (tm_hour datetime) 23 && between 0 (tm_min datetime) 59)
     && between 0 (tm_sec datetime) 59
  then
    year ← int_add (tm_year datetime) 1900;
    Some (_mytoml_is_date year (tm_mon datetime) (tm_mday datetime))
  else Some false.

(** ** Typed accessors

    Each returns the [data] pointer of the value ([toml_get_array] the value
    itself) or the null pointer; the result here is what the pointer
    addresses. *)

Definition typed_data (accept : TomlValueType -> bool) (key : option ptr)
  : M heap (option Data) :=
  match key with
  | None => ret None
  | Some key =>
      let* k := deref key in
      match value k with
      | None => ret None
      | Some v =>
          if negb (accept (vtype v)) then ret None
          else match data v with
               | DataNull => ret None
               | d => ret (Some d)
               end
      end
  end.

Definition toml_get_int : option ptr -> M heap (option Data) :=
  typed_data (fun t => bool_decide (t = TOML_INT)).
Definition toml_get_bool : option ptr -> M heap (option Data) :=
  typed_data (fun t => bool_decide (t = TOML_BOOL)).
Definition toml_get_string : option ptr -> M heap (option Data) :=
  typed_data (fun t => bool_decide (t = TOML_STRING)).
Definition toml_get_float : option ptr -> M heap (option Data) :=
  typed_data (fun t => bool_decide (t = TOML_FLOAT)).
Definition toml_get_datetime : option ptr -> M heap (option Data) :=
  typed_data (fun t => bool_decide (t = TOML_DATETIME) || bool_decide (t = TOML_DATETIMELOCAL)
                       || bool_decide (t = TOML_DATELOCAL) || bool_decide (t = TOML_TIMELOCAL)).

Definition toml_get_array (key : option ptr) : M heap (option TomlValue) :=
  match key with
  | None => ret None
  | Some key =>
      let* k := deref key in
      match value k with
      | None => ret None
      | Some v => if bool_decide (vtype v = TOML_ARRAY) then ret (Some v) else ret None
      end
  end.

(** * Observations and example inputs *)

(** The node held under [id'] in the subkey map of the node at [p]. *)
Definition subkey_of (h : heap) (p : ptr) (id' : list Z) : option TomlKey :=
  k ← h !! p; q ← subkeys k !! id'; h !! q.

(** A file system in which every name opens a file of the given bytes. *)
Definition fs_const (contents : list Z) : list Z -> option (list Z) :=
  fun _ => Some contents.

(** Evaluation of a closed run, conjunct by conjunct. *)
Ltac run := vm_compute; reflexivity.
Ltac runs := lazymatch goal with |- _ /\ _ => split; [run | runs] | _ => run end.

(** A store for the examples: a root table holding [a] (of kind [existing])
    and an unattached node [a] of kind [current]. *)
Definition redefinition_store (existing current : TomlKeyType) : heap :=
  [ mkTomlKey TOML_TABLE (chars "root") {[ chars "a" := 1%nat ]} None (wrap64 (-1));
    mkTomlKey existing (chars "a") ∅ None (wrap64 (-1));
    mkTomlKey current (chars "a") ∅ None (wrap64 (-1)) ].

(** The character that [next_token] leaves in [token] after reading [c]. *)
Definition read_as (c : Z) : Z := if c =? EOF then 0 else c.

(** A tokenizer that has read the first character of [abcdefgh]. *)
Definition abc_tokenizer : Tokenizer :=
  mkTokenizer (mkInput I_STREAM FileUnset (Some (chars "abcdefgh" ++ [EOF])))
    1 (ch "a") 0 0 true false 0 1 ∅.

Definition array_tables_document : list Z :=
  chars "[[t]]" ++ [NL] ++ chars "n = 1" ++ [NL] ++ chars "[[t]]" ++ [NL] ++ chars "n = 2".

Definition multiline_document (newlines : list Z) : list Z :=
  chars "s = " ++ [DQUOTE; DQUOTE; DQUOTE] ++ newlines ++ chars "hello" ++ [NL]
    ++ [DQUOTE; DQUOTE; DQUOTE].

Definition string_leaf (name s : list Z) : TomlKey :=
  mkTomlKey TOML_KEYLEAF name ∅ (Some (_mytoml_value_new_string s)) (wrap64 (-1)).

Definition integer_leaf (name : list Z) (d : float) : TomlKey :=
  mkTomlKey TOML_KEYLEAF name ∅ (Some (_mytoml_value_new_number d TOML_INT 0 false))
    (wrap64 (-1)).

(** The key [name] of the document [text] followed by a newline is an
    Integer of value [d]. *)
Definition parses_to_integer (text : string) (name : string) (d : float) : Prop :=
  exists m root,
    toml_load_file_name 64 (fs_const (chars text ++ [NL])) [] = Done (Some root) m
    /\ subkey_of (mheap m) root (chars name) = Some (integer_leaf (chars name) d).

(** The document [text] followed by a newline is refused. *)
Definition is_refused (text : string) : Prop :=
  exists m, toml_load_file_name 64 (fs_const (chars text ++ [NL])) [] = Done None m.

(** A state of the parser standing on the underscore of [0x1_\n]. *)
Definition trailing_underscore_state : machine :=
  mkMachine (mkTokenizer (mkInput I_STREAM FileUnset (Some (chars "0x1_" ++ [NL; EOF])))
               4 (ch "_") (ch "1") (ch "x") true false 0 4 ∅) [].

(** The Gregorian calendar, with months counted from [0]. *)
Definition gregorian_leap (year : Z) : bool :=
  (year mod 4 =? 0) && (negb (year mod 100 =? 0) || (year mod 400 =? 0)).

Definition days_in_month (year month : Z) : Z :=
  if month =? 1 then (if gregorian_leap year then 29 else 28)
  else if (month =? 3) || (month =? 5) || (month =? 8) || (month =? 10) then 30
  else 31.

Definition non_null {S A} (r : result S (option A)) : bool :=
  match r with
  | Done (Some _) _ => true
  | _ => false
  end.

(** A root table and an unattached node [a]. *)
Definition fresh_store : heap :=
  [ mkTomlKey TOML_TABLE (chars "root") ∅ None (wrap64 (-1));
    mkTomlKey TOML_KEYLEAF (chars "a") ∅ None (wrap64 (-1)) ].

(** A table [a] and an unattached node of the same identifier. *)
Definition namesake_store : heap :=
  [ mkTomlKey TOML_TABLE (chars "a") ∅ None (wrap64 (-1));
    mkTomlKey TOML_KEYLEAF (chars "a") ∅ None (wrap64 (-1)) ].

(** What [_mytoml_value_add_sub_key] may change in a node. *)
Definition node_kept (k k' : TomlKey) : Prop :=
  id k' = id k /\ value k' = value k /\ idx k' = idx k
  /\ subkeys k ⊆ subkeys k'
  /\ (ktype k' = ktype k \/ (ktype k = TOML_TABLE /\ ktype k' = TOML_TABLELEAF)).

Definition store_kept (h h' : heap) : Prop :=
  length h' = length h
  /\ forall (p : ptr) (k : TomlKey),
       h !! p = Some k -> exists k', h' !! p = Some k' /\ node_kept k k'.

(** The state of a tokenizer over the bytes [contents] of a file after [j]
    advances: either the sentinel is still ahead and [j] characters were
    read, or it was read and the cursor rests. *)
Definition reading (contents : list Z) (j : nat) (tok : Tokenizer) : Prop :=
  stream (input tok) = Some (contents ++ [EOF])
  /\ 0 <= line tok
  /\ ((is_null tok = true /\ cursor tok = Z.of_nat j /\ (j <= length contents)%nat)
      \/ (is_null tok = false /\ token tok = 0
          /\ 1 <= cursor tok <= Z.of_nat (length contents) + 1
          /\ cursor tok <= Z.of_nat j)).

(** Length of the longest prefix free of newlines. *)
Fixpoint run_without_newline (l : list Z) : nat :=
  match l with
  | [] => 0
  | x :: l' => if x =? NL then 0 else S (run_without_newline l')
  end.

Definition newlines (l : list Z) : nat := length (filter (fun x => x = NL) l).

(** The column that the tokenizer reports for a token preceded by the
    characters [pre]: counted from [1] on the first line, and from [0] after
    a newline. *)
Definition column_after (pre : list Z) : Z :=
  if bool_decide (NL ∈ pre) then Z.of_nat (run_without_newline (rev pre))
  else Z.of_nat (length pre) + 1.

(** [tok] is the tokenizer whose current token is the character of index
    [n] of the buffer of the input [i], reached by advancing from the
    start. *)
Definition at_char (i : Input) (n : nat) (tok : Tokenizer) : Prop :=
  iter_next (S n) (_mytoml_new_tokenizer i) = Done tt tok.

(** A character that may stand inside a comment. *)
Definition comment_char (x : Z) : Prop := _mytoml_is_control x = false /\ x <> EOF.

(** The root node that the entry points create. *)
Definition empty_root : TomlKey :=
  mkTomlKey TOML_TABLE (chars "root") ∅ None (wrap64 (-1)).

(** What [_mytoml_parser_bare_key] returns for the name [id_] at the
    cursor [p] of the input [i]. *)
Definition bare_key_result (i : Input) (p : nat) (end_ : Z) (leaf : TomlKeyType)
    (id_ : list Z) (h : heap) (r : result machine (option ptr)) : Prop :=
  if bool_decide (1 <= length id_ <= 255)%nat
  then exists tok',
      at_char i p tok' /\ token tok' = end_ /\ is_null tok' = true
      /\ r = Done (Some (length h))
               (mkMachine tok' (h ++ [mkTomlKey leaf id_ ∅ None (wrap64 (-1))]))
  else exists st, r = Done None st.

(** The characters that [_mytoml_parser_parse_unicode] collects. *)
Definition hex_char (x : Z) : bool := _mytoml_is_hex_digit x || _mytoml_is_digit x.

(** The number written by a run of hexadecimal digits. *)
Definition hex_value (ds : list Z) : Z :=
  fold_left (fun a c => a * 16 + default 0 (digit_in 16 c)) ds 0.

(** UTF-8 as RFC 3629 defines it, in unsigned bytes. *)
Definition utf8_reference (n : Z) : list Z :=
  if n <? 128 then [n]
  else if n <? 2048 then [192 + n / 64; 128 + n mod 64]
  else if n <? 65536 then [224 + n / 4096; 128 + (n / 64) mod 64; 128 + n mod 64]
  else [240 + n / 262144; 128 + (n / 4096) mod 64; 128 + (n / 64) mod 64; 128 + n mod 64].

(** A character that may stand unescaped in a basic string of one line. *)
Definition string_char (x : Z) : Prop :=
  x <> EOF /\ x <> DQUOTE /\ _mytoml_is_escape x = false /\ _mytoml_is_control x = false.

(** What [_mytoml_parser_parse_basic_string] returns for the contents
    [value] closed at the cursor [p] of the input [i], in front of [d]. *)
Definition basic_string_result (i : Input) (p : nat) (d : Z) (value : list Z) (h : heap)
    (r : result machine (option (list Z))) : Prop :=
  if bool_decide (length value <= 4095)%nat
  then exists tok',
      at_char i p tok' /\ token tok' = read_as d /\ is_null tok' = negb (d =? EOF)
      /\ r = Done (Some value) (mkMachine tok' h)
  else exists st, r = Done None st.

(** A character that may stand in a literal string of one line. *)
Definition literal_char (x : Z) : Prop :=
  x <> EOF /\ x <> ch "'" /\ x <> NL /\ _mytoml_is_control_literal x = false.

(** The buffer that [_mytoml_append_to_buffer] grows: [*buffer] is a null
    pointer, a block that [realloc] returned, with the pieces written to it,
    or storage that no allocation function returned. *)
Inductive buffer : Set :=
| BufNull
| BufHeap (out : list piece)
| BufStatic (s : list Z).

(** The block [*buffer] is passed to [realloc] and the formatted text
    written at its end.  [realloc] is defined on a null pointer and on a
    block of the heap (ISO C 7.22.3.5). *)
Definition _mytoml_append_to_buffer (p : piece) : M buffer unit := fun b =>
  match b with
  | BufNull => Done tt (BufHeap [p])
  | BufHeap out => Done tt (BufHeap (out ++ [p]))
  | BufStatic _ => Undefined
  end.

(** The appends of one dump, in their order. *)
Definition append_pieces (o : list piece) : M buffer unit :=
  for_each o _mytoml_append_to_buffer.

(** A dump into the buffer [b]. *)
Definition dump_into (dump : M heap (list piece)) (b : buffer) : M heap buffer :=
  fun h =>
    match dump h with
    | Done o h' =>
        match append_pieces o b with
        | Done _ b' => Done b' h'
        | OutOfFuel => OutOfFuel
        | Undefined => Undefined
        | Unmodelled => Unmodelled
        end
    | OutOfFuel => OutOfFuel
    | Undefined => Undefined
    | Unmodelled => Unmodelled
    end.

(** [toml_key_dumps] and [toml_value_dumps] initialise [buffer] with the
    empty string literal and [size] with [0], call the dump on them and
    return [buffer]. *)
Definition toml_key_dumps (fuel : nat) (k : ptr) : M heap buffer :=
  dump_into (toml_key_dump_buffer fuel k) (BufStatic []).

Definition toml_value_dumps (fuel : nat) (v : TomlValue) : M heap buffer :=
  dump_into (toml_value_dump_buffer fuel v) (BufStatic []).

(** A basic string between its quotes, and the text of an array of them. *)
Definition quoted (s : list Z) : list Z := DQUOTE :: s ++ [DQUOTE].

Definition more_strings (ss : list (list Z)) : list Z :=
  concat (map (fun s => ch "," :: quoted s) ss).

Definition array_text (ss : list (list Z)) : list Z :=
  match ss with
  | [] => []
  | s :: ss' => quoted s ++ more_strings ss'
  end.

Definition plain_string (s : list Z) : Prop :=
  Forall string_char s /\ (1 <= length s <= 4095)%nat.

(** The array value that holds [rows]. *)
Definition array_of (rows : list TomlValue) : TomlValue :=
  mkTomlValue TOML_ARRAY (Some rows) (Z.of_nat (length rows)) DataNull 0 false [].

(** The letter that marks [base] behind the leading zero. *)
Definition base_marker (base : Z) : Z :=
  if base =? 16 then ch "x" else if base =? 8 then ch "o" else ch "b".

(** A digit of [base], as [strtoul] reads it. *)
Definition digit_of (base c : Z) : bool :=
  match digit_in base c with Some _ => true | None => false end.

(** The number that a run of digits writes in [base]. *)
Definition digits_value (base : Z) (ds : list Z) : Z :=
  fold_left (fun a c => a * base + default 0 (digit_in base c)) ds 0.

(** Further groups of digits, an underscore before each. *)
Definition more_digits (gs : list (list Z)) : list Z :=
  concat (map (fun g => ch "_" :: g) gs).

(** Groups of digits with one underscore between neighbours. *)
Definition underscored (gs : list (list Z)) : list Z :=
  match gs with
  | [] => []
  | g :: gs' => g ++ more_digits gs'
  end.

(** A group of the digits that [_mytoml_parser_parse_base_unit] lets stand
    next to an underscore, none of them a terminator of [num_end]. *)
Definition unit_char (base : Z) (num_end : list Z) (c : Z) : Prop :=
  base_digit base c = true /\ _mytoml_is_number_end c num_end = false.

Definition unit_group (base : Z) (num_end : list Z) (g : list Z) : Prop :=
  g <> [] /\ Forall (unit_char base num_end) g.

(** The bases that have a marker. *)
Definition marked_base (base : Z) : Prop := base = 16 \/ base = 8 \/ base = 2.

(** No terminator of [num_end] is a digit or an underscore. *)
Definition ends_apart (base : Z) (num_end : list Z) : Prop :=
  Forall (fun e => base_digit base e = false /\ e <> ch "_") num_end.

(** Groups of digits of [base], none of them empty. *)
Definition digit_groups (base : Z) (gs : list (list Z)) : Prop :=
  Forall (fun g => g <> [] /\ Forall (fun c => digit_of base c = true) g) gs.

(** Groups of the characters that may stand next to an underscore. *)
Definition unit_groups (base : Z) (gs : list (list Z)) : Prop :=
  Forall (fun g => g <> [] /\ Forall (fun c => base_digit base c = true) g) gs.

(** * Properties *)

(** ** Redefinition of keys *)

Lemma keys_compatible_table :
  forall existing current,
    _mytoml_value_keys_compatible existing current =
    match existing, current with
    | TOML_KEYLEAF, _ => false
    | TOML_KEY, (TOML_KEY | TOML_TABLE) => true
    | TOML_KEY, _ => false
    | TOML_TABLE, (TOML_TABLE | TOML_TABLELEAF) => true
    | TOML_TABLE, _ => false
    | TOML_TABLELEAF, TOML_TABLE => true
    | TOML_TABLELEAF, _ => false
    | TOML_ARRAYTABLE, (TOML_TABLE | TOML_ARRAYTABLE) => true
    | TOML_ARRAYTABLE, _ => false
    end.
Proof. intros [] []; reflexivity. Qed.

(** What [_mytoml_value_add_sub_key] does when the parent already holds a
    subkey [s] under the identifier of the new node. *)
Lemma add_sub_key_existing (fuel : nat) (h : heap) (key sub s : ptr) (k sk e : TomlKey) :
  h !! key = Some k ->
  h !! sub = Some sk ->
  subkeys k !! id sk = Some s ->
  h !! s = Some e ->
  _mytoml_value_add_sub_key (S fuel) key sub h =
    if _mytoml_value_keys_compatible (ktype e) (ktype sk)
    then Done (Some s)
           (if bool_decide (ktype sk = TOML_TABLELEAF)
            then <[s := set_ktype TOML_TABLELEAF e]> h else h)
    else Done None h.
Proof.
  intros Hk Hsk Hs He.
  cbn [_mytoml_value_add_sub_key].
  unfold bind, _mytoml_value_has_sub_key, bind, deref, ret, modify, bind, deref, store.
  rewrite Hk, Hsk. cbn. rewrite Hs, He. cbn. rewrite Hsk. cbn.
  destruct (_mytoml_value_keys_compatible (ktype e) (ktype sk)); [|reflexivity].
  destruct (bool_decide (ktype sk = TOML_TABLELEAF)); cbn; [|reflexivity].
  rewrite He. cbn. rewrite He. reflexivity.
Qed.

(** C2 (as amended).  When the existing subkey has kind Key, a new subkey
    of kind Key or Table is merged and the existing node is returned with
    the store unchanged; a new subkey of kind KeyLeaf, TableLeaf or
    ArrayTable is refused and the null pointer is returned. *)
Theorem C2_key_row (fuel : nat) (h : heap) (key sub s : ptr) (k sk e : TomlKey) :
  h !! key = Some k ->
  h !! sub = Some sk ->
  subkeys k !! id sk = Some s ->
  h !! s = Some e ->
  ktype e = TOML_KEY ->
  _mytoml_value_add_sub_key (S fuel) key sub h =
    match ktype sk with
    | TOML_KEY | TOML_TABLE => Done (Some s) h
    | TOML_KEYLEAF | TOML_TABLELEAF | TOML_ARRAYTABLE => Done None h
    end.
Proof.
  intros Hk Hsk Hs He Hty.
  rewrite (add_sub_key_existing fuel h key sub s k sk e Hk Hsk Hs He), Hty.
  destruct (ktype sk); reflexivity.
Qed.

Lemma C2_key_row_witness :
  _mytoml_value_add_sub_key 1 0%nat 2%nat (redefinition_store TOML_KEY TOML_TABLE)
  = Done (Some 1%nat) (redefinition_store TOML_KEY TOML_TABLE).
Proof.
  exact (C2_key_row 0 (redefinition_store TOML_KEY TOML_TABLE) 0%nat 2%nat 1%nat
           _ _ _ eq_refl eq_refl eq_refl eq_refl eq_refl).
Defined.

(** C2 (as stated) fails: onto an existing Key, a new KeyLeaf, a new
    TableLeaf and a new ArrayTable are each refused. *)
Lemma C2_counterexample :
  _mytoml_value_add_sub_key 1 0%nat 2%nat (redefinition_store TOML_KEY TOML_KEYLEAF)
    = Done None (redefinition_store TOML_KEY TOML_KEYLEAF)
  /\ _mytoml_value_add_sub_key 1 0%nat 2%nat (redefinition_store TOML_KEY TOML_TABLELEAF)
    = Done None (redefinition_store TOML_KEY TOML_TABLELEAF)
  /\ _mytoml_value_add_sub_key 1 0%nat 2%nat (redefinition_store TOML_KEY TOML_ARRAYTABLE)
    = Done None (redefinition_store TOML_KEY TOML_ARRAYTABLE).
Proof. runs. Qed.

(** C8.  Onto an existing Table, a new TableLeaf is merged: the existing
    node is returned and its kind becomes TableLeaf.  The promotion is
    accepted once: in the store that results, any further TableLeaf of the
    same identifier is refused.  A TableLeaf onto a TableLeaf, and any new
    subkey onto an existing KeyLeaf, are refused with the store unchanged. *)
Theorem C8_table_leaf_once (fuel : nat) (h : heap) (key sub s : ptr) (k sk e : TomlKey) :
  h !! key = Some k ->
  h !! sub = Some sk ->
  subkeys k !! id sk = Some s ->
  h !! s = Some e ->
  (ktype e = TOML_TABLE -> ktype sk = TOML_TABLELEAF ->
   let h' := <[s := set_ktype TOML_TABLELEAF e]> h in
   _mytoml_value_add_sub_key (S fuel) key sub h = Done (Some s) h'
   /\ forall (sub2 : ptr) (sk2 : TomlKey),
        h' !! sub2 = Some sk2 -> id sk2 = id sk -> ktype sk2 = TOML_TABLELEAF ->
        _mytoml_value_add_sub_key (S fuel) key sub2 h' = Done None h')
  /\ (ktype e = TOML_TABLELEAF -> ktype sk = TOML_TABLELEAF ->
      _mytoml_value_add_sub_key (S fuel) key sub h = Done None h)
  /\ (ktype e = TOML_KEYLEAF ->
      _mytoml_value_add_sub_key (S fuel) key sub h = Done None h).
Proof.
  intros Hk Hsk Hs He.
  pose proof (add_sub_key_existing fuel h key sub s k sk e Hk Hsk Hs He) as Hadd.
  split; [|split].
  - intros Hte Htsk h'. split.
    + rewrite Hadd, Hte, Htsk. reflexivity.
    + intros sub2 sk2 Hsub2 Hid Hty2.
      assert (Hs' : h' !! s = Some (set_ktype TOML_TABLELEAF e)).
      { subst h'. apply list_lookup_insert_eq. eapply lookup_lt_Some; eauto. }
      assert (Hk' : exists k', h' !! key = Some k' /\ subkeys k' = subkeys k).
      { destruct (decide (key = s)) as [->|Hne].
        - exists (set_ktype TOML_TABLELEAF e). split; [exact Hs'|].
          rewrite He in Hk. injection Hk as <-. reflexivity.
        - exists k. split; [|reflexivity].
          subst h'. rewrite list_lookup_insert_ne by congruence. exact Hk. }
      destruct Hk' as (k' & Hk' & Hsub).
      assert (Hs2 : subkeys k' !! id sk2 = Some s) by (rewrite Hsub, Hid; exact Hs).
      rewrite (add_sub_key_existing fuel h' key sub2 s k' sk2 _ Hk' Hsub2 Hs2 Hs').
      cbn [ktype set_ktype]. rewrite Hty2. reflexivity.
  - intros Hte Htsk. rewrite Hadd, Hte, Htsk. reflexivity.
  - intros Hte. rewrite Hadd, Hte. reflexivity.
Qed.

Lemma C8_table_leaf_once_witness :
  let h := redefinition_store TOML_TABLE TOML_TABLELEAF in
  let h' := <[1%nat := set_ktype TOML_TABLELEAF (mkTomlKey TOML_TABLE (chars "a") ∅ None
                                                  (wrap64 (-1)))]> h in
  _mytoml_value_add_sub_key 1 0%nat 2%nat h = Done (Some 1%nat) h'
  /\ _mytoml_value_add_sub_key 1 0%nat 2%nat h' = Done None h'.
Proof.
  intros h h'.
  destruct (C8_table_leaf_once 0 h 0%nat 2%nat 1%nat _ _ _ eq_refl eq_refl eq_refl eq_refl)
    as (Hpromote & _ & _).
  destruct (Hpromote eq_refl eq_refl) as (Hfirst & Hsecond).
  split; [exact Hfirst|].
  exact (Hsecond 2%nat _ eq_refl eq_refl eq_refl).
Defined.

(** The same on documents: [[a.b]] then [[a]] promotes [a]; a second [[a]],
    a second [[a.b]], and a second definition of a key of a key-value pair
    are parse errors. *)
Example redefinition_documents :
  (exists m root,
     toml_load_file_name 64 (fs_const (chars "[a.b]" ++ [NL] ++ chars "[a]" ++ [NL])) []
       = Done (Some root) m
     /\ ktype <$> subkey_of (mheap m) root (chars "a") = Some TOML_TABLELEAF)
  /\ (exists m,
        toml_load_file_name 64
          (fs_const (chars "[a.b]" ++ [NL] ++ chars "[a]" ++ [NL] ++ chars "[a]" ++ [NL])) []
        = Done None m)
  /\ (exists m,
        toml_load_file_name 64 (fs_const (chars "[a.b]" ++ [NL] ++ chars "[a.b]" ++ [NL])) []
        = Done None m)
  /\ (exists m,
        toml_load_file_name 64 (fs_const (chars "x = 1" ++ [NL] ++ chars "x = 2" ++ [NL])) []
        = Done None m).
Proof.
  repeat split.
  - eexists _, _. runs.
  - eexists. vm_compute. reflexivity.
  - eexists. vm_compute. reflexivity.
  - eexists. vm_compute. reflexivity.
Qed.

(** ** Lookup *)

(** [toml_get_key] by cases: the queried node itself when the requested
    identifier is the node's own, otherwise the entry of the subkey map under
    that identifier, the null pointer when there is none.  The store is not
    changed. *)
Lemma toml_get_key_cases (h : heap) (key : ptr) (k : TomlKey) (id' : list Z) :
  h !! key = Some k ->
  (id k = id' -> toml_get_key (Some key) id' h = Done (Some key) h)
  /\ (id k <> id' -> toml_get_key (Some key) id' h = Done (subkeys k !! id') h).
Proof.
  intros Hk. unfold toml_get_key, bind, deref, ret. rewrite Hk.
  split; intros Hid.
  - rewrite bool_decide_eq_true_2 by exact Hid. reflexivity.
  - rewrite bool_decide_eq_false_2 by exact Hid. reflexivity.
Qed.

(** C9.  The header documents [toml_get_key] as finding a subkey by
    identifier.  In the tree of the document [a.a = 1] the lookup of [a] in
    the root returns the node [a], and that node holds an immediate subkey of
    identifier [a], the leaf of Integer value 1, at another address; yet the
    lookup of [a] in the node [a] returns the node [a] itself, so this
    subkey is out of the lookup's reach. *)
Theorem C9_subkey_shadowed_by_parent :
  exists m root a leaf,
    toml_load_file_name 64 (fs_const (chars "a.a = 1" ++ [NL])) [] = Done (Some root) m
    /\ toml_get_key (Some root) (chars "a") (mheap m) = Done (Some a) (mheap m)
    /\ (k ← mheap m !! a; subkeys k !! chars "a") = Some leaf
    /\ mheap m !! leaf = Some (integer_leaf (chars "a") 1%float)
    /\ bool_decide (leaf = a) = false
    /\ toml_get_key (Some a) (chars "a") (mheap m) = Done (Some a) (mheap m).
Proof. eexists _, _, _, _. runs. Qed.

(** ** The tokenizer: backtrace *)

Lemma iter_next_S (n : nat) (tok : Tokenizer) :
  iter_next (S n) tok = (_mytoml_tokenizer_next_token;; iter_next n) tok.
Proof. reflexivity. Qed.

Lemma iter_next_add (n m : nat) (tok : Tokenizer) :
  iter_next (n + m) tok = (iter_next n;; iter_next m) tok.
Proof.
  revert tok. induction n as [|n IH]; intros tok; [reflexivity|].
  change (S n + m)%nat with (S (n + m)). rewrite iter_next_S.
  unfold bind. rewrite iter_next_S. unfold bind.
  destruct (_mytoml_tokenizer_next_token tok); try reflexivity.
  rewrite IH. reflexivity.
Qed.

(** One read of a character that follows a token other than a newline. *)
Lemma next_token_read (tok : Tokenizer) (buf : list Z) (c : Z) :
  is_null tok = true ->
  stream (input tok) = Some buf ->
  0 <= cursor tok ->
  buf !! Z.to_nat (cursor tok) = Some c ->
  token tok <> NL ->
  exists tok',
    _mytoml_tokenizer_next_token tok = Done 1 tok'
    /\ input tok' = input tok
    /\ cursor tok' = cursor tok + 1
    /\ token tok' = read_as c
    /\ prev tok' = token tok
    /\ prev_prev tok' = prev tok
    /\ is_null tok' = negb (c =? EOF)
    /\ line tok' = line tok
    /\ col tok' = col tok + 1
    /\ lines tok' = lines tok.
Proof.
  intros Hnull Hbuf Hcur Hc Htok.
  unfold _mytoml_tokenizer_next_token.
  rewrite Hnull, Hbuf. cbn [orb].
  destruct (cursor tok <? 0) eqn:Hneg; [lia|].
  rewrite Hc.
  destruct (token tok =? NL) eqn:Hnl; [apply Z.eqb_eq in Hnl; contradiction|].
  eexists. split; [reflexivity|].
  cbn. unfold read_as. destruct (c =? EOF); repeat split; reflexivity.
Qed.

(** A run of reads over the characters [xs], none of them a newline and
    none but the last the end-of-input sentinel. *)
Lemma iter_next_run (xs : list Z) :
  forall (tok : Tokenizer) (buf : list Z),
    is_null tok = true ->
    stream (input tok) = Some buf ->
    0 <= cursor tok ->
    token tok <> NL ->
    (forall i c, xs !! i = Some c -> buf !! (Z.to_nat (cursor tok) + i)%nat = Some c) ->
    Forall (fun c => c <> NL) xs ->
    Forall (fun c => c <> EOF) (removelast xs) ->
    exists tok',
      iter_next (length xs) tok = Done tt tok'
      /\ input tok' = input tok
      /\ cursor tok' = cursor tok + Z.of_nat (length xs)
      /\ line tok' = line tok
      /\ col tok' = col tok + Z.of_nat (length xs)
      /\ lines tok' = lines tok
      /\ token tok' <> NL
      /\ [token tok'; prev tok'; prev_prev tok'] =
         take 3 (rev ([prev_prev tok; prev tok; token tok] ++ map read_as xs)).
Proof.
  induction xs as [|c xs IH]; intros tok buf Hnull Hbuf Hcur Htok Hxs Hnl Heof.
  - exists tok. cbn. repeat split; try lia; reflexivity.
  - assert (Hc : buf !! Z.to_nat (cursor tok) = Some c).
    { specialize (Hxs 0%nat c eq_refl). rewrite Nat.add_0_r in Hxs. exact Hxs. }
    destruct (next_token_read tok buf c Hnull Hbuf Hcur Hc Htok)
      as (t1 & Hstep & Hin & Hcu & Htk & Hpr & Hpp & Hnu & Hli & Hco & Hls).
    inversion Hnl as [|? ? Hcnl Hnl']; subst.
    destruct xs as [|d xs].
    + exists t1. change (length [c]) with 1%nat.
      rewrite iter_next_S. unfold bind. rewrite Hstep. cbn.
      repeat split; try assumption; try lia.
      * rewrite Htk. unfold read_as. destruct (c =? EOF); [discriminate|exact Hcnl].
      * rewrite Htk, Hpr, Hpp. reflexivity.
    + assert (Hceof : c <> EOF).
      { cbn in Heof. inversion Heof; assumption. }
      assert (Hnull1 : is_null t1 = true).
      { rewrite Hnu. apply negb_true_iff, Z.eqb_neq. exact Hceof. }
      assert (Htok1 : token t1 <> NL).
      { rewrite Htk. unfold read_as. destruct (c =? EOF); [discriminate|exact Hcnl]. }
      destruct (IH t1 buf Hnull1) as (t2 & Hrun & Hin2 & Hcu2 & Hli2 & Hco2 & Hls2 & Htk2 & H3).
      * rewrite Hin. exact Hbuf.
      * lia.
      * exact Htok1.
      * intros i x Hi. specialize (Hxs (S i) x Hi).
        rewrite Hcu. replace (Z.to_nat (cursor tok + 1) + i)%nat
          with (Z.to_nat (cursor tok) + S i)%nat by lia. exact Hxs.
      * exact Hnl'.
      * cbn in Heof. inversion Heof; assumption.
      * exists t2. change (length (c :: d :: xs)) with (S (length (d :: xs))).
        rewrite iter_next_S. unfold bind at 1. rewrite Hstep.
        repeat split; try assumption; try (cbn [length] in *; lia).
        -- rewrite Hin2. exact Hin.
        -- rewrite Hls2. exact Hls.
        -- rewrite H3, Htk, Hpr, Hpp.
           change ([prev_prev tok; prev tok; token tok] ++ map read_as (c :: d :: xs))
             with ([prev_prev tok] ++ ([prev tok; token tok; read_as c] ++ map read_as (d :: xs))).
           rewrite (rev_app_distr [prev_prev tok]).
           rewrite take_app_le; [reflexivity|].
           rewrite length_rev, length_app, length_map. cbn. lia.
Qed.

Lemma backtrace_walk_stay (turns : nat) (ls : gmap Z Z) (line pre_count col : Z) :
  pre_count <= col ->
  backtrace_walk turns ls line pre_count col = Some (line, pre_count, col).
Proof.
  intros Hle.
  assert (Hc : (0 <=? line) && (col <? pre_count) = false).
  { apply andb_false_iff. right. apply Z.ltb_ge. exact Hle. }
  destruct turns; cbn; rewrite Hc; reflexivity.
Qed.

Lemma last_three (pre xs : list Z) :
  (3 <= length xs)%nat ->
  take 3 (rev (pre ++ map read_as xs)) = take 3 (rev (map read_as xs)).
Proof.
  intros Hlen. rewrite rev_app_distr. apply take_app_le.
  rewrite length_rev, length_map. exact Hlen.
Qed.

(** C4 (as amended).  Let the tokenizer stand on a token other than a newline
    and read [n + 2] further characters, [n >= 1], none of them a newline and
    none but the last the end-of-input sentinel.  Then [backtrace n] followed
    by [n] advances (two advances are made by the backtrace itself) is
    defined and gives back the same [token], [prev], [prev_prev], [line] and
    [col]. *)
Theorem C4_backtrace_then_advance (n : nat) (tok : Tokenizer) (buf xs : list Z) :
  (1 <= n)%nat ->
  is_null tok = true ->
  stream (input tok) = Some buf ->
  1 <= cursor tok ->
  0 <= line tok ->
  0 <= col tok ->
  token tok <> NL ->
  length xs = (n + 2)%nat ->
  (forall i c, xs !! i = Some c -> buf !! (Z.to_nat (cursor tok) + i)%nat = Some c) ->
  Forall (fun c => c <> NL) xs ->
  Forall (fun c => c <> EOF) (removelast xs) ->
  exists tok1 tok2,
    iter_next (n + 2) tok = Done tt tok1
    /\ (_mytoml_tokenizer_backtrace (Z.of_nat n);; iter_next n) tok1 = Done tt tok2
    /\ token tok2 = token tok1
    /\ prev tok2 = prev tok1
    /\ prev_prev tok2 = prev_prev tok1
    /\ line tok2 = line tok1
    /\ col tok2 = col tok1.
Proof.
  intros Hn Hnull Hbuf Hcur Hline Hcol Htok Hlen Hxs Hnl Heof.
  destruct (iter_next_run xs tok buf Hnull Hbuf ltac:(lia) Htok Hxs Hnl Heof)
    as (tok1 & Hrun1 & Hin1 & Hcu1 & Hli1 & Hco1 & Hls1 & Htk1 & H31).
  rewrite Hlen in Hrun1, Hcu1, Hco1.
  set (R := mkTokenizer (input tok1) (cursor tok) (token tok1) (prev tok1) (prev_prev tok1)
              true (newline tok1) (line tok) (col tok) (lines tok1)).
  assert (Hbt : _mytoml_tokenizer_backtrace (Z.of_nat n) tok1 = iter_next 2 R).
  { unfold _mytoml_tokenizer_backtrace.
    replace ((0 <? Z.of_nat n) && (Z.of_nat n + 2 <? cursor tok1)) with true
      by (symmetry; apply andb_true_iff; split; apply Z.ltb_lt; lia).
    rewrite backtrace_walk_stay by lia.
    replace (line tok1 <? 0) with false by (symmetry; apply Z.ltb_ge; lia).
    replace (col tok1 - (Z.of_nat n + 2) <? 0) with false by (symmetry; apply Z.ltb_ge; lia).
    replace (cursor tok1 - (Z.of_nat n + 2)) with (cursor tok) by lia.
    replace (col tok1 - (Z.of_nat n + 2)) with (col tok) by lia.
    rewrite Hli1. reflexivity. }
  destruct (iter_next_run xs R buf) as (tok2 & Hrun2 & Hin2 & Hcu2 & Hli2 & Hco2 & _ & _ & H32);
    try assumption; try reflexivity.
  { cbn. rewrite Hin1. exact Hbuf. }
  { cbn. lia. }
  rewrite Hlen in Hrun2, Hco2.
  exists tok1, tok2.
  split; [exact Hrun1|].
  split.
  { unfold bind. rewrite Hbt.
    replace (n + 2)%nat with (2 + n)%nat in Hrun2 by lia.
    rewrite iter_next_add in Hrun2. exact Hrun2. }
  rewrite last_three in H31, H32 by lia.
  rewrite <- H32 in H31. injection H31 as -> -> ->.
  cbn in Hli2, Hco2.
  repeat split; lia.
Qed.

Lemma C4_backtrace_then_advance_witness :
  exists tok1 tok2,
    iter_next 3 abc_tokenizer = Done tt tok1
    /\ (_mytoml_tokenizer_backtrace 1;; iter_next 1) tok1 = Done tt tok2
    /\ token tok2 = token tok1
    /\ prev tok2 = prev tok1
    /\ prev_prev tok2 = prev_prev tok1
    /\ line tok2 = line tok1
    /\ col tok2 = col tok1.
Proof.
  apply (C4_backtrace_then_advance 1 abc_tokenizer (chars "abcdefgh" ++ [EOF]) (chars "bcd")).
  - lia.
  - reflexivity.
  - reflexivity.
  - cbn. lia.
  - cbn. lia.
  - cbn. lia.
  - vm_compute. discriminate.
  - reflexivity.
  - intros [|[|[|i]]] c H; cbn in H; inversion H; reflexivity.
  - repeat (apply Forall_cons; split; [vm_compute; discriminate|]). apply Forall_nil; exact I.
  - repeat (apply Forall_cons; split; [vm_compute; discriminate|]). apply Forall_nil; exact I.
Defined.

(** C4 (as stated) fails.  After five characters of [abcdefgh] the token is
    [e]; [backtrace 1] followed by [1 + 2] advances leaves the token [g],
    two characters further on. *)
Lemma C4_counterexample :
  exists tok tok',
    iter_next 4 abc_tokenizer = Done tt tok
    /\ (_mytoml_tokenizer_backtrace 1;; iter_next (1 + 2)) tok = Done tt tok'
    /\ cursor tok = 5
    /\ token tok = ch "e"
    /\ token tok' = ch "g"
    /\ cursor tok' = 7.
Proof. eexists _, _. runs. Qed.

(** The conditions of the amended statement are needed.  [backtrace 0] does
    nothing; and when the current token is a newline, the first advance made
    by the backtrace takes the stale newline for the previous character and
    counts a line that was not read. *)
Example backtrace_needs_conditions :
  (forall tok, _mytoml_tokenizer_backtrace 0 tok = Done tt tok)
  /\ (let start := mkTokenizer (mkInput I_STREAM FileUnset
                                 (Some (chars "abcd" ++ [NL] ++ chars "efg" ++ [EOF])))
                     0 0 0 0 true false 0 0 ∅ in
      exists tok tok',
        iter_next 5 start = Done tt tok
        /\ (_mytoml_tokenizer_backtrace 1;; iter_next 1) tok = Done tt tok'
        /\ token tok = NL /\ token tok' = NL
        /\ (line tok, col tok) = (0, 5)
        /\ (line tok', col tok') = (1, 2)).
Proof.
  split.
  - intros tok. reflexivity.
  - eexists _, _. runs.
Qed.

(** ** Documents *)

(** C1 (the code departs from it).  The document of two array-of-tables
    headers is refused at its first header, from a file and from a string:
    the new node [t] has [idx = (size_t)-1], which is not below
    [MYTOML_MAX_ARRAY_LENGTH - 1], so [_mytoml_parser_parse_key_value]
    returns the null pointer before any row is stored. *)
Theorem C1_array_of_tables_rejected :
  (forall file, exists m,
      toml_load_file_name 64 (fs_const array_tables_document) file = Done None m
      /\ cursor (mtok m) = 6
      /\ subkey_of (mheap m) 0%nat (chars "t")
         = Some (mkTomlKey TOML_ARRAYTABLE (chars "t") ∅ (Some _mytoml_value_new_array)
                   (2 ^ 64 - 1))
      /\ (2 ^ 64 - 1 <? MYTOML_MAX_ARRAY_LENGTH - 1) = false)
  /\ (exists m, toml_loads 64 array_tables_document = Done None m
                /\ cursor (mtok m) = 6).
Proof.
  split.
  - intros file. eexists. runs.
  - eexists. runs.
Qed.

(** C3 (the code departs from it).  The empty document gives an empty root
    when it is read from a named file.  Given as a string it is refused:
    [toml_loads] stores no end-of-input sentinel, so the terminating zero is
    parsed as the start of a key.  [toml_load_file] tags its stream as a
    file name, and the loader then opens the stream pointer as a path. *)
Theorem C3_empty_document :
  (forall fuel file, exists m,
      toml_load_file_name (1 + fuel) (fs_const []) file = Done (Some 0%nat) m
      /\ mheap m = [mkTomlKey TOML_TABLE (chars "root") ∅ None (wrap64 (-1))])
  /\ (forall fuel, exists m,
         toml_loads (4 + fuel) [] = Done None m
         /\ is_null (mtok m) = true /\ token (mtok m) = 0)
  /\ (forall fuel fs file, toml_load_file fuel fs file = Undefined).
Proof.
  split; [|split].
  - intros fuel file. eexists. runs.
  - intros fuel. eexists. runs.
  - intros fuel fs file. reflexivity.
Qed.

(** C5 (the code departs from it).  With one newline after the opening
    delimiter the value is [hello\n].  With two newlines it is [hello\n] as
    well: every newline met while the value is still empty is dropped, so
    the second newline does not remain. *)
Theorem C5_multiline_leading_newlines :
  (exists m root,
      toml_load_file_name 64 (fs_const (multiline_document [NL])) [] = Done (Some root) m
      /\ subkey_of (mheap m) root (chars "s")
         = Some (string_leaf (chars "s") (chars "hello" ++ [NL])))
  /\ (exists m root,
         toml_load_file_name 64 (fs_const (multiline_document [NL; NL])) []
         = Done (Some root) m
         /\ subkey_of (mheap m) root (chars "s")
            = Some (string_leaf (chars "s") (chars "hello" ++ [NL]))).
Proof. split; eexists _, _; runs. Qed.

(** C6 (the code departs from it).  For positive infinity the serializer
    appends a closing quote and brace before the quoted text [inf] and its
    own closing brace, whatever the saved precision and notation; the same is observed on the key parsed
    from [x = inf]. *)
Theorem C6_dump_positive_infinity :
  (forall fuel h precision scientific,
      toml_value_dump_buffer (S fuel)
        (_mytoml_value_new_number infinity TOML_FLOAT precision scientific) h
      = Done [Text (lit "{`type`: `float`, `value`: "); Text (lit "`}");
              Text (lit "`inf`}")] h)
  /\ (exists m root p,
         toml_load_file_name 64 (fs_const (chars "x = inf" ++ [NL])) [] = Done (Some root) m
         /\ (k ← mheap m !! root; subkeys k !! chars "x") = Some p
         /\ toml_key_dump_buffer 8 p (mheap m)
            = Done [Text [DQUOTE]; Text (chars "x"); Text (lit "`: ");
                    Text (lit "{`type`: `float`, `value`: "); Text (lit "`}");
                    Text (lit "`inf`}")] (mheap m)).
Proof.
  split.
  - intros fuel h precision scientific. reflexivity.
  - eexists _, _, _. runs.
Qed.

(** ** Numbers *)

(** An underscore whose neighbours are not both digits ends
    [_mytoml_parser_parse_base_unit] with the error value [-1]. *)
Lemma base_unit_underscore (fuel : nat) (base : Z) (value num_end : list Z)
    (st st1 : machine) (a : Z) :
  is_null (mtok st) = true ->
  token (mtok st) = ch "_" ->
  Z.of_nat (length value) < MYTOML_MAX_STRING_LENGTH ->
  _mytoml_is_number_end (ch "_") num_end = false ->
  NEXT st = Done a st1 ->
  base_digit base (token (mtok st1)) && base_digit base (prev_prev (mtok st1)) = false ->
  _mytoml_parser_parse_base_unit (S fuel) base value num_end st = Done minus_one st1.
Proof.
  intros Hnull Htok Hlen Hend Hnext Hdig.
  cbn [_mytoml_parser_parse_base_unit].
  unfold bind at 1. unfold on_tok at 1, _mytoml_tokenizer_has_token. rewrite Hnull.
  replace (MYTOML_MAX_STRING_LENGTH <=? Z.of_nat (length value)) with false
    by (symmetry; apply Z.leb_gt; exact Hlen).
  unfold bind at 1. unfold on_tok at 1, _mytoml_tokenizer_get_token.
  cbn [mtok mheap]. rewrite Htok, Hend.
  replace (_mytoml_is_underscore (ch "_")) with true by reflexivity.
  unfold bind at 1.
  assert (Hst : {| mtok := mtok st; mheap := mheap st |} = st) by (destruct st; reflexivity).
  rewrite Hst, Hnext.
  unfold bind, on_tok, _mytoml_tokenizer_get_token, _mytoml_tokenizer_get_prev_prev_token.
  cbn [mtok mheap]. rewrite Hdig. destruct st1; reflexivity.
Qed.

Lemma cstr_zeros (n : nat) : cstr (repeat (ch "0") n) = repeat (ch "0") n.
Proof. induction n as [|n IH]; [reflexivity|]. cbn. rewrite IH. reflexivity. Qed.

Lemma zero_not_elem_of_zeros (n : nat) : 0 ∉ repeat (ch "0") n.
Proof.
  induction n as [|n IH]; cbn.
  - apply not_elem_of_nil.
  - apply not_elem_of_cons. split; [discriminate|exact IH].
Qed.

Lemma read_digits_zeros (n : nat) (k : Z) :
  read_digits 10 (repeat (ch "0") n) 0 k = (0, k + Z.of_nat n, []).
Proof.
  revert k. induction n as [|n IH]; intros k.
  - cbn. f_equal. f_equal. lia.
  - change (repeat (ch "0") (S n)) with (ch "0" :: repeat (ch "0") n).
    cbn [read_digits]. change (digit_in 10 (ch "0")) with (Some 0).
    cbv iota beta. change (0 * 10 + 0) with 0. rewrite IH. f_equal. f_equal. lia.
Qed.

Lemma strtod_zeros (n : nat) :
  (1 <= n)%nat ->
  strtod (repeat (ch "0") n) = Some (zero, Z.of_nat n).
Proof.
  intros Hn. destruct n as [|n]; [lia|].
  unfold strtod.
  change (repeat (ch "0") (S n)) with (ch "0" :: repeat (ch "0") n).
  change (skip_spaces (ch "0" :: repeat (ch "0") n)) with (ch "0" :: repeat (ch "0") n).
  change (read_sign (ch "0" :: repeat (ch "0") n)) with (false, ch "0" :: repeat (ch "0") n).
  cbv iota beta.
  replace (match repeat (ch "0") n with
           | [] => false
           | x :: _ => (x =? ch "x") || (x =? ch "X")
           end) with false by (destruct n; reflexivity).
  change ((ch "0" =? ch "i") || (ch "0" =? ch "I") || (ch "0" =? ch "n")
          || (ch "0" =? ch "N") || (ch "0" =? ch "0") && false) with false.
  cbv iota.
  change (ch "0" :: repeat (ch "0") n) with (repeat (ch "0") (S n)).
  rewrite read_digits_zeros.
  cbv iota beta.
  replace (0 + Z.of_nat (S n) + 0 =? 0) with false by (symmetry; apply Z.eqb_neq; lia).
  cbv iota beta. rewrite repeat_length. cbn [length].
  change (decimal_to_double false 0 (0 - 0)) with zero.
  f_equal; try (f_equal; lia).
Qed.

(** The conversion accepts a buffer made of zeros only, whatever its
    length: the leading-zero rule is not applied to the value zero. *)
Lemma number_convert_zeros (n : nat) (st : machine) :
  (1 <= n)%nat ->
  (n < 4096)%nat ->
  number_convert (repeat (ch "0") n) (mkNumber TOML_INT 0 false) st
  = Done (Some (mkNumber TOML_INT 0 false, zero)) st.
Proof.
  intros H1 H2. unfold number_convert, c_string, bind.
  rewrite repeat_length.
  replace (Z.of_nat n <? MYTOML_MAX_STRING_LENGTH) with true
    by (symmetry; apply Z.ltb_lt; unfold MYTOML_MAX_STRING_LENGTH; lia).
  cbn [orb]. unfold ret at 1. rewrite cstr_zeros, strtod_zeros by exact H1.
  rewrite Z.eqb_refl. reflexivity.
Qed.

(** C10.  A literal made of zeros only is converted to the Integer 0 and
    the leading-zero rule is not applied to it, for every length the buffer
    allows; [x = 00] and [x = 000] give the Integer 0, at the end of the
    input as well as before a newline, while [x = 01] is refused. *)
Theorem C10_repeated_zeros :
  (forall (n : nat) (st : machine),
      (1 <= n)%nat -> (n < 4096)%nat ->
      number_convert (repeat (ch "0") n) (mkNumber TOML_INT 0 false) st
      = Done (Some (mkNumber TOML_INT 0 false, zero)) st)
  /\ parses_to_integer "x = 00" "x" 0%float
  /\ parses_to_integer "x = 000" "x" 0%float
  /\ (exists m root,
         toml_load_file_name 64 (fs_const (chars "x = 00")) [] = Done (Some root) m
         /\ subkey_of (mheap m) root (chars "x") = Some (integer_leaf (chars "x") 0%float))
  /\ (exists m root,
         toml_load_file_name 64 (fs_const (chars "x = 000")) [] = Done (Some root) m
         /\ subkey_of (mheap m) root (chars "x") = Some (integer_leaf (chars "x") 0%float))
  /\ is_refused "x = 01".
Proof.
  split; [exact number_convert_zeros|].
  repeat lazymatch goal with
         | |- _ /\ _ => split
         | |- parses_to_integer _ _ _ => eexists _, _; runs
         | |- is_refused _ => eexists; run
         | |- exists _, _ => eexists _, _; runs
         end.
Qed.

Lemma C10_repeated_zeros_witness :
  number_convert (repeat (ch "0") 2) (mkNumber TOML_INT 0 false) (start (mkInput I_STREAM FileUnset None))
  = Done (Some (mkNumber TOML_INT 0 false, zero)) (start (mkInput I_STREAM FileUnset None)).
Proof.
  destruct C10_repeated_zeros as (H & _).
  apply (H 2%nat); lia.
Defined.

(** ** Dates *)

Lemma rem_zero_mod (x n : Z) : n <> 0 -> (Z.rem x n =? 0) = (x mod n =? 0).
Proof.
  intros Hn.
  destruct (Z.eqb_spec (Z.rem x n) 0) as [Hr|Hr];
    destruct (Z.eqb_spec (x mod n) 0) as [Hm|Hm]; try reflexivity; exfalso.
  - apply Hm. apply Z.mod_divide; [exact Hn|]. apply Z.rem_divide; assumption.
  - apply Hr. apply Z.rem_divide; [exact Hn|]. apply Z.mod_divide; assumption.
Qed.

Lemma is_date_days (year month day : Z) :
  _mytoml_is_date year month day
  = between 0 month 11 && between 1 day (days_in_month year month).
Proof.
  unfold _mytoml_is_date, days_in_month, gregorian_leap, between.
  rewrite !rem_zero_mod by lia.
  destruct (Z.eqb_spec month 0); [subst; reflexivity|].
  destruct (Z.eqb_spec month 1).
  { subst. cbn [Z.leb Z.compare andb].
    destruct (year mod 4 =? 0), (year mod 100 =? 0), (year mod 400 =? 0);
      cbn [andb orb negb];
      destruct (Z.eqb_spec day 29), (Z.leb_spec 1 day), (Z.leb_spec day 28),
               (Z.leb_spec day 29); cbn; try reflexivity; lia. }
  destruct (Z.eqb_spec month 2); [subst; reflexivity|].
  destruct (Z.eqb_spec month 3); [subst; reflexivity|].
  destruct (Z.eqb_spec month 4); [subst; reflexivity|].
  destruct (Z.eqb_spec month 5); [subst; reflexivity|].
  destruct (Z.eqb_spec month 6); [subst; reflexivity|].
  destruct (Z.eqb_spec month 7); [subst; reflexivity|].
  destruct (Z.eqb_spec month 8); [subst; reflexivity|].
  destruct (Z.eqb_spec month 9); [subst; reflexivity|].
  destruct (Z.eqb_spec month 10); [subst; reflexivity|].
  destruct (Z.eqb_spec month 11); [subst; reflexivity|].
  destruct (Z.leb_spec 0 month), (Z.leb_spec month 11); cbn; try reflexivity; lia.
Qed.

(** X1.  [_mytoml_is_date] accepts exactly the days of the Gregorian
    calendar: the month lies in [0..11] and the day in [1..days_in_month],
    the 29th of February being a day of leap years only (every fourth year,
    but of the centuries only every fourth). *)
Theorem is_date_gregorian (year month day : Z) :
  _mytoml_is_date year month day = true <->
  0 <= month <= 11 /\ 1 <= day <= days_in_month year month.
Proof.
  rewrite is_date_days. unfold between.
  rewrite !andb_true_iff, !Z.leb_le. tauto.
Qed.

(** X2.  [_mytoml_is_valid_datetime] returns true exactly when the hour is
    in [0..23], minute and second are in [0..59] (a second numbered 60 is
    never valid), [tm_year + 1900] is a value of [int] and the date is one of
    the Gregorian calendar for that year.  When hour, minute and second are
    in range and [tm_year + 1900] is not a value of [int], the addition
    overflows and the call has no defined result.  In every other case the
    function returns false. *)
Theorem is_valid_datetime_iff (t : tm) :
  (_mytoml_is_valid_datetime t = Some true <->
   (0 <= tm_hour t <= 23 /\ 0 <= tm_min t <= 59 /\ 0 <= tm_sec t <= 59)
   /\ INT_MIN <= tm_year t + 1900 <= INT_MAX
   /\ 0 <= tm_mon t <= 11
   /\ 1 <= tm_mday t <= days_in_month (tm_year t + 1900) (tm_mon t))
  /\ (_mytoml_is_valid_datetime t = None <->
      (0 <= tm_hour t <= 23 /\ 0 <= tm_min t <= 59 /\ 0 <= tm_sec t <= 59)
      /\ ~ INT_MIN <= tm_year t + 1900 <= INT_MAX)
  /\ (_mytoml_is_valid_datetime t = Some false <->
      ~ (0 <= tm_hour t <= 23 /\ 0 <= tm_min t <= 59 /\ 0 <= tm_sec t <= 59)
      \/ (INT_MIN <= tm_year t + 1900 <= INT_MAX
          /\ ~ (0 <= tm_mon t <= 11
                /\ 1 <= tm_mday t <= days_in_month (tm_year t + 1900) (tm_mon t)))).
Proof.
  unfold _mytoml_is_valid_datetime, int_add.
  assert (Htime : (between 0 (tm_hour t) 23 && between 0 (tm_min t) 59)
                  && between 0 (tm_sec t) 59 = true
                  <-> 0 <= tm_hour t <= 23 /\ 0 <= tm_min t <= 59 /\ 0 <= tm_sec t <= 59).
  { unfold between. rewrite !andb_true_iff, !Z.leb_le. tauto. }
  assert (Hyear : between INT_MIN (tm_year t + 1900) INT_MAX = true
                  <-> INT_MIN <= tm_year t + 1900 <= INT_MAX).
  { unfold between. rewrite !andb_true_iff, !Z.leb_le. tauto. }
  assert (Hdate : between 0 (tm_mon t) 11
                  && between 1 (tm_mday t) (days_in_month (tm_year t + 1900) (tm_mon t)) = true
                  <-> 0 <= tm_mon t <= 11
                      /\ 1 <= tm_mday t <= days_in_month (tm_year t + 1900) (tm_mon t)).
  { unfold between. rewrite !andb_true_iff, !Z.leb_le. tauto. }
  rewrite <- Htime, <- Hyear, <- Hdate.
  destruct ((between 0 (tm_hour t) 23 && between 0 (tm_min t) 59)
            && between 0 (tm_sec t) 59);
    [destruct (between INT_MIN (tm_year t + 1900) INT_MAX); cbn;
     [rewrite is_date_days;
      destruct (between 0 (tm_mon t) 11
                && between 1 (tm_mday t) (days_in_month (tm_year t + 1900) (tm_mon t)))|]|];
    repeat split; intros; try discriminate; try reflexivity; try tauto;
    intuition (try discriminate; try congruence).
Qed.

(** ** Typed accessors *)

(** X3.  On every node at most one of the six typed accessors returns a
    non-null pointer, and none does for the null key or for a node without
    a value. *)
Theorem typed_accessors_exclusive (h : heap) (key : option ptr) :
  let answers :=
    [ non_null (toml_get_int key h); non_null (toml_get_bool key h);
      non_null (toml_get_string key h); non_null (toml_get_float key h);
      non_null (toml_get_array key h); non_null (toml_get_datetime key h) ] in
  (length (filter (fun b => b = true) answers) <= 1)%nat
  /\ (key = None -> answers = [false; false; false; false; false; false])
  /\ (forall p k, key = Some p -> h !! p = Some k -> value k = None ->
      answers = [false; false; false; false; false; false]).
Proof.
  cbn zeta. split; [|split].
  - unfold toml_get_int, toml_get_bool, toml_get_string, toml_get_float, toml_get_array,
      toml_get_datetime, typed_data, bind, deref, ret.
    destruct key as [p|]; [|vm_compute; lia].
    destruct (h !! p) as [k|]; [|vm_compute; lia].
    destruct (value k) as [v|]; [|vm_compute; lia].
    destruct (vtype v), (data v); vm_compute; lia.
  - intros ->. reflexivity.
  - intros p k -> Hk Hv.
    unfold toml_get_int, toml_get_bool, toml_get_string, toml_get_float, toml_get_array,
      toml_get_datetime, typed_data, bind, deref, ret.
    rewrite Hk, Hv. reflexivity.
Qed.

Lemma typed_accessors_exclusive_witness :
  let h := [mkTomlKey TOML_KEYLEAF (chars "x") ∅ None (wrap64 (-1))] in
  [ non_null (toml_get_int (Some 0%nat) h); non_null (toml_get_bool (Some 0%nat) h);
    non_null (toml_get_string (Some 0%nat) h); non_null (toml_get_float (Some 0%nat) h);
    non_null (toml_get_array (Some 0%nat) h); non_null (toml_get_datetime (Some 0%nat) h) ]
  = [false; false; false; false; false; false].
Proof.
  intros h.
  destruct (typed_accessors_exclusive h (Some 0%nat)) as (_ & _ & H).
  exact (H 0%nat _ eq_refl eq_refl eq_refl).
Defined.

(** ** Insertion of subkeys *)

(** X4.  Insertion followed by lookup.  When the parent (not an array of
    tables) holds no subkey under the identifier of the new node, the node
    is stored under that identifier if the map has room, and the null
    pointer is returned otherwise.  After a successful insertion
    [_mytoml_value_has_sub_key] returns the new node; [toml_get_key] under
    the new node's identifier returns the new node too, unless that
    identifier is the parent's own, in which case it returns the parent
    itself.  The other entries of the map are as before and the map has one
    entry more. *)
Theorem add_sub_key_fresh (fuel : nat) (h : heap) (key sub : ptr) (k sk : TomlKey) :
  h !! key = Some k ->
  h !! sub = Some sk ->
  subkeys k !! id sk = None ->
  ktype k <> TOML_ARRAYTABLE ->
  let k' := set_subkeys (<[id sk := sub]> (subkeys k)) k in
  let h' := <[key := k']> h in
  (Z.of_nat (size (subkeys k)) < MYTOML_MAX_SUBKEYS ->
   _mytoml_value_add_sub_key (S fuel) key sub h = Done (Some sub) h'
   /\ _mytoml_value_has_sub_key key sub h' = Done (Some sub) h'
   /\ toml_get_key (Some key) (id sk) h'
      = Done (Some (if bool_decide (id k = id sk) then key else sub)) h'
   /\ (forall i, i <> id sk -> subkeys k' !! i = subkeys k !! i)
   /\ size (subkeys k') = S (size (subkeys k)))
  /\ (MYTOML_MAX_SUBKEYS <= Z.of_nat (size (subkeys k)) ->
      _mytoml_value_add_sub_key (S fuel) key sub h = Done None h).
Proof.
  intros Hk Hsk Hnone Harr k' h'.
  assert (Hrun : _mytoml_value_add_sub_key (S fuel) key sub h =
                 if Z.of_nat (size (subkeys k)) <? MYTOML_MAX_SUBKEYS
                 then Done (Some sub) h' else Done None h).
  { cbn [_mytoml_value_add_sub_key].
    unfold bind, _mytoml_value_has_sub_key, bind, deref, ret, modify, bind, deref, store.
    rewrite Hk, Hsk. cbn. rewrite Hnone, Hk. cbn. rewrite Hsk. cbn.
    destruct (Z.of_nat (size (subkeys k)) <? MYTOML_MAX_SUBKEYS); [|reflexivity].
    rewrite bool_decide_eq_false_2 by exact Harr.
    rewrite Hk. cbn. rewrite Hk. reflexivity. }
  assert (Hk' : h' !! key = Some k').
  { apply list_lookup_insert_eq. eapply lookup_lt_Some; eauto. }
  assert (Hsk' : exists sk', h' !! sub = Some sk' /\ id sk' = id sk).
  { destruct (decide (sub = key)) as [->|Hne].
    - exists k'. split; [exact Hk'|]. rewrite Hk in Hsk. injection Hsk as <-. reflexivity.
    - exists sk. split; [|reflexivity].
      subst h'. rewrite list_lookup_insert_ne by congruence. exact Hsk. }
  destruct Hsk' as (sk' & Hsk' & Hid).
  split.
  - intros Hroom. rewrite Hrun.
    replace (Z.of_nat (size (subkeys k)) <? MYTOML_MAX_SUBKEYS) with true
      by (symmetry; apply Z.ltb_lt; exact Hroom).
    split; [reflexivity|]. split; [|split; [|split]].
    + unfold _mytoml_value_has_sub_key, bind, deref, ret. rewrite Hk', Hsk'. cbn.
      rewrite Hid, lookup_insert_eq. reflexivity.
    + unfold toml_get_key, bind, deref, ret. rewrite Hk'. cbn.
      destruct (bool_decide (id k = id sk)); [reflexivity|].
      rewrite lookup_insert_eq. reflexivity.
    + intros i Hi. cbn. apply lookup_insert_ne. congruence.
    + cbn. apply map_size_insert_None. exact Hnone.
  - intros Hfull. rewrite Hrun.
    replace (Z.of_nat (size (subkeys k)) <? MYTOML_MAX_SUBKEYS) with false
      by (symmetry; apply Z.ltb_ge; exact Hfull).
    reflexivity.
Qed.

Lemma add_sub_key_fresh_witness :
  (exists h',
      _mytoml_value_add_sub_key 1 0%nat 1%nat fresh_store = Done (Some 1%nat) h'
      /\ toml_get_key (Some 0%nat) (chars "a") h' = Done (Some 1%nat) h')
  /\ (exists h',
         _mytoml_value_add_sub_key 1 0%nat 1%nat namesake_store = Done (Some 1%nat) h'
         /\ toml_get_key (Some 0%nat) (chars "a") h' = Done (Some 0%nat) h').
Proof.
  split.
  - destruct (add_sub_key_fresh 0 fresh_store 0%nat 1%nat _ _ eq_refl eq_refl eq_refl
                ltac:(discriminate)) as (H & _).
    destruct H as (Hadd & _ & Hget & _); [vm_compute; reflexivity|].
    eexists. split; [exact Hadd|exact Hget].
  - destruct (add_sub_key_fresh 0 namesake_store 0%nat 1%nat _ _ eq_refl eq_refl eq_refl
                ltac:(discriminate)) as (H & _).
    destruct H as (Hadd & _ & Hget & _); [vm_compute; reflexivity|].
    eexists. split; [exact Hadd|exact Hget].
Defined.

Lemma node_kept_refl (k : TomlKey) : node_kept k k.
Proof. unfold node_kept. repeat split; try reflexivity. left; reflexivity. Qed.

Lemma store_kept_refl (h : heap) : store_kept h h.
Proof. split; [reflexivity|]. intros p k Hp. exists k. split; [exact Hp|apply node_kept_refl]. Qed.

Lemma store_kept_insert (h : heap) (p : ptr) (k k' : TomlKey) :
  h !! p = Some k -> node_kept k k' -> store_kept h (<[p := k']> h).
Proof.
  intros Hp Hkept. split; [apply length_insert|].
  intros q kq Hq. destruct (decide (q = p)) as [Heq|Hne]; [subst q|].
  - exists k'. split.
    + apply list_lookup_insert_eq. eapply lookup_lt_Some; eauto.
    + rewrite Hp in Hq. injection Hq as <-. exact Hkept.
  - exists kq. split; [|apply node_kept_refl].
    rewrite list_lookup_insert_ne by congruence. exact Hq.
Qed.

(** X5.  Whatever it returns, [_mytoml_value_add_sub_key] allocates and
    frees nothing, and in every node it keeps the identifier, the value and
    [idx]; the subkey map of a node only gains entries, and the only change
    of kind is from Table to TableLeaf. *)
Theorem add_sub_key_keeps_store (fuel : nat) :
  forall (h : heap) (key sub : ptr) (r : option ptr) (h' : heap),
    _mytoml_value_add_sub_key fuel key sub h = Done r h' ->
    store_kept h h'.
Proof.
  induction fuel as [|fuel IH]; intros h key sub r h' Hrun; [discriminate|].
  cbn [_mytoml_value_add_sub_key] in Hrun.
  unfold bind, _mytoml_value_has_sub_key, bind, deref, ret in Hrun.
  destruct (h !! key) as [k|] eqn:Hk; [|discriminate].
  destruct (h !! sub) as [sk|] eqn:Hsk; [|discriminate].
  cbn in Hrun.
  destruct (subkeys k !! id sk) as [s|] eqn:Hs.
  - destruct (h !! s) as [e|] eqn:He; [|discriminate].
    cbn in Hrun. rewrite Hsk in Hrun. cbn in Hrun.
    destruct (_mytoml_value_keys_compatible (ktype e) (ktype sk)) eqn:Hc.
    + destruct (bool_decide (ktype sk = TOML_TABLELEAF)) eqn:Hleaf.
      * unfold modify, bind, deref, store in Hrun. rewrite He in Hrun. cbn in Hrun.
        rewrite He in Hrun. injection Hrun as _ <-.
        apply (store_kept_insert h s e); [exact He|].
        apply bool_decide_eq_true_1 in Hleaf. rewrite Hleaf in Hc.
        unfold node_kept. cbn. repeat split; try reflexivity.
        destruct (ktype e); try discriminate. right. split; reflexivity.
      * cbn in Hrun. injection Hrun as _ <-. apply store_kept_refl.
    + injection Hrun as _ <-. apply store_kept_refl.
  - rewrite Hk in Hrun. cbn in Hrun. rewrite Hsk in Hrun. cbn in Hrun.
    destruct (Z.of_nat (size (subkeys k)) <? MYTOML_MAX_SUBKEYS).
    + destruct (bool_decide (ktype k = TOML_ARRAYTABLE)).
      * unfold active_row in Hrun.
        destruct (value k) as [v|]; [|discriminate].
        destruct (arr v) as [rows|]; [|discriminate].
        destruct (rows !! Z.to_nat (idx k)) as [row|]; [|discriminate].
        destruct (data row); try discriminate.
        cbn in Hrun. eapply IH. exact Hrun.
      * unfold modify, bind, deref, store in Hrun. rewrite Hk in Hrun. cbn in Hrun.
        rewrite Hk in Hrun. injection Hrun as _ <-.
        apply (store_kept_insert h key k); [exact Hk|].
        unfold node_kept. cbn. repeat split; try reflexivity.
        -- apply insert_subseteq. exact Hs.
        -- left. reflexivity.
    + injection Hrun as _ <-. apply store_kept_refl.
Qed.

Lemma add_sub_key_keeps_store_witness :
  store_kept (redefinition_store TOML_TABLE TOML_TABLELEAF)
    (<[1%nat := set_ktype TOML_TABLELEAF
                  (mkTomlKey TOML_TABLE (chars "a") ∅ None (wrap64 (-1)))]>
       (redefinition_store TOML_TABLE TOML_TABLELEAF)).
Proof.
  apply (add_sub_key_keeps_store 1 (redefinition_store TOML_TABLE TOML_TABLELEAF)
           0%nat 2%nat (Some 1%nat)).
  vm_compute. reflexivity.
Defined.

(** ** The tokenizer: reading *)

(** One read, whatever the current token. *)
Lemma next_token_step (tok : Tokenizer) (buf : list Z) (c : Z) :
  is_null tok = true ->
  stream (input tok) = Some buf ->
  0 <= cursor tok ->
  0 <= line tok ->
  buf !! Z.to_nat (cursor tok) = Some c ->
  exists tok',
    _mytoml_tokenizer_next_token tok = Done 1 tok'
    /\ input tok' = input tok
    /\ cursor tok' = cursor tok + 1
    /\ token tok' = read_as c
    /\ prev tok' = token tok
    /\ prev_prev tok' = prev tok
    /\ is_null tok' = negb (c =? EOF)
    /\ line tok' = line tok + (if token tok =? NL then 1 else 0)
    /\ col tok' = (if token tok =? NL then 0 else col tok + 1).
Proof.
  intros Hnull Hbuf Hcur Hline Hc.
  unfold _mytoml_tokenizer_next_token.
  rewrite Hnull, Hbuf. cbn [orb].
  destruct (cursor tok <? 0) eqn:Hneg; [lia|].
  rewrite Hc.
  destruct (token tok =? NL) eqn:Hnl.
  - destruct (line tok <? 0) eqn:Hl; [lia|].
    eexists. split; [reflexivity|].
    cbn. unfold read_as. destruct (c =? EOF); repeat split; try reflexivity; lia.
  - eexists. split; [reflexivity|].
    cbn. unfold read_as. destruct (c =? EOF); repeat split; try reflexivity; lia.
Qed.

(** After the sentinel has been read an advance reads nothing. *)
Lemma next_token_ended (tok : Tokenizer) :
  is_null tok = false ->
  1 <= cursor tok ->
  _mytoml_tokenizer_next_token tok
  = Done 0 (mkTokenizer (input tok) (cursor tok) (token tok) (token tok) (prev tok)
              false (newline tok) (line tok) (col tok) (lines tok)).
Proof.
  intros Hnull Hcur. unfold _mytoml_tokenizer_next_token. rewrite Hnull.
  replace (cursor tok =? 0) with false by (symmetry; apply Z.eqb_neq; lia).
  reflexivity.
Qed.

Lemma reading_next (contents : list Z) (j : nat) (tok : Tokenizer) :
  reading contents j tok ->
  exists a tok', _mytoml_tokenizer_next_token tok = Done a tok'
                 /\ reading contents (S j) tok'.
Proof.
  intros (Hbuf & Hline & [(Hnull & Hcur & Hj)|(Hnull & Htok & Hcur & Hj)]).
  - assert (Hc : exists c, (contents ++ [EOF]) !! Z.to_nat (cursor tok) = Some c).
    { apply lookup_lt_is_Some_2. rewrite length_app. cbn. lia. }
    destruct Hc as (c & Hc).
    destruct (next_token_step tok _ c Hnull Hbuf ltac:(lia) Hline Hc)
      as (tok' & Hstep & Hin & Hcu & Htk & _ & _ & Hnu & Hli & _).
    exists 1, tok'. split; [exact Hstep|].
    split; [rewrite Hin; exact Hbuf|]. split; [rewrite Hli; destruct (token tok =? NL); lia|].
    destruct (Z.eqb_spec c EOF) as [->|Hne].
    + right. rewrite Hnu, Htk. cbn. repeat split; lia.
    + left. rewrite Hnu. cbn. split; [reflexivity|]. split; [lia|].
      destruct (decide (j = length contents)) as [->|]; [|lia].
      rewrite Hcur, Nat2Z.id in Hc.
      rewrite lookup_app_r, Nat.sub_diag in Hc by lia. cbn in Hc. congruence.
  - rewrite next_token_ended by (assumption || lia).
    eexists _, _. split; [reflexivity|].
    split; [exact Hbuf|]. split; [exact Hline|].
    right. cbn. repeat split; try assumption; lia.
Qed.

Lemma reading_run (contents : list Z) (n : nat) :
  forall (j : nat) (tok : Tokenizer),
    reading contents j tok ->
    exists tok', iter_next n tok = Done tt tok' /\ reading contents (j + n) tok'.
Proof.
  induction n as [|n IH]; intros j tok Hr.
  - exists tok. rewrite Nat.add_0_r. split; [reflexivity|exact Hr].
  - destruct (reading_next contents j tok Hr) as (a & tok1 & Hstep & Hr1).
    destruct (IH (S j) tok1 Hr1) as (tok' & Hrun & Hr').
    exists tok'. rewrite iter_next_S. unfold bind. rewrite Hstep.
    split; [exact Hrun|]. replace (j + S n)%nat with (S j + n)%nat by lia. exact Hr'.
Qed.

(** X6.  Over a loaded file the tokenizer never reads past the sentinel:
    the buffer is the file followed by [EOF], any number of advances is
    defined, the cursor stays within [length contents + 1], and once more
    advances were made than the file has bytes the input has ended with the
    token [\0]. *)
Theorem advance_within_loaded_file (fs : list Z -> option (list Z)) (name contents : list Z)
    (n : nat) :
  fs name = Some contents ->
  Z.of_nat (length contents) < MYTOML_MAX_FILE_SIZE ->
  exists tok0 tok,
    _mytoml_tokenizer_load_input fs (_mytoml_new_tokenizer (mkInput I_File (FileName name) None))
    = Done true tok0
    /\ stream (input tok0) = Some (contents ++ [EOF])
    /\ iter_next n tok0 = Done tt tok
    /\ 0 <= cursor tok <= Z.of_nat (length contents) + 1
    /\ ((length contents < n)%nat -> is_null tok = false /\ token tok = 0).
Proof.
  intros Hfs Hsize.
  eexists. 
  assert (Hload : _mytoml_tokenizer_load_input fs
                    (_mytoml_new_tokenizer (mkInput I_File (FileName name) None))
                  = Done true (set_stream (contents ++ [EOF])
                                 (_mytoml_new_tokenizer (mkInput I_File (FileName name) None)))).
  { unfold _mytoml_tokenizer_load_input. cbn. rewrite Hfs.
    replace (MYTOML_MAX_FILE_SIZE <=? Z.of_nat (length contents)) with false
      by (symmetry; apply Z.leb_gt; exact Hsize).
    reflexivity. }
  destruct (reading_run contents n 0
              (set_stream (contents ++ [EOF])
                 (_mytoml_new_tokenizer (mkInput I_File (FileName name) None))))
    as (tok & Hrun & Hbuf & Hline & Hcases).
  { split; [reflexivity|]. split; [cbn; lia|]. left. cbn. repeat split; lia. }
  exists tok. split; [exact Hload|]. split; [reflexivity|]. split; [exact Hrun|].
  destruct Hcases as [(Hnull & Hcur & Hj)|(Hnull & Htok & Hcur & Hj)].
  - split; [lia|]. intros Hn. lia.
  - split; [lia|]. intros _. split; assumption.
Qed.

Lemma advance_within_loaded_file_witness :
  exists tok0 tok,
    _mytoml_tokenizer_load_input (fs_const (chars "x = 1"))
      (_mytoml_new_tokenizer (mkInput I_File (FileName []) None)) = Done true tok0
    /\ stream (input tok0) = Some (chars "x = 1" ++ [EOF])
    /\ iter_next 9 tok0 = Done tt tok
    /\ 0 <= cursor tok <= Z.of_nat (length (chars "x = 1")) + 1
    /\ ((length (chars "x = 1") < 9)%nat -> is_null tok = false /\ token tok = 0).
Proof.
  apply (advance_within_loaded_file (fs_const (chars "x = 1")) [] (chars "x = 1") 9).
  - reflexivity.
  - vm_compute. reflexivity.
Defined.

Lemma newlines_snoc (pre : list Z) (d : Z) :
  Z.of_nat (newlines (pre ++ [d])) = Z.of_nat (newlines pre) + (if d =? NL then 1 else 0).
Proof.
  unfold newlines. rewrite filter_app, length_app.
  destruct (Z.eqb_spec d NL) as [->|Hne].
  - rewrite filter_cons_True by reflexivity. cbn. lia.
  - rewrite filter_cons_False by exact Hne. cbn. lia.
Qed.

Lemma column_after_snoc (pre : list Z) (d : Z) :
  column_after (pre ++ [d]) = if d =? NL then 0 else column_after pre + 1.
Proof.
  unfold column_after. rewrite rev_app_distr. cbn [rev app run_without_newline].
  destruct (Z.eqb_spec d NL) as [->|Hne].
  - rewrite bool_decide_eq_true_2 by (apply elem_of_app; right; apply list_elem_of_singleton;
                                       reflexivity).
    reflexivity.
  - destruct (bool_decide (NL ∈ pre)) eqn:Hin.
    + apply bool_decide_eq_true_1 in Hin.
      rewrite bool_decide_eq_true_2 by (apply elem_of_app; left; exact Hin). lia.
    + apply bool_decide_eq_false_1 in Hin.
      rewrite bool_decide_eq_false_2.
      * rewrite length_app. cbn. lia.
      * intros [H|H]%elem_of_app; [contradiction|].
        apply list_elem_of_singleton in H. congruence.
Qed.

Lemma tokenizer_after_prefix (pre : list Z) :
  forall (c : Z) (rest : list Z) (ty : InputType) (f : InputFile),
    Forall (fun x => x <> EOF) pre ->
    exists tok,
      iter_next (S (length pre))
        (_mytoml_new_tokenizer (mkInput ty f (Some (pre ++ c :: rest)))) = Done tt tok
      /\ input tok = mkInput ty f (Some (pre ++ c :: rest))
      /\ token tok = read_as c
      /\ is_null tok = negb (c =? EOF)
      /\ cursor tok = Z.of_nat (length pre) + 1
      /\ line tok = Z.of_nat (newlines pre)
      /\ col tok = column_after pre.
Proof.
  induction pre as [|d pre IH] using rev_ind; intros c rest ty f Hpre.
  - destruct (next_token_step (_mytoml_new_tokenizer (mkInput ty f (Some (c :: rest))))
                (c :: rest) c) as (tok & Hstep & Hin & Hcu & Htk & _ & _ & Hnu & Hli & Hco);
      try reflexivity; try (cbn; lia).
    exists tok. cbn [app length].
    rewrite iter_next_S. unfold bind. rewrite Hstep.
    cbn in *. repeat split; assumption.
  - apply Forall_app in Hpre as (Hpre & Hd). inversion Hd as [|? ? Hdne _]; subst.
    destruct (IH d (c :: rest) ty f Hpre)
      as (tok1 & Hrun1 & Hin1 & Htk1 & Hnu1 & Hcu1 & Hli1 & Hco1).
    rewrite <- app_assoc in *. cbn [app] in *.
    assert (Hread : read_as d = d).
    { unfold read_as. destruct (Z.eqb_spec d EOF); [contradiction|reflexivity]. }
    destruct (next_token_step tok1 (pre ++ d :: c :: rest) c)
      as (tok & Hstep & Hin & Hcu & Htk & _ & _ & Hnu & Hli & Hco).
    + rewrite Hnu1. apply negb_true_iff, Z.eqb_neq. exact Hdne.
    + rewrite Hin1. reflexivity.
    + lia.
    + lia.
    + rewrite Hcu1. replace (Z.to_nat (Z.of_nat (length pre) + 1)) with (S (length pre)) by lia.
      rewrite lookup_app_r by lia.
      replace (S (length pre) - length pre)%nat with 1%nat by lia. reflexivity.
    + exists tok. rewrite length_app. cbn [length].
      replace (S (length pre + 1)) with (S (length pre) + 1)%nat by lia.
      rewrite iter_next_add. unfold bind at 1. rewrite Hrun1.
      change (iter_next 1 tok1) with ((_mytoml_tokenizer_next_token;; ret tt) tok1).
      unfold bind. rewrite Hstep. split; [reflexivity|].
      rewrite Htk1, Hread in Hli, Hco.
      rewrite newlines_snoc, column_after_snoc.
      repeat split; try assumption; try lia.
      * rewrite Hin. exact Hin1.
      * rewrite Hco. destruct (d =? NL); lia.
Qed.

(** X7.  Line and column of the current token.  A fresh tokenizer that
    has read the characters [pre] (none of them the sentinel) and then [c]
    holds [c] as its token ([\0] for the sentinel), has [line] equal to the
    number of newlines in [pre], and [col] equal to the number of characters
    read on the current line, [c] included, less one on every line but the
    first. *)
Theorem line_and_column_of_token (pre : list Z) (c : Z) (rest : list Z)
    (ty : InputType) (f : InputFile) :
  Forall (fun x => x <> EOF) pre ->
  exists tok,
    iter_next (S (length pre))
      (_mytoml_new_tokenizer (mkInput ty f (Some (pre ++ c :: rest)))) = Done tt tok
    /\ token tok = read_as c
    /\ line tok = Z.of_nat (newlines pre)
    /\ col tok = column_after pre.
Proof.
  intros Hpre.
  destruct (tokenizer_after_prefix pre c rest ty f Hpre)
    as (tok & Hrun & _ & Htk & _ & _ & Hli & Hco).
  exists tok. split; [exact Hrun|]. split; [exact Htk|]. split; [exact Hli|exact Hco].
Qed.

Lemma line_and_column_of_token_witness :
  exists tok,
    iter_next 5 (_mytoml_new_tokenizer
                   (mkInput I_STREAM FileUnset (Some (chars "ab" ++ [NL] ++ chars "cde"))))
    = Done tt tok
    /\ token tok = ch "d" /\ line tok = 1 /\ col tok = 1.
Proof.
  destruct (line_and_column_of_token (chars "ab" ++ [NL] ++ chars "c") (ch "d") (chars "e")
              I_STREAM FileUnset) as (tok & Hrun & Htk & Hli & Hco).
  - repeat (apply Forall_cons; split; [vm_compute; discriminate|]). apply Forall_nil; exact I.
  - exists tok. split; [exact Hrun|]. split; [exact Htk|]. split; [exact Hli|exact Hco].
Defined.

(** X8.  A string given to [toml_loads] has no end of input.  When the
    string holds no byte [0xFF], the tokenizer still reports a token after
    it has read every character and the terminating zero, and its next
    advance reads past the end of the duplicated buffer. *)
Theorem string_input_never_ends (s : list Z) :
  EOF ∉ cstr s ->
  exists tok,
    iter_next (S (length (cstr s)))
      (_mytoml_new_tokenizer (mkInput I_STREAM FileUnset (Some (cstr s ++ [0]))))
    = Done tt tok
    /\ is_null tok = true
    /\ token tok = 0
    /\ _mytoml_tokenizer_next_token tok = Undefined.
Proof.
  intros Hs.
  destruct (tokenizer_after_prefix (cstr s) 0 [] I_STREAM FileUnset)
    as (tok & Hrun & Hin & Htk & Hnu & Hcu & _ & _).
  { apply Forall_forall. intros x Hx ->. apply Hs. exact Hx. }
  exists tok. split; [exact Hrun|]. split; [exact Hnu|]. split; [exact Htk|].
  unfold _mytoml_tokenizer_next_token. rewrite Hnu, Hin. cbn [orb stream].
  replace (cursor tok <? 0) with false by (symmetry; apply Z.ltb_ge; lia).
  rewrite Hcu. rewrite lookup_ge_None_2; [reflexivity|].
  rewrite length_app. cbn. lia.
Qed.

Lemma string_input_never_ends_witness :
  exists tok,
    iter_next 6 (_mytoml_new_tokenizer
                   (mkInput I_STREAM FileUnset (Some (chars "x = 1" ++ [0]))))
    = Done tt tok
    /\ is_null tok = true /\ token tok = 0
    /\ _mytoml_tokenizer_next_token tok = Undefined.
Proof.
  apply (string_input_never_ends (chars "x = 1")).
  vm_compute. intros H. repeat (apply elem_of_cons in H as [H|H]; [discriminate|]).
  apply elem_of_nil in H. exact H.
Defined.

(** ** White space, comments and bare keys *)

Lemma at_char_exists (i : Input) (pre : list Z) (c : Z) (rest : list Z) :
  stream i = Some (pre ++ c :: rest) ->
  Forall (fun x => x <> EOF) pre ->
  exists tok,
    at_char i (length pre) tok
    /\ token tok = read_as c
    /\ is_null tok = negb (c =? EOF).
Proof.
  intros Hi Hpre. destruct i as [ty f s]. cbn in Hi. subst s.
  destruct (tokenizer_after_prefix pre c rest ty f Hpre)
    as (tok & Hrun & _ & Htk & Hnu & _).
  exists tok. split; [exact Hrun|]. split; [exact Htk|exact Hnu].
Qed.

Lemma at_char_unique (i : Input) (n : nat) (tok tok' : Tokenizer) :
  at_char i n tok -> at_char i n tok' -> tok = tok'.
Proof. unfold at_char. intros H1 H2. congruence. Qed.

Lemma at_char_next (i : Input) (n : nat) (tok tok' : Tokenizer) (h : heap) :
  at_char i n tok -> at_char i (S n) tok' ->
  exists r, NEXT (mkMachine tok h) = Done r (mkMachine tok' h).
Proof.
  unfold at_char. intros H1 H2.
  replace (S (S n)) with (S n + 1)%nat in H2 by lia.
  rewrite iter_next_add in H2. unfold bind at 1 in H2. rewrite H1 in H2.
  change (iter_next 1 tok) with ((_mytoml_tokenizer_next_token;; ret tt) tok) in H2.
  unfold bind, ret in H2. unfold on_tok. cbn [mtok mheap].
  destruct (_mytoml_tokenizer_next_token tok) as [r t| | |]; try discriminate.
  exists r. congruence.
Qed.

Lemma bind_done {S A B} (m : M S A) (k : A -> M S B) (s s' : S) (a : A) :
  m s = Done a s' -> (let* x := m in k x) s = k a s'.
Proof. intros H. unfold bind. rewrite H. reflexivity. Qed.

Lemma has_token_at (tok : Tokenizer) (h : heap) :
  HAS_TOKEN (mkMachine tok h) = Done (is_null tok) (mkMachine tok h).
Proof. reflexivity. Qed.

Lemma token_at (tok : Tokenizer) (h : heap) :
  TOKEN (mkMachine tok h) = Done (token tok) (mkMachine tok h).
Proof. reflexivity. Qed.

Lemma read_as_id (c : Z) : c <> EOF -> read_as c = c.
Proof. intros H. unfold read_as. destruct (Z.eqb_spec c EOF); [contradiction|reflexivity]. Qed.

Lemma is_null_at (c : Z) : c <> EOF -> negb (c =? EOF) = true.
Proof. intros H. apply negb_true_iff, Z.eqb_neq. exact H. Qed.

Lemma whitespace_not_eof (c : Z) : _mytoml_is_whitesapce c = true -> c <> EOF.
Proof. intros H ->. vm_compute in H. discriminate. Qed.

Lemma Forall_snoc_ne (pre : list Z) (c : Z) :
  Forall (fun x => x <> EOF) pre -> c <> EOF -> Forall (fun x => x <> EOF) (pre ++ [c]).
Proof.
  intros Hpre Hc. apply Forall_app. split; [exact Hpre|].
  apply Forall_cons. split; [exact Hc|]. apply Forall_nil. exact I.
Qed.

(** The loop of [_mytoml_parser_parse_whitespace] over a run of blanks. *)
Lemma whitespace_run (ws : list Z) :
  forall (i : Input) (pre : list Z) (c : Z) (rest : list Z) (h : heap) (fuel : nat),
    stream i = Some (pre ++ ws ++ c :: rest) ->
    Forall (fun x => x <> EOF) pre ->
    Forall (fun x => _mytoml_is_whitesapce x = true) ws ->
    _mytoml_is_whitesapce c = false ->
    (length ws < fuel)%nat ->
    exists tok tok',
      at_char i (length pre) tok
      /\ at_char i (length pre + length ws) tok'
      /\ token tok' = read_as c
      /\ is_null tok' = negb (c =? EOF)
      /\ _mytoml_parser_parse_whitespace fuel (mkMachine tok h) = Done tt (mkMachine tok' h).
Proof.
  induction ws as [|w ws IH]; intros i pre c rest h fuel Hi Hpre Hws Hc Hfuel.
  - destruct (at_char_exists i pre c rest Hi Hpre) as (tok & Hat & Htk & Hnu).
    exists tok, tok. cbn [app length]. rewrite Nat.add_0_r.
    split; [exact Hat|]. split; [exact Hat|]. split; [exact Htk|]. split; [exact Hnu|].
    destruct fuel as [|fuel]; [cbn in Hfuel; lia|].
    cbn [_mytoml_parser_parse_whitespace].
    rewrite (bind_done _ _ _ _ _ (has_token_at _ _)). rewrite Hnu.
    destruct (Z.eqb_spec c EOF) as [->|Hne]; cbn [negb]; [reflexivity|].
    rewrite (bind_done _ _ _ _ _ (token_at _ _)).
    rewrite Htk, read_as_id by exact Hne. rewrite Hc. reflexivity.
  - inversion Hws as [|? ? Hw Hws']; subst.
    pose proof (whitespace_not_eof w Hw) as Hwe.
    destruct (at_char_exists i pre w (ws ++ c :: rest) Hi Hpre) as (tok & Hat & Htk & Hnu).
    destruct fuel as [|fuel]; [cbn in Hfuel; lia|].
    destruct (IH i (pre ++ [w]) c rest h fuel) as (tok1 & tok' & Hat1 & Hat' & Htk' & Hnu' & Hrun).
    { rewrite <- app_assoc. exact Hi. }
    { apply Forall_snoc_ne; assumption. }
    { exact Hws'. }
    { exact Hc. }
    { cbn in Hfuel. lia. }
    rewrite length_app in Hat1, Hat'. cbn [length] in Hat1, Hat'.
    replace (length pre + 1)%nat with (S (length pre)) in Hat1, Hat' by lia.
    exists tok, tok'. cbn [app length].
    split; [exact Hat|].
    split; [replace (length pre + S (length ws))%nat with (S (length pre) + length ws)%nat by lia;
            exact Hat'|].
    split; [exact Htk'|]. split; [exact Hnu'|].
    destruct (at_char_next _ _ _ _ h Hat Hat1) as (r & Hnext).
    cbn [_mytoml_parser_parse_whitespace].
    rewrite (bind_done _ _ _ _ _ (has_token_at _ _)). rewrite Hnu, is_null_at by exact Hwe.
    rewrite (bind_done _ _ _ _ _ (token_at _ _)).
    rewrite Htk, read_as_id by exact Hwe. rewrite Hw. cbn [negb].
    rewrite (bind_done _ _ _ _ _ Hnext). exact Hrun.
Qed.

(** X9.  [_mytoml_parser_parse_whitespace] advances over exactly the run
    of blanks and tabs under the cursor: it stops on the first character
    that is neither (the end of input included), and leaves the key store
    as it was. *)
Theorem whitespace_skips_blanks (i : Input) (pre ws : list Z) (c : Z) (rest : list Z)
    (h : heap) (fuel : nat) :
  stream i = Some (pre ++ ws ++ c :: rest) ->
  Forall (fun x => x <> EOF) pre ->
  Forall (fun x => _mytoml_is_whitesapce x = true) ws ->
  _mytoml_is_whitesapce c = false ->
  (length ws < fuel)%nat ->
  exists tok tok',
    at_char i (length pre) tok
    /\ at_char i (length pre + length ws) tok'
    /\ token tok' = read_as c
    /\ _mytoml_parser_parse_whitespace fuel (mkMachine tok h) = Done tt (mkMachine tok' h).
Proof.
  intros Hi Hpre Hws Hc Hfuel.
  destruct (whitespace_run ws i pre c rest h fuel Hi Hpre Hws Hc Hfuel)
    as (tok & tok' & Hat & Hat' & Htk & _ & Hrun).
  exists tok, tok'. split; [exact Hat|]. split; [exact Hat'|]. split; [exact Htk|exact Hrun].
Qed.

Lemma whitespace_skips_blanks_witness :
  let i := mkInput I_STREAM FileUnset (Some (chars "a =  1")) in
  exists tok tok',
    at_char i 1 tok
    /\ at_char i 2 tok'
    /\ token tok' = ch "="
    /\ _mytoml_parser_parse_whitespace 2 (mkMachine tok []) = Done tt (mkMachine tok' []).
Proof.
  intros i.
  apply (whitespace_skips_blanks i [ch "a"] [ch " "] (ch "=") (chars "  1") [] 2).
  - reflexivity.
  - apply Forall_cons. split; [vm_compute; discriminate|]. apply Forall_nil. exact I.
  - apply Forall_cons. split; [reflexivity|]. apply Forall_nil. exact I.
  - reflexivity.
  - cbn. lia.
Defined.

Lemma newline_not_here (tok : Tokenizer) (h : heap) :
  token tok <> NL -> token tok <> 13 ->
  _mytoml_parser_parse_newline (mkMachine tok h) = Done false (mkMachine tok h).
Proof.
  intros Hnl Hcr. unfold _mytoml_parser_parse_newline.
  rewrite (bind_done _ _ _ _ _ (token_at _ _)).
  unfold _mytoml_is_newline, _mytoml_is_return.
  replace (token tok =? NL) with false by (symmetry; apply Z.eqb_neq; exact Hnl).
  replace (token tok =? 13) with false by (symmetry; apply Z.eqb_neq; exact Hcr).
  reflexivity.
Qed.

Lemma newline_here (tok : Tokenizer) (h : heap) :
  token tok = NL ->
  _mytoml_parser_parse_newline (mkMachine tok h) = Done true (mkMachine tok h).
Proof.
  intros Hnl. unfold _mytoml_parser_parse_newline.
  rewrite (bind_done _ _ _ _ _ (token_at _ _)). rewrite Hnl. reflexivity.
Qed.

Lemma comment_char_plain (x : Z) :
  comment_char x -> x <> NL /\ x <> 13 /\ x <> EOF.
Proof.
  intros (Hc & He). repeat split; try exact He; intros ->; vm_compute in Hc; discriminate.
Qed.

(** The loop of [_mytoml_parser_parse_comment], entered on any character
    [c0]: over a body of comment characters it reaches the terminator, and
    answers [true] after a newline and [false] at the end of input. *)
Lemma comment_loop (body : list Z) :
  forall (i : Input) (pre : list Z) (c0 : Z) (nl : bool) (h : heap) (fuel : nat),
    stream i = Some (pre ++ c0 :: body ++ (if nl then [NL; EOF] else [EOF])) ->
    Forall (fun x => x <> EOF) pre ->
    c0 <> EOF ->
    Forall comment_char body ->
    (length body < fuel)%nat ->
    exists tok tok',
      at_char i (length pre) tok
      /\ is_null tok' = false
      /\ _mytoml_parser_parse_comment fuel (mkMachine tok h) = Done nl (mkMachine tok' h).
Proof.
  induction body as [|b body IH]; intros i pre c0 nl h fuel Hi Hpre Hc0 Hbody Hfuel.
  - cbn [app] in Hi.
    destruct fuel as [|fuel]; [cbn in Hfuel; lia|].
    destruct nl.
    + destruct (at_char_exists i pre c0 [NL; EOF] Hi Hpre) as (tok & Hat & Htk & Hnu).
      destruct (at_char_exists i (pre ++ [c0]) NL [EOF]) as (tok1 & Hat1 & Htk1 & Hnu1).
      { rewrite <- app_assoc. exact Hi. }
      { apply Forall_snoc_ne; assumption. }
      destruct (at_char_exists i (pre ++ [c0; NL]) EOF []) as (tok2 & Hat2 & Htk2 & Hnu2).
      { rewrite <- app_assoc. exact Hi. }
      { apply Forall_app. split; [exact Hpre|].
        repeat (apply Forall_cons; split; [first [exact Hc0 | vm_compute; discriminate]|]).
        apply Forall_nil. exact I. }
      rewrite length_app in Hat1, Hat2. cbn [length] in Hat1, Hat2.
      replace (length pre + 1)%nat with (S (length pre)) in Hat1 by lia.
      replace (length pre + 2)%nat with (S (S (length pre))) in Hat2 by lia.
      destruct (at_char_next _ _ _ _ h Hat Hat1) as (r1 & Hnext1).
      destruct (at_char_next _ _ _ _ h Hat1 Hat2) as (r2 & Hnext2).
      exists tok, tok2. split; [exact Hat|]. split; [exact Hnu2|].
      cbn [_mytoml_parser_parse_comment].
      rewrite (bind_done _ _ _ _ _ (has_token_at _ _)). rewrite Hnu, is_null_at by exact Hc0.
      rewrite (bind_done _ _ _ _ _ Hnext1).
      rewrite (bind_done _ _ _ _ _ (newline_here tok1 h Htk1)).
      rewrite (bind_done _ _ _ _ _ Hnext2). reflexivity.
    + destruct (at_char_exists i pre c0 [EOF] Hi Hpre) as (tok & Hat & Htk & Hnu).
      destruct (at_char_exists i (pre ++ [c0]) EOF []) as (tok1 & Hat1 & Htk1 & Hnu1).
      { rewrite <- app_assoc. exact Hi. }
      { apply Forall_snoc_ne; assumption. }
      rewrite length_app in Hat1. cbn [length] in Hat1.
      replace (length pre + 1)%nat with (S (length pre)) in Hat1 by lia.
      destruct (at_char_next _ _ _ _ h Hat Hat1) as (r1 & Hnext1).
      exists tok, tok1. split; [exact Hat|]. split; [exact Hnu1|].
      cbn [_mytoml_parser_parse_comment].
      rewrite (bind_done _ _ _ _ _ (has_token_at _ _)). rewrite Hnu, is_null_at by exact Hc0.
      rewrite (bind_done _ _ _ _ _ Hnext1).
      change (read_as EOF) with 0 in Htk1.
      rewrite (bind_done _ _ _ _ _ (newline_not_here tok1 h ltac:(rewrite Htk1; discriminate)
                                      ltac:(rewrite Htk1; discriminate))).
      rewrite (bind_done _ _ _ _ _ (token_at _ _)). rewrite Htk1. reflexivity.
  - inversion Hbody as [|? ? Hb Hbody']; subst.
    destruct (comment_char_plain b Hb) as (Hbnl & Hbcr & Hbe).
    cbn [app] in Hi.
    destruct fuel as [|fuel]; [cbn in Hfuel; lia|].
    destruct (at_char_exists i pre c0 _ Hi Hpre) as (tok & Hat & Htk & Hnu).
    destruct (IH i (pre ++ [c0]) b nl h fuel) as (tok1 & tok' & Hat1 & Hnu' & Hrun).
    { rewrite <- app_assoc. exact Hi. }
    { apply Forall_snoc_ne; assumption. }
    { exact Hbe. }
    { exact Hbody'. }
    { cbn in Hfuel. lia. }
    destruct (at_char_exists i (pre ++ [c0]) b (body ++ (if nl then [NL; EOF] else [EOF])))
      as (tok1' & Hat1' & Htk1 & Hnu1).
    { rewrite <- app_assoc. exact Hi. }
    { apply Forall_snoc_ne; assumption. }
    pose proof (at_char_unique _ _ _ _ Hat1 Hat1') as <-.
    rewrite length_app in Hat1. cbn [length] in Hat1.
    replace (length pre + 1)%nat with (S (length pre)) in Hat1 by lia.
    destruct (at_char_next _ _ _ _ h Hat Hat1) as (r1 & Hnext1).
    rewrite read_as_id in Htk1 by exact Hbe.
    exists tok, tok'. split; [exact Hat|]. split; [exact Hnu'|].
    cbn [_mytoml_parser_parse_comment].
    rewrite (bind_done _ _ _ _ _ (has_token_at _ _)). rewrite Hnu, is_null_at by exact Hc0.
    rewrite (bind_done _ _ _ _ _ Hnext1).
    rewrite (bind_done _ _ _ _ _ (newline_not_here tok1 h ltac:(rewrite Htk1; exact Hbnl)
                                    ltac:(rewrite Htk1; exact Hbcr))).
    rewrite (bind_done _ _ _ _ _ (token_at _ _)). rewrite Htk1.
    destruct Hb as (Hb & _). rewrite Hb. exact Hrun.
Qed.

(** [toml_load_file_name] up to its loop, on a file that can be read. *)
Lemma load_file_name_start (fs : list Z -> option (list Z)) (name contents : list Z)
    (fuel : nat) :
  fs name = Some contents ->
  Z.of_nat (length contents) < MYTOML_MAX_FILE_SIZE ->
  toml_load_file_name fuel fs name
  = (NEXT;; parse_document fuel 0%nat 0%nat)
      (mkMachine (_mytoml_new_tokenizer (mkInput I_File (FileName name)
                                           (Some (contents ++ [EOF]))))
         [empty_root]).
Proof.
  intros Hfs Hlen. unfold toml_load_file_name.
  assert (Hroot : new_root (start (mkInput I_File (FileName name) None))
                  = Done 0%nat (mkMachine (_mytoml_new_tokenizer
                                             (mkInput I_File (FileName name) None))
                                  [empty_root]))
    by reflexivity.
  rewrite (bind_done _ _ _ _ _ Hroot).
  assert (Hin : on_tok (_mytoml_tokenizer_load_input fs)
                  (mkMachine (_mytoml_new_tokenizer (mkInput I_File (FileName name) None))
                     [empty_root])
                = Done true
                    (mkMachine (_mytoml_new_tokenizer
                                  (mkInput I_File (FileName name) (Some (contents ++ [EOF]))))
                       [empty_root])).
  { unfold on_tok, _mytoml_tokenizer_load_input. cbn [mtok mheap input type file].
    cbn [_mytoml_new_tokenizer input type file]. rewrite Hfs.
    replace (MYTOML_MAX_FILE_SIZE <=? Z.of_nat (length contents)) with false
      by (symmetry; apply Z.leb_gt; exact Hlen).
    reflexivity. }
  rewrite (bind_done _ _ _ _ _ Hin). reflexivity.
Qed.

(** The first advance of a tokenizer. *)
Lemma first_token (i : Input) (c : Z) (rest : list Z) (h : heap) :
  stream i = Some (c :: rest) ->
  exists tok r,
    at_char i 0 tok
    /\ token tok = read_as c
    /\ is_null tok = negb (c =? EOF)
    /\ prev tok = 0
    /\ NEXT (mkMachine (_mytoml_new_tokenizer i) h) = Done r (mkMachine tok h).
Proof.
  intros Hi.
  destruct (next_token_step (_mytoml_new_tokenizer i) (c :: rest) c)
    as (tok & Hstep & _ & _ & Htk & Hpv & _ & Hnu & _); try reflexivity; try (cbn; lia).
  { exact Hi. }
  exists tok, 1. unfold at_char.
  change (iter_next 1 (_mytoml_new_tokenizer i))
    with ((_mytoml_tokenizer_next_token;; ret tt) (_mytoml_new_tokenizer i)).
  unfold bind, on_tok. cbn [mtok mheap]. rewrite Hstep.
  split; [reflexivity|]. split; [exact Htk|]. split; [exact Hnu|]. split; [exact Hpv|].
  reflexivity.
Qed.

(** X10.  A comment must end in a newline.  A file that holds one comment
    line loads as a root without subkeys; the same file without the final
    newline is refused, because the end of input is read as the control
    character zero inside the comment. *)
Theorem comment_needs_newline (fs : list Z -> option (list Z)) (name body : list Z)
    (nl : bool) (fuel : nat) :
  fs name = Some (ch "#" :: body ++ (if nl then [NL] else [])) ->
  Forall comment_char body ->
  Z.of_nat (length body) + 2 < MYTOML_MAX_FILE_SIZE ->
  (length body + 1 < fuel)%nat ->
  exists st,
    toml_load_file_name fuel fs name = Done (if nl then Some 0%nat else None) st
    /\ mheap st = [empty_root].
Proof.
  intros Hfs Hbody Hsize Hfuel.
  set (contents := ch "#" :: body ++ (if nl then [NL] else [])) in *.
  set (i := mkInput I_File (FileName name) (Some (contents ++ [EOF]))).
  assert (Hi : stream i = Some ([] ++ ch "#" :: body ++ (if nl then [NL; EOF] else [EOF]))).
  { unfold i, contents. cbn [stream app]. rewrite <- app_assoc. destruct nl; reflexivity. }
  destruct fuel as [|fuel]; [lia|].
  destruct (comment_loop body i [] (ch "#") nl [empty_root] fuel Hi)
    as (tok & tok' & Hat & Hnu' & Hrun).
  { apply Forall_nil_2. }
  { discriminate. }
  { exact Hbody. }
  { lia. }
  assert (Hlen : Z.of_nat (length contents) < MYTOML_MAX_FILE_SIZE).
  { unfold contents. cbn [length]. rewrite length_app. destruct nl; cbn [length]; lia. }
  destruct (first_token i (ch "#") _ [empty_root] Hi) as (t & r & Hat0 & Htk & Hnu & _ & Hnext).
  pose proof (at_char_unique _ _ _ _ Hat Hat0) as <-.
  change (read_as (ch "#")) with (ch "#") in Htk.
  change (negb (ch "#" =? EOF)) with true in Hnu.
  assert (Hkv : _mytoml_parser_parse_key_value fuel 0%nat 0%nat (mkMachine tok [empty_root])
                = Done (if nl then Some 0%nat else None) (mkMachine tok' [empty_root])).
  { unfold _mytoml_parser_parse_key_value.
    rewrite (bind_done _ _ _ _ _ (token_at _ _)). rewrite Htk.
    change (_mytoml_is_comment_start (ch "#")) with true. cbv iota.
    rewrite (bind_done _ _ _ _ _ Hrun). destruct nl; reflexivity. }
  exists (mkMachine tok' [empty_root]). split; [|reflexivity].
  rewrite (load_file_name_start fs name contents (S fuel) Hfs Hlen). fold i.
  rewrite (bind_done _ _ _ _ _ Hnext).
  cbn [parse_document].
  rewrite (bind_done _ _ _ _ _ (has_token_at _ _)). rewrite Hnu.
  rewrite (bind_done _ _ _ _ _ Hkv).
  destruct nl; [|reflexivity].
  destruct fuel as [|fuel]; [lia|].
  cbn [parse_document].
  rewrite (bind_done _ _ _ _ _ (has_token_at _ _)). rewrite Hnu'. reflexivity.
Qed.

Lemma comment_needs_newline_witness :
  (exists st,
      toml_load_file_name 5 (fs_const (chars "# a" ++ [NL])) [] = Done (Some 0%nat) st
      /\ mheap st = [empty_root])
  /\ (exists st,
      toml_load_file_name 5 (fs_const (chars "# a")) [] = Done None st
      /\ mheap st = [empty_root]).
Proof.
  assert (Hbody : Forall comment_char (chars " a")).
  { repeat (apply Forall_cons; split; [split; [reflexivity|vm_compute; discriminate]|]).
    apply Forall_nil_2. }
  split.
  - apply (comment_needs_newline (fs_const (chars "# a" ++ [NL])) [] (chars " a") true 5).
    + reflexivity.
    + exact Hbody.
    + reflexivity.
    + cbn. lia.
  - apply (comment_needs_newline (fs_const (chars "# a")) [] (chars " a") false 5).
    + reflexivity.
    + exact Hbody.
    + reflexivity.
    + cbn. lia.
Defined.

Lemma cstr_without_zero (l : list Z) : Forall (fun x => x <> 0) l -> cstr l = l.
Proof.
  induction 1 as [|x l Hx _ IH]; [reflexivity|].
  cbn [cstr]. destruct (Z.eqb_spec x 0); [contradiction|]. rewrite IH. reflexivity.
Qed.

Lemma bare_ascii_plain (x : Z) :
  _mytoml_is_bare_ascii x = true ->
  x <> EOF /\ x <> 0 /\ _mytoml_is_dot x = false /\ _mytoml_is_whitesapce x = false.
Proof.
  intros H. unfold _mytoml_is_bare_ascii, _mytoml_is_digit, between in H.
  unfold _mytoml_is_dot, _mytoml_is_whitesapce.
  change (ch "A") with 65 in H. change (ch "Z") with 90 in H.
  change (ch "a") with 97 in H. change (ch "z") with 122 in H.
  change (ch "_") with 95 in H. change (ch "-") with 45 in H.
  change (ch "0") with 48 in H. change (ch "9") with 57 in H.
  change (ch ".") with 46. change (ch " ") with 32. change EOF with (-1).
  assert (Hx : 45 <= x <= 122 /\ x <> 46) by lia.
  repeat split; try lia; try (apply Z.eqb_neq; lia);
    try (apply orb_false_iff; split; apply Z.eqb_neq; lia).
Qed.

Lemma new_key_named_fresh (type : TomlKeyType) (id_ : list Z) (tok : Tokenizer) (h : heap) :
  Forall (fun x => x <> 0) id_ ->
  Z.of_nat (length id_) < MYTOML_MAX_ID_LENGTH ->
  new_key_named type id_ (mkMachine tok h)
  = Done (Some (length h))
         (mkMachine tok (h ++ [mkTomlKey type id_ ∅ None (wrap64 (-1))])).
Proof.
  intros Hz Hlen. unfold new_key_named.
  assert (Hnew : on_heap (_mytoml_value_new_key type) (mkMachine tok h)
                 = Done (length h)
                        (mkMachine tok (h ++ [mkTomlKey type [] ∅ None (wrap64 (-1))])))
    by reflexivity.
  rewrite (bind_done _ _ _ _ _ Hnew).
  unfold c_string.
  replace (Z.of_nat (length id_) <? MYTOML_MAX_ID_LENGTH) with true
    by (symmetry; apply Z.ltb_lt; exact Hlen).
  cbn [orb]. unfold bind at 1, ret at 1. rewrite cstr_without_zero by exact Hz.
  unfold bind, on_heap, modify, bind, deref, store, ret. cbn [mheap mtok].
  rewrite lookup_app_r by lia. rewrite Nat.sub_diag. cbn [lookup list_lookup].
  rewrite lookup_app_r by lia. rewrite Nat.sub_diag. cbn [lookup list_lookup].
  rewrite insert_app_r_alt by lia. rewrite Nat.sub_diag. reflexivity.
Qed.

(** The loop of [_mytoml_parser_bare_key] on the terminator. *)
Lemma bare_key_end (i : Input) (pre id_ : list Z) (end_ : Z) (rest : list Z)
    (branch leaf : TomlKeyType) (h : heap) (fuel : nat) (done : bool) :
  stream i = Some (pre ++ end_ :: rest) ->
  Forall (fun x => x <> EOF) pre ->
  Forall (fun x => x <> 0) id_ ->
  end_ <> EOF -> _mytoml_is_dot end_ = false ->
  (0 < fuel)%nat ->
  exists tok,
    at_char i (length pre) tok
    /\ bare_key_result i (length pre) end_ leaf id_ h
         (_mytoml_parser_bare_key_loop fuel end_ branch leaf id_ done (mkMachine tok h)).
Proof.
  intros Hi Hpre Hid He Hdot Hfuel.
  destruct (at_char_exists i pre end_ rest Hi Hpre) as (tok & Hat & Htk & Hnu).
  rewrite read_as_id in Htk by exact He. rewrite is_null_at in Hnu by exact He.
  exists tok. split; [exact Hat|].
  destruct fuel as [|fuel]; [lia|].
  unfold bare_key_result. cbn [_mytoml_parser_bare_key_loop].
  rewrite (bind_done _ _ _ _ _ (has_token_at _ _)). rewrite Hnu.
  unfold MYTOML_MAX_ID_LENGTH.
  destruct (Z.ltb_spec (Z.of_nat (length id_)) 256) as [Hlt|Hge]; cbn [negb].
  - rewrite (bind_done _ _ _ _ _ (token_at _ _)). rewrite Htk, Hdot, Z.eqb_refl.
    destruct (Z.eqb_spec (Z.of_nat (length id_)) 0) as [Hz|Hnz].
    + rewrite bool_decide_eq_false_2 by lia. eexists. reflexivity.
    + rewrite bool_decide_eq_true_2 by lia. exists tok.
      split; [exact Hat|]. split; [exact Htk|]. split; [exact Hnu|].
      apply new_key_named_fresh; [exact Hid|]. unfold MYTOML_MAX_ID_LENGTH. lia.
  - rewrite bool_decide_eq_false_2 by lia. eexists. reflexivity.
Qed.

(** The same loop on the blanks that may stand before the terminator. *)
Lemma bare_key_tail (i : Input) (pre ws id_ : list Z) (end_ : Z) (rest : list Z)
    (branch leaf : TomlKeyType) (h : heap) (fuel : nat) (done : bool) :
  stream i = Some (pre ++ ws ++ end_ :: rest) ->
  Forall (fun x => x <> EOF) pre ->
  Forall (fun x => x <> 0) id_ ->
  Forall (fun x => _mytoml_is_whitesapce x = true) ws ->
  end_ <> EOF -> _mytoml_is_dot end_ = false -> _mytoml_is_whitesapce end_ = false ->
  (length ws + 1 < fuel)%nat ->
  exists tok,
    at_char i (length pre) tok
    /\ bare_key_result i (length pre + length ws) end_ leaf id_ h
         (_mytoml_parser_bare_key_loop fuel end_ branch leaf id_ done (mkMachine tok h)).
Proof.
  intros Hi Hpre Hid Hws He Hdot Hews Hfuel.
  destruct ws as [|w ws].
  { cbn [app length] in *. rewrite Nat.add_0_r.
    apply (bare_key_end i pre id_ end_ rest branch leaf h fuel done); try assumption. lia. }
  destruct fuel as [|fuel]; [lia|].
  destruct (whitespace_run (w :: ws) i pre end_ rest h fuel Hi Hpre Hws Hews
              ltac:(cbn [length] in *; lia)) as (tok & tok1 & Hat & Hat1 & _ & _ & Hrun).
  inversion Hws as [|? ? Hw Hws']; subst.
  pose proof (whitespace_not_eof w Hw) as Hwe.
  destruct (at_char_exists i pre w _ Hi Hpre) as (t & Hat0 & Htk & Hnu).
  pose proof (at_char_unique _ _ _ _ Hat Hat0) as <-.
  rewrite read_as_id in Htk by exact Hwe. rewrite is_null_at in Hnu by exact Hwe.
  destruct (bare_key_end i (pre ++ w :: ws) id_ end_ rest branch leaf h fuel true)
    as (t1 & Hat1' & Hend); try assumption.
  { rewrite <- app_assoc. exact Hi. }
  { apply Forall_app. split; [exact Hpre|].
    eapply Forall_impl; [exact Hws|]. intros x Hx. apply whitespace_not_eof. exact Hx. }
  { cbn [length] in Hfuel. lia. }
  rewrite length_app in Hat1', Hend. pose proof (at_char_unique _ _ _ _ Hat1 Hat1') as <-.
  exists tok. split; [exact Hat|].
  assert (Hwend : (w =? end_) = false).
  { apply Z.eqb_neq. intros ->. congruence. }
  assert (Hwdot : _mytoml_is_dot w = false).
  { unfold _mytoml_is_whitesapce in Hw. unfold _mytoml_is_dot.
    apply Z.eqb_neq. intros ->. vm_compute in Hw. discriminate. }
  destruct (Z.ltb_spec (Z.of_nat (length id_)) 256) as [Hlt|Hge].
  - assert (Hstep : _mytoml_parser_bare_key_loop (S fuel) end_ branch leaf id_ done
                      (mkMachine tok h)
                    = _mytoml_parser_bare_key_loop fuel end_ branch leaf id_ true
                        (mkMachine tok1 h)).
    { cbn [_mytoml_parser_bare_key_loop].
      rewrite (bind_done _ _ _ _ _ (has_token_at _ _)). rewrite Hnu.
      unfold MYTOML_MAX_ID_LENGTH.
      replace (Z.of_nat (length id_) <? 256) with true by (symmetry; apply Z.ltb_lt; exact Hlt).
      cbn [negb].
      rewrite (bind_done _ _ _ _ _ (token_at _ _)). rewrite Htk, Hwdot, Hwend, Hw.
      rewrite (bind_done _ _ _ _ _ Hrun). reflexivity. }
    rewrite Hstep. exact Hend.
  - unfold bare_key_result. rewrite bool_decide_eq_false_2 by lia.
    cbn [_mytoml_parser_bare_key_loop].
    rewrite (bind_done _ _ _ _ _ (has_token_at _ _)). rewrite Hnu.
    unfold MYTOML_MAX_ID_LENGTH.
    replace (Z.of_nat (length id_) <? 256) with false by (symmetry; apply Z.ltb_ge; exact Hge).
    eexists. reflexivity.
Qed.

(** The loop of [_mytoml_parser_bare_key] with [id_] already collected,
    over the remaining characters [name] of the key, the blanks after it
    and the terminator. *)
Lemma bare_key_loop (name : list Z) :
  forall (i : Input) (pre ws id_ : list Z) (end_ : Z) (rest : list Z)
         (branch leaf : TomlKeyType) (h : heap) (fuel : nat),
    stream i = Some (pre ++ name ++ ws ++ end_ :: rest) ->
    Forall (fun x => x <> EOF) pre ->
    Forall (fun x => x <> 0) id_ ->
    Forall (fun x => _mytoml_is_bare_ascii x = true) name ->
    Forall (fun x => _mytoml_is_whitesapce x = true) ws ->
    end_ <> EOF -> _mytoml_is_dot end_ = false -> _mytoml_is_bare_ascii end_ = false ->
    _mytoml_is_whitesapce end_ = false ->
    (length name + length ws + 1 < fuel)%nat ->
    exists tok,
      at_char i (length pre) tok
      /\ bare_key_result i (length pre + length name + length ws) end_ leaf (id_ ++ name) h
           (_mytoml_parser_bare_key_loop fuel end_ branch leaf id_ false (mkMachine tok h)).
Proof.
  induction name as [|b name IH];
    intros i pre ws id_ end_ rest branch leaf h fuel Hi Hpre Hid Hname Hws He Hdot Hbare Hews
           Hfuel.
  - cbn [app length] in *. rewrite app_nil_r, Nat.add_0_r.
    apply (bare_key_tail i pre ws id_ end_ rest branch leaf h fuel false); assumption.
  - inversion Hname as [|? ? Hb Hname']; subst.
    destruct (bare_ascii_plain b Hb) as (Hbe & Hbz & Hbdot & Hbws).
    destruct (at_char_exists i pre b _ Hi Hpre) as (tok & Hat & Htk & Hnu).
    rewrite read_as_id in Htk by exact Hbe. rewrite is_null_at in Hnu by exact Hbe.
    exists tok. split; [exact Hat|].
    destruct fuel as [|fuel]; [cbn in Hfuel; lia|].
    assert (Hbend : (b =? end_) = false).
    { apply Z.eqb_neq. intros ->. congruence. }
    destruct (IH i (pre ++ [b]) ws (id_ ++ [b]) end_ rest branch leaf h fuel)
      as (tok1 & Hat1 & Hrun); try assumption.
    { rewrite <- app_assoc. exact Hi. }
    { apply Forall_snoc_ne; assumption. }
    { apply Forall_app. split; [exact Hid|]. apply Forall_cons. split; [exact Hbz|].
      apply Forall_nil_2. }
    { cbn in Hfuel. lia. }
    rewrite length_app in Hat1, Hrun. cbn [length] in Hat1, Hrun.
    replace (length pre + 1)%nat with (S (length pre)) in Hat1 by lia.
    destruct (at_char_next _ _ _ _ h Hat Hat1) as (r & Hnext).
    rewrite <- app_assoc in Hrun. cbn [app] in Hrun.
    cbn [length].
    replace (length pre + S (length name) + length ws)%nat
      with (length pre + 1 + length name + length ws)%nat by lia.
    destruct (Z.ltb_spec (Z.of_nat (length id_)) 256) as [Hlt|Hge].
    + assert (Hstep : _mytoml_parser_bare_key_loop (S fuel) end_ branch leaf id_ false
                        (mkMachine tok h)
                      = _mytoml_parser_bare_key_loop fuel end_ branch leaf (id_ ++ [b]) false
                          (mkMachine tok1 h)).
      { cbn [_mytoml_parser_bare_key_loop].
        rewrite (bind_done _ _ _ _ _ (has_token_at _ _)). rewrite Hnu.
        unfold MYTOML_MAX_ID_LENGTH.
        replace (Z.of_nat (length id_) <? 256) with true by (symmetry; apply Z.ltb_lt; exact Hlt).
        cbn [negb].
        rewrite (bind_done _ _ _ _ _ (token_at _ _)). rewrite Htk, Hbdot, Hbend, Hbws, Hb.
        cbn [andb negb]. unfold buf_push.
        replace (Z.of_nat (length id_) <? 256) with true by (symmetry; apply Z.ltb_lt; exact Hlt).
        unfold bind at 1, ret at 1.
        rewrite (bind_done _ _ _ _ _ Hnext). reflexivity. }
      rewrite Hstep. exact Hrun.
    + unfold bare_key_result.
      rewrite bool_decide_eq_false_2 by (rewrite length_app; cbn [length]; lia).
      cbn [_mytoml_parser_bare_key_loop].
      rewrite (bind_done _ _ _ _ _ (has_token_at _ _)). rewrite Hnu.
      unfold MYTOML_MAX_ID_LENGTH.
      replace (Z.of_nat (length id_) <? 256) with false by (symmetry; apply Z.ltb_ge; exact Hge).
      eexists. reflexivity.
Qed.

(** X11.  A bare key holds at most 255 characters.  On a run of bare-key
    characters, blanks or none, and the terminator, [_mytoml_parser_bare_key]
    returns a new leaf node named by the run, and leaves the cursor on the
    terminator, when the run has 1 to 255 characters; it returns the null
    pointer when the run is empty or longer. *)
Theorem bare_key_length_bound (i : Input) (pre name ws : list Z) (end_ : Z) (rest : list Z)
    (branch leaf : TomlKeyType) (h : heap) (fuel : nat) :
  stream i = Some (pre ++ name ++ ws ++ end_ :: rest) ->
  Forall (fun x => x <> EOF) pre ->
  Forall (fun x => _mytoml_is_bare_ascii x = true) name ->
  Forall (fun x => _mytoml_is_whitesapce x = true) ws ->
  end_ <> EOF -> _mytoml_is_dot end_ = false -> _mytoml_is_bare_ascii end_ = false ->
  _mytoml_is_whitesapce end_ = false ->
  (length name + length ws + 1 < fuel)%nat ->
  exists tok,
    at_char i (length pre) tok
    /\ if bool_decide (1 <= length name <= 255)%nat
       then exists tok',
           at_char i (length pre + length name + length ws) tok'
           /\ token tok' = end_
           /\ _mytoml_parser_bare_key fuel end_ branch leaf (mkMachine tok h)
              = Done (Some (length h))
                     (mkMachine tok' (h ++ [mkTomlKey leaf name ∅ None (wrap64 (-1))]))
       else exists st,
           _mytoml_parser_bare_key fuel end_ branch leaf (mkMachine tok h) = Done None st.
Proof.
  intros Hi Hpre Hname Hws He Hdot Hbare Hews Hfuel.
  destruct (bare_key_loop name i pre ws [] end_ rest branch leaf h fuel Hi Hpre
              (Forall_nil_2 _) Hname Hws He Hdot Hbare Hews Hfuel) as (tok & Hat & Hrun).
  exists tok. split; [exact Hat|]. cbn [app] in Hrun. unfold bare_key_result in Hrun.
  fold (_mytoml_parser_bare_key fuel end_ branch leaf) in Hrun.
  destruct (bool_decide (1 <= length name <= 255)%nat); [|exact Hrun].
  destruct Hrun as (tok' & Hat' & Htk & _ & Hrun). exists tok'.
  split; [exact Hat'|]. split; [exact Htk|exact Hrun].
Qed.

Lemma bare_key_length_bound_witness :
  let i := mkInput I_STREAM FileUnset (Some (repeat (ch "k") 256 ++ chars "=1")) in
  exists tok,
    at_char i 0 tok
    /\ exists st,
      _mytoml_parser_bare_key 258 (ch "=") TOML_KEY TOML_KEYLEAF (mkMachine tok []) = Done None st.
Proof.
  intros i.
  apply (bare_key_length_bound i [] (repeat (ch "k") 256) [] (ch "=") (chars "1")
           TOML_KEY TOML_KEYLEAF [] 258).
  - reflexivity.
  - apply Forall_nil_2.
  - apply Forall_forall. intros x Hx. apply list_elem_of_In, repeat_spec in Hx. subst x. reflexivity.
  - apply Forall_nil_2.
  - discriminate.
  - reflexivity.
  - reflexivity.
  - reflexivity.
  - rewrite repeat_length. cbn. lia.
Defined.

(** ** Unicode escapes *)

Lemma bounded_check (P : Z -> bool) (n : nat) :
  forallb P (map Z.of_nat (seq 0 n)) = true ->
  forall a, 0 <= a < Z.of_nat n -> P a = true.
Proof.
  intros H a Ha. rewrite forallb_forall in H. apply H.
  apply in_map_iff. exists (Z.to_nat a). split; [lia|]. apply in_seq. lia.
Qed.

Lemma hex_char_facts (x : Z) :
  hex_char x = true ->
  (exists v, digit_in 16 x = Some v /\ 0 <= v < 16)
  /\ x <> 0 /\ x <> EOF /\ isspace x = false
  /\ (x =? ch "-") = false /\ (x =? ch "+") = false
  /\ (x =? ch "x") = false /\ (x =? ch "X") = false.
Proof.
  intros H.
  assert (Hr : 0 <= x < Z.of_nat 128).
  { unfold hex_char, _mytoml_is_hex_digit, _mytoml_is_digit, between in H.
    change (ch "A") with 65 in H. change (ch "F") with 70 in H.
    change (ch "a") with 97 in H. change (ch "f") with 102 in H.
    change (ch "0") with 48 in H. change (ch "9") with 57 in H. lia. }
  pose proof (bounded_check
    (fun x => implb (hex_char x)
      (match digit_in 16 x with Some v => (0 <=? v) && (v <? 16) | None => false end
       && negb (x =? 0) && negb (x =? EOF) && negb (isspace x)
       && negb (x =? ch "-") && negb (x =? ch "+")
       && negb (x =? ch "x") && negb (x =? ch "X")))
    128 ltac:(vm_compute; reflexivity) x Hr) as Hc.
  cbv beta in Hc. rewrite H in Hc. cbn [implb] in Hc.
  repeat (apply andb_true_iff in Hc as (Hc & ?)).
  repeat match goal with
         | Hn : negb _ = true |- _ => apply negb_true_iff in Hn
         end.
  destruct (digit_in 16 x) as [v|]; [|discriminate].
  repeat split; try assumption; try (apply Z.eqb_neq; assumption).
  exists v. split; [reflexivity|]. lia.
Qed.

Lemma read_digits_hex (ds : list Z) :
  forall acc n,
    Forall (fun x => hex_char x = true) ds ->
    read_digits 16 ds acc n
    = (fold_left (fun a c => a * 16 + default 0 (digit_in 16 c)) ds acc,
       n + Z.of_nat (length ds), []).
Proof.
  induction ds as [|d ds IH]; intros acc n Hds.
  - cbn. rewrite Z.add_0_r. reflexivity.
  - inversion Hds as [|? ? Hd Hds']; subst.
    destruct (hex_char_facts d Hd) as ((v & Hv & _) & _).
    cbn [read_digits fold_left]. rewrite Hv. cbn [default]. rewrite IH by exact Hds'.
    cbn [length]. rewrite Nat2Z.inj_succ.
    replace (n + 1 + Z.of_nat (length ds)) with (n + Z.succ (Z.of_nat (length ds))) by lia.
    reflexivity.
Qed.

Lemma hex_fold_bound (ds : list Z) :
  forall acc,
    Forall (fun x => hex_char x = true) ds -> 0 <= acc ->
    0 <= fold_left (fun a c => a * 16 + default 0 (digit_in 16 c)) ds acc
      < (acc + 1) * 16 ^ Z.of_nat (length ds).
Proof.
  induction ds as [|d ds IH]; intros acc Hds Hacc.
  - cbn. lia.
  - inversion Hds as [|? ? Hd Hds']; subst.
    destruct (hex_char_facts d Hd) as ((v & Hv & Hvr) & _).
    cbn [fold_left length]. rewrite Hv.
    change (acc * 16 + default 0 (Some v)) with (acc * 16 + v).
    specialize (IH (acc * 16 + v) Hds' ltac:(lia)).
    rewrite Nat2Z.inj_succ, Z.pow_succ_r by lia.
    assert (Hp : 0 < 16 ^ Z.of_nat (length ds)) by (apply Z.pow_pos_nonneg; lia).
    set (P := 16 ^ Z.of_nat (length ds)) in *.
    split; [lia|]. eapply Z.lt_le_trans; [apply IH|].
    replace ((acc + 1) * (16 * P)) with ((acc + 1) * 16 * P) by ring.
    apply Z.mul_le_mono_nonneg_r; lia.
Qed.

Lemma strtoul_hex (ds : list Z) :
  Forall (fun x => hex_char x = true) ds ->
  (1 <= length ds <= 8)%nat ->
  strtoul ds 16 = (hex_value ds, Z.of_nat (length ds))
  /\ 0 <= hex_value ds < 16 ^ Z.of_nat (length ds).
Proof.
  intros Hds Hlen.
  pose proof (hex_fold_bound ds 0 Hds ltac:(lia)) as Hb. fold (hex_value ds) in Hb.
  split; [|lia].
  destruct ds as [|c0 ds]; [cbn in Hlen; lia|].
  inversion Hds as [|? ? H0 Hds0]; subst.
  destruct (hex_char_facts c0 H0) as (_ & _ & _ & Hsp & Hmi & Hpl & _).
  unfold strtoul. cbn [skip_spaces]. rewrite Hsp. cbn [read_sign]. rewrite Hmi, Hpl.
  change (16 =? 16) with true. cbv iota.
  assert (Hs3 : match ds with
                | x :: d :: r =>
                    if (c0 =? ch "0") && ((x =? ch "x") || (x =? ch "X"))
                       && bool_decide (is_Some (digit_in 16 d))
                    then d :: r else c0 :: ds
                | _ => c0 :: ds
                end = c0 :: ds).
  { destruct ds as [|x [|d r]]; try reflexivity.
    inversion Hds0 as [|? ? Hx _]; subst.
    destruct (hex_char_facts x Hx) as (_ & _ & _ & _ & _ & _ & Hx1 & Hx2).
    rewrite Hx1, Hx2. rewrite andb_false_r. reflexivity. }
  rewrite Hs3. rewrite read_digits_hex by exact Hds.
  fold (hex_value (c0 :: ds)).
  replace (0 + Z.of_nat (length (c0 :: ds)) =? 0) with false
    by (symmetry; apply Z.eqb_neq; cbn [length]; lia).
  assert (16 ^ Z.of_nat (length (c0 :: ds)) <= 16 ^ 8) by (apply Z.pow_le_mono_r; lia).
  replace (2 ^ 64 <=? hex_value (c0 :: ds)) with false
    by (symmetry; apply Z.leb_gt; change (16 ^ 8) with 4294967296 in *;
        change (2 ^ 64) with 18446744073709551616; lia).
  f_equal; cbn [length]; lia.
Qed.

Lemma trail_byte (x : Z) : 0 <= x -> Z.land (Z.lor 128 x) 191 = 128 + x mod 64.
Proof.
  intros Hx.
  change 191 with (Z.land 255 191). rewrite Z.land_assoc.
  change 255 with (Z.ones 8). rewrite Z.land_ones by lia.
  rewrite <- (Z.land_ones (Z.lor 128 x)) by lia.
  rewrite Z.land_lor_distr_l. rewrite Z.land_ones by lia. rewrite Z.land_ones by lia.
  change (128 mod 2 ^ 8) with 128. change (2 ^ 8) with 256.
  change (Z.land 255 191) with 191.
  assert (Hy : 0 <= x mod 256 < Z.of_nat 256) by (pose proof (Z.mod_pos_bound x 256); lia).
  pose proof (bounded_check (fun y => Z.land (Z.lor 128 y) 191 =? 128 + y mod 64) 256
                ltac:(vm_compute; reflexivity) (x mod 256) Hy) as Hc.
  cbv beta in Hc. apply Z.eqb_eq in Hc. rewrite Hc.
  f_equal. apply Z.mod_mod_divide. exists 4. reflexivity.
Qed.

Lemma lead_byte (mark mask : Z) (n : nat) (a : Z) :
  forallb (fun y => Z.land (Z.lor mark y) mask =? mark + y) (map Z.of_nat (seq 0 n)) = true ->
  0 <= a < Z.of_nat n -> Z.land (Z.lor mark a) mask = mark + a.
Proof.
  intros Hc Ha.
  pose proof (bounded_check _ n Hc a Ha) as H. cbv beta in H. apply Z.eqb_eq. exact H.
Qed.

(** The loop of [_mytoml_parser_parse_unicode] over a run of digits. *)
Lemma unicode_loop_digits (ds : list Z) :
  forall (i : Input) (pre code : list Z) (c : Z) (rest : list Z) (h : heap) (len : Z)
         (fuel : nat),
    stream i = Some (pre ++ ds ++ c :: rest) ->
    Forall (fun x => x <> EOF) pre ->
    Forall (fun x => hex_char x = true) ds ->
    (length code + length ds <= 9)%nat ->
    exists tok tok',
      at_char i (length pre) tok
      /\ at_char i (length pre + length ds) tok'
      /\ _mytoml_parser_parse_unicode_loop (length ds + fuel) code len (mkMachine tok h)
         = _mytoml_parser_parse_unicode_loop fuel (code ++ ds) len (mkMachine tok' h).
Proof.
  induction ds as [|d ds IH]; intros i pre code c rest h len fuel Hi Hpre Hds Hlen.
  - destruct (at_char_exists i pre c rest Hi Hpre) as (tok & Hat & _).
    exists tok, tok. cbn [length]. rewrite Nat.add_0_r, app_nil_r.
    split; [exact Hat|]. split; [exact Hat|]. reflexivity.
  - inversion Hds as [|? ? Hd Hds']; subst.
    destruct (hex_char_facts d Hd) as (_ & _ & Hde & _).
    destruct (at_char_exists i pre d _ Hi Hpre) as (tok & Hat & Htk & Hnu).
    rewrite read_as_id in Htk by exact Hde. rewrite is_null_at in Hnu by exact Hde.
    destruct (IH i (pre ++ [d]) (code ++ [d]) c rest h len fuel)
      as (tok1 & tok' & Hat1 & Hat' & Hrun).
    { rewrite <- app_assoc. exact Hi. }
    { apply Forall_snoc_ne; assumption. }
    { exact Hds'. }
    { rewrite length_app. cbn [length] in *. lia. }
    rewrite length_app in Hat1, Hat'. cbn [length] in Hat1, Hat'.
    replace (length pre + 1)%nat with (S (length pre)) in Hat1 by lia.
    destruct (at_char_next _ _ _ _ h Hat Hat1) as (r & Hnext).
    exists tok, tok'. split; [exact Hat|].
    split; [cbn [length];
            replace (length pre + S (length ds))%nat with (length pre + 1 + length ds)%nat by lia;
            exact Hat'|].
    rewrite <- app_assoc in Hrun. cbn [app] in Hrun. rewrite <- Hrun.
    cbn [length Nat.add _mytoml_parser_parse_unicode_loop].
    rewrite (bind_done _ _ _ _ _ (has_token_at _ _)). rewrite Hnu.
    cbn [length] in Hlen.
    replace (8 <? Z.of_nat (length code)) with false by (symmetry; apply Z.ltb_ge; lia).
    rewrite (bind_done _ _ _ _ _ (token_at _ _)). rewrite Htk.
    fold (hex_char d). rewrite Hd.
    unfold buf_push.
    replace (Z.of_nat (length code) <? 9) with true by (symmetry; apply Z.ltb_lt; lia).
    unfold bind at 1, ret at 1.
    rewrite (bind_done _ _ _ _ _ Hnext). reflexivity.
Qed.

(** The loop of [_mytoml_parser_parse_unicode] on the character after
    four or eight digits. *)
Lemma unicode_loop_convert (ds : list Z) (c : Z) (tok : Tokenizer) (h : heap) (len : Z)
    (fuel : nat) :
  Forall (fun x => hex_char x = true) ds ->
  (length ds = 4 \/ length ds = 8)%nat ->
  hex_char c = false ->
  token tok = c -> is_null tok = true ->
  4 <= len ->
  let num := hex_value ds in
  _mytoml_parser_parse_unicode_loop (S fuel) ds len (mkMachine tok h)
  = Done (if between 0 num 55295 || between 57344 num 1114111 then
            if num =? 0 then (1, [0])
            else if num <? 128
                 then (4, to_char <$> [240; 128; 128 + num / 64; 128 + num mod 64])
                 else (Z.of_nat (length (utf8_reference num)),
                       to_char <$> utf8_reference num)
          else (0, []))
         (mkMachine tok h).
Proof.
  intros Hds Hlen Hc Htk Hnu Hl num.
  cbn [_mytoml_parser_parse_unicode_loop].
  rewrite (bind_done _ _ _ _ _ (has_token_at _ _)). rewrite Hnu.
  replace (8 <? Z.of_nat (length ds)) with false by (symmetry; apply Z.ltb_ge; lia).
  rewrite (bind_done _ _ _ _ _ (token_at _ _)). rewrite Htk.
  fold (hex_char c). rewrite Hc.
  replace (negb (Z.of_nat (length ds) =? 4) && negb (Z.of_nat (length ds) =? 8)) with false
    by (destruct Hlen as [-> | ->]; reflexivity).
  unfold c_string.
  replace (Z.of_nat (length ds) <? 9) with true by (symmetry; apply Z.ltb_lt; lia).
  cbn [orb]. unfold bind at 1, ret at 1.
  rewrite cstr_without_zero
    by (eapply Forall_impl; [exact Hds|]; intros x Hx; apply (hex_char_facts x Hx)).
  destruct (strtoul_hex ds Hds ltac:(lia)) as (Hstr & Hrange).
  rewrite Hstr. fold num in Hrange |- *. cbv iota beta. rewrite Z.eqb_refl. cbn [negb].
  assert (Hnum : 0 <= num < 4294967296).
  { assert (16 ^ Z.of_nat (length ds) <= 16 ^ 8) by (apply Z.pow_le_mono_r; lia).
    change (16 ^ 8) with 4294967296 in *. lia. }
  destruct (between 0 num 55295 || between 57344 num 1114111) eqn:Hscalar; [|reflexivity].
  assert (Hmax : num <= 1114111) by (unfold between in Hscalar; lia).
  destruct (Z.eqb_spec num 0) as [Hz|Hnz].
  { rewrite Hz. change ((0 <=? 0) && (0 <=? 127)) with true. cbv iota.
    replace (len <? 1) with false by lia. reflexivity. }
  replace ((num <=? 0) && (num <=? 127)) with false by (symmetry; apply andb_false_iff; lia).
  rewrite !Z.shiftr_div_pow2 by lia.
  change (2 ^ 6) with 64. change (2 ^ 12) with 4096. change (2 ^ 18) with 262144.
  assert (0 <= num) by lia.
  assert (0 <= num / 64) by (apply Z.div_pos; lia).
  assert (0 <= num / 4096) by (apply Z.div_pos; lia).
  rewrite !trail_byte by assumption.
  unfold utf8_reference, between.
  destruct (Z.ltb_spec num 128) as [H128|H128].
  { replace ((128 <=? num) && (num <=? 2047)) with false by lia.
    replace ((2048 <=? num) && (num <=? 65535)) with false by lia.
    replace (len <? 4) with false by lia.
    rewrite (lead_byte 240 247 8)
      by first [split; [apply Z.div_pos; lia|apply Z.div_lt_upper_bound; lia]
               |vm_compute; reflexivity].
    replace (num / 262144) with 0 by (symmetry; apply Z.div_small; lia).
    replace (num / 4096) with 0 by (symmetry; apply Z.div_small; lia).
    rewrite (Z.mod_small (num / 64))
      by (split; [assumption|apply Z.div_lt_upper_bound; lia]).
    reflexivity. }
  destruct (Z.ltb_spec num 2048) as [H2048|H2048].
  { replace ((128 <=? num) && (num <=? 2047)) with true by lia.
    replace (len <? 2) with false by lia.
    rewrite (lead_byte 192 223 32)
      by first [split; [apply Z.div_pos; lia|apply Z.div_lt_upper_bound; lia]
               |vm_compute; reflexivity].
    reflexivity. }
  replace ((128 <=? num) && (num <=? 2047)) with false by lia.
  destruct (Z.ltb_spec num 65536) as [H65536|H65536].
  { replace ((2048 <=? num) && (num <=? 65535)) with true by lia.
    replace (len <? 3) with false by lia.
    rewrite (lead_byte 224 239 16)
      by first [split; [apply Z.div_pos; lia|apply Z.div_lt_upper_bound; lia]
               |vm_compute; reflexivity].
    reflexivity. }
  replace ((2048 <=? num) && (num <=? 65535)) with false by lia.
  replace (len <? 4) with false by lia.
  rewrite (lead_byte 240 247 8)
      by first [split; [apply Z.div_pos; lia|apply Z.div_lt_upper_bound; lia]
               |vm_compute; reflexivity].
  reflexivity.
Qed.

(** X12.  The bytes written for a unicode escape.  After [\u] or [\U] the
    function collects the whole run of hexadecimal digits, up to nine of
    them; [ds] is that run and [c], not a hexadecimal digit, the character
    or the end of input behind it, and the output buffer has room for four
    bytes.  Unless the run has exactly four or eight digits and a character
    follows it, the result is 0: four digits with a fifth hexadecimal digit
    behind them are refused, and so is an escape that ends the input.  Four
    or eight digits that write the scalar value [num] give the UTF-8
    encoding of [num] when [num] is [0x80] or more, the single byte zero for
    [num = 0], and for [num] from [1] to [0x7F] four bytes (an overlong
    form) instead of one; surrogates and values above [0x10FFFF] are
    refused.  The cursor is left behind the run, or on the tenth digit of a
    longer one. *)
Theorem unicode_escape_bytes (i : Input) (pre ds : list Z) (c : Z) (rest : list Z)
    (h : heap) (len : Z) (fuel : nat) :
  stream i = Some (pre ++ ds ++ c :: rest) ->
  Forall (fun x => x <> EOF) pre ->
  Forall (fun x => hex_char x = true) ds ->
  hex_char c = false ->
  4 <= len ->
  (length ds < fuel)%nat ->
  let num := hex_value ds in
  exists tok tok',
    at_char i (length pre) tok
    /\ at_char i (length pre + Nat.min (length ds) 9) tok'
    /\ _mytoml_parser_parse_unicode fuel len (mkMachine tok h)
       = Done (if ((length ds =? 4)%nat || (length ds =? 8)%nat) && negb (c =? EOF) then
                 if between 0 num 55295 || between 57344 num 1114111 then
                   if num =? 0 then (1, [0])
                   else if num <? 128
                        then (4, to_char <$> [240; 128; 128 + num / 64; 128 + num mod 64])
                        else (Z.of_nat (length (utf8_reference num)),
                              to_char <$> utf8_reference num)
                 else (0, [])
               else (0, []))
              (mkMachine tok' h).
Proof.
  intros Hi Hpre Hds Hc Hl Hfuel num.
  unfold _mytoml_parser_parse_unicode.
  destruct (le_lt_dec (length ds) 8) as [Hshort|Hlong].
  - destruct (unicode_loop_digits ds i pre [] c rest h len (fuel - length ds) Hi Hpre Hds
                ltac:(cbn [length]; lia)) as (tok & tok' & Hat & Hat' & Hrun).
    exists tok, tok'. split; [exact Hat|].
    split; [replace (Nat.min (length ds) 9) with (length ds) by lia; exact Hat'|].
    replace (length ds + (fuel - length ds))%nat with fuel in Hrun by lia.
    rewrite Hrun. cbn [app].
    destruct (at_char_exists i (pre ++ ds) c rest) as (t & Hat0 & Htk & Hnu).
    { rewrite <- app_assoc. exact Hi. }
    { apply Forall_app. split; [exact Hpre|].
      eapply Forall_impl; [exact Hds|]. intros x Hx. apply (hex_char_facts x Hx). }
    rewrite length_app in Hat0. pose proof (at_char_unique _ _ _ _ Hat' Hat0) as <-.
    destruct (fuel - length ds)%nat as [|fuel'] eqn:Hf; [lia|].
    destruct (Z.eqb_spec c EOF) as [Hce|Hce].
    { rewrite andb_false_r. cbn [negb] in Hnu.
      cbn [_mytoml_parser_parse_unicode_loop].
      rewrite (bind_done _ _ _ _ _ (has_token_at _ _)). rewrite Hnu. reflexivity. }
    rewrite read_as_id in Htk by exact Hce. cbn [negb] in Hnu. rewrite andb_true_r.
    destruct ((length ds =? 4)%nat || (length ds =? 8)%nat) eqn:Hlen.
    + apply orb_true_iff in Hlen. rewrite !Nat.eqb_eq in Hlen.
      apply (unicode_loop_convert ds c); assumption.
    + apply orb_false_iff in Hlen. rewrite !Nat.eqb_neq in Hlen.
      cbn [_mytoml_parser_parse_unicode_loop].
      rewrite (bind_done _ _ _ _ _ (has_token_at _ _)). rewrite Hnu.
      replace (8 <? Z.of_nat (length ds)) with false by (symmetry; apply Z.ltb_ge; lia).
      rewrite (bind_done _ _ _ _ _ (token_at _ _)). rewrite Htk.
      fold (hex_char c). rewrite Hc.
      replace (negb (Z.of_nat (length ds) =? 4) && negb (Z.of_nat (length ds) =? 8))
        with true
        by (symmetry; apply andb_true_iff; split; apply negb_true_iff, Z.eqb_neq; lia).
      reflexivity.
  - replace ((length ds =? 4)%nat || (length ds =? 8)%nat) with false
      by (symmetry; apply orb_false_iff; split; apply Nat.eqb_neq; lia).
    cbn [andb].
    assert (Hsplit : exists c' rest', drop 9 ds ++ c :: rest = c' :: rest').
    { destruct (drop 9 ds); eexists; eexists; reflexivity. }
    destruct Hsplit as (c' & rest' & Hsplit).
    assert (Hlen9 : length (take 9 ds) = 9%nat) by (rewrite length_take; lia).
    assert (Hi' : stream i = Some (pre ++ take 9 ds ++ c' :: rest')).
    { rewrite Hi, <- Hsplit. rewrite (app_assoc (take 9 ds)), take_drop. reflexivity. }
    assert (Hds' : Forall (fun x => hex_char x = true) (take 9 ds))
      by (apply Forall_take; exact Hds).
    destruct (unicode_loop_digits (take 9 ds) i pre [] c' rest' h len (fuel - 9) Hi' Hpre Hds'
                ltac:(cbn [length]; lia)) as (tok & tok' & Hat & Hat' & Hrun).
    rewrite Hlen9 in Hat', Hrun.
    exists tok, tok'. split; [exact Hat|].
    split; [replace (Nat.min (length ds) 9) with 9%nat by lia; exact Hat'|].
    replace (9 + (fuel - 9))%nat with fuel in Hrun by lia.
    rewrite Hrun. cbn [app].
    destruct (fuel - 9)%nat as [|fuel'] eqn:Hf; [lia|].
    cbn [_mytoml_parser_parse_unicode_loop].
    rewrite (bind_done _ _ _ _ _ (has_token_at _ _)).
    rewrite Hlen9. change (8 <? Z.of_nat 9) with true. cbv iota.
    destruct (is_null tok'); reflexivity.
Qed.

Lemma unicode_escape_bytes_witness :
  (let i := mkInput I_STREAM FileUnset (Some (chars "0041" ++ [DQUOTE])) in
   exists tok tok',
     at_char i 0 tok
     /\ at_char i 4 tok'
     /\ _mytoml_parser_parse_unicode 5 4 (mkMachine tok [])
        = Done (4, [-16; -128; -127; -127]) (mkMachine tok' []))
  /\ (let i := mkInput I_STREAM FileUnset (Some (chars "0041B" ++ [DQUOTE])) in
      exists tok tok',
        at_char i 0 tok
        /\ at_char i 5 tok'
        /\ _mytoml_parser_parse_unicode 6 4 (mkMachine tok []) = Done (0, []) (mkMachine tok' [])).
Proof.
  split; intros i.
  - apply (unicode_escape_bytes i [] (chars "0041") DQUOTE [] [] 4 5).
    + reflexivity.
    + apply Forall_nil_2.
    + repeat (apply Forall_cons; split; [reflexivity|]). apply Forall_nil_2.
    + reflexivity.
    + lia.
    + cbn. lia.
  - apply (unicode_escape_bytes i [] (chars "0041B") DQUOTE [] [] 4 6).
    + reflexivity.
    + apply Forall_nil_2.
    + repeat (apply Forall_cons; split; [reflexivity|]). apply Forall_nil_2.
    + reflexivity.
    + lia.
    + cbn. lia.
Defined.

(** ** Basic strings *)

Lemma string_char_plain (x : Z) :
  string_char x -> x <> NL /\ x <> 13 /\ x <> 0 /\ _mytoml_is_basic_string_start x = false.
Proof.
  intros (He & Hq & _ & Hc).
  repeat split; try (intros ->; vm_compute in Hc; discriminate).
  apply Z.eqb_neq. exact Hq.
Qed.

(** The loop of [_mytoml_parser_parse_basic_string] (one line) with
    [value] already collected, over the remaining characters [body] and the
    closing quote. *)
Lemma basic_string_loop (body : list Z) :
  forall (i : Input) (pre value : list Z) (d : Z) (rest : list Z) (h : heap) (fuel : nat),
    stream i = Some (pre ++ body ++ DQUOTE :: d :: rest) ->
    Forall (fun x => x <> EOF) pre ->
    Forall string_char body ->
    (length body < fuel)%nat ->
    exists tok,
      at_char i (length pre) tok
      /\ basic_string_result i (length pre + length body + 1) d (value ++ body) h
           (_mytoml_parser_parse_basic_string fuel value false (mkMachine tok h)).
Proof.
  induction body as [|b body IH]; intros i pre value d rest h fuel Hi Hpre Hbody Hfuel.
  - cbn [app length] in *. rewrite app_nil_r, Nat.add_0_r.
    destruct (at_char_exists i pre DQUOTE (d :: rest) Hi Hpre) as (tok & Hat & Htk & Hnu).
    change (read_as DQUOTE) with DQUOTE in Htk. change (negb (DQUOTE =? EOF)) with true in Hnu.
    destruct (at_char_exists i (pre ++ [DQUOTE]) d rest) as (tok1 & Hat1 & Htk1 & Hnu1).
    { rewrite <- app_assoc. exact Hi. }
    { apply Forall_snoc_ne; [exact Hpre|discriminate]. }
    rewrite length_app in Hat1. cbn [length] in Hat1.
    pose proof Hat1 as Hat1'.
    replace (length pre + 1)%nat with (S (length pre)) in Hat1' by lia.
    destruct (at_char_next _ _ _ _ h Hat Hat1') as (r & Hnext).
    exists tok. split; [exact Hat|].
    destruct fuel as [|fuel]; [lia|].
    unfold basic_string_result. cbn [_mytoml_parser_parse_basic_string].
    rewrite (bind_done _ _ _ _ _ (has_token_at _ _)). rewrite Hnu.
    unfold MYTOML_MAX_STRING_LENGTH.
    destruct (Z.ltb_spec (Z.of_nat (length value)) 4096) as [Hlt|Hge]; cbn [negb].
    + rewrite (bind_done _ _ _ _ _ (token_at _ _)). rewrite Htk.
      change (_mytoml_is_basic_string_start DQUOTE) with true. cbv iota.
      rewrite (bind_done _ _ _ _ _ Hnext).
      rewrite bool_decide_eq_true_2 by lia.
      exists tok1. split; [exact Hat1|]. split; [exact Htk1|]. split; [exact Hnu1|reflexivity].
    + rewrite bool_decide_eq_false_2 by lia. eexists. reflexivity.
  - inversion Hbody as [|? ? Hb Hbody']; subst.
    destruct (string_char_plain b Hb) as (Hbnl & Hbcr & Hbz & Hbq).
    destruct Hb as (Hbe & _ & Hbesc & Hbctl).
    destruct (at_char_exists i pre b _ Hi Hpre) as (tok & Hat & Htk & Hnu).
    rewrite read_as_id in Htk by exact Hbe. rewrite is_null_at in Hnu by exact Hbe.
    exists tok. split; [exact Hat|].
    destruct fuel as [|fuel]; [cbn in Hfuel; lia|].
    destruct (IH i (pre ++ [b]) (value ++ [b]) d rest h fuel) as (tok1 & Hat1 & Hrun).
    { rewrite <- app_assoc. exact Hi. }
    { apply Forall_snoc_ne; assumption. }
    { exact Hbody'. }
    { cbn in Hfuel. lia. }
    rewrite length_app in Hat1, Hrun. cbn [length] in Hat1, Hrun.
    replace (length pre + 1)%nat with (S (length pre)) in Hat1 by lia.
    destruct (at_char_next _ _ _ _ h Hat Hat1) as (r & Hnext).
    rewrite <- app_assoc in Hrun. cbn [app] in Hrun.
    cbn [length].
    replace (length pre + S (length body) + 1)%nat
      with (length pre + 1 + length body + 1)%nat by lia.
    pose proof (newline_not_here tok h ltac:(rewrite Htk; exact Hbnl)
                  ltac:(rewrite Htk; exact Hbcr)) as Hnl.
    destruct (Z.ltb_spec (Z.of_nat (length value)) 4096) as [Hlt|Hge].
    + assert (Hstep : _mytoml_parser_parse_basic_string (S fuel) value false (mkMachine tok h)
                      = _mytoml_parser_parse_basic_string fuel (value ++ [b]) false
                          (mkMachine tok1 h)).
      { cbn [_mytoml_parser_parse_basic_string].
        rewrite (bind_done _ _ _ _ _ (has_token_at _ _)). rewrite Hnu.
        unfold MYTOML_MAX_STRING_LENGTH.
        replace (Z.of_nat (length value) <? 4096) with true
          by (symmetry; apply Z.ltb_lt; exact Hlt).
        cbn [negb].
        rewrite (bind_done _ _ _ _ _ (token_at _ _)). rewrite Htk, Hbq.
        rewrite (bind_done _ _ _ _ _ Hnl). cbn [andb].
        rewrite (bind_done _ _ _ _ _ Hnl). cbn [andb].
        rewrite (bind_done _ _ _ _ _ (token_at _ _)). rewrite Htk, Hbesc, Hbctl.
        cbn [andb negb]. unfold buf_push.
        replace (Z.of_nat (length value) <? 4096) with true
          by (symmetry; apply Z.ltb_lt; exact Hlt).
        unfold bind at 1, ret at 1.
        rewrite (bind_done _ _ _ _ _ Hnext). reflexivity. }
      rewrite Hstep. exact Hrun.
    + unfold basic_string_result.
      rewrite bool_decide_eq_false_2 by (rewrite length_app; cbn [length]; lia).
      cbn [_mytoml_parser_parse_basic_string].
      rewrite (bind_done _ _ _ _ _ (has_token_at _ _)). rewrite Hnu.
      unfold MYTOML_MAX_STRING_LENGTH.
      replace (Z.of_nat (length value) <? 4096) with false
        by (symmetry; apply Z.ltb_ge; exact Hge).
      eexists. reflexivity.
Qed.

(** X13.  A basic string of one line without escapes is read as it is
    written, up to 4095 characters.  From the character after the opening
    quote, [_mytoml_parser_parse_basic_string] returns the characters up to
    the closing quote and leaves the cursor after that quote; it returns the
    null pointer when there are 4096 characters or more.  Bytes above
    [0x7F] are taken over unchecked. *)
Theorem basic_string_plain (i : Input) (pre body : list Z) (d : Z) (rest : list Z)
    (h : heap) (fuel : nat) :
  stream i = Some (pre ++ body ++ DQUOTE :: d :: rest) ->
  Forall (fun x => x <> EOF) pre ->
  Forall string_char body ->
  (length body < fuel)%nat ->
  exists tok,
    at_char i (length pre) tok
    /\ if bool_decide (length body <= 4095)%nat
       then exists tok',
           at_char i (length pre + length body + 1) tok'
           /\ token tok' = read_as d
           /\ _mytoml_parser_parse_basic_string fuel [] false (mkMachine tok h)
              = Done (Some body) (mkMachine tok' h)
       else exists st,
           _mytoml_parser_parse_basic_string fuel [] false (mkMachine tok h) = Done None st.
Proof.
  intros Hi Hpre Hbody Hfuel.
  destruct (basic_string_loop body i pre [] d rest h fuel Hi Hpre Hbody Hfuel)
    as (tok & Hat & Hrun).
  exists tok. split; [exact Hat|]. cbn [app] in Hrun. unfold basic_string_result in Hrun.
  destruct (bool_decide (length body <= 4095)%nat); [|exact Hrun].
  destruct Hrun as (tok' & Hat' & Htk & _ & Hrun). exists tok'.
  split; [exact Hat'|]. split; [exact Htk|exact Hrun].
Qed.

Lemma basic_string_plain_witness :
  let i := mkInput I_STREAM FileUnset (Some (lit "`caf" ++ [-61; -87] ++ lit "`" ++ [NL])) in
  exists tok,
    at_char i 1 tok
    /\ exists tok',
      at_char i 7 tok'
      /\ token tok' = NL
      /\ _mytoml_parser_parse_basic_string 6 [] false (mkMachine tok [])
         = Done (Some (chars "caf" ++ [-61; -87])) (mkMachine tok' []).
Proof.
  intros i.
  apply (basic_string_plain i [DQUOTE] (chars "caf" ++ [-61; -87]) NL [] [] 6).
  - reflexivity.
  - apply Forall_cons. split; [discriminate|]. apply Forall_nil_2.
  - repeat (apply Forall_cons; split;
            [repeat split; first [discriminate | reflexivity]|]).
    apply Forall_nil_2.
  - cbn. lia.
Defined.

(** ** A line that binds a bare key to a basic string *)

Lemma add_sub_key_new (fuel : nat) (h : heap) (key sub : ptr) (k sk : TomlKey) :
  h !! key = Some k ->
  h !! sub = Some sk ->
  subkeys k !! id sk = None ->
  ktype k <> TOML_ARRAYTABLE ->
  Z.of_nat (size (subkeys k)) < MYTOML_MAX_SUBKEYS ->
  _mytoml_value_add_sub_key (S fuel) key sub h
  = Done (Some sub) (<[key := set_subkeys (<[id sk := sub]> (subkeys k)) k]> h).
Proof.
  intros Hk Hsk Hnone Harr Hroom.
  cbn [_mytoml_value_add_sub_key].
  unfold bind, _mytoml_value_has_sub_key, bind, deref, ret, modify, bind, deref, store.
  rewrite Hk, Hsk. cbn. rewrite Hnone, Hk. cbn. rewrite Hsk. cbn.
  replace (Z.of_nat (size (subkeys k)) <? MYTOML_MAX_SUBKEYS) with true
    by (symmetry; apply Z.ltb_lt; exact Hroom).
  rewrite bool_decide_eq_false_2 by exact Harr.
  rewrite Hk. cbn. rewrite Hk. reflexivity.
Qed.

Lemma at_char_at (i : Input) (n m : nat) (tok : Tokenizer) :
  at_char i n tok -> n = m -> at_char i m tok.
Proof. intros H <-. exact H. Qed.

Lemma Forall_not_eof_bare (l : list Z) :
  Forall (fun x => _mytoml_is_bare_ascii x = true) l -> Forall (fun x => x <> EOF) l.
Proof. intros H. eapply Forall_impl; [exact H|]. intros x Hx. apply (bare_ascii_plain x Hx). Qed.

Lemma Forall_not_eof_blank (l : list Z) :
  Forall (fun x => _mytoml_is_whitesapce x = true) l -> Forall (fun x => x <> EOF) l.
Proof. intros H. eapply Forall_impl; [exact H|]. intros x Hx. apply whitespace_not_eof. exact Hx. Qed.

Lemma Forall_not_eof_string (l : list Z) :
  Forall string_char l -> Forall (fun x => x <> EOF) l.
Proof. intros H. eapply Forall_impl; [exact H|]. intros x Hx. apply Hx. Qed.

(** [_mytoml_parser_parse_key] on one bare name under the root: the new
    leaf is entered in the root and the cursor passes the equals sign. *)
Lemma parse_key_bare (i : Input) (name ws : list Z) (c : Z) (rest : list Z) (root : TomlKey)
    (tok : Tokenizer) (fuel : nat) :
  stream i = Some (name ++ ws ++ ch "=" :: c :: rest) ->
  Forall (fun x => _mytoml_is_bare_ascii x = true) name ->
  (1 <= length name <= 255)%nat ->
  Forall (fun x => _mytoml_is_whitesapce x = true) ws ->
  subkeys root = ∅ -> ktype root <> TOML_ARRAYTABLE ->
  at_char i 0 tok ->
  (length name + length ws + 3 < fuel)%nat ->
  exists tok',
    at_char i (length name + length ws + 1) tok'
    /\ token tok' = read_as c
    /\ is_null tok' = negb (c =? EOF)
    /\ _mytoml_parser_parse_key fuel 0%nat true (mkMachine tok [root])
       = Done (Some 1%nat)
              (mkMachine tok' [set_subkeys {[name := 1%nat]} root;
                              mkTomlKey TOML_KEYLEAF name ∅ None (wrap64 (-1))]).
Proof.
  intros Hi Hname Hlen Hws Hsub Harr Hat Hfuel.
  destruct name as [|n0 name0] eqn:Hn; [cbn in Hlen; lia|]. rewrite <- Hn in *.
  assert (Hn0 : _mytoml_is_bare_ascii n0 = true).
  { rewrite Hn in Hname. inversion Hname; assumption. }
  destruct (bare_ascii_plain n0 Hn0) as (Hn0e & Hn0z & Hn0dot & Hn0ws).
  destruct (at_char_exists i [] n0 (name0 ++ ws ++ ch "=" :: c :: rest)) as (t & Hat0 & Htk & Hnu).
  { rewrite Hi, Hn. reflexivity. }
  { apply Forall_nil_2. }
  pose proof (at_char_unique _ _ _ _ Hat Hat0) as <-.
  rewrite read_as_id in Htk by exact Hn0e. rewrite is_null_at in Hnu by exact Hn0e.
  destruct fuel as [|fuel]; [lia|].
  destruct (bare_key_loop name i [] ws [] (ch "=") (c :: rest) TOML_KEY TOML_KEYLEAF [root] fuel)
    as (t & Hat0' & Hbare); try assumption; try reflexivity; try discriminate.
  { apply Forall_nil_2. }
  { apply Forall_nil_2. }
  { lia. }
  pose proof (at_char_unique _ _ _ _ Hat Hat0') as <-.
  unfold bare_key_result in Hbare. cbn [app length] in Hbare.
  rewrite bool_decide_eq_true_2 in Hbare by exact Hlen.
  destruct Hbare as (tokE & HatE & HtkE & HnuE & Hbare).
  fold (_mytoml_parser_bare_key fuel (ch "=") TOML_KEY TOML_KEYLEAF) in Hbare.
  destruct (at_char_exists i (name ++ ws ++ [ch "="]) c rest) as (tok' & Hat' & Htk' & Hnu').
  { rewrite Hi. rewrite <- !app_assoc. reflexivity. }
  { apply Forall_app. split; [apply Forall_not_eof_bare; exact Hname|].
    apply Forall_app. split; [apply Forall_not_eof_blank; exact Hws|].
    apply Forall_cons. split; [discriminate|]. apply Forall_nil_2. }
  rewrite !length_app in Hat'. cbn [length] in Hat'.
  destruct (at_char_next i (length name + length ws) tokE tok'
              [set_subkeys {[name := 1%nat]} root;
               mkTomlKey TOML_KEYLEAF name ∅ None (wrap64 (-1))]) as (r & Hnext).
  { exact HatE. }
  { eapply at_char_at; [exact Hat'|]. lia. }
  exists tok'. split; [eapply at_char_at; [exact Hat'|lia]|].
  split; [exact Htk'|]. split; [exact Hnu'|].
  unfold _mytoml_parser_parse_key. cbn [parse_dotted].
  rewrite (bind_done _ _ _ _ _ (has_token_at _ _)). rewrite Hnu.
  rewrite (bind_done _ _ _ _ _ (token_at _ _)). rewrite Htk.
  replace (n0 =? ch "=") with false
    by (symmetry; apply Z.eqb_neq; intros ->; vm_compute in Hn0; discriminate).
  rewrite Hn0dot, Hn0ws.
  replace (_mytoml_is_basic_string_start n0) with false
    by (symmetry; apply Z.eqb_neq; intros ->; vm_compute in Hn0; discriminate).
  replace (_mytoml_is_literal_string_start n0) with false
    by (symmetry; apply Z.eqb_neq; intros ->; vm_compute in Hn0; discriminate).
  rewrite (bind_done _ _ _ _ _ Hbare).
  destruct fuel as [|fuel]; [lia|].
  assert (Hadd : on_heap (_mytoml_value_add_sub_key (S fuel) 0%nat 1%nat)
                   (mkMachine tokE ([root] ++ [mkTomlKey TOML_KEYLEAF name ∅ None
                                                (wrap64 (-1))]))
                 = Done (Some 1%nat)
                     (mkMachine tokE [set_subkeys {[name := 1%nat]} root;
                                     mkTomlKey TOML_KEYLEAF name ∅ None (wrap64 (-1))])).
  { unfold on_heap. cbn [mheap mtok app].
    rewrite (add_sub_key_new fuel _ 0%nat 1%nat root
               (mkTomlKey TOML_KEYLEAF name ∅ None (wrap64 (-1))));
      try reflexivity; try assumption.
    - cbn [id]. rewrite Hsub, insert_empty. reflexivity.
    - cbn [id]. rewrite Hsub. apply lookup_empty.
    - rewrite Hsub, map_size_empty. reflexivity. }
  cbn [length]. rewrite (bind_done _ _ _ _ _ Hadd).
  cbn [parse_dotted].
  rewrite (bind_done _ _ _ _ _ (has_token_at _ _)). rewrite HnuE.
  rewrite (bind_done _ _ _ _ _ (token_at _ _)). rewrite HtkE, Z.eqb_refl.
  rewrite (bind_done _ _ _ _ _ Hnext). reflexivity.
Qed.

(** [_mytoml_parser_parse_value] on a basic string of one line. *)
Lemma value_basic_string (i : Input) (pre body : list Z) (d : Z) (rest : list Z)
    (h : heap) (num_end : list Z) (fuel : nat) :
  stream i = Some (pre ++ DQUOTE :: body ++ DQUOTE :: d :: rest) ->
  Forall (fun x => x <> EOF) pre ->
  Forall string_char body ->
  (1 <= length body <= 4095)%nat ->
  (length body + 1 < fuel)%nat ->
  exists tok tok',
    at_char i (length pre) tok
    /\ at_char i (length pre + length body + 2) tok'
    /\ token tok' = read_as d
    /\ is_null tok' = negb (d =? EOF)
    /\ _mytoml_parser_parse_value fuel num_end (mkMachine tok h)
       = Done (Some (_mytoml_value_new_string body)) (mkMachine tok' h).
Proof.
  intros Hi Hpre Hbody Hlen Hfuel.
  destruct (at_char_exists i pre DQUOTE _ Hi Hpre) as (tok & Hat & Htk & Hnu).
  change (read_as DQUOTE) with DQUOTE in Htk. change (negb (DQUOTE =? EOF)) with true in Hnu.
  destruct fuel as [|fuel]; [lia|].
  destruct (basic_string_loop body i (pre ++ [DQUOTE]) [] d rest h fuel)
    as (tokB & HatB & Hstr); try assumption.
  { rewrite <- app_assoc. exact Hi. }
  { apply Forall_snoc_ne; [exact Hpre|discriminate]. }
  { lia. }
  unfold basic_string_result in Hstr. cbn [app] in Hstr.
  rewrite bool_decide_eq_true_2 in Hstr by lia.
  destruct Hstr as (tok' & Hat' & Htk' & Hnu' & Hstr).
  rewrite length_app in HatB, Hat'. cbn [length] in HatB, Hat'.
  destruct (at_char_next i (length pre) tok tokB h Hat) as (r & Hnext).
  { eapply at_char_at; [exact HatB|lia]. }
  destruct body as [|b0 body0] eqn:Hb; [cbn in Hlen; lia|]. rewrite <- Hb in *.
  assert (Hb0 : string_char b0).
  { rewrite Hb in Hbody. inversion Hbody; assumption. }
  destruct (string_char_plain b0 Hb0) as (_ & _ & _ & Hb0q).
  destruct (at_char_exists i (pre ++ [DQUOTE]) b0 (body0 ++ DQUOTE :: d :: rest))
    as (t & HatB' & HtkB & HnuB).
  { rewrite <- app_assoc. rewrite Hi, Hb. reflexivity. }
  { apply Forall_snoc_ne; [exact Hpre|discriminate]. }
  rewrite length_app in HatB'. cbn [length] in HatB'.
  pose proof (at_char_unique _ _ _ _ HatB HatB') as <-.
  rewrite read_as_id in HtkB by apply Hb0.
  exists tok, tok'. split; [exact Hat|].
  split; [eapply at_char_at; [exact Hat'|lia]|].
  split; [exact Htk'|]. split; [exact Hnu'|].
  cbn [_mytoml_parser_parse_value].
  rewrite (bind_done _ _ _ _ _ (has_token_at _ _)). rewrite Hnu.
  rewrite (bind_done _ _ _ _ _ (newline_not_here tok h ltac:(rewrite Htk; discriminate)
                                  ltac:(rewrite Htk; discriminate))).
  rewrite (bind_done _ _ _ _ _ (token_at _ _)). rewrite Htk.
  change (_mytoml_is_whitesapce DQUOTE) with false.
  change (_mytoml_is_basic_string_start DQUOTE) with true. cbv iota.
  rewrite (bind_done _ _ _ _ _ Hnext).
  rewrite (bind_done _ _ _ _ _ (has_token_at _ _)).
  rewrite (bind_done _ _ _ _ _ (token_at _ _)). rewrite HtkB, Hb0q, andb_false_r.
  rewrite (bind_done _ _ _ _ _ Hstr).
  unfold string_value, c_string, MYTOML_MAX_STRING_LENGTH.
  replace (Z.of_nat (length body) <? 4096) with true by (symmetry; apply Z.ltb_lt; lia).
  cbn [orb]. unfold bind, ret.
  rewrite cstr_without_zero; [reflexivity|].
  eapply Forall_impl; [exact Hbody|]. intros x Hx. apply (string_char_plain x Hx).
Qed.

(** [_mytoml_parser_parse_value] on blanks and a basic string of one line. *)
Lemma value_blanks_string (i : Input) (pre ws body : list Z) (d : Z) (rest : list Z)
    (h : heap) (num_end : list Z) (fuel : nat) :
  stream i = Some (pre ++ ws ++ DQUOTE :: body ++ DQUOTE :: d :: rest) ->
  Forall (fun x => x <> EOF) pre ->
  Forall (fun x => _mytoml_is_whitesapce x = true) ws ->
  Forall string_char body ->
  (1 <= length body <= 4095)%nat ->
  (length ws + length body + 2 < fuel)%nat ->
  exists tok tok',
    at_char i (length pre) tok
    /\ at_char i (length pre + length ws + length body + 2) tok'
    /\ token tok' = read_as d
    /\ is_null tok' = negb (d =? EOF)
    /\ _mytoml_parser_parse_value fuel num_end (mkMachine tok h)
       = Done (Some (_mytoml_value_new_string body)) (mkMachine tok' h).
Proof.
  intros Hi Hpre Hws Hbody Hlen Hfuel.
  destruct ws as [|w ws0] eqn:Hw.
  { cbn [app length] in *. rewrite Nat.add_0_r.
    apply (value_basic_string i pre body d rest h num_end fuel); try assumption. lia. }
  rewrite <- Hw in *.
  assert (Hw0 : _mytoml_is_whitesapce w = true).
  { rewrite Hw in Hws. inversion Hws; assumption. }
  pose proof (whitespace_not_eof w Hw0) as Hwe.
  destruct fuel as [|fuel]; [lia|].
  destruct (whitespace_run ws i pre DQUOTE (body ++ DQUOTE :: d :: rest) h fuel Hi Hpre Hws)
    as (tok & tokQ & Hat & HatQ & _ & _ & Hrun).
  { reflexivity. }
  { lia. }
  destruct (value_basic_string i (pre ++ ws) body d rest h num_end fuel)
    as (tokQ' & tok' & HatQ' & Hat' & Htk' & Hnu' & Hval); try assumption.
  { rewrite <- app_assoc. exact Hi. }
  { apply Forall_app. split; [exact Hpre|]. apply Forall_not_eof_blank. exact Hws. }
  { lia. }
  rewrite length_app in HatQ', Hat'.
  pose proof (at_char_unique _ _ _ _ HatQ HatQ') as <-.
  destruct (at_char_exists i pre w (ws0 ++ DQUOTE :: body ++ DQUOTE :: d :: rest))
    as (t & Hat0 & Htk & Hnu).
  { rewrite Hi, Hw. reflexivity. }
  { exact Hpre. }
  pose proof (at_char_unique _ _ _ _ Hat Hat0) as <-.
  rewrite read_as_id in Htk by exact Hwe. rewrite is_null_at in Hnu by exact Hwe.
  exists tok, tok'. split; [exact Hat|]. split; [exact Hat'|].
  split; [exact Htk'|]. split; [exact Hnu'|].
  cbn [_mytoml_parser_parse_value].
  rewrite (bind_done _ _ _ _ _ (has_token_at _ _)). rewrite Hnu.
  assert (Hwnl : w <> NL /\ w <> 13).
  { split; intros ->; vm_compute in Hw0; discriminate. }
  rewrite (bind_done _ _ _ _ _ (newline_not_here tok h ltac:(rewrite Htk; apply Hwnl)
                                  ltac:(rewrite Htk; apply Hwnl))).
  rewrite (bind_done _ _ _ _ _ (token_at _ _)). rewrite Htk, Hw0.
  rewrite (bind_done _ _ _ _ _ Hrun). exact Hval.
Qed.

Lemma whitespace_stays (tok : Tokenizer) (h : heap) (fuel : nat) :
  _mytoml_is_whitesapce (token tok) = false ->
  _mytoml_parser_parse_whitespace (S fuel) (mkMachine tok h) = Done tt (mkMachine tok h).
Proof.
  intros H. cbn [_mytoml_parser_parse_whitespace].
  rewrite (bind_done _ _ _ _ _ (has_token_at _ _)).
  destruct (is_null tok); [|reflexivity].
  rewrite (bind_done _ _ _ _ _ (token_at _ _)). rewrite H. reflexivity.
Qed.

Lemma prev_at (tok : Tokenizer) (h : heap) :
  PREV (mkMachine tok h) = Done (prev tok) (mkMachine tok h).
Proof. reflexivity. Qed.

(** X14.  A line [name = value] with a bare name and a basic string.  A
    file made of one such line, blanks or none around the equals sign, and
    the newline, loads as the root with the single subkey [name], a leaf
    whose value is the string between the quotes. *)
Theorem key_string_line (fs : list Z -> option (list Z)) (file name ws1 ws2 body : list Z)
    (fuel : nat) :
  fs file = Some (name ++ ws1 ++ ch "=" :: ws2 ++ DQUOTE :: body ++ [DQUOTE; NL]) ->
  Forall (fun x => _mytoml_is_bare_ascii x = true) name ->
  (1 <= length name <= 255)%nat ->
  Forall (fun x => _mytoml_is_whitesapce x = true) ws1 ->
  Forall (fun x => _mytoml_is_whitesapce x = true) ws2 ->
  Forall string_char body ->
  (1 <= length body <= 4095)%nat ->
  Z.of_nat (length ws1 + length ws2) + 4400 < MYTOML_MAX_FILE_SIZE ->
  (length name + length ws1 + length ws2 + length body + 4 < fuel)%nat ->
  exists tok,
    toml_load_file_name fuel fs file
    = Done (Some 0%nat)
        (mkMachine tok
           [set_subkeys {[name := 1%nat]} empty_root;
            mkTomlKey TOML_KEYLEAF name ∅ (Some (_mytoml_value_new_string body))
              (wrap64 (-1))]).
Proof.
  intros Hfs Hname Hnlen Hws1 Hws2 Hbody Hblen Hsize Hfuel.
  set (contents := name ++ ws1 ++ ch "=" :: ws2 ++ DQUOTE :: body ++ [DQUOTE; NL]) in *.
  set (i := mkInput I_File (FileName file) (Some (contents ++ [EOF]))).
  set (root1 := set_subkeys {[name := 1%nat]} empty_root).
  set (leaf0 := mkTomlKey TOML_KEYLEAF name ∅ None (wrap64 (-1))).
  set (v := _mytoml_value_new_string body).
  assert (Hlen : Z.of_nat (length contents) < MYTOML_MAX_FILE_SIZE).
  { unfold contents. repeat (rewrite length_app; cbn [length]).
    unfold MYTOML_MAX_FILE_SIZE in *. lia. }
  assert (Hi : stream i
               = Some (name ++ ws1 ++ ch "=" :: ws2 ++ DQUOTE :: body ++ DQUOTE :: NL :: [EOF])).
  { unfold i, contents. cbn [stream]. f_equal.
    repeat (rewrite <- app_assoc; cbn [app]). reflexivity. }
  destruct fuel as [|fuel]; [lia|].
  rewrite (load_file_name_start fs file contents (S fuel) Hfs Hlen). fold i.
  (* the first token *)
  assert (Hn : exists n0 name0, name = n0 :: name0)
    by (destruct name; [cbn in Hnlen; lia|eauto]).
  destruct Hn as (n0 & name0 & Hn).
  assert (Hn0 : _mytoml_is_bare_ascii n0 = true).
  { rewrite Hn in Hname. inversion Hname; assumption. }
  destruct (bare_ascii_plain n0 Hn0) as (Hn0e & Hn0z & Hn0dot & Hn0ws).
  destruct (first_token i n0 (name0 ++ ws1 ++ ch "=" :: ws2 ++ DQUOTE :: body
                                ++ DQUOTE :: NL :: [EOF]) [empty_root])
    as (tok0 & r0 & Hat0 & Htk0 & Hnu0 & Hpv0 & Hnext0).
  { rewrite Hi, Hn. reflexivity. }
  rewrite read_as_id in Htk0 by exact Hn0e. rewrite is_null_at in Hnu0 by exact Hn0e.
  (* the key *)
  assert (Htail : exists c rest,
             ws2 ++ DQUOTE :: body ++ DQUOTE :: NL :: [EOF] = c :: rest).
  { destruct ws2; eexists; eexists; reflexivity. }
  destruct Htail as (c & rest & Htail).
  destruct (parse_key_bare i name ws1 c rest empty_root tok0 fuel)
    as (tokV & HatV & _ & _ & Hkey); try assumption; try reflexivity; try discriminate.
  { rewrite Hi, Htail. reflexivity. }
  { lia. }
  (* the value *)
  destruct (value_blanks_string i (name ++ ws1 ++ [ch "="]) ws2 body NL [EOF] [root1; leaf0]
              (chars "# " ++ [NL]) fuel)
    as (tokV' & tokN & HatV' & HatN & HtkN & HnuN & Hval); try assumption.
  { rewrite Hi. repeat (rewrite <- app_assoc; cbn [app]). reflexivity. }
  { apply Forall_app. split; [apply Forall_not_eof_bare; exact Hname|].
    apply Forall_app. split; [apply Forall_not_eof_blank; exact Hws1|].
    apply Forall_cons. split; [discriminate|]. apply Forall_nil_2. }
  { lia. }
  rewrite !length_app in HatV', HatN. cbn [length] in HatV', HatN.
  assert (HatV'' : at_char i (length name + length ws1 + 1) tokV')
    by (eapply at_char_at; [exact HatV'|lia]).
  pose proof (at_char_unique _ _ _ _ HatV HatV'') as <-.
  change (read_as NL) with NL in HtkN. change (negb (NL =? EOF)) with true in HnuN.
  (* the end of input *)
  destruct (at_char_exists i
              (name ++ ws1 ++ ch "=" :: ws2 ++ DQUOTE :: body ++ [DQUOTE; NL]) EOF [])
    as (tokE & HatE & HtkE & HnuE).
  { rewrite Hi. repeat (rewrite <- app_assoc; cbn [app]). reflexivity. }
  { apply Forall_app. split; [apply Forall_not_eof_bare; exact Hname|].
    apply Forall_app. split; [apply Forall_not_eof_blank; exact Hws1|].
    apply Forall_cons. split; [discriminate|].
    apply Forall_app. split; [apply Forall_not_eof_blank; exact Hws2|].
    apply Forall_cons. split; [discriminate|].
    apply Forall_app. split; [apply Forall_not_eof_string; exact Hbody|].
    repeat (apply Forall_cons; split; [discriminate|]). apply Forall_nil_2. }
  change (negb (EOF =? EOF)) with false in HnuE.
  repeat (rewrite length_app in HatE; cbn [length] in HatE).
  subst root1 leaf0 v.
  set (h2 := [set_subkeys {[name := 1%nat]} empty_root;
              mkTomlKey TOML_KEYLEAF name ∅ (Some (_mytoml_value_new_string body))
                (wrap64 (-1))]).
  destruct (at_char_next i (length name + (length ws1 + 1) + length ws2 + length body + 2)
              tokN tokE h2 HatN) as (rE & HnextE).
  { eapply at_char_at; [exact HatE|]. lia. }
  exists tokE.
  (* the first statement *)
  assert (Hkv1 : _mytoml_parser_parse_key_value fuel 0%nat 0%nat (mkMachine tok0 [empty_root])
                 = Done (Some 0%nat) (mkMachine tokN h2)).
  { unfold _mytoml_parser_parse_key_value.
    rewrite (bind_done _ _ _ _ _ (token_at _ _)). rewrite Htk0.
    replace (_mytoml_is_comment_start n0) with false
      by (symmetry; apply Z.eqb_neq; intros ->; vm_compute in Hn0; discriminate).
    rewrite Hn0ws.
    rewrite (bind_done _ _ _ _ _
               (newline_not_here tok0 _
                  ltac:(rewrite Htk0; intros ->; vm_compute in Hn0; discriminate)
                  ltac:(rewrite Htk0; intros ->; vm_compute in Hn0; discriminate))).
    rewrite (bind_done _ _ _ _ _ (token_at _ _)). rewrite Htk0.
    replace (_mytoml_is_table_start n0) with false
      by (symmetry; apply Z.eqb_neq; intros ->; vm_compute in Hn0; discriminate).
    rewrite (bind_done _ _ _ _ _ (prev_at _ _)). rewrite Hpv0.
    unfold bind at 1. unfold on_tok at 1. cbn [mtok mheap].
    change (0 =? 0) with true. cbn [orb].
    rewrite (bind_done _ _ _ _ _ Hkey).
    rewrite (bind_done _ _ _ _ _ Hval).
    assert (Hatt : on_heap (attach_value fuel 1%nat (_mytoml_value_new_string body))
                     (mkMachine tokN [set_subkeys {[name := 1%nat]} empty_root;
                                     mkTomlKey TOML_KEYLEAF name ∅ None (wrap64 (-1))])
                   = Done true (mkMachine tokN h2)) by reflexivity.
    rewrite (bind_done _ _ _ _ _ Hatt).
    destruct fuel as [|fuel']; [lia|].
    rewrite (bind_done _ _ _ _ _ (whitespace_stays tokN h2 fuel'
                                    ltac:(rewrite HtkN; reflexivity))).
    reflexivity. }
  rewrite (bind_done _ _ _ _ _ Hnext0).
  cbn [parse_document].
  rewrite (bind_done _ _ _ _ _ (has_token_at _ _)). rewrite Hnu0.
  rewrite (bind_done _ _ _ _ _ Hkv1).
  (* the newline *)
  destruct fuel as [|fuel]; [lia|].
  cbn [parse_document].
  rewrite (bind_done _ _ _ _ _ (has_token_at _ _)). rewrite HnuN.
  assert (Hkv2 : _mytoml_parser_parse_key_value fuel 0%nat 0%nat (mkMachine tokN h2)
                 = Done (Some 0%nat) (mkMachine tokE h2)).
  { unfold _mytoml_parser_parse_key_value.
    rewrite (bind_done _ _ _ _ _ (token_at _ _)). rewrite HtkN.
    change (_mytoml_is_comment_start NL) with false.
    change (_mytoml_is_whitesapce NL) with false. cbv iota.
    rewrite (bind_done _ _ _ _ _ (newline_here tokN h2 HtkN)).
    rewrite (bind_done _ _ _ _ _ HnextE). reflexivity. }
  rewrite (bind_done _ _ _ _ _ Hkv2).
  destruct fuel as [|fuel]; [lia|].
  cbn [parse_document].
  rewrite (bind_done _ _ _ _ _ (has_token_at _ _)). rewrite HnuE. reflexivity.
Qed.

Lemma key_string_line_witness :
  exists tok,
    toml_load_file_name 32 (fs_const (lit "title = `TOML Example`" ++ [NL])) []
    = Done (Some 0%nat)
        (mkMachine tok
           [set_subkeys {[chars "title" := 1%nat]} empty_root;
            mkTomlKey TOML_KEYLEAF (chars "title") ∅
              (Some (_mytoml_value_new_string (chars "TOML Example"))) (wrap64 (-1))]).
Proof.
  apply (key_string_line (fs_const (lit "title = `TOML Example`" ++ [NL])) []
           (chars "title") [ch " "] [ch " "] (chars "TOML Example") 32).
  - reflexivity.
  - repeat (apply Forall_cons; split; [reflexivity|]). apply Forall_nil_2.
  - cbn. lia.
  - repeat (apply Forall_cons; split; [reflexivity|]). apply Forall_nil_2.
  - repeat (apply Forall_cons; split; [reflexivity|]). apply Forall_nil_2.
  - repeat (apply Forall_cons; split;
            [repeat split; first [discriminate | reflexivity]|]).
    apply Forall_nil_2.
  - cbn. lia.
  - reflexivity.
  - cbn. lia.
Defined.

(** ** Literal strings *)

(** The loop of [_mytoml_parser_parse_literal_string] (one line) with
    [value] already collected, over the remaining characters [body] and the
    closing quote. *)
Lemma literal_string_loop (body : list Z) :
  forall (i : Input) (pre value : list Z) (d : Z) (rest : list Z) (h : heap) (fuel : nat),
    stream i = Some (pre ++ body ++ ch "'" :: d :: rest) ->
    Forall (fun x => x <> EOF) pre ->
    Forall literal_char body ->
    (length body < fuel)%nat ->
    exists tok,
      at_char i (length pre) tok
      /\ basic_string_result i (length pre + length body + 1) d (value ++ body) h
           (_mytoml_parser_parse_literal_string fuel value false (mkMachine tok h)).
Proof.
  induction body as [|b body IH]; intros i pre value d rest h fuel Hi Hpre Hbody Hfuel.
  - cbn [app length] in *. rewrite app_nil_r, Nat.add_0_r.
    destruct (at_char_exists i pre (ch "'") (d :: rest) Hi Hpre) as (tok & Hat & Htk & Hnu).
    change (read_as (ch "'")) with (ch "'") in Htk.
    change (negb (ch "'" =? EOF)) with true in Hnu.
    destruct (at_char_exists i (pre ++ [ch "'"]) d rest) as (tok1 & Hat1 & Htk1 & Hnu1).
    { rewrite <- app_assoc. exact Hi. }
    { apply Forall_snoc_ne; [exact Hpre|discriminate]. }
    rewrite length_app in Hat1. cbn [length] in Hat1.
    pose proof Hat1 as Hat1'.
    replace (length pre + 1)%nat with (S (length pre)) in Hat1' by lia.
    destruct (at_char_next _ _ _ _ h Hat Hat1') as (r & Hnext).
    exists tok. split; [exact Hat|].
    destruct fuel as [|fuel]; [lia|].
    unfold basic_string_result. cbn [_mytoml_parser_parse_literal_string].
    rewrite (bind_done _ _ _ _ _ (has_token_at _ _)). rewrite Hnu.
    unfold MYTOML_MAX_STRING_LENGTH.
    destruct (Z.ltb_spec (Z.of_nat (length value)) 4096) as [Hlt|Hge]; cbn [negb].
    + rewrite (bind_done _ _ _ _ _ (token_at _ _)). rewrite Htk.
      change (_mytoml_is_literal_string_start (ch "'")) with true. cbv iota.
      rewrite (bind_done _ _ _ _ _ Hnext).
      rewrite bool_decide_eq_true_2 by lia.
      exists tok1. split; [exact Hat1|]. split; [exact Htk1|]. split; [exact Hnu1|reflexivity].
    + rewrite bool_decide_eq_false_2 by lia. eexists. reflexivity.
  - inversion Hbody as [|? ? Hb Hbody']; subst.
    destruct Hb as (Hbe & Hbq & Hbnl & Hbctl).
    assert (Hbcr : b <> 13) by (intros ->; vm_compute in Hbctl; discriminate).
    destruct (at_char_exists i pre b _ Hi Hpre) as (tok & Hat & Htk & Hnu).
    rewrite read_as_id in Htk by exact Hbe. rewrite is_null_at in Hnu by exact Hbe.
    exists tok. split; [exact Hat|].
    destruct fuel as [|fuel]; [cbn in Hfuel; lia|].
    destruct (IH i (pre ++ [b]) (value ++ [b]) d rest h fuel) as (tok1 & Hat1 & Hrun).
    { rewrite <- app_assoc. exact Hi. }
    { apply Forall_snoc_ne; assumption. }
    { exact Hbody'. }
    { cbn in Hfuel. lia. }
    rewrite length_app in Hat1, Hrun. cbn [length] in Hat1, Hrun.
    replace (length pre + 1)%nat with (S (length pre)) in Hat1 by lia.
    destruct (at_char_next _ _ _ _ h Hat Hat1) as (r & Hnext).
    rewrite <- app_assoc in Hrun. cbn [app] in Hrun.
    cbn [length].
    replace (length pre + S (length body) + 1)%nat
      with (length pre + 1 + length body + 1)%nat by lia.
    pose proof (newline_not_here tok h ltac:(rewrite Htk; exact Hbnl)
                  ltac:(rewrite Htk; exact Hbcr)) as Hnl.
    destruct (Z.ltb_spec (Z.of_nat (length value)) 4096) as [Hlt|Hge].
    + assert (Hstep : _mytoml_parser_parse_literal_string (S fuel) value false
                        (mkMachine tok h)
                      = _mytoml_parser_parse_literal_string fuel (value ++ [b]) false
                          (mkMachine tok1 h)).
      { cbn [_mytoml_parser_parse_literal_string].
        rewrite (bind_done _ _ _ _ _ (has_token_at _ _)). rewrite Hnu.
        unfold MYTOML_MAX_STRING_LENGTH.
        replace (Z.of_nat (length value) <? 4096) with true
          by (symmetry; apply Z.ltb_lt; exact Hlt).
        cbn [negb].
        rewrite (bind_done _ _ _ _ _ (token_at _ _)). rewrite Htk.
        replace (_mytoml_is_literal_string_start b) with false
          by (symmetry; apply Z.eqb_neq; exact Hbq).
        rewrite (bind_done _ _ _ _ _ Hnl). cbn [andb].
        rewrite (bind_done _ _ _ _ _ Hnl). cbn [andb].
        rewrite (bind_done _ _ _ _ _ (token_at _ _)). rewrite Htk, Hbctl.
        unfold buf_push.
        replace (Z.of_nat (length value) <? 4096) with true
          by (symmetry; apply Z.ltb_lt; exact Hlt).
        unfold bind at 1, ret at 1.
        rewrite (bind_done _ _ _ _ _ Hnext). reflexivity. }
      rewrite Hstep. exact Hrun.
    + unfold basic_string_result.
      rewrite bool_decide_eq_false_2 by (rewrite length_app; cbn [length]; lia).
      cbn [_mytoml_parser_parse_literal_string].
      rewrite (bind_done _ _ _ _ _ (has_token_at _ _)). rewrite Hnu.
      unfold MYTOML_MAX_STRING_LENGTH.
      replace (Z.of_nat (length value) <? 4096) with false
        by (symmetry; apply Z.ltb_ge; exact Hge).
      eexists. reflexivity.
Qed.

(** X15.  A literal string of one line is read as it is written, a
    backslash or a double quote included, up to 4095 characters.  From the
    character after the opening quote,
    [_mytoml_parser_parse_literal_string] returns the characters up to the
    closing quote and leaves the cursor after that quote; it returns the
    null pointer when there are 4096 characters or more. *)
Theorem literal_string_verbatim (i : Input) (pre body : list Z) (d : Z) (rest : list Z)
    (h : heap) (fuel : nat) :
  stream i = Some (pre ++ body ++ ch "'" :: d :: rest) ->
  Forall (fun x => x <> EOF) pre ->
  Forall literal_char body ->
  (length body < fuel)%nat ->
  exists tok,
    at_char i (length pre) tok
    /\ if bool_decide (length body <= 4095)%nat
       then exists tok',
           at_char i (length pre + length body + 1) tok'
           /\ token tok' = read_as d
           /\ _mytoml_parser_parse_literal_string fuel [] false (mkMachine tok h)
              = Done (Some body) (mkMachine tok' h)
       else exists st,
           _mytoml_parser_parse_literal_string fuel [] false (mkMachine tok h) = Done None st.
Proof.
  intros Hi Hpre Hbody Hfuel.
  destruct (literal_string_loop body i pre [] d rest h fuel Hi Hpre Hbody Hfuel)
    as (tok & Hat & Hrun).
  exists tok. split; [exact Hat|]. cbn [app] in Hrun. unfold basic_string_result in Hrun.
  destruct (bool_decide (length body <= 4095)%nat); [|exact Hrun].
  destruct Hrun as (tok' & Hat' & Htk & _ & Hrun). exists tok'.
  split; [exact Hat'|]. split; [exact Htk|exact Hrun].
Qed.

Lemma literal_string_verbatim_witness :
  let i := mkInput I_STREAM FileUnset (Some (chars "'C:\n'" ++ [NL])) in
  exists tok,
    at_char i 1 tok
    /\ exists tok',
      at_char i 6 tok'
      /\ token tok' = NL
      /\ _mytoml_parser_parse_literal_string 5 [] false (mkMachine tok [])
         = Done (Some (chars "C:\n")) (mkMachine tok' []).
Proof.
  intros i.
  apply (literal_string_verbatim i [ch "'"] (chars "C:\n") NL [] [] 5).
  - reflexivity.
  - apply Forall_cons. split; [discriminate|]. apply Forall_nil_2.
  - repeat (apply Forall_cons; split;
            [repeat split; first [discriminate | reflexivity]|]).
    apply Forall_nil_2.
  - cbn. lia.
Defined.

(** ** The serializer: its buffer *)

Lemma value_dump_appends (fuel : nat) (v : TomlValue) (h h' : heap) (o : list piece) :
  toml_value_dump_buffer fuel v h = Done o h' -> exists p o', o = p :: o'.
Proof.
  destruct fuel as [|fuel]; [discriminate|].
  cbn [toml_value_dump_buffer]. unfold dump_tm.
  destruct (vtype v); destruct (data v); try discriminate;
    try (intros H; injection H as <- <-; eexists; eexists; reflexivity).
  all: try (destruct (arr v) as [rows|]; [|discriminate];
            destruct (Z.of_nat (length rows) <? MYTOML_MAX_ARRAY_LENGTH); [|discriminate]).
  all: unfold bind, deref, ret.
  all: try match goal with
           | |- context [dump_list ?f ?l ?h] => destruct (dump_list f l h); try discriminate
           end.
  all: try (intros H; injection H as <- <-; eexists; eexists; reflexivity).
  all: destruct (h !! k) as [kk|]; [|discriminate].
  all: match goal with
       | |- context [dump_list ?f ?l ?h] => destruct (dump_list f l h); try discriminate
       end.
  all: intros H; injection H as <- <-; eexists; eexists; reflexivity.
Qed.

Lemma key_dump_appends (fuel : nat) (k : ptr) (h h' : heap) (o : list piece) :
  toml_key_dump_buffer fuel k h = Done o h' -> exists p o', o = p :: o'.
Proof.
  destruct fuel as [|fuel]; [discriminate|].
  cbn [toml_key_dump_buffer]. unfold bind, deref, ret.
  destruct (h !! k) as [kk|]; [|discriminate].
  destruct (value kk) as [v|].
  - destruct (bool_decide (ktype kk = TOML_KEYLEAF)
              && negb (bool_decide (vtype v = TOML_INLINETABLE))).
    + destruct (toml_value_dump_buffer fuel v h); try discriminate.
      intros H; injection H as <- <-. eexists; eexists; reflexivity.
    + destruct (bool_decide (ktype kk = TOML_ARRAYTABLE)).
      * destruct (arr v) as [rows|]; [|discriminate].
        destruct (idx kk <? Z.of_nat (length rows)); [|discriminate].
        match goal with
        | |- context [dump_list ?f ?l ?h] => destruct (dump_list f l h); try discriminate
        end.
        intros H; injection H as <- <-. eexists; eexists; reflexivity.
      * match goal with
        | |- context [dump_list ?f ?l ?h] => destruct (dump_list f l h); try discriminate
        end.
        intros H; injection H as <- <-. eexists; eexists; reflexivity.
  - cbn [andb]. cbv iota.
    destruct (bool_decide (ktype kk = TOML_ARRAYTABLE)); [discriminate|].
    match goal with
    | |- context [dump_list ?f ?l ?h] => destruct (dump_list f l h); try discriminate
    end.
    intros H; injection H as <- <-. eexists; eexists; reflexivity.
Qed.

(** X16.  [toml_key_dumps] and [toml_value_dumps] start from a string
    literal, which the first append passes to [realloc]: whenever the dump
    itself runs to its end, the call has undefined behaviour.  The same dump
    into a null buffer returns the pieces written. *)
Theorem dumps_realloc_literal (fuel : nat) (h : heap) :
  (forall v o h',
      toml_value_dump_buffer fuel v h = Done o h' ->
      toml_value_dumps fuel v h = Undefined
      /\ dump_into (toml_value_dump_buffer fuel v) BufNull h = Done (BufHeap o) h')
  /\ (forall k o h',
      toml_key_dump_buffer fuel k h = Done o h' ->
      toml_key_dumps fuel k h = Undefined
      /\ dump_into (toml_key_dump_buffer fuel k) BufNull h = Done (BufHeap o) h').
Proof.
  assert (Hheap : forall o out, append_pieces o (BufHeap out) = Done tt (BufHeap (out ++ o))).
  { induction o as [|p o IH]; intros out.
    - rewrite app_nil_r. reflexivity.
    - unfold append_pieces. cbn [for_each]. unfold bind. cbn [_mytoml_append_to_buffer].
      fold (append_pieces o). rewrite IH, <- app_assoc. reflexivity. }
  assert (Hnull : forall p o, append_pieces (p :: o) BufNull = Done tt (BufHeap (p :: o))).
  { intros p o. unfold append_pieces. cbn [for_each]. unfold bind.
    cbn [_mytoml_append_to_buffer]. fold (append_pieces o). apply Hheap. }
  split.
  - intros v o h' Hd. destruct (value_dump_appends _ _ _ _ _ Hd) as (p & o' & ->).
    unfold toml_value_dumps, dump_into. rewrite Hd, Hnull. split; reflexivity.
  - intros k o h' Hd. destruct (key_dump_appends _ _ _ _ _ Hd) as (p & o' & ->).
    unfold toml_key_dumps, dump_into. rewrite Hd, Hnull. split; reflexivity.
Qed.

Lemma dumps_realloc_literal_witness :
  let v := _mytoml_value_new_string (chars "b") in
  let h := [string_leaf (chars "a") (chars "b")] in
  toml_value_dumps 1 v h = Undefined /\ toml_key_dumps 2 0%nat h = Undefined.
Proof.
  intros v h.
  destruct (dumps_realloc_literal 1 h) as (Hv & _).
  destruct (dumps_realloc_literal 2 h) as (_ & Hk).
  split.
  - exact (proj1 (Hv v _ _ eq_refl)).
  - exact (proj1 (Hk 0%nat _ _ eq_refl)).
Defined.

(** ** A table header and a line under it *)

(** The token before the current one. *)
Lemma at_char_prev (i : Input) (pre : list Z) (c d : Z) (rest : list Z) :
  stream i = Some (pre ++ c :: d :: rest) ->
  Forall (fun x => x <> EOF) pre ->
  c <> EOF ->
  exists tok, at_char i (S (length pre)) tok /\ token tok = read_as d /\ prev tok = c.
Proof.
  intros Hi Hpre Hc. destruct i as [ty f s]. cbn in Hi. subst s.
  destruct (tokenizer_after_prefix pre c (d :: rest) ty f Hpre)
    as (tok & Hrun & Hin & Htk & Hnu & Hcu & Hli & _).
  rewrite read_as_id in Htk by exact Hc. rewrite is_null_at in Hnu by exact Hc.
  destruct (next_token_step tok (pre ++ c :: d :: rest) d)
    as (tok' & Hstep & _ & _ & Htk' & Hpv & _); try lia.
  { exact Hnu. }
  { rewrite Hin. reflexivity. }
  { rewrite Hcu. replace (Z.to_nat (Z.of_nat (length pre) + 1)) with (S (length pre)) by lia.
    rewrite lookup_app_r by lia.
    replace (S (length pre) - length pre)%nat with 1%nat by lia. reflexivity. }
  exists tok'. split; [|split; [exact Htk'|rewrite Hpv; exact Htk]].
  unfold at_char. replace (S (S (length pre))) with (S (length pre) + 1)%nat by lia.
  rewrite iter_next_add. unfold bind at 1. rewrite Hrun.
  change (iter_next 1 tok) with ((_mytoml_tokenizer_next_token;; ret tt) tok).
  unfold bind. rewrite Hstep. reflexivity.
Qed.

(** [_mytoml_parser_parse_key] and [_mytoml_parser_parse_table] on one bare
    name that the node [key] does not hold yet: the new leaf is entered in
    [key] and the cursor passes the terminator. *)
Lemma parse_dotted_bare (i : Input) (pre name ws : list Z) (end_ c : Z) (rest : list Z)
    (branch leaf : TomlKeyType) (h : heap) (key : ptr) (k : TomlKey) (tok : Tokenizer)
    (fuel : nat) :
  stream i = Some (pre ++ name ++ ws ++ end_ :: c :: rest) ->
  Forall (fun x => x <> EOF) pre ->
  Forall (fun x => _mytoml_is_bare_ascii x = true) name ->
  (1 <= length name <= 255)%nat ->
  Forall (fun x => _mytoml_is_whitesapce x = true) ws ->
  end_ <> EOF -> _mytoml_is_dot end_ = false -> _mytoml_is_bare_ascii end_ = false ->
  _mytoml_is_whitesapce end_ = false ->
  h !! key = Some k ->
  subkeys k !! name = None ->
  ktype k <> TOML_ARRAYTABLE ->
  Z.of_nat (size (subkeys k)) < MYTOML_MAX_SUBKEYS ->
  at_char i (length pre) tok ->
  (length name + length ws + 3 < fuel)%nat ->
  exists tok',
    at_char i (length pre + length name + length ws + 1) tok'
    /\ token tok' = read_as c
    /\ is_null tok' = negb (c =? EOF)
    /\ parse_dotted fuel end_ branch leaf false key true (mkMachine tok h)
       = Done (Some (length h))
              (mkMachine tok'
                 (<[key := set_subkeys (<[name := length h]> (subkeys k)) k]>
                    (h ++ [mkTomlKey leaf name ∅ None (wrap64 (-1))]))).
Proof.
  intros Hi Hpre Hname Hlen Hws He Hdot Hbare Hews Hk Hnone Harr Hroom Hat Hfuel.
  assert (Hn : exists n0 name0, name = n0 :: name0)
    by (destruct name; [cbn in Hlen; lia|eauto]).
  destruct Hn as (n0 & name0 & Hn).
  assert (Hn0 : _mytoml_is_bare_ascii n0 = true).
  { rewrite Hn in Hname. inversion Hname; assumption. }
  destruct (bare_ascii_plain n0 Hn0) as (Hn0e & Hn0z & Hn0dot & Hn0ws).
  destruct (at_char_exists i pre n0 (name0 ++ ws ++ end_ :: c :: rest)) as (t & Hat0 & Htk & Hnu).
  { rewrite Hi, Hn. reflexivity. }
  { exact Hpre. }
  pose proof (at_char_unique _ _ _ _ Hat Hat0) as <-.
  rewrite read_as_id in Htk by exact Hn0e. rewrite is_null_at in Hnu by exact Hn0e.
  destruct fuel as [|fuel]; [lia|].
  destruct (bare_key_loop name i pre ws [] end_ (c :: rest) branch leaf h fuel)
    as (t & Hat0' & Hbk); try assumption.
  { apply Forall_nil_2. }
  { lia. }
  pose proof (at_char_unique _ _ _ _ Hat Hat0') as <-.
  unfold bare_key_result in Hbk. cbn [app] in Hbk.
  rewrite bool_decide_eq_true_2 in Hbk by exact Hlen.
  destruct Hbk as (tokE & HatE & HtkE & HnuE & Hbk).
  fold (_mytoml_parser_bare_key fuel end_ branch leaf) in Hbk.
  set (sk := mkTomlKey leaf name ∅ None (wrap64 (-1))) in *.
  set (h' := <[key := set_subkeys (<[name := length h]> (subkeys k)) k]> (h ++ [sk])).
  destruct (at_char_exists i (pre ++ name ++ ws ++ [end_]) c rest) as (tok' & Hat' & Htk' & Hnu').
  { rewrite Hi. repeat (rewrite <- app_assoc; cbn [app]). reflexivity. }
  { apply Forall_app. split; [exact Hpre|].
    apply Forall_app. split; [apply Forall_not_eof_bare; exact Hname|].
    apply Forall_app. split; [apply Forall_not_eof_blank; exact Hws|].
    apply Forall_cons. split; [exact He|]. apply Forall_nil_2. }
  repeat (rewrite length_app in Hat'; cbn [length] in Hat').
  destruct (at_char_next i (length pre + length name + length ws) tokE tok' h' HatE)
    as (r & Hnext).
  { eapply at_char_at; [exact Hat'|]. lia. }
  exists tok'. split; [eapply at_char_at; [exact Hat'|lia]|].
  split; [exact Htk'|]. split; [exact Hnu'|].
  cbn [parse_dotted].
  rewrite (bind_done _ _ _ _ _ (has_token_at _ _)). rewrite Hnu.
  rewrite (bind_done _ _ _ _ _ (token_at _ _)). rewrite Htk.
  replace (n0 =? end_) with false by (symmetry; apply Z.eqb_neq; intros ->; congruence).
  rewrite Hn0dot, Hn0ws.
  replace (_mytoml_is_basic_string_start n0) with false
    by (symmetry; apply Z.eqb_neq; intros ->; vm_compute in Hn0; discriminate).
  replace (_mytoml_is_literal_string_start n0) with false
    by (symmetry; apply Z.eqb_neq; intros ->; vm_compute in Hn0; discriminate).
  rewrite (bind_done _ _ _ _ _ Hbk).
  destruct fuel as [|fuel]; [lia|].
  assert (Hadd : on_heap (_mytoml_value_add_sub_key (S fuel) key (length h))
                   (mkMachine tokE (h ++ [sk]))
                 = Done (Some (length h)) (mkMachine tokE h')).
  { unfold on_heap. cbn [mheap mtok].
    rewrite (add_sub_key_new fuel (h ++ [sk]) key (length h) k sk); try assumption.
    - reflexivity.
    - apply lookup_app_l_Some. exact Hk.
    - rewrite lookup_app_r by lia. rewrite Nat.sub_diag. reflexivity. }
  rewrite (bind_done _ _ _ _ _ Hadd).
  cbn [parse_dotted].
  rewrite (bind_done _ _ _ _ _ (has_token_at _ _)). rewrite HnuE.
  rewrite (bind_done _ _ _ _ _ (token_at _ _)). rewrite HtkE, Z.eqb_refl.
  rewrite (bind_done _ _ _ _ _ Hnext). reflexivity.
Qed.

(** X17.  A key line under a table header.  A file made of a header
    [\[table\]] with a bare name and, on the next line, a bare key bound to
    a basic string, loads as the root with the single subkey [table], a
    TableLeaf, whose single subkey is the key, a leaf holding the string. *)
Theorem table_then_key (fs : list Z -> option (list Z))
    (file tname kname ws1 ws2 body : list Z) (fuel : nat) :
  fs file = Some (ch "[" :: tname ++ ch "]" :: NL
                    :: kname ++ ws1 ++ ch "=" :: ws2 ++ DQUOTE :: body ++ [DQUOTE; NL]) ->
  Forall (fun x => _mytoml_is_bare_ascii x = true) tname ->
  (1 <= length tname <= 255)%nat ->
  Forall (fun x => _mytoml_is_bare_ascii x = true) kname ->
  (1 <= length kname <= 255)%nat ->
  Forall (fun x => _mytoml_is_whitesapce x = true) ws1 ->
  Forall (fun x => _mytoml_is_whitesapce x = true) ws2 ->
  Forall string_char body ->
  (1 <= length body <= 4095)%nat ->
  Z.of_nat (length ws1 + length ws2) + 4700 < MYTOML_MAX_FILE_SIZE ->
  (length tname + length kname + length ws1 + length ws2 + length body + 8 < fuel)%nat ->
  exists tok,
    toml_load_file_name fuel fs file
    = Done (Some 0%nat)
        (mkMachine tok
           [set_subkeys {[tname := 1%nat]} empty_root;
            mkTomlKey TOML_TABLELEAF tname {[kname := 2%nat]} None (wrap64 (-1));
            mkTomlKey TOML_KEYLEAF kname ∅ (Some (_mytoml_value_new_string body))
              (wrap64 (-1))]).
Proof.
  intros Hfs Htname Htlen Hkname Hklen Hws1 Hws2 Hbody Hblen Hsize Hfuel.
  set (contents := ch "[" :: tname ++ ch "]" :: NL
                     :: kname ++ ws1 ++ ch "=" :: ws2 ++ DQUOTE :: body ++ [DQUOTE; NL]) in *.
  set (i := mkInput I_File (FileName file) (Some (contents ++ [EOF]))).
  assert (Hlen : Z.of_nat (length contents) < MYTOML_MAX_FILE_SIZE).
  { unfold contents. cbn [length]. repeat (rewrite length_app; cbn [length]).
    unfold MYTOML_MAX_FILE_SIZE in *. lia. }
  assert (Hi : stream i
               = Some (ch "[" :: tname ++ ch "]" :: NL
                         :: kname ++ ws1 ++ ch "=" :: ws2 ++ DQUOTE :: body
                         ++ DQUOTE :: NL :: [EOF])).
  { unfold i, contents. cbn [stream app]. do 2 f_equal.
    repeat (rewrite <- app_assoc; cbn [app]). reflexivity. }
  destruct fuel as [|[|[|fuel]]]; try lia.
  rewrite (load_file_name_start fs file contents (S (S (S fuel))) Hfs Hlen). fold i.
  assert (Ht : exists t0 tname0, tname = t0 :: tname0)
    by (destruct tname; [cbn in Htlen; lia|eauto]).
  destruct Ht as (t0 & tname0 & Ht).
  assert (Ht0 : _mytoml_is_bare_ascii t0 = true).
  { rewrite Ht in Htname. inversion Htname; assumption. }
  destruct (bare_ascii_plain t0 Ht0) as (Ht0e & _).
  assert (Hk : exists k0 kname0, kname = k0 :: kname0)
    by (destruct kname; [cbn in Hklen; lia|eauto]).
  destruct Hk as (k0 & kname0 & Hk).
  assert (Hk0 : _mytoml_is_bare_ascii k0 = true).
  { rewrite Hk in Hkname. inversion Hkname; assumption. }
  destruct (bare_ascii_plain k0 Hk0) as (Hk0e & _ & _ & Hk0ws).
  (* the opening bracket *)
  destruct (first_token i (ch "[") _ [empty_root] Hi)
    as (tok0 & r0 & Hat0 & Htk0 & Hnu0 & _ & Hnext0).
  change (read_as (ch "[")) with (ch "[") in Htk0.
  change (negb (ch "[" =? EOF)) with true in Hnu0.
  destruct (at_char_exists i [ch "["] t0
              (tname0 ++ ch "]" :: NL :: kname ++ ws1 ++ ch "=" :: ws2 ++ DQUOTE :: body
                 ++ DQUOTE :: NL :: [EOF]))
    as (tokT & HatT & HtkT & _).
  { rewrite Hi, Ht. reflexivity. }
  { apply Forall_cons. split; [discriminate|]. apply Forall_nil_2. }
  rewrite read_as_id in HtkT by exact Ht0e. cbn [length] in HatT.
  destruct (at_char_next i 0 tok0 tokT [empty_root] Hat0 HatT) as (rT & HnextT).
  (* the header *)
  destruct (parse_dotted_bare i [ch "["] tname [] (ch "]") NL
              (kname ++ ws1 ++ ch "=" :: ws2 ++ DQUOTE :: body ++ DQUOTE :: NL :: [EOF])
              TOML_TABLE TOML_TABLELEAF [empty_root] 0%nat empty_root tokT (S (S fuel)))
    as (tokA & HatA & HtkA & HnuA & Htable); try assumption; try reflexivity;
    try discriminate.
  { apply Forall_cons. split; [discriminate|]. apply Forall_nil_2. }
  { apply Forall_nil_2. }
  { cbn [length]. lia. }
  change (read_as NL) with NL in HtkA. change (negb (NL =? EOF)) with true in HnuA.
  cbn [length Nat.add] in HatA.
  set (tleaf := mkTomlKey TOML_TABLELEAF tname ∅ None (wrap64 (-1))) in *.
  set (root1 := set_subkeys {[tname := 1%nat]} empty_root).
  assert (Htable' : parse_dotted (S (S fuel)) (ch "]") TOML_TABLE TOML_TABLELEAF false 0%nat true
                      (mkMachine tokT [empty_root])
                    = Done (Some 1%nat) (mkMachine tokA [root1; tleaf])).
  { rewrite Htable. reflexivity. }
  clear Htable.
  (* the first line of the table *)
  destruct (at_char_prev i (ch "[" :: tname ++ [ch "]"]) NL k0
              (kname0 ++ ws1 ++ ch "=" :: ws2 ++ DQUOTE :: body ++ DQUOTE :: NL :: [EOF]))
    as (tokK & HatK & HtkK & HpvK).
  { rewrite Hi, Hk. cbn [app]. rewrite <- app_assoc. reflexivity. }
  { apply Forall_cons. split; [discriminate|].
    apply Forall_app. split; [apply Forall_not_eof_bare; exact Htname|].
    apply Forall_cons. split; [discriminate|]. apply Forall_nil_2. }
  { discriminate. }
  rewrite read_as_id in HtkK by exact Hk0e.
  cbn [length] in HatK. rewrite length_app in HatK. cbn [length] in HatK.
  destruct (at_char_next i (S (length tname + 0 + 1)) tokA tokK [root1; tleaf] HatA)
    as (rK & HnextK).
  { eapply at_char_at; [exact HatK|]. lia. }
  assert (Htail : exists c rest,
             ws2 ++ DQUOTE :: body ++ DQUOTE :: NL :: [EOF] = c :: rest).
  { destruct ws2; eexists; eexists; reflexivity. }
  destruct Htail as (c & rest & Htail).
  destruct (parse_dotted_bare i (ch "[" :: tname ++ [ch "]"; NL]) kname ws1 (ch "=") c rest
              TOML_KEY TOML_KEYLEAF [root1; tleaf] 1%nat tleaf tokK fuel)
    as (tokV & HatV & _ & _ & Hkey); try assumption; try reflexivity; try discriminate.
  { rewrite Hi, Htail. cbn [app]. rewrite <- app_assoc. reflexivity. }
  { apply Forall_cons. split; [discriminate|].
    apply Forall_app. split; [apply Forall_not_eof_bare; exact Htname|].
    repeat (apply Forall_cons; split; [discriminate|]). apply Forall_nil_2. }
  { cbn [length]. rewrite length_app. cbn [length]. eapply at_char_at; [exact HatK|]. lia. }
  { lia. }
  set (kleaf0 := mkTomlKey TOML_KEYLEAF kname ∅ None (wrap64 (-1))) in *.
  set (tnode := mkTomlKey TOML_TABLELEAF tname {[kname := 2%nat]} None (wrap64 (-1))).
  assert (Hkey' : parse_dotted fuel (ch "=") TOML_KEY TOML_KEYLEAF false 1%nat true
                    (mkMachine tokK [root1; tleaf])
                  = Done (Some 2%nat) (mkMachine tokV [root1; tnode; kleaf0])).
  { rewrite Hkey. reflexivity. }
  clear Hkey.
  (* the value *)
  destruct (value_blanks_string i (ch "[" :: tname ++ [ch "]"; NL] ++ kname ++ ws1 ++ [ch "="])
              ws2 body NL [EOF] [root1; tnode; kleaf0] (chars "# " ++ [NL]) fuel)
    as (tokV' & tokN & HatV' & HatN & HtkN & HnuN & Hval); try assumption.
  { rewrite Hi. cbn [app]. repeat (rewrite <- app_assoc; cbn [app]). reflexivity. }
  { apply Forall_cons. split; [discriminate|].
    apply Forall_app. split; [apply Forall_not_eof_bare; exact Htname|].
    repeat (apply Forall_cons; split; [discriminate|]).
    apply Forall_app. split; [apply Forall_not_eof_bare; exact Hkname|].
    apply Forall_app. split; [apply Forall_not_eof_blank; exact Hws1|].
    apply Forall_cons. split; [discriminate|]. apply Forall_nil_2. }
  { lia. }
  cbn [length] in HatV, HatV', HatN.
  repeat (rewrite length_app in HatV; cbn [length] in HatV).
  repeat (rewrite length_app in HatV'; cbn [length] in HatV').
  repeat (rewrite length_app in HatN; cbn [length] in HatN).
  assert (HatV'' : at_char i (S (length tname + 2) + length kname + length ws1 + 1) tokV')
    by (eapply at_char_at; [exact HatV'|lia]).
  pose proof (at_char_unique _ _ _ _ HatV HatV'') as <-.
  change (read_as NL) with NL in HtkN. change (negb (NL =? EOF)) with true in HnuN.
  (* the end of input *)
  destruct (at_char_exists i
              (ch "[" :: tname ++ ch "]" :: NL
                 :: kname ++ ws1 ++ ch "=" :: ws2 ++ DQUOTE :: body ++ [DQUOTE; NL]) EOF [])
    as (tokE & HatE & HtkE & HnuE).
  { rewrite Hi. cbn [app]. repeat (rewrite <- app_assoc; cbn [app]). reflexivity. }
  { apply Forall_cons. split; [discriminate|].
    apply Forall_app. split; [apply Forall_not_eof_bare; exact Htname|].
    repeat (apply Forall_cons; split; [discriminate|]).
    apply Forall_app. split; [apply Forall_not_eof_bare; exact Hkname|].
    apply Forall_app. split; [apply Forall_not_eof_blank; exact Hws1|].
    apply Forall_cons. split; [discriminate|].
    apply Forall_app. split; [apply Forall_not_eof_blank; exact Hws2|].
    apply Forall_cons. split; [discriminate|].
    apply Forall_app. split; [apply Forall_not_eof_string; exact Hbody|].
    repeat (apply Forall_cons; split; [discriminate|]). apply Forall_nil_2. }
  change (negb (EOF =? EOF)) with false in HnuE.
  cbn [length] in HatE. repeat (rewrite length_app in HatE; cbn [length] in HatE).
  subst root1 tnode kleaf0 tleaf.
  set (h1 := [set_subkeys {[tname := 1%nat]} empty_root;
              mkTomlKey TOML_TABLELEAF tname ∅ None (wrap64 (-1))]) in *.
  set (h2 := [set_subkeys {[tname := 1%nat]} empty_root;
              mkTomlKey TOML_TABLELEAF tname {[kname := 2%nat]} None (wrap64 (-1));
              mkTomlKey TOML_KEYLEAF kname ∅ None (wrap64 (-1))]) in *.
  set (h3 := [set_subkeys {[tname := 1%nat]} empty_root;
              mkTomlKey TOML_TABLELEAF tname {[kname := 2%nat]} None (wrap64 (-1));
              mkTomlKey TOML_KEYLEAF kname ∅ (Some (_mytoml_value_new_string body))
                (wrap64 (-1))]).
  match type of HatN with
  | at_char _ ?n _ =>
      destruct (at_char_next i n tokN tokE h3 HatN) as (rE & HnextE);
        [eapply at_char_at; [exact HatE|]; lia|]
  end.
  exists tokE.
  (* the statements *)
  assert (Hkv1 : _mytoml_parser_parse_key_value (S (S fuel)) 0%nat 0%nat
                   (mkMachine tok0 [empty_root])
                 = Done (Some 1%nat) (mkMachine tokA h1)).
  { unfold _mytoml_parser_parse_key_value.
    rewrite (bind_done _ _ _ _ _ (token_at _ _)). rewrite Htk0.
    change (_mytoml_is_comment_start (ch "[")) with false.
    change (_mytoml_is_whitesapce (ch "[")) with false. cbv iota.
    rewrite (bind_done _ _ _ _ _
               (newline_not_here tok0 _ ltac:(rewrite Htk0; discriminate)
                  ltac:(rewrite Htk0; discriminate))).
    rewrite (bind_done _ _ _ _ _ (token_at _ _)). rewrite Htk0.
    change (_mytoml_is_table_start (ch "[")) with true. cbv iota.
    rewrite (bind_done _ _ _ _ _ HnextT).
    rewrite (bind_done _ _ _ _ _ (token_at _ _)). rewrite HtkT.
    replace (_mytoml_is_table_start t0) with false
      by (symmetry; apply Z.eqb_neq; intros ->; vm_compute in Ht0; discriminate).
    exact Htable'. }
  assert (Hkv2 : forall f, _mytoml_parser_parse_key_value f 1%nat 0%nat (mkMachine tokA h1)
                 = Done (Some 1%nat) (mkMachine tokK h1)).
  { intros f. unfold _mytoml_parser_parse_key_value.
    rewrite (bind_done _ _ _ _ _ (token_at _ _)). rewrite HtkA.
    change (_mytoml_is_comment_start NL) with false.
    change (_mytoml_is_whitesapce NL) with false. cbv iota.
    rewrite (bind_done _ _ _ _ _ (newline_here tokA h1 HtkA)).
    rewrite (bind_done _ _ _ _ _ HnextK). reflexivity. }
  assert (Hkv3 : _mytoml_parser_parse_key_value fuel 1%nat 0%nat (mkMachine tokK h1)
                 = Done (Some 1%nat) (mkMachine tokN h3)).
  { unfold _mytoml_parser_parse_key_value.
    rewrite (bind_done _ _ _ _ _ (token_at _ _)). rewrite HtkK.
    replace (_mytoml_is_comment_start k0) with false
      by (symmetry; apply Z.eqb_neq; intros ->; vm_compute in Hk0; discriminate).
    rewrite Hk0ws.
    rewrite (bind_done _ _ _ _ _
               (newline_not_here tokK _
                  ltac:(rewrite HtkK; intros ->; vm_compute in Hk0; discriminate)
                  ltac:(rewrite HtkK; intros ->; vm_compute in Hk0; discriminate))).
    rewrite (bind_done _ _ _ _ _ (token_at _ _)). rewrite HtkK.
    replace (_mytoml_is_table_start k0) with false
      by (symmetry; apply Z.eqb_neq; intros ->; vm_compute in Hk0; discriminate).
    rewrite (bind_done _ _ _ _ _ (prev_at _ _)). rewrite HpvK.
    unfold bind at 1. unfold on_tok at 1. cbn [mtok mheap].
    change (NL =? 0) with false. change (_mytoml_is_newline NL) with true. cbn [orb].
    unfold _mytoml_parser_parse_key.
    rewrite (bind_done _ _ _ _ _ Hkey').
    rewrite (bind_done _ _ _ _ _ Hval).
    assert (Hatt : on_heap (attach_value fuel 2%nat (_mytoml_value_new_string body))
                     (mkMachine tokN h2)
                   = Done true (mkMachine tokN h3)) by reflexivity.
    rewrite (bind_done _ _ _ _ _ Hatt).
    destruct fuel as [|fuel']; [lia|].
    rewrite (bind_done _ _ _ _ _ (whitespace_stays tokN h3 fuel'
                                    ltac:(rewrite HtkN; reflexivity))).
    reflexivity. }
  assert (Hkv4 : forall f, _mytoml_parser_parse_key_value f 1%nat 0%nat (mkMachine tokN h3)
                 = Done (Some 1%nat) (mkMachine tokE h3)).
  { intros f. unfold _mytoml_parser_parse_key_value.
    rewrite (bind_done _ _ _ _ _ (token_at _ _)). rewrite HtkN.
    change (_mytoml_is_comment_start NL) with false.
    change (_mytoml_is_whitesapce NL) with false. cbv iota.
    rewrite (bind_done _ _ _ _ _ (newline_here tokN h3 HtkN)).
    rewrite (bind_done _ _ _ _ _ HnextE). reflexivity. }
  assert (HnuK : is_null tokK = true).
  { destruct (at_char_exists i (ch "[" :: tname ++ [ch "]"; NL]) k0
                (kname0 ++ ws1 ++ ch "=" :: ws2 ++ DQUOTE :: body ++ DQUOTE :: NL :: [EOF]))
      as (t & Hat & _ & Hnu).
    { rewrite Hi, Hk. cbn [app]. rewrite <- app_assoc. reflexivity. }
    { apply Forall_cons. split; [discriminate|].
      apply Forall_app. split; [apply Forall_not_eof_bare; exact Htname|].
      repeat (apply Forall_cons; split; [discriminate|]). apply Forall_nil_2. }
    cbn [length] in Hat. rewrite length_app in Hat. cbn [length] in Hat.
    match type of HatK with
    | at_char _ ?n _ =>
        assert (Hat' : at_char i n t) by (eapply at_char_at; [exact Hat|lia])
    end.
    pose proof (at_char_unique _ _ _ _ HatK Hat') as <-.
    rewrite Hnu. apply is_null_at. exact Hk0e. }
  rewrite (bind_done _ _ _ _ _ Hnext0).
  cbn [parse_document].
  rewrite (bind_done _ _ _ _ _ (has_token_at _ _)). rewrite Hnu0.
  rewrite (bind_done _ _ _ _ _ Hkv1).
  rewrite (bind_done _ _ _ _ _ (has_token_at _ _)). rewrite HnuA.
  rewrite (bind_done _ _ _ _ _ (Hkv2 _)).
  rewrite (bind_done _ _ _ _ _ (has_token_at _ _)). rewrite HnuK.
  rewrite (bind_done _ _ _ _ _ Hkv3).
  destruct fuel as [|fuel1]; [lia|]. cbn [parse_document].
  rewrite (bind_done _ _ _ _ _ (has_token_at _ _)). rewrite HnuN.
  rewrite (bind_done _ _ _ _ _ (Hkv4 _)).
  destruct fuel1 as [|fuel2]; [lia|]. cbn [parse_document].
  rewrite (bind_done _ _ _ _ _ (has_token_at _ _)). rewrite HnuE. reflexivity.
Qed.

Lemma table_then_key_witness :
  exists tok,
    toml_load_file_name 32
      (fs_const (lit "[owner]" ++ [NL] ++ lit "name = `Tom`" ++ [NL])) []
    = Done (Some 0%nat)
        (mkMachine tok
           [set_subkeys {[chars "owner" := 1%nat]} empty_root;
            mkTomlKey TOML_TABLELEAF (chars "owner") {[chars "name" := 2%nat]} None
              (wrap64 (-1));
            mkTomlKey TOML_KEYLEAF (chars "name") ∅
              (Some (_mytoml_value_new_string (chars "Tom"))) (wrap64 (-1))]).
Proof.
  apply (table_then_key (fs_const (lit "[owner]" ++ [NL] ++ lit "name = `Tom`" ++ [NL])) []
           (chars "owner") (chars "name") [ch " "] [ch " "] (chars "Tom") 32).
  - reflexivity.
  - repeat (apply Forall_cons; split; [reflexivity|]). apply Forall_nil_2.
  - cbn. lia.
  - repeat (apply Forall_cons; split; [reflexivity|]). apply Forall_nil_2.
  - cbn. lia.
  - repeat (apply Forall_cons; split; [reflexivity|]). apply Forall_nil_2.
  - repeat (apply Forall_cons; split; [reflexivity|]). apply Forall_nil_2.
  - repeat (apply Forall_cons; split;
            [repeat split; first [discriminate | reflexivity]|]).
    apply Forall_nil_2.
  - cbn. lia.
  - reflexivity.
  - cbn. lia.
Defined.

(** ** Arrays of strings *)

Lemma array_store_next (rows : list TomlValue) (v : TomlValue) (st : machine) :
  Z.of_nat (length rows) < MYTOML_MAX_ARRAY_LENGTH ->
  exists arr1,
    arr_store (array_of rows) (Z.of_nat (length rows)) v st = Done arr1 st
    /\ set_len (Z.of_nat (length rows) + 1) arr1 = array_of (rows ++ [v]).
Proof.
  intros Hroom. unfold arr_store, array_of. cbn [arr len vtype data precision scientific format].
  replace (Z.of_nat (length rows) <? 0) with false by (symmetry; apply Z.ltb_ge; lia).
  replace (MYTOML_MAX_ARRAY_LENGTH <=? Z.of_nat (length rows)) with false
    by (symmetry; apply Z.leb_gt; exact Hroom).
  cbn [orb]. rewrite Z.eqb_refl. eexists. split; [reflexivity|].
  unfold set_len. cbn [arr len vtype data precision scientific format].
  rewrite length_app. cbn [length]. rewrite Nat2Z.inj_add. reflexivity.
Qed.

Lemma quoted_no_eof (s : list Z) :
  Forall string_char s -> Forall (fun x => x <> EOF) (quoted s).
Proof.
  intros Hs. unfold quoted. apply Forall_cons. split; [discriminate|].
  apply Forall_app. split; [apply Forall_not_eof_string; exact Hs|].
  apply Forall_cons. split; [discriminate|]. apply Forall_nil_2.
Qed.

(** The loop of [_mytoml_parser_parse_array] after an element: the
    remaining elements, each after its comma, and the closing bracket. *)
Lemma array_more (ss : list (list Z)) :
  forall (i : Input) (pre : list Z) (rows : list TomlValue) (d : Z) (rest : list Z)
         (h : heap) (fuel : nat),
    stream i = Some (pre ++ more_strings ss ++ ch "]" :: d :: rest) ->
    Forall (fun x => x <> EOF) pre ->
    Forall plain_string ss ->
    Z.of_nat (length rows + length ss) < MYTOML_MAX_ARRAY_LENGTH ->
    (length (more_strings ss) + 1 < fuel)%nat ->
    exists tok tok',
      at_char i (length pre) tok
      /\ at_char i (length pre + length (more_strings ss) + 1) tok'
      /\ token tok' = read_as d
      /\ is_null tok' = negb (d =? EOF)
      /\ _mytoml_parser_parse_array fuel (array_of rows) false (mkMachine tok h)
         = Done (Some (array_of (rows ++ map _mytoml_value_new_string ss))) (mkMachine tok' h).
Proof.
  induction ss as [|s ss IH]; intros i pre rows d rest h fuel Hi Hpre Hss Hroom Hfuel.
  - cbn [more_strings map concat app length] in *. rewrite app_nil_r, Nat.add_0_r.
    destruct (at_char_exists i pre (ch "]") (d :: rest) Hi Hpre) as (tok & Hat & Htk & Hnu).
    change (read_as (ch "]")) with (ch "]") in Htk.
    change (negb (ch "]" =? EOF)) with true in Hnu.
    destruct (at_char_exists i (pre ++ [ch "]"]) d rest) as (tok' & Hat' & Htk' & Hnu').
    { rewrite <- app_assoc. exact Hi. }
    { apply Forall_snoc_ne; [exact Hpre|discriminate]. }
    rewrite length_app in Hat'. cbn [length] in Hat'.
    destruct (at_char_next i (length pre) tok tok' h Hat) as (r & Hnext).
    { eapply at_char_at; [exact Hat'|lia]. }
    exists tok, tok'. split; [exact Hat|]. split; [exact Hat'|].
    split; [exact Htk'|]. split; [exact Hnu'|].
    destruct fuel as [|fuel]; [lia|].
    cbn [_mytoml_parser_parse_array].
    rewrite (bind_done _ _ _ _ _ (has_token_at _ _)). rewrite Hnu.
    unfold array_of at 1. cbn [len].
    replace (Z.of_nat (length rows) <? MYTOML_MAX_ARRAY_LENGTH) with true
      by (symmetry; apply Z.ltb_lt; lia).
    cbn [negb].
    rewrite (bind_done _ _ _ _ _ (token_at _ _)). rewrite Htk.
    change (_mytoml_is_array_end (ch "]")) with true. cbv iota.
    rewrite (bind_done _ _ _ _ _ Hnext). reflexivity.
  - inversion Hss as [|? ? Hs Hss']; subst. destruct Hs as (Hs & Hslen).
    assert (Htext : more_strings (s :: ss) = ch "," :: DQUOTE :: s ++ DQUOTE :: more_strings ss).
    { unfold more_strings, quoted. cbn [map concat app]. rewrite <- app_assoc. reflexivity. }
    rewrite Htext in *. cbn [app length] in Hi, Hfuel. rewrite <- app_assoc in Hi.
    cbn [app] in Hi. rewrite length_app in Hfuel. cbn [length] in Hfuel.
    destruct (at_char_exists i pre (ch ",") _ Hi Hpre) as (tok & Hat & Htk & Hnu).
    change (read_as (ch ",")) with (ch ",") in Htk.
    change (negb (ch "," =? EOF)) with true in Hnu.
    destruct fuel as [|[|fuel]]; try lia.
    assert (Hsplit : exists c0 rest0, more_strings ss ++ ch "]" :: d :: rest = c0 :: rest0).
    { destruct (more_strings ss); eexists; eexists; reflexivity. }
    destruct Hsplit as (c0 & rest0 & Hsplit).
    destruct (value_basic_string i (pre ++ [ch ","]) s c0 rest0 h (chars "#,] " ++ [NL]) fuel)
      as (tokQ & tokA & HatQ & HatA & _ & _ & Hval); try assumption.
    { rewrite <- app_assoc. rewrite Hi, Hsplit. reflexivity. }
    { apply Forall_snoc_ne; [exact Hpre|discriminate]. }
    { lia. }
    rewrite length_app in HatQ, HatA. cbn [length] in HatQ, HatA.
    destruct (at_char_next i (length pre) tok tokQ h Hat) as (r & Hnext).
    { eapply at_char_at; [exact HatQ|lia]. }
    destruct (at_char_exists i (pre ++ [ch ","]) DQUOTE
                (s ++ DQUOTE :: more_strings ss ++ ch "]" :: d :: rest))
      as (t & HatQ' & HtkQ & HnuQ).
    { rewrite <- app_assoc. exact Hi. }
    { apply Forall_snoc_ne; [exact Hpre|discriminate]. }
    rewrite length_app in HatQ'. cbn [length] in HatQ'.
    pose proof (at_char_unique _ _ _ _ HatQ HatQ') as <-.
    change (read_as DQUOTE) with DQUOTE in HtkQ.
    change (negb (DQUOTE =? EOF)) with true in HnuQ.
    destruct (IH i (pre ++ ch "," :: quoted s) (rows ++ [_mytoml_value_new_string s]) d rest h
                fuel)
      as (tokA' & tok' & HatA' & Hat' & Htk' & Hnu' & Hrun); try assumption.
    { rewrite Hi. unfold quoted. repeat (rewrite <- app_assoc; cbn [app]). reflexivity. }
    { apply Forall_app. split; [exact Hpre|].
      apply Forall_cons. split; [discriminate|]. apply quoted_no_eof. exact Hs. }
    { rewrite length_app. cbn [length] in *. lia. }
    { lia. }
    unfold quoted in HatA', Hat'.
    repeat (rewrite length_app in HatA'; cbn [length] in HatA').
    repeat (rewrite length_app in Hat'; cbn [length] in Hat').
    assert (HatA'' : at_char i (length pre + 1 + length s + 2) tokA')
      by (eapply at_char_at; [exact HatA'|lia]).
    pose proof (at_char_unique _ _ _ _ HatA HatA'') as <-.
    exists tok, tok'. split; [exact Hat|].
    split; [eapply at_char_at; [exact Hat'|]; cbn [length]; rewrite length_app; cbn [length]; lia|].
    split; [exact Htk'|]. split; [exact Hnu'|].
    rewrite <- app_assoc in Hrun. cbn [app] in Hrun. cbn [map].
    rewrite <- Hrun.
    assert (Hroom' : Z.of_nat (length rows) < MYTOML_MAX_ARRAY_LENGTH) by (cbn [length] in *; lia).
    cbn [_mytoml_parser_parse_array].
    rewrite (bind_done _ _ _ _ _ (has_token_at _ _)). rewrite Hnu.
    unfold array_of at 1. cbn [len].
    replace (Z.of_nat (length rows) <? MYTOML_MAX_ARRAY_LENGTH) with true
      by (symmetry; apply Z.ltb_lt; exact Hroom').
    cbn [negb].
    rewrite (bind_done _ _ _ _ _ (token_at _ _)). rewrite Htk.
    change (_mytoml_is_array_end (ch ",")) with false.
    change (_mytoml_is_array_seperator (ch ",")) with true. cbv iota.
    rewrite (bind_done _ _ _ _ _ Hnext).
    rewrite (bind_done _ _ _ _ _ (has_token_at _ _)). rewrite HnuQ.
    unfold array_of at 1. cbn [len].
    replace (Z.of_nat (length rows) <? MYTOML_MAX_ARRAY_LENGTH) with true
      by (symmetry; apply Z.ltb_lt; exact Hroom').
    cbn [negb].
    rewrite (bind_done _ _ _ _ _ (token_at _ _)). rewrite HtkQ.
    change (_mytoml_is_array_end DQUOTE) with false.
    change (_mytoml_is_array_seperator DQUOTE) with false. cbv iota.
    rewrite (bind_done _ _ _ _ _ (newline_not_here tokQ h ltac:(rewrite HtkQ; discriminate)
                                    ltac:(rewrite HtkQ; discriminate))).
    rewrite (bind_done _ _ _ _ _ (token_at _ _)). rewrite HtkQ.
    change (_mytoml_is_whitesapce DQUOTE) with false.
    change (_mytoml_is_comment_start DQUOTE) with false. cbn [negb]. cbv iota.
    rewrite (bind_done _ _ _ _ _ Hval).
    destruct (array_store_next rows (_mytoml_value_new_string s) (mkMachine tokA h) Hroom')
      as (arr1 & Hstore & Hset).
    change (len (array_of rows)) with (Z.of_nat (length rows)).
    rewrite (bind_done _ _ _ _ _ Hstore). rewrite Hset. reflexivity.
Qed.

(** On an opening bracket, non-empty strings of one line separated by
    commas and the closing bracket, [_mytoml_parser_parse_value] returns an
    array value that holds the strings in their order. *)
Lemma array_of_plain_strings (i : Input) (pre : list Z) (ss : list (list Z)) (d : Z)
    (rest : list Z) (h : heap) (num_end : list Z) (fuel : nat) :
  stream i = Some (pre ++ ch "[" :: array_text ss ++ ch "]" :: d :: rest) ->
  Forall (fun x => x <> EOF) pre ->
  Forall plain_string ss ->
  Z.of_nat (length ss) < MYTOML_MAX_ARRAY_LENGTH ->
  (length (array_text ss) + 3 < fuel)%nat ->
  exists tok tok',
    at_char i (length pre) tok
    /\ at_char i (length pre + length (array_text ss) + 2) tok'
    /\ token tok' = read_as d
    /\ _mytoml_parser_parse_value fuel num_end (mkMachine tok h)
       = Done (Some (array_of (map _mytoml_value_new_string ss))) (mkMachine tok' h).
Proof.
  intros Hi Hpre Hss Hroom Hfuel.
  destruct (at_char_exists i pre (ch "[") _ Hi Hpre) as (tok & Hat & Htk & Hnu).
  change (read_as (ch "[")) with (ch "[") in Htk.
  change (negb (ch "[" =? EOF)) with true in Hnu.
  destruct fuel as [|[|fuel]]; try lia.
  assert (Hopen : forall tokI,
             at_char i (length pre + 1) tokI ->
             _mytoml_parser_parse_value (S (S fuel)) num_end (mkMachine tok h)
             = _mytoml_parser_parse_array (S fuel) _mytoml_value_new_array true
                 (mkMachine tokI h)).
  { intros tokI HatI.
    destruct (at_char_next i (length pre) tok tokI h Hat) as (r & Hnext).
    { eapply at_char_at; [exact HatI|lia]. }
    cbn [_mytoml_parser_parse_value].
    rewrite (bind_done _ _ _ _ _ (has_token_at _ _)). rewrite Hnu.
    rewrite (bind_done _ _ _ _ _ (newline_not_here tok h ltac:(rewrite Htk; discriminate)
                                    ltac:(rewrite Htk; discriminate))).
    rewrite (bind_done _ _ _ _ _ (token_at _ _)). rewrite Htk.
    change (_mytoml_is_whitesapce (ch "[")) with false.
    change (_mytoml_is_basic_string_start (ch "[")) with false.
    change (_mytoml_is_literal_string_start (ch "[")) with false.
    change (_mytoml_is_number_start (ch "[")) with false.
    change (_mytoml_is_array_start (ch "[")) with true. cbv iota.
    rewrite (bind_done _ _ _ _ _ Hnext). reflexivity. }
  destruct ss as [|s ss].
  - cbn [array_text app length map] in *.
    destruct (array_more [] i (pre ++ [ch "["]) [] d rest h (S fuel))
      as (tokI & tok' & HatI & Hat' & Htk' & _ & Hrun).
    { rewrite <- app_assoc. exact Hi. }
    { apply Forall_snoc_ne; [exact Hpre|discriminate]. }
    { apply Forall_nil_2. }
    { reflexivity. }
    { cbn. lia. }
    rewrite length_app in HatI, Hat'. cbn [length more_strings map concat] in HatI, Hat'.
    exists tok, tok'. split; [exact Hat|].
    split; [eapply at_char_at; [exact Hat'|lia]|]. split; [exact Htk'|].
    rewrite (Hopen tokI HatI).
    destruct (at_char_exists i (pre ++ [ch "["]) (ch "]") (d :: rest))
      as (t & HatI' & HtkI & HnuI).
    { rewrite <- app_assoc. exact Hi. }
    { apply Forall_snoc_ne; [exact Hpre|discriminate]. }
    rewrite length_app in HatI'. cbn [length] in HatI'.
    pose proof (at_char_unique _ _ _ _ HatI HatI') as <-.
    change (read_as (ch "]")) with (ch "]") in HtkI.
    change (negb (ch "]" =? EOF)) with true in HnuI.
    destruct (at_char_next i (length pre + 1) tokI tok' h HatI) as (r & Hnext).
    { eapply at_char_at; [exact Hat'|lia]. }
    cbn [_mytoml_parser_parse_array].
    rewrite (bind_done _ _ _ _ _ (has_token_at _ _)). rewrite HnuI.
    change (negb (len _mytoml_value_new_array <? MYTOML_MAX_ARRAY_LENGTH)) with false.
    cbv iota.
    rewrite (bind_done _ _ _ _ _ (token_at _ _)). rewrite HtkI.
    change (_mytoml_is_array_end (ch "]")) with true. cbv iota.
    rewrite (bind_done _ _ _ _ _ Hnext). reflexivity.
  - inversion Hss as [|? ? Hs Hss']; subst. destruct Hs as (Hs & Hslen).
    cbn [array_text] in *. unfold quoted in Hi, Hfuel |- *.
    cbn [app length] in Hi, Hfuel |- *.
    repeat (rewrite <- app_assoc in Hi; cbn [app] in Hi).
    repeat (rewrite length_app in Hfuel; cbn [length] in Hfuel).
    repeat (rewrite length_app; cbn [length]).
    assert (Hsplit : exists c0 rest0, more_strings ss ++ ch "]" :: d :: rest = c0 :: rest0).
    { destruct (more_strings ss); eexists; eexists; reflexivity. }
    destruct Hsplit as (c0 & rest0 & Hsplit).
    destruct (value_basic_string i (pre ++ [ch "["]) s c0 rest0 h (chars "#,] " ++ [NL]) fuel)
      as (tokI & tokA & HatI & HatA & _ & _ & Hval); try assumption.
    { rewrite <- app_assoc. rewrite Hi, Hsplit. reflexivity. }
    { apply Forall_snoc_ne; [exact Hpre|discriminate]. }
    { lia. }
    rewrite length_app in HatI, HatA. cbn [length] in HatI, HatA.
    destruct (at_char_exists i (pre ++ [ch "["]) DQUOTE
                (s ++ DQUOTE :: more_strings ss ++ ch "]" :: d :: rest))
      as (t & HatI' & HtkI & HnuI).
    { rewrite <- app_assoc. exact Hi. }
    { apply Forall_snoc_ne; [exact Hpre|discriminate]. }
    rewrite length_app in HatI'. cbn [length] in HatI'.
    pose proof (at_char_unique _ _ _ _ HatI HatI') as <-.
    change (read_as DQUOTE) with DQUOTE in HtkI.
    change (negb (DQUOTE =? EOF)) with true in HnuI.
    destruct (array_more ss i (pre ++ ch "[" :: quoted s) [_mytoml_value_new_string s] d rest h
                fuel)
      as (tokA' & tok' & HatA' & Hat' & Htk' & _ & Hrun).
    { rewrite Hi. unfold quoted. repeat (rewrite <- app_assoc; cbn [app]). reflexivity. }
    { apply Forall_app. split; [exact Hpre|].
      apply Forall_cons. split; [discriminate|]. apply quoted_no_eof. exact Hs. }
    { exact Hss'. }
    { cbn [length] in *. lia. }
    { lia. }
    unfold quoted in HatA', Hat'.
    repeat (rewrite length_app in HatA'; cbn [length] in HatA').
    repeat (rewrite length_app in Hat'; cbn [length] in Hat').
    assert (HatA'' : at_char i (length pre + 1 + length s + 2) tokA')
      by (eapply at_char_at; [exact HatA'|lia]).
    pose proof (at_char_unique _ _ _ _ HatA HatA'') as <-.
    exists tok, tok'. split; [exact Hat|].
    split; [eapply at_char_at; [exact Hat'|lia]|]. split; [exact Htk'|].
    rewrite (Hopen tokI HatI). cbn [map app] in Hrun |- *. rewrite <- Hrun.
    cbn [_mytoml_parser_parse_array].
    rewrite (bind_done _ _ _ _ _ (has_token_at _ _)). rewrite HnuI.
    change (negb (len _mytoml_value_new_array <? MYTOML_MAX_ARRAY_LENGTH)) with false.
    cbv iota.
    rewrite (bind_done _ _ _ _ _ (token_at _ _)). rewrite HtkI.
    change (_mytoml_is_array_end DQUOTE) with false.
    change (_mytoml_is_array_seperator DQUOTE) with false. cbv iota.
    rewrite (bind_done _ _ _ _ _ (newline_not_here tokI h ltac:(rewrite HtkI; discriminate)
                                    ltac:(rewrite HtkI; discriminate))).
    rewrite (bind_done _ _ _ _ _ (token_at _ _)). rewrite HtkI.
    change (_mytoml_is_whitesapce DQUOTE) with false.
    change (_mytoml_is_comment_start DQUOTE) with false. cbn [negb]. cbv iota.
    rewrite (bind_done _ _ _ _ _ Hval).
    destruct (array_store_next [] (_mytoml_value_new_string s) (mkMachine tokA h)
                ltac:(reflexivity)) as (arr1 & Hstore & Hset).
    change (array_of []) with _mytoml_value_new_array in Hstore.
    change (Z.of_nat (length (@nil TomlValue))) with 0 in Hstore, Hset.
    change (len _mytoml_value_new_array) with 0.
    rewrite (bind_done _ _ _ _ _ Hstore).
    change (0 + 1) with 1 in Hset |- *. rewrite Hset. reflexivity.
Qed.

(** An empty basic string that a comma or the closing bracket follows at
    once is refused as an element of an array. *)
Lemma array_empty_string (i : Input) (pre : list Z) (c : Z) (rest : list Z) (h : heap)
    (num_end : list Z) (fuel : nat) :
  stream i = Some (pre ++ ch "[" :: DQUOTE :: DQUOTE :: c :: rest) ->
  Forall (fun x => x <> EOF) pre ->
  c = ch "," \/ c = ch "]" ->
  (3 <= fuel)%nat ->
  exists tok tok',
    at_char i (length pre) tok
    /\ at_char i (length pre + 3) tok'
    /\ token tok' = c
    /\ _mytoml_parser_parse_value fuel num_end (mkMachine tok h) = Done None (mkMachine tok' h).
Proof.
  intros Hi Hpre Hc Hfuel.
  destruct (at_char_exists i pre (ch "[") _ Hi Hpre) as (tok & Hat & Htk & Hnu).
  change (read_as (ch "[")) with (ch "[") in Htk.
  change (negb (ch "[" =? EOF)) with true in Hnu.
  destruct (at_char_exists i (pre ++ [ch "["]) DQUOTE (DQUOTE :: c :: rest))
    as (tok1 & Hat1 & Htk1 & Hnu1).
  { rewrite <- app_assoc. exact Hi. }
  { apply Forall_snoc_ne; [exact Hpre|discriminate]. }
  change (read_as DQUOTE) with DQUOTE in Htk1.
  change (negb (DQUOTE =? EOF)) with true in Hnu1.
  destruct (at_char_exists i (pre ++ [ch "["; DQUOTE]) DQUOTE (c :: rest))
    as (tok2 & Hat2 & Htk2 & Hnu2).
  { rewrite <- app_assoc. exact Hi. }
  { apply Forall_app. split; [exact Hpre|].
    apply Forall_cons. split; [discriminate|].
    apply Forall_cons. split; [discriminate|]. apply Forall_nil_2. }
  change (read_as DQUOTE) with DQUOTE in Htk2.
  change (negb (DQUOTE =? EOF)) with true in Hnu2.
  destruct (at_char_exists i (pre ++ [ch "["; DQUOTE; DQUOTE]) c rest)
    as (tok3 & Hat3 & Htk3 & Hnu3).
  { rewrite <- app_assoc. exact Hi. }
  { apply Forall_app. split; [exact Hpre|].
    repeat (apply Forall_cons; split; [discriminate|]). apply Forall_nil_2. }
  assert (Hce : c <> EOF) by (destruct Hc as [-> | ->]; discriminate).
  rewrite read_as_id in Htk3 by exact Hce. rewrite is_null_at in Hnu3 by exact Hce.
  rewrite length_app in Hat1, Hat2, Hat3. cbn [length] in Hat1, Hat2, Hat3.
  destruct (at_char_next i (length pre) tok tok1 h Hat) as (r1 & Hnext1).
  { eapply at_char_at; [exact Hat1|lia]. }
  destruct (at_char_next i (length pre + 1) tok1 tok2 h Hat1) as (r2 & Hnext2).
  { eapply at_char_at; [exact Hat2|lia]. }
  destruct (at_char_next i (length pre + 2) tok2 tok3 h Hat2) as (r3 & Hnext3).
  { eapply at_char_at; [exact Hat3|lia]. }
  assert (Hcls : _mytoml_is_basic_string_start c = false /\ _mytoml_is_whitesapce c = false
                 /\ c <> NL /\ c <> 13).
  { destruct Hc as [-> | ->]; repeat split; try reflexivity; discriminate. }
  destruct Hcls as (Hq & Hw & Hnl & Hcr).
  assert (Hval : forall f ne,
             _mytoml_parser_parse_value (S f) ne (mkMachine tok1 h)
             = Done None (mkMachine tok3 h)).
  { intros f ne. cbn [_mytoml_parser_parse_value].
    rewrite (bind_done _ _ _ _ _ (has_token_at _ _)). rewrite Hnu1.
    rewrite (bind_done _ _ _ _ _ (newline_not_here tok1 h ltac:(rewrite Htk1; discriminate)
                                    ltac:(rewrite Htk1; discriminate))).
    rewrite (bind_done _ _ _ _ _ (token_at _ _)). rewrite Htk1.
    change (_mytoml_is_whitesapce DQUOTE) with false.
    change (_mytoml_is_basic_string_start DQUOTE) with true. cbv iota.
    rewrite (bind_done _ _ _ _ _ Hnext2).
    rewrite (bind_done _ _ _ _ _ (has_token_at _ _)). rewrite Hnu2.
    rewrite (bind_done _ _ _ _ _ (token_at _ _)). rewrite Htk2.
    change (_mytoml_is_basic_string_start DQUOTE) with true. cbn [andb]. cbv iota.
    rewrite (bind_done _ _ _ _ _ Hnext3).
    rewrite (bind_done _ _ _ _ _ (has_token_at _ _)). rewrite Hnu3.
    rewrite (bind_done _ _ _ _ _ (token_at _ _)). rewrite Htk3.
    rewrite Hq, Hw. cbn [andb]. cbv iota.
    rewrite (bind_done _ _ _ _ _ (newline_not_here tok3 h ltac:(rewrite Htk3; exact Hnl)
                                    ltac:(rewrite Htk3; exact Hcr))).
    reflexivity. }
  exists tok, tok3. split; [exact Hat|]. split; [exact Hat3|]. split; [exact Htk3|].
  destruct fuel as [|[|[|fuel]]]; try lia.
  cbn [_mytoml_parser_parse_value].
  rewrite (bind_done _ _ _ _ _ (has_token_at _ _)). rewrite Hnu.
  rewrite (bind_done _ _ _ _ _ (newline_not_here tok h ltac:(rewrite Htk; discriminate)
                                  ltac:(rewrite Htk; discriminate))).
  rewrite (bind_done _ _ _ _ _ (token_at _ _)). rewrite Htk.
  change (_mytoml_is_whitesapce (ch "[")) with false.
  change (_mytoml_is_basic_string_start (ch "[")) with false.
  change (_mytoml_is_literal_string_start (ch "[")) with false.
  change (_mytoml_is_number_start (ch "[")) with false.
  change (_mytoml_is_array_start (ch "[")) with true. cbv iota.
  rewrite (bind_done _ _ _ _ _ Hnext1).
  cbn [_mytoml_parser_parse_array].
  rewrite (bind_done _ _ _ _ _ (has_token_at _ _)). rewrite Hnu1.
  change (negb (len _mytoml_value_new_array <? MYTOML_MAX_ARRAY_LENGTH)) with false.
  cbv iota.
  rewrite (bind_done _ _ _ _ _ (token_at _ _)). rewrite Htk1.
  change (_mytoml_is_array_end DQUOTE) with false.
  change (_mytoml_is_array_seperator DQUOTE) with false. cbv iota.
  rewrite (bind_done _ _ _ _ _ (newline_not_here tok1 h ltac:(rewrite Htk1; discriminate)
                                  ltac:(rewrite Htk1; discriminate))).
  rewrite (bind_done _ _ _ _ _ (token_at _ _)). rewrite Htk1.
  change (_mytoml_is_whitesapce DQUOTE) with false.
  change (_mytoml_is_comment_start DQUOTE) with false.
  cbn [negb]. cbv iota.
  rewrite (bind_done _ _ _ _ _ (Hval fuel _)).
  reflexivity.
Qed.

(** X18.  An array of basic strings.  On an opening bracket, strings of
    one line (each of 1 to 4095 characters that [string_char] admits: no
    double quote, backslash, end-of-input sentinel or control character
    other than tab) separated by commas, fewer than
    [MYTOML_MAX_ARRAY_LENGTH] of them and possibly none, and the closing
    bracket, [_mytoml_parser_parse_value] returns an array value that holds
    the strings in their order, [len] being their number, and leaves the
    cursor after the closing bracket.  The strings must not be empty: an
    empty string that a comma or the closing bracket follows at once makes
    the array a parse error, with the cursor left on that character. *)
Theorem array_of_strings (i : Input) (pre : list Z) (h : heap) (num_end : list Z)
    (fuel : nat) :
  Forall (fun x => x <> EOF) pre ->
  (forall (ss : list (list Z)) (d : Z) (rest : list Z),
      stream i = Some (pre ++ ch "[" :: array_text ss ++ ch "]" :: d :: rest) ->
      Forall plain_string ss ->
      Z.of_nat (length ss) < MYTOML_MAX_ARRAY_LENGTH ->
      (length (array_text ss) + 3 < fuel)%nat ->
      exists tok tok',
        at_char i (length pre) tok
        /\ at_char i (length pre + length (array_text ss) + 2) tok'
        /\ token tok' = read_as d
        /\ _mytoml_parser_parse_value fuel num_end (mkMachine tok h)
           = Done (Some (array_of (map _mytoml_value_new_string ss))) (mkMachine tok' h))
  /\ (forall (c : Z) (rest : list Z),
         stream i = Some (pre ++ ch "[" :: DQUOTE :: DQUOTE :: c :: rest) ->
         c = ch "," \/ c = ch "]" ->
         (3 <= fuel)%nat ->
         exists tok tok',
           at_char i (length pre) tok
           /\ at_char i (length pre + 3) tok'
           /\ token tok' = c
           /\ _mytoml_parser_parse_value fuel num_end (mkMachine tok h)
              = Done None (mkMachine tok' h)).
Proof.
  intros Hpre. split.
  - intros ss d rest Hi Hss Hroom Hfuel.
    exact (array_of_plain_strings i pre ss d rest h num_end fuel Hi Hpre Hss Hroom Hfuel).
  - intros c rest Hi Hc Hfuel.
    exact (array_empty_string i pre c rest h num_end fuel Hi Hpre Hc Hfuel).
Qed.

Lemma array_of_strings_witness :
  (let i := mkInput I_STREAM FileUnset (Some (lit "[`a`,`bc`]" ++ [NL])) in
   exists tok tok',
     at_char i 0 tok
     /\ at_char i 10 tok'
     /\ token tok' = NL
     /\ _mytoml_parser_parse_value 16 [] (mkMachine tok [])
        = Done (Some (array_of [_mytoml_value_new_string (chars "a");
                                _mytoml_value_new_string (chars "bc")]))
               (mkMachine tok' []))
  /\ (let i := mkInput I_STREAM FileUnset (Some (lit "[``]" ++ [NL])) in
      exists tok tok',
        at_char i 0 tok
        /\ at_char i 3 tok'
        /\ token tok' = ch "]"
        /\ _mytoml_parser_parse_value 16 [] (mkMachine tok []) = Done None (mkMachine tok' [])).
Proof.
  split; intros i.
  - destruct (array_of_strings i [] [] [] 16 (Forall_nil_2 _)) as (H & _).
    apply (H [chars "a"; chars "bc"] NL []).
    + reflexivity.
    + repeat (apply Forall_cons; split;
              [split; [repeat (apply Forall_cons; split;
                                 [repeat split; first [discriminate | reflexivity]|]);
                       apply Forall_nil_2
                      |cbn; lia]|]).
      apply Forall_nil_2.
    + reflexivity.
    + cbn. lia.
  - destruct (array_of_strings i [] [] [] 16 (Forall_nil_2 _)) as (_ & H).
    apply (H (ch "]") [NL]).
    + reflexivity.
    + right. reflexivity.
    + lia.
Defined.

(** ** A key bound twice *)

(** The head of [_mytoml_parser_parse_key_value] on the first character of
    a bare key at the start of a line: the statement is a key and value. *)
Lemma key_value_bare_start (n0 : Z) (tok : Tokenizer) (h : heap) (key root : ptr)
    (fuel : nat) :
  _mytoml_is_bare_ascii n0 = true ->
  token tok = n0 ->
  prev tok = 0 \/ prev tok = NL ->
  _mytoml_parser_parse_key_value fuel key root (mkMachine tok h)
  = (let* subkey := _mytoml_parser_parse_key fuel key true in
     match subkey with
     | None => ret None
     | Some subkey =>
         let* v := _mytoml_parser_parse_value fuel (chars "# " ++ [NL]) in
         match v with
         | None => ret None
         | Some v =>
             let* ok := on_heap (attach_value fuel subkey v) in
             if ok then _mytoml_parser_parse_whitespace fuel;; ret (Some key)
             else ret None
         end
     end) (mkMachine tok h).
Proof.
  intros Hn0 Htk Hpv.
  destruct (bare_ascii_plain n0 Hn0) as (_ & _ & _ & Hn0ws).
  unfold _mytoml_parser_parse_key_value.
  rewrite (bind_done _ _ _ _ _ (token_at _ _)). rewrite Htk.
  replace (_mytoml_is_comment_start n0) with false
    by (symmetry; apply Z.eqb_neq; intros ->; vm_compute in Hn0; discriminate).
  rewrite Hn0ws.
  rewrite (bind_done _ _ _ _ _
             (newline_not_here tok _
                ltac:(rewrite Htk; intros ->; vm_compute in Hn0; discriminate)
                ltac:(rewrite Htk; intros ->; vm_compute in Hn0; discriminate))).
  rewrite (bind_done _ _ _ _ _ (token_at _ _)). rewrite Htk.
  replace (_mytoml_is_table_start n0) with false
    by (symmetry; apply Z.eqb_neq; intros ->; vm_compute in Hn0; discriminate).
  rewrite (bind_done _ _ _ _ _ (prev_at _ _)).
  unfold bind at 1. unfold on_tok at 1. cbn [mtok mheap].
  replace ((prev tok =? 0) || _mytoml_is_newline (prev tok)
           || _mytoml_is_whitesapce (prev tok) && newline tok) with true
    by (destruct Hpv as [-> | ->]; reflexivity).
  reflexivity.
Qed.

(** A line that binds a bare key, not yet held by [key], to a basic
    string. *)
Lemma key_line (i : Input) (pre name ws1 ws2 body : list Z) (d : Z) (rest : list Z)
    (h : heap) (key root : ptr) (k : TomlKey) (tok : Tokenizer) (fuel : nat) :
  stream i = Some (pre ++ name ++ ws1 ++ ch "=" :: ws2 ++ DQUOTE :: body
                     ++ DQUOTE :: NL :: d :: rest) ->
  Forall (fun x => x <> EOF) pre ->
  Forall (fun x => _mytoml_is_bare_ascii x = true) name ->
  (1 <= length name <= 255)%nat ->
  Forall (fun x => _mytoml_is_whitesapce x = true) ws1 ->
  Forall (fun x => _mytoml_is_whitesapce x = true) ws2 ->
  Forall string_char body ->
  (1 <= length body <= 4095)%nat ->
  h !! key = Some k ->
  subkeys k !! name = None ->
  ktype k <> TOML_ARRAYTABLE ->
  Z.of_nat (size (subkeys k)) < MYTOML_MAX_SUBKEYS ->
  at_char i (length pre) tok ->
  prev tok = 0 \/ prev tok = NL ->
  (length name + length ws1 + length ws2 + length body + 4 < fuel)%nat ->
  exists tokN,
    at_char i (length pre + length name + length ws1 + length ws2 + length body + 3) tokN
    /\ token tokN = NL
    /\ is_null tokN = true
    /\ _mytoml_parser_parse_key_value fuel key root (mkMachine tok h)
       = Done (Some key)
           (mkMachine tokN
              (<[length h := mkTomlKey TOML_KEYLEAF name ∅
                               (Some (_mytoml_value_new_string body)) (wrap64 (-1))]>
                 (<[key := set_subkeys (<[name := length h]> (subkeys k)) k]>
                    (h ++ [mkTomlKey TOML_KEYLEAF name ∅ None (wrap64 (-1))])))).
Proof.
  intros Hi Hpre Hname Hnlen Hws1 Hws2 Hbody Hblen Hk Hnone Harr Hroom Hat Hpv Hfuel.
  assert (Hn : exists n0 name0, name = n0 :: name0)
    by (destruct name; [cbn in Hnlen; lia|eauto]).
  destruct Hn as (n0 & name0 & Hn).
  assert (Hn0 : _mytoml_is_bare_ascii n0 = true).
  { rewrite Hn in Hname. inversion Hname; assumption. }
  destruct (bare_ascii_plain n0 Hn0) as (Hn0e & _).
  destruct (at_char_exists i pre n0
              (name0 ++ ws1 ++ ch "=" :: ws2 ++ DQUOTE :: body ++ DQUOTE :: NL :: d :: rest))
    as (t & Hat0 & Htk & _).
  { rewrite Hi, Hn. reflexivity. }
  { exact Hpre. }
  pose proof (at_char_unique _ _ _ _ Hat Hat0) as <-.
  rewrite read_as_id in Htk by exact Hn0e.
  assert (Htail : exists c rest',
             ws2 ++ DQUOTE :: body ++ DQUOTE :: NL :: d :: rest = c :: rest').
  { destruct ws2; eexists; eexists; reflexivity. }
  destruct Htail as (c & rest' & Htail).
  destruct (parse_dotted_bare i pre name ws1 (ch "=") c rest' TOML_KEY TOML_KEYLEAF h key k
              tok fuel)
    as (tokV & HatV & _ & _ & Hkey); try assumption; try reflexivity; try discriminate.
  { rewrite Hi, Htail. reflexivity. }
  { lia. }
  set (leaf0 := mkTomlKey TOML_KEYLEAF name ∅ None (wrap64 (-1))) in *.
  set (h1 := <[key := set_subkeys (<[name := length h]> (subkeys k)) k]> (h ++ [leaf0])) in *.
  destruct (value_blanks_string i (pre ++ name ++ ws1 ++ [ch "="]) ws2 body NL (d :: rest) h1
              (chars "# " ++ [NL]) fuel)
    as (tokV' & tokN & HatV' & HatN & HtkN & HnuN & Hval); try assumption.
  { rewrite Hi. repeat (rewrite <- app_assoc; cbn [app]). reflexivity. }
  { apply Forall_app. split; [exact Hpre|].
    apply Forall_app. split; [apply Forall_not_eof_bare; exact Hname|].
    apply Forall_app. split; [apply Forall_not_eof_blank; exact Hws1|].
    apply Forall_cons. split; [discriminate|]. apply Forall_nil_2. }
  { lia. }
  repeat (rewrite length_app in HatV'; cbn [length] in HatV').
  repeat (rewrite length_app in HatN; cbn [length] in HatN).
  assert (HatV'' : at_char i (length pre + length name + length ws1 + 1) tokV')
    by (eapply at_char_at; [exact HatV'|lia]).
  pose proof (at_char_unique _ _ _ _ HatV HatV'') as <-.
  change (read_as NL) with NL in HtkN. change (negb (NL =? EOF)) with true in HnuN.
  exists tokN. split; [eapply at_char_at; [exact HatN|lia]|].
  split; [exact HtkN|]. split; [exact HnuN|].
  rewrite (key_value_bare_start n0 tok h key root fuel Hn0 Htk Hpv).
  unfold _mytoml_parser_parse_key.
  rewrite (bind_done _ _ _ _ _ Hkey).
  rewrite (bind_done _ _ _ _ _ Hval).
  assert (Hlt : (key < length h)%nat) by (eapply lookup_lt_Some; exact Hk).
  assert (Hleaf : h1 !! (length h : ptr) = Some leaf0).
  { unfold h1. rewrite list_lookup_insert_ne by lia.
    rewrite lookup_app_r by lia. rewrite Nat.sub_diag. reflexivity. }
  assert (Hatt : on_heap (attach_value fuel (length h) (_mytoml_value_new_string body))
                   (mkMachine tokN h1)
                 = Done true
                     (mkMachine tokN
                        (<[length h := mkTomlKey TOML_KEYLEAF name ∅
                                         (Some (_mytoml_value_new_string body))
                                         (wrap64 (-1))]> h1))).
  { unfold on_heap, attach_value. cbn [mheap mtok].
    change (bool_decide (vtype (_mytoml_value_new_string body) = TOML_INLINETABLE)) with false.
    cbv iota. unfold bind, modify, bind, deref, store, ret. rewrite Hleaf. cbn.
    rewrite Hleaf. reflexivity. }
  rewrite (bind_done _ _ _ _ _ Hatt).
  destruct fuel as [|fuel']; [lia|].
  rewrite (bind_done _ _ _ _ _ (whitespace_stays tokN _ fuel'
                                  ltac:(rewrite HtkN; reflexivity))).
  reflexivity.
Qed.

(** A line whose bare key the node [key] already holds. *)
Lemma key_line_duplicate (i : Input) (pre name ws : list Z) (rest : list Z)
    (h : heap) (key root s : ptr) (k e : TomlKey) (tok : Tokenizer) (fuel : nat) :
  stream i = Some (pre ++ name ++ ws ++ ch "=" :: rest) ->
  Forall (fun x => x <> EOF) pre ->
  Forall (fun x => _mytoml_is_bare_ascii x = true) name ->
  (1 <= length name <= 255)%nat ->
  Forall (fun x => _mytoml_is_whitesapce x = true) ws ->
  h !! key = Some k ->
  subkeys k !! name = Some s ->
  h !! s = Some e ->
  at_char i (length pre) tok ->
  prev tok = 0 \/ prev tok = NL ->
  (length name + length ws + 3 < fuel)%nat ->
  exists st,
    _mytoml_parser_parse_key_value fuel key root (mkMachine tok h) = Done None st.
Proof.
  intros Hi Hpre Hname Hnlen Hws Hk Hs He Hat Hpv Hfuel.
  assert (Hn : exists n0 name0, name = n0 :: name0)
    by (destruct name; [cbn in Hnlen; lia|eauto]).
  destruct Hn as (n0 & name0 & Hn).
  assert (Hn0 : _mytoml_is_bare_ascii n0 = true).
  { rewrite Hn in Hname. inversion Hname; assumption. }
  destruct (bare_ascii_plain n0 Hn0) as (Hn0e & Hn0z & Hn0dot & Hn0ws).
  destruct (at_char_exists i pre n0 (name0 ++ ws ++ ch "=" :: rest)) as (t & Hat0 & Htk & Hnu).
  { rewrite Hi, Hn. reflexivity. }
  { exact Hpre. }
  pose proof (at_char_unique _ _ _ _ Hat Hat0) as <-.
  rewrite read_as_id in Htk by exact Hn0e. rewrite is_null_at in Hnu by exact Hn0e.
  destruct fuel as [|fuel]; [lia|].
  destruct (bare_key_loop name i pre ws [] (ch "=") rest TOML_KEY TOML_KEYLEAF h fuel)
    as (t & Hat0' & Hbk); try assumption; try reflexivity; try discriminate.
  { apply Forall_nil_2. }
  { lia. }
  pose proof (at_char_unique _ _ _ _ Hat Hat0') as <-.
  unfold bare_key_result in Hbk. cbn [app] in Hbk.
  rewrite bool_decide_eq_true_2 in Hbk by exact Hnlen.
  destruct Hbk as (tokE & _ & _ & _ & Hbk).
  fold (_mytoml_parser_bare_key fuel (ch "=") TOML_KEY TOML_KEYLEAF) in Hbk.
  set (sk := mkTomlKey TOML_KEYLEAF name ∅ None (wrap64 (-1))) in *.
  destruct fuel as [|fuel]; [lia|].
  assert (Hadd : on_heap (_mytoml_value_add_sub_key (S fuel) key (length h))
                   (mkMachine tokE (h ++ [sk]))
                 = Done None (mkMachine tokE (h ++ [sk]))).
  { unfold on_heap. cbn [mheap mtok].
    rewrite (add_sub_key_existing fuel (h ++ [sk]) key (length h) s k sk e).
    - replace (_mytoml_value_keys_compatible (ktype e) (ktype sk)) with false
        by (destruct (ktype e); reflexivity).
      reflexivity.
    - apply lookup_app_l_Some. exact Hk.
    - rewrite lookup_app_r by lia. rewrite Nat.sub_diag. reflexivity.
    - exact Hs.
    - apply lookup_app_l_Some. exact He. }
  assert (Hpd : _mytoml_parser_parse_key (S (S fuel)) key true (mkMachine tok h)
                = Done None (mkMachine tokE (h ++ [sk]))).
  { unfold _mytoml_parser_parse_key. cbn [parse_dotted].
    rewrite (bind_done _ _ _ _ _ (has_token_at _ _)). rewrite Hnu.
    rewrite (bind_done _ _ _ _ _ (token_at _ _)). rewrite Htk.
    replace (n0 =? ch "=") with false
      by (symmetry; apply Z.eqb_neq; intros ->; vm_compute in Hn0; discriminate).
    rewrite Hn0dot, Hn0ws.
    replace (_mytoml_is_basic_string_start n0) with false
      by (symmetry; apply Z.eqb_neq; intros ->; vm_compute in Hn0; discriminate).
    replace (_mytoml_is_literal_string_start n0) with false
      by (symmetry; apply Z.eqb_neq; intros ->; vm_compute in Hn0; discriminate).
    rewrite (bind_done _ _ _ _ _ Hbk).
    rewrite (bind_done _ _ _ _ _ Hadd). reflexivity. }
  eexists.
  rewrite (key_value_bare_start n0 tok h key root (S (S fuel)) Hn0 Htk Hpv).
  rewrite (bind_done _ _ _ _ _ Hpd). reflexivity.
Qed.

(** X19.  A key bound twice is refused.  When the first line of a file
    binds a bare key to a basic string and the second line starts with the
    same key and an equals sign, [toml_load_file_name] returns the null
    pointer, whatever follows that equals sign. *)
Theorem duplicate_key_refused (fs : list Z -> option (list Z))
    (file name ws1 ws2 body ws3 rest : list Z) (fuel : nat) :
  fs file = Some (name ++ ws1 ++ ch "=" :: ws2 ++ DQUOTE :: body ++ DQUOTE :: NL
                    :: name ++ ws3 ++ ch "=" :: rest) ->
  Forall (fun x => _mytoml_is_bare_ascii x = true) name ->
  (1 <= length name <= 255)%nat ->
  Forall (fun x => _mytoml_is_whitesapce x = true) ws1 ->
  Forall (fun x => _mytoml_is_whitesapce x = true) ws2 ->
  Forall (fun x => _mytoml_is_whitesapce x = true) ws3 ->
  Forall string_char body ->
  (1 <= length body <= 4095)%nat ->
  Z.of_nat (length ws1 + length ws2 + length ws3 + length rest) + 4700 < MYTOML_MAX_FILE_SIZE ->
  (length name + length ws1 + length ws2 + length ws3 + length body + 8 < fuel)%nat ->
  exists st, toml_load_file_name fuel fs file = Done None st.
Proof.
  intros Hfs Hname Hnlen Hws1 Hws2 Hws3 Hbody Hblen Hsize Hfuel.
  set (contents := name ++ ws1 ++ ch "=" :: ws2 ++ DQUOTE :: body ++ DQUOTE :: NL
                     :: name ++ ws3 ++ ch "=" :: rest) in *.
  set (i := mkInput I_File (FileName file) (Some (contents ++ [EOF]))).
  assert (Hlen : Z.of_nat (length contents) < MYTOML_MAX_FILE_SIZE).
  { unfold contents. repeat (rewrite length_app; cbn [length]).
    unfold MYTOML_MAX_FILE_SIZE in *. lia. }
  assert (Hn : exists n0 name0, name = n0 :: name0)
    by (destruct name; [cbn in Hnlen; lia|eauto]).
  destruct Hn as (n0 & name0 & Hn).
  assert (Hn0 : _mytoml_is_bare_ascii n0 = true).
  { rewrite Hn in Hname. inversion Hname; assumption. }
  destruct (bare_ascii_plain n0 Hn0) as (Hn0e & _).
  assert (Hi : stream i
               = Some (name ++ ws1 ++ ch "=" :: ws2 ++ DQUOTE :: body ++ DQUOTE :: NL
                         :: name ++ ws3 ++ ch "=" :: rest ++ [EOF])).
  { unfold i, contents. cbn [stream app]. f_equal.
    repeat (rewrite <- app_assoc; cbn [app]). reflexivity. }
  destruct fuel as [|[|[|fuel]]]; try lia.
  rewrite (load_file_name_start fs file contents _ Hfs Hlen). fold i.
  destruct (first_token i n0 (name0 ++ ws1 ++ ch "=" :: ws2 ++ DQUOTE :: body ++ DQUOTE :: NL
                                :: n0 :: name0 ++ ws3 ++ ch "=" :: rest ++ [EOF]) [empty_root])
    as (tok0 & r0 & Hat0 & Htk0 & Hnu0 & Hpv0 & Hnext0).
  { rewrite Hi, Hn. reflexivity. }
  rewrite is_null_at in Hnu0 by exact Hn0e.
  (* the first line *)
  destruct (key_line i [] name ws1 ws2 body n0 (name0 ++ ws3 ++ ch "=" :: rest ++ [EOF])
              [empty_root] 0%nat 0%nat empty_root tok0 (S (S fuel)))
    as (tokN & HatN & HtkN & HnuN & Hkv1); try assumption; try reflexivity.
  { rewrite Hi. rewrite Hn. reflexivity. }
  { apply Forall_nil_2. }
  { discriminate. }
  { left. exact Hpv0. }
  { lia. }
  cbn [length Nat.add] in HatN.
  set (h2 := <[length [empty_root] := mkTomlKey TOML_KEYLEAF name ∅
                                       (Some (_mytoml_value_new_string body)) (wrap64 (-1))]>
               (<[0%nat := set_subkeys (<[name := length [empty_root]]> (subkeys empty_root))
                             empty_root]>
                  ([empty_root] ++ [mkTomlKey TOML_KEYLEAF name ∅ None (wrap64 (-1))]))) in *.
  (* the newline *)
  destruct (at_char_prev i (name ++ ws1 ++ ch "=" :: ws2 ++ DQUOTE :: body ++ [DQUOTE]) NL n0
              (name0 ++ ws3 ++ ch "=" :: rest ++ [EOF]))
    as (tokK & HatK & HtkK & HpvK).
  { rewrite Hi. rewrite Hn. cbn [app]. repeat (rewrite <- app_assoc; cbn [app]). reflexivity. }
  { apply Forall_app. split; [apply Forall_not_eof_bare; exact Hname|].
    apply Forall_app. split; [apply Forall_not_eof_blank; exact Hws1|].
    apply Forall_cons. split; [discriminate|].
    apply Forall_app. split; [apply Forall_not_eof_blank; exact Hws2|].
    apply Forall_cons. split; [discriminate|].
    apply Forall_app. split; [apply Forall_not_eof_string; exact Hbody|].
    apply Forall_cons. split; [discriminate|]. apply Forall_nil_2. }
  { discriminate. }
  rewrite read_as_id in HtkK by exact Hn0e.
  repeat (rewrite length_app in HatK; cbn [length] in HatK).
  match type of HatN with
  | at_char _ ?n _ =>
      destruct (at_char_next i n tokN tokK h2 HatN) as (rK & HnextK);
        [eapply at_char_at; [exact HatK|]; lia|]
  end.
  assert (Hkv2 : forall f, _mytoml_parser_parse_key_value f 0%nat 0%nat (mkMachine tokN h2)
                 = Done (Some 0%nat) (mkMachine tokK h2)).
  { intros f. unfold _mytoml_parser_parse_key_value.
    rewrite (bind_done _ _ _ _ _ (token_at _ _)). rewrite HtkN.
    change (_mytoml_is_comment_start NL) with false.
    change (_mytoml_is_whitesapce NL) with false. cbv iota.
    rewrite (bind_done _ _ _ _ _ (newline_here tokN h2 HtkN)).
    rewrite (bind_done _ _ _ _ _ HnextK). reflexivity. }
  (* the second line *)
  destruct (key_line_duplicate i
              (name ++ ws1 ++ ch "=" :: ws2 ++ DQUOTE :: body ++ [DQUOTE; NL]) name ws3
              (rest ++ [EOF]) h2 0%nat 0%nat 1%nat
              (set_subkeys {[name := 1%nat]} empty_root)
              (mkTomlKey TOML_KEYLEAF name ∅ (Some (_mytoml_value_new_string body))
                 (wrap64 (-1)))
              tokK fuel)
    as (st & Hkv3); try assumption; try reflexivity.
  { rewrite Hi. cbn [app]. repeat (rewrite <- app_assoc; cbn [app]). reflexivity. }
  { apply Forall_app. split; [apply Forall_not_eof_bare; exact Hname|].
    apply Forall_app. split; [apply Forall_not_eof_blank; exact Hws1|].
    apply Forall_cons. split; [discriminate|].
    apply Forall_app. split; [apply Forall_not_eof_blank; exact Hws2|].
    apply Forall_cons. split; [discriminate|].
    apply Forall_app. split; [apply Forall_not_eof_string; exact Hbody|].
    repeat (apply Forall_cons; split; [discriminate|]). apply Forall_nil_2. }
  { cbn [subkeys set_subkeys]. apply lookup_singleton_eq. }
  { eapply at_char_at; [exact HatK|]. repeat (rewrite length_app; cbn [length]). lia. }
  { right. exact HpvK. }
  { lia. }
  assert (HnuK : is_null tokK = true).
  { destruct (at_char_exists i
                (name ++ ws1 ++ ch "=" :: ws2 ++ DQUOTE :: body ++ [DQUOTE; NL]) n0
                (name0 ++ ws3 ++ ch "=" :: rest ++ [EOF]))
      as (t & Hat & _ & Hnu).
    { rewrite Hi. rewrite Hn. cbn [app]. repeat (rewrite <- app_assoc; cbn [app]).
      reflexivity. }
    { apply Forall_app. split; [apply Forall_not_eof_bare; exact Hname|].
      apply Forall_app. split; [apply Forall_not_eof_blank; exact Hws1|].
      apply Forall_cons. split; [discriminate|].
      apply Forall_app. split; [apply Forall_not_eof_blank; exact Hws2|].
      apply Forall_cons. split; [discriminate|].
      apply Forall_app. split; [apply Forall_not_eof_string; exact Hbody|].
      repeat (apply Forall_cons; split; [discriminate|]). apply Forall_nil_2. }
    repeat (rewrite length_app in Hat; cbn [length] in Hat).
    match type of HatK with
    | at_char _ ?n _ =>
        assert (Hat' : at_char i n t) by (eapply at_char_at; [exact Hat|lia])
    end.
    pose proof (at_char_unique _ _ _ _ HatK Hat') as <-.
    rewrite Hnu. apply is_null_at. exact Hn0e. }
  exists st.
  rewrite (bind_done _ _ _ _ _ Hnext0).
  cbn [parse_document].
  rewrite (bind_done _ _ _ _ _ (has_token_at _ _)). rewrite Hnu0.
  rewrite (bind_done _ _ _ _ _ Hkv1).
  rewrite (bind_done _ _ _ _ _ (has_token_at _ _)). rewrite HnuN.
  rewrite (bind_done _ _ _ _ _ (Hkv2 _)).
  rewrite (bind_done _ _ _ _ _ (has_token_at _ _)). rewrite HnuK.
  rewrite (bind_done _ _ _ _ _ Hkv3). reflexivity.
Qed.

Lemma duplicate_key_refused_witness :
  exists st,
    toml_load_file_name 32
      (fs_const (lit "a = `x`" ++ [NL] ++ lit "a = `y`" ++ [NL])) []
    = Done None st.
Proof.
  apply (duplicate_key_refused
           (fs_const (lit "a = `x`" ++ [NL] ++ lit "a = `y`" ++ [NL])) []
           (chars "a") [ch " "] [ch " "] (chars "x") [ch " "] (lit " `y`" ++ [NL]) 32).
  - reflexivity.
  - repeat (apply Forall_cons; split; [reflexivity|]). apply Forall_nil_2.
  - cbn. lia.
  - repeat (apply Forall_cons; split; [reflexivity|]). apply Forall_nil_2.
  - repeat (apply Forall_cons; split; [reflexivity|]). apply Forall_nil_2.
  - repeat (apply Forall_cons; split; [reflexivity|]). apply Forall_nil_2.
  - repeat (apply Forall_cons; split;
            [repeat split; first [discriminate | reflexivity]|]).
    apply Forall_nil_2.
  - cbn. lia.
  - reflexivity.
  - cbn. lia.
Defined.

(** ** Base-marked numbers *)

Lemma base_digit_facts (base x : Z) :
  base_digit base x = true ->
  x <> EOF /\ x <> 0 /\ _mytoml_is_underscore x = false /\ isspace x = false
  /\ (x =? ch "-") = false /\ (x =? ch "+") = false.
Proof.
  intros H.
  assert (Hh : hex_char x = true).
  { unfold base_digit in H. unfold hex_char.
    destruct (_mytoml_is_digit x); [apply orb_true_r|].
    cbn [orb] in H. apply andb_true_iff in H as (_ & H). rewrite H. reflexivity. }
  destruct (hex_char_facts x Hh) as (_ & H0 & He & Hs & Hm & Hp & _).
  repeat split; try assumption.
  apply Z.eqb_neq. intros ->. vm_compute in Hh. discriminate.
Qed.

Lemma digit_of_range (base x : Z) : digit_of base x = true -> 0 <= x < Z.of_nat 128.
Proof.
  unfold digit_of, digit_in, digit_value, between.
  change (ch "0") with 48. change (ch "9") with 57.
  change (ch "a") with 97. change (ch "z") with 122.
  change (ch "A") with 65. change (ch "Z") with 90.
  intros H.
  destruct ((48 <=? x) && (x <=? 57)) eqn:H1; [lia|].
  destruct ((97 <=? x) && (x <=? 122)) eqn:H2; [lia|].
  destruct ((65 <=? x) && (x <=? 90)) eqn:H3; [lia|].
  discriminate.
Qed.

Lemma digit_of_facts (base x : Z) :
  marked_base base ->
  digit_of base x = true ->
  (exists v, digit_in base x = Some v /\ 0 <= v < base)
  /\ base_digit base x = true
  /\ (x =? ch "x") = false /\ (x =? ch "X") = false.
Proof.
  intros Hb H.
  pose proof (digit_of_range base x H) as Hr.
  assert (Hc : forall b, marked_base b ->
             forallb (fun x => implb (digit_of b x)
                         (match digit_in b x with
                          | Some v => (0 <=? v) && (v <? b) | None => false end
                          && base_digit b x && negb (x =? ch "x") && negb (x =? ch "X")))
               (map Z.of_nat (seq 0 128)) = true).
  { intros b [-> | [-> | ->]]; vm_compute; reflexivity. }
  pose proof (bounded_check _ 128 (Hc base Hb) x Hr) as Hx. cbv beta in Hx.
  rewrite H in Hx. cbn [implb] in Hx.
  repeat (apply andb_true_iff in Hx as (Hx & ?)).
  repeat match goal with
         | Hn : negb _ = true |- _ => apply negb_true_iff in Hn
         end.
  destruct (digit_in base x) as [v|]; [|discriminate].
  repeat split; try assumption.
  exists v. split; [reflexivity|]. lia.
Qed.

(** On a base of 16, every character that may stand next to an underscore
    is a digit of the base. *)
Lemma base_digit_hex (x : Z) : base_digit 16 x = true -> digit_of 16 x = true.
Proof.
  intros H.
  assert (Hh : hex_char x = true).
  { unfold base_digit in H. unfold hex_char.
    destruct (_mytoml_is_digit x); [apply orb_true_r|].
    cbn [orb] in H. apply andb_true_iff in H as (_ & H). rewrite H. reflexivity. }
  destruct (hex_char_facts x Hh) as ((v & Hv & _) & _).
  unfold digit_of. rewrite Hv. reflexivity.
Qed.

(** The two tokens before the current one. *)
Lemma at_char_prev_prev (i : Input) (pre : list Z) (a b c : Z) (rest : list Z) :
  stream i = Some (pre ++ a :: b :: c :: rest) ->
  Forall (fun x => x <> EOF) pre ->
  a <> EOF -> b <> EOF ->
  exists tok,
    at_char i (length pre + 2) tok
    /\ token tok = read_as c /\ prev tok = b /\ prev_prev tok = a.
Proof.
  intros Hi Hpre Ha Hb.
  destruct (at_char_prev i pre a b (c :: rest) Hi Hpre Ha) as (tok1 & Hat1 & Htk1 & Hpv1).
  rewrite read_as_id in Htk1 by exact Hb.
  destruct i as [ty f s]. cbn in Hi. subst s.
  destruct (tokenizer_after_prefix (pre ++ [a]) b (c :: rest) ty f)
    as (tok & Hrun & Hin & _ & Hnu & Hcu & Hli & _).
  { apply Forall_snoc_ne; assumption. }
  rewrite <- app_assoc in Hrun, Hin. cbn [app] in Hrun, Hin.
  rewrite length_app in Hrun, Hcu. cbn [length] in Hrun, Hcu.
  assert (Hsame : tok = tok1).
  { eapply at_char_unique; [|exact Hat1]. unfold at_char.
    replace (S (S (length pre))) with (S (length pre + 1)) by lia. exact Hrun. }
  subst tok1.
  rewrite is_null_at in Hnu by exact Hb.
  destruct (next_token_step tok (pre ++ a :: b :: c :: rest) c)
    as (tok' & Hstep & _ & _ & Htk' & Hpv & Hpp & _); try lia.
  { exact Hnu. }
  { rewrite Hin. reflexivity. }
  { rewrite Hcu.
    replace (Z.to_nat (Z.of_nat (length pre + 1) + 1)) with (length pre + 2)%nat by lia.
    rewrite lookup_app_r by lia.
    replace (length pre + 2 - length pre)%nat with 2%nat by lia. reflexivity. }
  exists tok'. split; [|split; [exact Htk'|split; [rewrite Hpv; exact Htk1|]]].
  - unfold at_char. replace (S (length pre + 2)) with (S (S (length pre)) + 1)%nat by lia.
    rewrite iter_next_add. unfold bind at 1. unfold at_char in Hat1. rewrite Hat1.
    change (iter_next 1 tok) with ((_mytoml_tokenizer_next_token;; ret tt) tok).
    unfold bind. rewrite Hstep. reflexivity.
  - rewrite Hpp. exact Hpv1.
Qed.

(** The loop of [_mytoml_parser_parse_base_unit] over a run of digits. *)
Lemma base_unit_digits (ds : list Z) :
  forall (i : Input) (pre value : list Z) (c : Z) (rest : list Z) (h : heap)
         (base : Z) (num_end : list Z) (fuel : nat),
    stream i = Some (pre ++ ds ++ c :: rest) ->
    Forall (fun x => x <> EOF) pre ->
    Forall (unit_char base num_end) ds ->
    Z.of_nat (length value + length ds) <= MYTOML_MAX_STRING_LENGTH ->
    exists tok tok',
      at_char i (length pre) tok
      /\ at_char i (length pre + length ds) tok'
      /\ _mytoml_parser_parse_base_unit (length ds + fuel) base value num_end (mkMachine tok h)
         = _mytoml_parser_parse_base_unit fuel base (value ++ ds) num_end (mkMachine tok' h).
Proof.
  induction ds as [|d ds IH]; intros i pre value c rest h base num_end fuel Hi Hpre Hds Hlen.
  - destruct (at_char_exists i pre c rest Hi Hpre) as (tok & Hat & _).
    exists tok, tok. cbn [length]. rewrite Nat.add_0_r, app_nil_r.
    split; [exact Hat|]. split; [exact Hat|]. reflexivity.
  - inversion Hds as [|? ? (Hd & Hde) Hds']; subst.
    destruct (base_digit_facts base d Hd) as (Hdeof & _ & Hdu & _).
    destruct (at_char_exists i pre d _ Hi Hpre) as (tok & Hat & Htk & Hnu).
    rewrite read_as_id in Htk by exact Hdeof. rewrite is_null_at in Hnu by exact Hdeof.
    destruct (IH i (pre ++ [d]) (value ++ [d]) c rest h base num_end fuel)
      as (tok1 & tok' & Hat1 & Hat' & Hrun).
    { rewrite <- app_assoc. exact Hi. }
    { apply Forall_snoc_ne; assumption. }
    { exact Hds'. }
    { rewrite length_app. cbn [length] in *. lia. }
    rewrite length_app in Hat1, Hat'. cbn [length] in Hat1, Hat'.
    replace (length pre + 1)%nat with (S (length pre)) in Hat1 by lia.
    destruct (at_char_next _ _ _ _ h Hat Hat1) as (r & Hnext).
    exists tok, tok'. split; [exact Hat|].
    split; [cbn [length];
            replace (length pre + S (length ds))%nat with (length pre + 1 + length ds)%nat by lia;
            exact Hat'|].
    rewrite <- app_assoc in Hrun. cbn [app] in Hrun. rewrite <- Hrun.
    cbn [length Nat.add _mytoml_parser_parse_base_unit].
    rewrite (bind_done _ _ _ _ _ (has_token_at _ _)). rewrite Hnu.
    cbn [length] in Hlen.
    replace (MYTOML_MAX_STRING_LENGTH <=? Z.of_nat (length value)) with false
      by (symmetry; apply Z.leb_gt; lia).
    rewrite (bind_done _ _ _ _ _ (token_at _ _)). rewrite Htk.
    rewrite Hde, Hdu.
    unfold buf_push.
    replace (Z.of_nat (length value) <? MYTOML_MAX_STRING_LENGTH) with true
      by (symmetry; apply Z.ltb_lt; lia).
    unfold bind at 1, ret at 1.
    rewrite (bind_done _ _ _ _ _ Hnext). reflexivity.
Qed.

Lemma length_more_digits (g : list Z) (gs : list (list Z)) :
  length (more_digits (g :: gs)) = S (length g + length (more_digits gs)).
Proof. unfold more_digits. cbn [map concat]. cbn [app length]. rewrite length_app. reflexivity. Qed.

(** The loop of [_mytoml_parser_parse_base_unit] behind the digit [q]: the
    rest [g] of its group, then further groups, an underscore before
    each. *)
Lemma base_unit_groups (gs : list (list Z)) :
  forall (i : Input) (pre : list Z) (q : Z) (g value : list Z) (d : Z) (rest : list Z)
         (h : heap) (base : Z) (num_end : list Z) (fuel : nat),
    stream i = Some (pre ++ q :: g ++ more_digits gs ++ d :: rest) ->
    Forall (fun x => x <> EOF) pre ->
    unit_char base num_end q ->
    Forall (unit_char base num_end) g ->
    Forall (unit_group base num_end) gs ->
    _mytoml_is_number_end (ch "_") num_end = false ->
    Z.of_nat (length value + length g + length (concat gs)) <= MYTOML_MAX_STRING_LENGTH ->
    exists tok tok',
      at_char i (length pre + 1) tok
      /\ at_char i (length pre + 1 + length g + length (more_digits gs)) tok'
      /\ _mytoml_parser_parse_base_unit (length g + length (concat gs) + fuel) base value
           num_end (mkMachine tok h)
         = _mytoml_parser_parse_base_unit fuel base (value ++ g ++ concat gs) num_end
             (mkMachine tok' h).
Proof.
  induction gs as [|g' gs IH];
    intros i pre q g value d rest h base num_end fuel Hi Hpre Hq Hg Hgs Hus Hlen.
  - cbn [more_digits map concat app length] in *.
    destruct (base_unit_digits g i (pre ++ [q]) value d rest h base num_end fuel)
      as (tok & tok' & Hat & Hat' & Hrun).
    { rewrite <- app_assoc. exact Hi. }
    { apply Forall_snoc_ne; [exact Hpre|]. apply (base_digit_facts base q), Hq. }
    { exact Hg. }
    { lia. }
    rewrite length_app in Hat, Hat'. cbn [length] in Hat, Hat'.
    exists tok, tok'. split; [exact Hat|].
    split; [rewrite Nat.add_0_r; exact Hat'|].
    rewrite Nat.add_0_r, app_nil_r. exact Hrun.
  - inversion Hgs as [|? ? (Hne & Hg') Hgs']; subst.
    destruct g' as [|d1 g1]; [congruence|]. clear Hne.
    inversion Hg' as [|? ? Hd1 Hg1]; subst.
    assert (Hqg : Forall (fun x => x <> EOF) (q :: g)).
    { apply Forall_cons. split; [apply (base_digit_facts base q), Hq|].
      eapply Forall_impl; [exact Hg|]. intros x Hx. apply (base_digit_facts base x), Hx. }
    assert (Hi0 : stream i = Some (pre ++ q :: g ++ ch "_" :: d1 :: g1 ++ more_digits gs
                                     ++ d :: rest)).
    { rewrite Hi. unfold more_digits. cbn [map concat].
      repeat (rewrite <- app_assoc; cbn [app]). reflexivity. }
    cbn [concat] in Hlen. rewrite length_app in Hlen. cbn [length] in Hlen.
    (* the run up to the underscore *)
    destruct (base_unit_digits g i (pre ++ [q]) value (ch "_")
                (d1 :: g1 ++ more_digits gs ++ d :: rest) h base num_end
                (S (length g1 + length (concat gs) + fuel)))
      as (tok & tokU & Hat & HatU & Hrun).
    { rewrite <- app_assoc. exact Hi0. }
    { apply Forall_snoc_ne; [exact Hpre|]. apply (base_digit_facts base q), Hq. }
    { exact Hg. }
    { lia. }
    rewrite length_app in Hat, HatU. cbn [length] in Hat, HatU.
    (* the underscore, the digit before it and the digit behind it *)
    destruct (at_char_exists i (pre ++ q :: g) (ch "_")
                (d1 :: g1 ++ more_digits gs ++ d :: rest)) as (t & HatU' & HtkU & HnuU).
    { rewrite <- app_assoc. exact Hi0. }
    { apply Forall_app. split; assumption. }
    rewrite length_app in HatU'. cbn [length] in HatU'.
    assert (HatU2 : at_char i (length pre + 1 + length g) t)
      by (replace (length pre + 1 + length g)%nat with (length pre + S (length g))%nat by lia;
          exact HatU').
    pose proof (at_char_unique _ _ _ _ HatU HatU2) as <-. clear HatU' HatU2.
    change (read_as (ch "_")) with (ch "_") in HtkU.
    change (negb (ch "_" =? EOF)) with true in HnuU.
    assert (Hlast : exists front a, q :: g = front ++ [a] /\ unit_char base num_end a).
    { destruct (exists_last (l := q :: g) ltac:(discriminate)) as (front & a & Heq).
      exists front, a. split; [exact Heq|].
      assert (Hall : Forall (unit_char base num_end) (q :: g))
        by (apply Forall_cons; split; assumption).
      rewrite Heq in Hall. apply Forall_app in Hall as (_ & Hall).
      inversion Hall; assumption. }
    destruct Hlast as (front & a & Heq & Ha).
    assert (Hfront : Forall (fun x => x <> EOF) (pre ++ front)).
    { apply Forall_app. split; [exact Hpre|].
      rewrite Heq in Hqg. apply Forall_app in Hqg as (Hqg & _). exact Hqg. }
    destruct (at_char_prev_prev i (pre ++ front) a (ch "_") d1
                (g1 ++ more_digits gs ++ d :: rest)) as (tokD & HatD & HtkD & _ & HppD).
    { rewrite Hi0. rewrite <- app_assoc.
      change (q :: g ++ ch "_" :: d1 :: g1 ++ more_digits gs ++ d :: rest)
        with ((q :: g) ++ ch "_" :: d1 :: g1 ++ more_digits gs ++ d :: rest).
      rewrite Heq, <- app_assoc. reflexivity. }
    { exact Hfront. }
    { apply (base_digit_facts base a), Ha. }
    { discriminate. }
    assert (Hlf : length (pre ++ front) = (length pre + length g)%nat).
    { rewrite length_app.
      assert (Hl : length (q :: g) = length (front ++ [a])) by (rewrite Heq; reflexivity).
      rewrite length_app in Hl. cbn [length] in Hl. lia. }
    rewrite Hlf in HatD.
    destruct (base_digit_facts base d1 (proj1 Hd1)) as (Hd1e & _).
    rewrite read_as_id in HtkD by exact Hd1e.
    (* the rest of the group and the further groups *)
    destruct (IH i (pre ++ q :: g ++ [ch "_"]) d1 g1 (value ++ g ++ [d1]) d rest h base
                num_end fuel) as (tokN & tok' & HatN & Hat' & Hrest).
    { rewrite Hi0. repeat (rewrite <- app_assoc; cbn [app]). reflexivity. }
    { apply Forall_app. split; [exact Hpre|].
      apply Forall_cons. inversion Hqg; subst. split; [assumption|].
      apply Forall_snoc_ne; [assumption|discriminate]. }
    { exact Hd1. }
    { exact Hg1. }
    { exact Hgs'. }
    { exact Hus. }
    { repeat (rewrite length_app; cbn [length]). lia. }
    repeat (rewrite length_app in HatN; cbn [length] in HatN).
    repeat (rewrite length_app in Hat'; cbn [length] in Hat').
    destruct (at_char_next i (length pre + 1 + length g) tokU tokD h HatU) as (r1 & Hnext1).
    { replace (S (length pre + 1 + length g)) with (length pre + length g + 2)%nat by lia.
      exact HatD. }
    destruct (at_char_next i (length pre + length g + 2) tokD tokN h HatD) as (r2 & Hnext2).
    { replace (S (length pre + length g + 2))
        with (length pre + S (length g + 1) + 1)%nat by lia.
      exact HatN. }
    exists tok, tok'. split; [exact Hat|]. split.
    { rewrite length_more_digits. cbn [length].
      replace (length pre + 1 + length g + S (S (length g1) + length (more_digits gs)))%nat
        with (length pre + S (length g + 1) + 1 + length g1 + length (more_digits gs))%nat
        by lia.
      exact Hat'. }
    cbn [concat]. rewrite length_app. cbn [length].
    replace (length g + (S (length g1) + length (concat gs)) + fuel)%nat
      with (length g + S (length g1 + length (concat gs) + fuel))%nat by lia.
    rewrite Hrun.
    replace (value ++ g ++ (d1 :: g1) ++ concat gs)
      with ((value ++ g ++ [d1]) ++ g1 ++ concat gs)
      by (repeat (rewrite <- app_assoc; cbn [app]); reflexivity).
    rewrite <- Hrest.
    cbn [_mytoml_parser_parse_base_unit].
    rewrite (bind_done _ _ _ _ _ (has_token_at _ _)). rewrite HnuU.
    replace (MYTOML_MAX_STRING_LENGTH <=? Z.of_nat (length (value ++ g))) with false
      by (symmetry; apply Z.leb_gt; rewrite length_app; lia).
    rewrite (bind_done _ _ _ _ _ (token_at _ _)). rewrite HtkU.
    rewrite Hus. change (_mytoml_is_underscore (ch "_")) with true. cbv iota.
    rewrite (bind_done _ _ _ _ _ Hnext1).
    rewrite (bind_done _ _ _ _ _ (token_at _ _)). rewrite HtkD.
    unfold on_tok at 1, _mytoml_tokenizer_get_prev_prev_token, bind at 1.
    cbn [mtok mheap]. rewrite HppD.
    rewrite (proj1 Hd1), (proj1 Ha). cbn [andb].
    unfold buf_push.
    replace (Z.of_nat (length (value ++ g)) <? MYTOML_MAX_STRING_LENGTH) with true
      by (symmetry; apply Z.ltb_lt; rewrite length_app; lia).
    unfold bind at 1, ret at 1.
    rewrite (bind_done _ _ _ _ _ Hnext2).
    rewrite <- app_assoc. reflexivity.
Qed.

Lemma ends_apart_digit (base : Z) (num_end : list Z) (c : Z) :
  ends_apart base num_end -> base_digit base c = true ->
  _mytoml_is_number_end c num_end = false.
Proof.
  intros He Hc. unfold _mytoml_is_number_end.
  induction He as [|e l (Hd & _) _ IH]; [reflexivity|].
  cbn [existsb]. rewrite IH, orb_false_r.
  apply Z.eqb_neq. intros ->. congruence.
Qed.

Lemma ends_apart_underscore (base : Z) (num_end : list Z) :
  ends_apart base num_end -> _mytoml_is_number_end (ch "_") num_end = false.
Proof.
  intros He. unfold _mytoml_is_number_end.
  induction He as [|e l (_ & Hu) _ IH]; [reflexivity|].
  cbn [existsb]. rewrite IH, orb_false_r.
  apply Z.eqb_neq. congruence.
Qed.

Lemma unit_groups_chars (base : Z) (num_end : list Z) (gs : list (list Z)) :
  ends_apart base num_end -> unit_groups base gs ->
  Forall (unit_group base num_end) gs.
Proof.
  intros He Hgs. eapply Forall_impl; [exact Hgs|].
  intros g (Hne & Hg). split; [exact Hne|].
  eapply Forall_impl; [exact Hg|]. intros c Hc.
  split; [exact Hc|]. apply (ends_apart_digit base); assumption.
Qed.

Lemma digit_groups_unit (base : Z) (gs : list (list Z)) :
  marked_base base -> digit_groups base gs -> unit_groups base gs.
Proof.
  intros Hb Hgs. eapply Forall_impl; [exact Hgs|].
  intros g (Hne & Hg). split; [exact Hne|].
  eapply Forall_impl; [exact Hg|]. intros c Hc.
  apply (digit_of_facts base c Hb Hc).
Qed.

Lemma digit_groups_concat (base : Z) (gs : list (list Z)) :
  digit_groups base gs -> Forall (fun c => digit_of base c = true) (concat gs).
Proof.
  intros Hgs. induction Hgs as [|g gs (_ & Hg) _ IH]; [apply Forall_nil_2|].
  cbn [concat]. apply Forall_app. split; assumption.
Qed.

Lemma unit_groups_concat (base : Z) (gs : list (list Z)) :
  unit_groups base gs -> Forall (fun c => base_digit base c = true) (concat gs).
Proof.
  intros Hgs. induction Hgs as [|g gs (_ & Hg) _ IH]; [apply Forall_nil_2|].
  cbn [concat]. apply Forall_app. split; assumption.
Qed.

(** The loop of [_mytoml_parser_parse_base_unit] over groups of digits,
    from the first digit to the character behind the last. *)
Lemma base_unit_text (gs : list (list Z)) (i : Input) (pre : list Z) (d : Z)
    (rest : list Z) (h : heap) (base : Z) (num_end : list Z) (fuel : nat) :
  stream i = Some (pre ++ underscored gs ++ d :: rest) ->
  Forall (fun x => x <> EOF) pre ->
  ends_apart base num_end ->
  unit_groups base gs ->
  Z.of_nat (length (concat gs)) <= MYTOML_MAX_STRING_LENGTH ->
  exists tok tok',
    at_char i (length pre) tok
    /\ at_char i (length pre + length (underscored gs)) tok'
    /\ token tok' = read_as d
    /\ is_null tok' = negb (d =? EOF)
    /\ _mytoml_parser_parse_base_unit (length (concat gs) + fuel) base [] num_end
         (mkMachine tok h)
       = _mytoml_parser_parse_base_unit fuel base (concat gs) num_end (mkMachine tok' h).
Proof.
  intros Hi Hpre He Hgs Hlen.
  destruct (at_char_exists i (pre ++ underscored gs) d rest) as (tokE & HatE & HtkE & HnuE).
  { rewrite <- app_assoc. exact Hi. }
  { apply Forall_app. split; [exact Hpre|].
    destruct gs as [|g gs]; [apply Forall_nil_2|].
    inversion Hgs as [|? ? (_ & Hg) Hgs']; subst.
    cbn [underscored]. apply Forall_app. split.
    - eapply Forall_impl; [exact Hg|]. intros x Hx. apply (base_digit_facts base x Hx).
    - clear Hi Hlen Hgs Hg. induction Hgs' as [|g' gs' (_ & Hg') _ IH]; [apply Forall_nil_2|].
      unfold more_digits. cbn [map concat].
      apply Forall_app. split; [|exact IH].
      apply Forall_cons. split; [discriminate|].
      eapply Forall_impl; [exact Hg'|]. intros x Hx. apply (base_digit_facts base x Hx). }
  rewrite length_app in HatE.
  destruct gs as [|g gs].
  - cbn [underscored concat app length] in *.
    exists tokE, tokE. rewrite Nat.add_0_r in HatE.
    split; [exact HatE|]. split; [rewrite Nat.add_0_r; exact HatE|].
    split; [exact HtkE|]. split; [exact HnuE|]. reflexivity.
  - inversion Hgs as [|? ? (Hne & Hg) Hgs']; subst.
    destruct g as [|q g]; [congruence|]. clear Hne.
    inversion Hg as [|? ? Hq Hg0]; subst.
    cbn [underscored concat app length] in *.
    rewrite length_app in Hlen.
    pose proof (unit_groups_chars base num_end gs He Hgs') as Hgs1.
    assert (Hg1 : Forall (unit_char base num_end) g).
    { eapply Forall_impl; [exact Hg0|]. intros c Hc.
      split; [exact Hc|]. apply (ends_apart_digit base); assumption. }
    assert (Hq1 : unit_char base num_end q)
      by (split; [exact Hq|apply (ends_apart_digit base); assumption]).
    destruct (base_unit_digits [q] i pre [] (hd d (g ++ more_digits gs ++ [d]))
                (tl (g ++ more_digits gs ++ d :: rest)) h base num_end
                (length g + length (concat gs) + fuel))
      as (tok & tok1 & Hat & Hat1 & Hrun1).
    { rewrite Hi. cbn [app]. rewrite <- app_assoc.
      destruct g as [|g0 g]; [destruct (more_digits gs)|]; reflexivity. }
    { exact Hpre. }
    { apply Forall_cons. split; [exact Hq1|apply Forall_nil_2]. }
    { cbn [length]. lia. }
    destruct (base_unit_groups gs i pre q g [q] d rest h base num_end fuel)
      as (tok1' & tok' & Hat1' & Hat' & Hrun).
    { rewrite Hi. rewrite <- app_assoc. reflexivity. }
    { exact Hpre. }
    { exact Hq1. }
    { exact Hg1. }
    { exact Hgs1. }
    { apply (ends_apart_underscore base). exact He. }
    { cbn [length]. lia. }
    cbn [length] in Hat1.
    pose proof (at_char_unique _ _ _ _ Hat1 Hat1') as <-.
    assert (HatE' : at_char i (length pre + 1 + length g + length (more_digits gs)) tokE).
    { rewrite length_app in HatE.
      replace (length pre + 1 + length g + length (more_digits gs))%nat
        with (length pre + (S (length g) + length (more_digits gs)))%nat by lia.
      exact HatE. }
    pose proof (at_char_unique _ _ _ _ Hat' HatE') as <-.
    exists tok, tok'. split; [exact Hat|]. split.
    { rewrite length_app in HatE |- *. exact HatE. }
    split; [exact HtkE|]. split; [exact HnuE|].
    rewrite length_app.
    replace (S (length g + length (concat gs)) + fuel)%nat
      with (length [q] + (length g + length (concat gs) + fuel))%nat by (cbn [length]; lia).
    rewrite Hrun1. cbn [app]. rewrite Hrun. cbn [app]. reflexivity.
Qed.

(** The last turn of [_mytoml_parser_parse_base_unit], on a terminator. *)
Lemma base_unit_convert (value : list Z) (tok : Tokenizer) (h : heap) (base : Z)
    (num_end : list Z) (fuel : nat) :
  is_null tok = true ->
  _mytoml_is_number_end (token tok) num_end = true ->
  (1 <= length value)%nat ->
  Z.of_nat (length value) < MYTOML_MAX_STRING_LENGTH ->
  Forall (fun x => x <> 0) value ->
  _mytoml_parser_parse_base_unit (S fuel) base value num_end (mkMachine tok h)
  = Done (if snd (strtoul value base) =? Z.of_nat (length value)
          then double_of_ulong (fst (strtoul value base)) else minus_one)
         (mkMachine tok h).
Proof.
  intros Hnu Hend Hne Hlen Hz.
  cbn [_mytoml_parser_parse_base_unit].
  rewrite (bind_done _ _ _ _ _ (has_token_at _ _)). rewrite Hnu.
  replace (MYTOML_MAX_STRING_LENGTH <=? Z.of_nat (length value)) with false
    by (symmetry; apply Z.leb_gt; lia).
  rewrite (bind_done _ _ _ _ _ (token_at _ _)). rewrite Hend.
  replace (Z.of_nat (length value) =? 0) with false by (symmetry; apply Z.eqb_neq; lia).
  unfold c_string.
  replace (Z.of_nat (length value) <? MYTOML_MAX_STRING_LENGTH) with true
    by (symmetry; apply Z.ltb_lt; lia).
  cbn [orb]. unfold bind at 1, ret at 1.
  rewrite cstr_without_zero by exact Hz.
  destruct (strtoul value base) as (num, consumed). cbn [fst snd].
  destruct (consumed =? Z.of_nat (length value)); reflexivity.
Qed.

Lemma read_digits_all (base : Z) (ds : list Z) :
  forall acc n,
    Forall (fun x => digit_of base x = true) ds ->
    read_digits base ds acc n
    = (fold_left (fun a c => a * base + default 0 (digit_in base c)) ds acc,
       n + Z.of_nat (length ds), []).
Proof.
  induction ds as [|d ds IH]; intros acc n Hds.
  - cbn. rewrite Z.add_0_r. reflexivity.
  - inversion Hds as [|? ? Hd Hds']; subst.
    unfold digit_of in Hd. cbn [read_digits fold_left].
    destruct (digit_in base d) as [v|]; [|discriminate].
    cbn [default]. rewrite IH by exact Hds'.
    cbn [length]. rewrite Nat2Z.inj_succ.
    replace (n + 1 + Z.of_nat (length ds)) with (n + Z.succ (Z.of_nat (length ds))) by lia.
    reflexivity.
Qed.

Lemma read_digits_stop (base : Z) (good : list Z) (bad : Z) (rest : list Z) :
  forall acc n,
    Forall (fun x => digit_of base x = true) good ->
    digit_of base bad = false ->
    exists v, read_digits base (good ++ bad :: rest) acc n
              = (v, n + Z.of_nat (length good), bad :: rest).
Proof.
  induction good as [|d good IH]; intros acc n Hgood Hbad.
  - exists acc. cbn [app read_digits length]. unfold digit_of in Hbad.
    destruct (digit_in base bad); [discriminate|]. rewrite Z.add_0_r. reflexivity.
  - inversion Hgood as [|? ? Hd Hgood']; subst.
    unfold digit_of in Hd. cbn [app read_digits].
    destruct (digit_in base d) as [v|]; [|discriminate].
    destruct (IH (acc * base + v) (n + 1) Hgood' Hbad) as (w & Hw).
    exists w. rewrite Hw. cbn [length]. rewrite Nat2Z.inj_succ.
    replace (n + 1 + Z.of_nat (length good)) with (n + Z.succ (Z.of_nat (length good))) by lia.
    reflexivity.
Qed.

(** [strtoul] on a string of digits of the base and nothing else. *)
Lemma strtoul_digits (base : Z) (ds : list Z) :
  marked_base base ->
  ds <> [] ->
  Forall (fun x => digit_of base x = true) ds ->
  strtoul ds base
  = (if 2 ^ 64 <=? digits_value base ds then 2 ^ 64 - 1 else digits_value base ds,
     Z.of_nat (length ds)).
Proof.
  intros Hb Hne Hds.
  destruct ds as [|c0 ds]; [congruence|]. clear Hne.
  inversion Hds as [|? ? H0 Hds0]; subst.
  destruct (digit_of_facts base c0 Hb H0) as (_ & Hbd & _).
  destruct (base_digit_facts base c0 Hbd) as (_ & _ & _ & Hsp & Hmi & Hpl).
  unfold strtoul. cbn [skip_spaces]. rewrite Hsp. cbn [read_sign]. rewrite Hmi, Hpl.
  assert (Hs3 : (if base =? 16 then
                   match ds with
                   | x :: d :: r =>
                       if (c0 =? ch "0") && ((x =? ch "x") || (x =? ch "X"))
                          && bool_decide (is_Some (digit_in 16 d))
                       then d :: r else c0 :: ds
                   | _ => c0 :: ds
                   end
                 else c0 :: ds) = c0 :: ds).
  { destruct (base =? 16); [|reflexivity].
    destruct ds as [|x [|d r]]; try reflexivity.
    inversion Hds0 as [|? ? Hx _]; subst.
    destruct (digit_of_facts base x Hb Hx) as (_ & _ & Hx1 & Hx2).
    rewrite Hx1, Hx2. rewrite andb_false_r. reflexivity. }
  rewrite Hs3. rewrite read_digits_all by exact Hds.
  fold (digits_value base (c0 :: ds)).
  replace (0 + Z.of_nat (length (c0 :: ds)) =? 0) with false
    by (symmetry; apply Z.eqb_neq; cbn [length]; lia).
  f_equal; cbn [length]; lia.
Qed.

(** [strtoul] stops at a decimal digit that the base does not have. *)
Lemma strtoul_stops (base : Z) (ds : list Z) :
  base = 8 \/ base = 2 ->
  Forall (fun x => base_digit base x = true) ds ->
  Exists (fun x => digit_of base x = false) ds ->
  snd (strtoul ds base) <> Z.of_nat (length ds).
Proof.
  intros Hb Hds Hex.
  assert (Hsplit : exists good bad rest,
             ds = good ++ bad :: rest
             /\ Forall (fun x => digit_of base x = true) good
             /\ digit_of base bad = false).
  { clear Hds. induction Hex as [x l Hx|x l _ IH].
    - exists [], x, l. split; [reflexivity|]. split; [apply Forall_nil_2|exact Hx].
    - destruct (digit_of base x) eqn:Hx.
      + destruct IH as (good & bad & rest & -> & Hgood & Hbad).
        exists (x :: good), bad, rest. split; [reflexivity|].
        split; [apply Forall_cons; split; assumption|exact Hbad].
      + exists [], x, l. split; [reflexivity|]. split; [apply Forall_nil_2|exact Hx]. }
  destruct Hsplit as (good & bad & rest & Heq & Hgood & Hbad).
  destruct ds as [|c0 ds0]; [destruct good; discriminate|].
  inversion Hds as [|? ? H0 _]; subst c0 l.
  destruct (base_digit_facts base _ H0) as (_ & _ & _ & Hsp & Hmi & Hpl).
  unfold strtoul. cbn [skip_spaces]. rewrite Hsp. cbn [read_sign]. rewrite Hmi, Hpl.
  replace (base =? 16) with false by (destruct Hb as [-> | ->]; reflexivity).
  rewrite Heq.
  destruct (read_digits_stop base good bad rest 0 0 Hgood Hbad) as (v & Hv).
  rewrite Hv. rewrite length_app. cbn [length].
  destruct (0 + Z.of_nat (length good) =? 0) eqn:Hz; cbn [snd]; lia.
Qed.

(** An [unsigned long] below [2^63] does not convert to the error value of
    [_mytoml_parser_parse_base_unit]. *)
Lemma double_of_ulong_not_error (z : Z) :
  0 <= z < 2 ^ 63 -> PrimFloat.eqb (double_of_ulong z) minus_one = false.
Proof.
  intros Hz. unfold double_of_ulong.
  assert (Hn : Uint63.to_Z (Uint63.of_Z z) = z).
  { rewrite Uint63.of_Z_spec. apply Z.mod_small. exact Hz. }
  rewrite <- Hn at 1. rewrite <- FloatAxioms.of_uint63_spec, FloatAxioms.SF2Prim_Prim2SF.
  rewrite FloatAxioms.eqb_spec, FloatAxioms.of_uint63_spec, Hn.
  change (Prim2SF minus_one) with (S754_finite true 4503599627370496 (-52)).
  destruct z as [|p|p]; [reflexivity| |lia].
  unfold binary_normalize, binary_round.
  destruct (shl_align p 0 _) as (mz, ez).
  unfold binary_round_aux.
  destruct (shr_fexp prec emax (Z.pos mz) ez loc_Exact) as (mrs', e').
  destruct (shr_fexp prec emax _ e' loc_Exact) as (mrs'', e'').
  destruct (shr_m mrs'') as [|m|m]; try reflexivity.
  destruct (e'' <=? emax - prec); reflexivity.
Qed.

Lemma digits_value_nonneg (base : Z) (ds : list Z) :
  marked_base base ->
  Forall (fun x => digit_of base x = true) ds ->
  0 <= digits_value base ds.
Proof.
  intros Hb Hds. unfold digits_value.
  assert (H : forall acc, 0 <= acc ->
             0 <= fold_left (fun a c => a * base + default 0 (digit_in base c)) ds acc).
  { induction Hds as [|d ds Hd _ IH]; intros acc Hacc; [exact Hacc|].
    cbn [fold_left]. apply IH.
    destruct (digit_of_facts base d Hb Hd) as ((v & Hv & Hvr) & _).
    rewrite Hv. change (default 0 (Some v)) with v.
    assert (0 <= base) by (destruct Hb as [-> | [-> | ->]]; lia).
    assert (0 <= acc * base) by (apply Z.mul_nonneg_nonneg; lia).
    lia. }
  apply H. lia.
Qed.

Lemma base_marker_facts (base : Z) :
  marked_base base ->
  base_digit base (base_marker base) = false
  /\ base_marker base <> EOF
  /\ (if base_marker base =? ch "x" then 16
      else if base_marker base =? ch "o" then 8
      else if base_marker base =? ch "b" then 2 else 0) = base.
Proof. intros [-> | [-> | ->]]; repeat split; discriminate. Qed.

(** [_mytoml_parser_parse_number] on a zero and a base marker: the digits
    are left to [_mytoml_parser_parse_base_unit]. *)
Lemma number_base_marker (i : Input) (pre : list Z) (c : Z) (rest : list Z) (h : heap)
    (base : Z) (num_end : list Z) (fuel : nat) :
  stream i = Some (pre ++ ch "0" :: base_marker base :: c :: rest) ->
  Forall (fun x => x <> EOF) pre ->
  marked_base base ->
  ends_apart base num_end ->
  exists tok tok2,
    at_char i (length pre) tok
    /\ at_char i (length pre + 2) tok2
    /\ _mytoml_parser_parse_number (S fuel) num_end (mkMachine tok h)
       = (let* b := _mytoml_parser_parse_base_unit fuel base [] num_end in
          if PrimFloat.eqb b minus_one then ret None
          else ret (Some (mkNumber TOML_INT 0 false, b))) (mkMachine tok2 h).
Proof.
  intros Hi Hpre Hb He.
  destruct (base_marker_facts base Hb) as (_ & Hme & Hsel).
  destruct (at_char_exists i pre (ch "0") _ Hi Hpre) as (tok & Hat & Htk & Hnu).
  change (read_as (ch "0")) with (ch "0") in Htk.
  change (negb (ch "0" =? EOF)) with true in Hnu.
  destruct (at_char_exists i (pre ++ [ch "0"]) (base_marker base) (c :: rest))
    as (tok1 & Hat1 & Htk1 & Hnu1).
  { rewrite <- app_assoc. exact Hi. }
  { apply Forall_snoc_ne; [exact Hpre|discriminate]. }
  rewrite read_as_id in Htk1 by exact Hme.
  destruct (at_char_exists i (pre ++ [ch "0"; base_marker base]) c rest)
    as (tok2 & Hat2 & _).
  { rewrite <- app_assoc. exact Hi. }
  { apply Forall_app. split; [exact Hpre|].
    apply Forall_cons. split; [discriminate|].
    apply Forall_cons. split; [exact Hme|apply Forall_nil_2]. }
  rewrite length_app in Hat1, Hat2. cbn [length] in Hat1, Hat2.
  destruct (at_char_next i (length pre) tok tok1 h Hat) as (r1 & Hnext1).
  { replace (S (length pre)) with (length pre + 1)%nat by lia. exact Hat1. }
  destruct (at_char_next i (length pre + 1) tok1 tok2 h Hat1) as (r2 & Hnext2).
  { replace (S (length pre + 1)) with (length pre + 2)%nat by lia. exact Hat2. }
  exists tok, tok2. split; [exact Hat|]. split; [exact Hat2|].
  unfold _mytoml_parser_parse_number. cbn [_mytoml_parser_parse_number_loop].
  rewrite (bind_done _ _ _ _ _ (has_token_at _ _)). rewrite Hnu.
  change (negb (Z.of_nat (length (@nil Z)) <? MYTOML_MAX_STRING_LENGTH)) with false.
  cbv iota.
  rewrite (bind_done _ _ _ _ _ (token_at _ _)). rewrite Htk.
  rewrite (ends_apart_digit base num_end (ch "0") He)
    by (unfold base_digit; reflexivity).
  change ((Z.of_nat (length (@nil Z)) =? 0) && (ch "0" =? ch "0")) with true. cbv iota.
  rewrite (bind_done _ _ _ _ _ Hnext1).
  rewrite (bind_done _ _ _ _ _ (token_at _ _)). rewrite Htk1.
  destruct Hb as [-> | [-> | ->]];
    change (base_marker 16) with (ch "x") in *;
    change (base_marker 8) with (ch "o") in *;
    change (base_marker 2) with (ch "b") in *.
  - change (ch "x" =? ch "x") with true. cbv iota.
    rewrite (bind_done _ _ _ _ _ Hnext2). reflexivity.
  - change (ch "o" =? ch "x") with false. change (ch "o" =? ch "o") with true. cbv iota.
    rewrite (bind_done _ _ _ _ _ Hnext2). reflexivity.
  - change (ch "b" =? ch "x") with false. change (ch "b" =? ch "o") with false.
    change (ch "b" =? ch "b") with true. cbv iota.
    rewrite (bind_done _ _ _ _ _ Hnext2). reflexivity.
Qed.

Lemma underscored_split (gs : list (list Z)) (d : Z) (rest : list Z) :
  exists c rest', underscored gs ++ d :: rest = c :: rest'.
Proof. destruct (underscored gs); eexists; eexists; reflexivity. Qed.

Lemma concat_nonempty (base : Z) (gs : list (list Z)) :
  gs <> [] -> unit_groups base gs -> (1 <= length (concat gs))%nat.
Proof.
  intros Hne Hgs. destruct gs as [|g gs]; [congruence|].
  inversion Hgs as [|? ? (Hg & _) _]; subst.
  destruct g; [congruence|]. cbn. lia.
Qed.

Lemma underscored_no_eof (base : Z) (gs : list (list Z)) :
  unit_groups base gs -> Forall (fun x => x <> EOF) (underscored gs).
Proof.
  intros Hgs. destruct gs as [|g gs]; [apply Forall_nil_2|].
  inversion Hgs as [|? ? (_ & Hg) Hgs']; subst.
  cbn [underscored]. apply Forall_app. split.
  - eapply Forall_impl; [exact Hg|]. intros x Hx. apply (base_digit_facts base x Hx).
  - clear - Hgs'. induction Hgs' as [|g' gs' (_ & Hg') _ IH]; [apply Forall_nil_2|].
    unfold more_digits. cbn [map concat].
    apply Forall_app. split; [|exact IH].
    apply Forall_cons. split; [discriminate|].
    eapply Forall_impl; [exact Hg'|]. intros x Hx. apply (base_digit_facts base x Hx).
Qed.

(** [_mytoml_parser_parse_number] on a base marker, groups of digits and a
    terminator: what [strtoul] makes of the digits decides. *)
Lemma number_base_text (i : Input) (pre : list Z) (gs : list (list Z)) (d : Z)
    (rest : list Z) (h : heap) (base : Z) (num_end : list Z) (fuel : nat) :
  stream i = Some (pre ++ ch "0" :: base_marker base :: underscored gs ++ d :: rest) ->
  Forall (fun x => x <> EOF) pre ->
  marked_base base ->
  ends_apart base num_end ->
  gs <> [] ->
  unit_groups base gs ->
  d <> EOF ->
  _mytoml_is_number_end d num_end = true ->
  Z.of_nat (length (concat gs)) < MYTOML_MAX_STRING_LENGTH ->
  (length (concat gs) + 2 <= fuel)%nat ->
  exists tok tok',
    at_char i (length pre) tok
    /\ at_char i (length pre + 2 + length (underscored gs)) tok'
    /\ token tok' = d
    /\ _mytoml_parser_parse_number fuel num_end (mkMachine tok h)
       = Done (if snd (strtoul (concat gs) base) =? Z.of_nat (length (concat gs))
               then
                 if PrimFloat.eqb (double_of_ulong (fst (strtoul (concat gs) base))) minus_one
                 then None
                 else Some (mkNumber TOML_INT 0 false,
                            double_of_ulong (fst (strtoul (concat gs) base)))
               else None)
              (mkMachine tok' h).
Proof.
  intros Hi Hpre Hb He Hne Hgs Hd Hend Hlen Hfuel.
  destruct (base_marker_facts base Hb) as (_ & Hme & _).
  destruct (underscored_split gs d rest) as (c & rest' & Hsplit).
  destruct (number_base_marker i pre c rest' h base num_end (fuel - 1))
    as (tok & tok2 & Hat & Hat2 & Hnum); try assumption.
  { rewrite Hi, Hsplit. reflexivity. }
  destruct (base_unit_text gs i (pre ++ [ch "0"; base_marker base]) d rest h base num_end
              (fuel - 1 - length (concat gs)))
    as (tok2' & tok' & Hat2' & Hat' & Htk' & Hnu' & Hrun); try assumption.
  { rewrite <- app_assoc. exact Hi. }
  { apply Forall_app. split; [exact Hpre|].
    apply Forall_cons. split; [discriminate|].
    apply Forall_cons. split; [exact Hme|apply Forall_nil_2]. }
  { lia. }
  rewrite length_app in Hat2', Hat'. cbn [length] in Hat2', Hat'.
  pose proof (at_char_unique _ _ _ _ Hat2 Hat2') as <-.
  rewrite read_as_id in Htk' by exact Hd. rewrite is_null_at in Hnu' by exact Hd.
  exists tok, tok'. split; [exact Hat|]. split; [exact Hat'|]. split; [exact Htk'|].
  replace fuel with (S (fuel - 1)) by lia. rewrite Hnum.
  replace (fuel - 1)%nat with (length (concat gs) + (fuel - 1 - length (concat gs)))%nat by lia.
  assert (Hconv :
    _mytoml_parser_parse_base_unit
      (length (concat gs) + (fuel - 1 - length (concat gs))) base [] num_end (mkMachine tok2 h)
    = Done (if snd (strtoul (concat gs) base) =? Z.of_nat (length (concat gs))
            then double_of_ulong (fst (strtoul (concat gs) base)) else minus_one)
           (mkMachine tok' h)).
  { rewrite Hrun.
    replace (fuel - 1 - length (concat gs))%nat
      with (S (fuel - 2 - length (concat gs))) by lia.
    apply base_unit_convert.
    - exact Hnu'.
    - rewrite Htk'. exact Hend.
    - apply (concat_nonempty base); assumption.
    - exact Hlen.
    - eapply Forall_impl; [apply (unit_groups_concat base gs Hgs)|].
      intros x Hx. apply (base_digit_facts base x Hx). }
  rewrite (bind_done _ _ _ _ _ Hconv).
  destruct (snd (strtoul (concat gs) base) =? Z.of_nat (length (concat gs))).
  - destruct (PrimFloat.eqb _ minus_one); reflexivity.
  - reflexivity.
Qed.

(** Digits of the base that write a number below [2^63] are accepted. *)
Lemma number_base_digits (i : Input) (pre : list Z) (gs : list (list Z)) (d : Z)
    (rest : list Z) (h : heap) (base : Z) (num_end : list Z) (fuel : nat) :
  stream i = Some (pre ++ ch "0" :: base_marker base :: underscored gs ++ d :: rest) ->
  Forall (fun x => x <> EOF) pre ->
  marked_base base ->
  ends_apart base num_end ->
  gs <> [] ->
  digit_groups base gs ->
  d <> EOF ->
  _mytoml_is_number_end d num_end = true ->
  Z.of_nat (length (concat gs)) < MYTOML_MAX_STRING_LENGTH ->
  digits_value base (concat gs) < 2 ^ 63 ->
  (length (concat gs) + 2 <= fuel)%nat ->
  exists tok tok',
    at_char i (length pre) tok
    /\ at_char i (length pre + 2 + length (underscored gs)) tok'
    /\ token tok' = d
    /\ _mytoml_parser_parse_number fuel num_end (mkMachine tok h)
       = Done (Some (mkNumber TOML_INT 0 false,
                     double_of_ulong (digits_value base (concat gs))))
              (mkMachine tok' h).
Proof.
  intros Hi Hpre Hb He Hne Hgs Hd Hend Hlen Hval Hfuel.
  pose proof (digit_groups_unit base gs Hb Hgs) as Hu.
  destruct (number_base_text i pre gs d rest h base num_end fuel)
    as (tok & tok' & Hat & Hat' & Htk' & Hrun); try assumption.
  exists tok, tok'. split; [exact Hat|]. split; [exact Hat'|]. split; [exact Htk'|].
  rewrite Hrun.
  pose proof (digit_groups_concat base gs Hgs) as Hds.
  pose proof (digits_value_nonneg base (concat gs) Hb Hds) as Hpos.
  rewrite strtoul_digits; try assumption.
  2:{ pose proof (concat_nonempty base gs Hne Hu) as Hl.
      destruct (concat gs); [cbn in Hl; lia|discriminate]. }
  cbn [fst snd]. rewrite Z.eqb_refl.
  replace (2 ^ 64 <=? digits_value base (concat gs)) with false
    by (symmetry; apply Z.leb_gt;
        change (2 ^ 64) with 18446744073709551616;
        change (2 ^ 63) with 9223372036854775808 in Hval; lia).
  rewrite double_of_ulong_not_error by lia. reflexivity.
Qed.

(** A decimal digit that an octal or binary number does not have makes the
    number an error. *)
Lemma number_base_stray_digit (i : Input) (pre : list Z) (gs : list (list Z)) (d : Z)
    (rest : list Z) (h : heap) (base : Z) (num_end : list Z) (fuel : nat) :
  stream i = Some (pre ++ ch "0" :: base_marker base :: underscored gs ++ d :: rest) ->
  Forall (fun x => x <> EOF) pre ->
  base = 8 \/ base = 2 ->
  ends_apart base num_end ->
  unit_groups base gs ->
  Exists (fun c => digit_of base c = false) (concat gs) ->
  d <> EOF ->
  _mytoml_is_number_end d num_end = true ->
  Z.of_nat (length (concat gs)) < MYTOML_MAX_STRING_LENGTH ->
  (length (concat gs) + 2 <= fuel)%nat ->
  exists tok tok',
    at_char i (length pre) tok
    /\ at_char i (length pre + 2 + length (underscored gs)) tok'
    /\ _mytoml_parser_parse_number fuel num_end (mkMachine tok h)
       = Done None (mkMachine tok' h).
Proof.
  intros Hi Hpre Hb He Hgs Hex Hd Hend Hlen Hfuel.
  assert (Hne : gs <> []) by (intros ->; inversion Hex).
  destruct (number_base_text i pre gs d rest h base num_end fuel)
    as (tok & tok' & Hat & Hat' & _ & Hrun); try assumption.
  { destruct Hb as [-> | ->]; [right; left|right; right]; reflexivity. }
  exists tok, tok'. split; [exact Hat|]. split; [exact Hat'|].
  rewrite Hrun.
  pose proof (strtoul_stops base (concat gs) Hb (unit_groups_concat base gs Hgs) Hex) as Hs.
  replace (snd (strtoul (concat gs) base) =? Z.of_nat (length (concat gs))) with false
    by (symmetry; apply Z.eqb_neq; exact Hs).
  reflexivity.
Qed.

(** An underscore that leads the digits, or that no digit follows, makes
    the number an error. *)
Lemma number_base_underscore (i : Input) (pre : list Z) (gs : list (list Z)) (c : Z)
    (rest : list Z) (h : heap) (base : Z) (num_end : list Z) (fuel : nat) :
  stream i = Some (pre ++ ch "0" :: base_marker base :: underscored gs
                       ++ ch "_" :: c :: rest) ->
  Forall (fun x => x <> EOF) pre ->
  marked_base base ->
  ends_apart base num_end ->
  unit_groups base gs ->
  gs = [] \/ base_digit base c = false ->
  Z.of_nat (length (concat gs)) < MYTOML_MAX_STRING_LENGTH ->
  (length (concat gs) + 2 <= fuel)%nat ->
  exists tok tok',
    at_char i (length pre) tok
    /\ at_char i (length pre + 2 + length (underscored gs) + 1) tok'
    /\ _mytoml_parser_parse_number fuel num_end (mkMachine tok h)
       = Done None (mkMachine tok' h).
Proof.
  intros Hi Hpre Hb He Hgs Hc Hlen Hfuel.
  destruct (base_marker_facts base Hb) as (Hmd & Hme & _).
  destruct (underscored_split gs (ch "_") (c :: rest)) as (c0 & rest' & Hsplit).
  destruct (number_base_marker i pre c0 rest' h base num_end (fuel - 1))
    as (tok & tok2 & Hat & Hat2 & Hnum); try assumption.
  { rewrite Hi, Hsplit. reflexivity. }
  assert (Hpre2 : Forall (fun x => x <> EOF) (pre ++ [ch "0"; base_marker base])).
  { apply Forall_app. split; [exact Hpre|].
    apply Forall_cons. split; [discriminate|].
    apply Forall_cons. split; [exact Hme|apply Forall_nil_2]. }
  destruct (base_unit_text gs i (pre ++ [ch "0"; base_marker base]) (ch "_") (c :: rest) h
              base num_end (fuel - 1 - length (concat gs)))
    as (tok2' & tokU & Hat2' & HatU & HtkU & HnuU & Hrun); try assumption.
  { rewrite <- app_assoc. exact Hi. }
  { lia. }
  rewrite length_app in Hat2', HatU. cbn [length] in Hat2', HatU.
  pose proof (at_char_unique _ _ _ _ Hat2 Hat2') as <-.
  change (read_as (ch "_")) with (ch "_") in HtkU.
  change (negb (ch "_" =? EOF)) with true in HnuU.
  assert (Hdig : exists tokD,
             at_char i (length pre + 2 + length (underscored gs) + 1) tokD
             /\ base_digit base (token tokD) && base_digit base (prev_prev tokD) = false).
  { destruct Hc as [-> | Hc].
    - cbn [underscored app length] in *.
      destruct (at_char_prev_prev i (pre ++ [ch "0"]) (base_marker base) (ch "_") c rest)
        as (tokD & HatD & _ & _ & Hpp).
      { rewrite <- app_assoc. exact Hi. }
      { apply Forall_snoc_ne; [exact Hpre|discriminate]. }
      { exact Hme. }
      { discriminate. }
      rewrite length_app in HatD. cbn [length] in HatD.
      exists tokD. split.
      + replace (length pre + 2 + 0 + 1)%nat with (length pre + 1 + 2)%nat by lia. exact HatD.
      + rewrite Hpp, Hmd. apply andb_false_r.
    - destruct (at_char_exists i (pre ++ [ch "0"; base_marker base] ++ underscored gs
                                    ++ [ch "_"]) c rest) as (tokD & HatD & HtkD & _).
      { rewrite Hi. repeat (rewrite <- app_assoc; cbn [app]). reflexivity. }
      { rewrite !app_assoc. apply Forall_snoc_ne; [|discriminate].
        apply Forall_app. split; [exact Hpre2|].
        apply (underscored_no_eof base). exact Hgs. }
      repeat (rewrite length_app in HatD; cbn [length] in HatD).
      exists tokD. split.
      + replace (length pre + 2 + length (underscored gs) + 1)%nat
          with (length pre + (2 + (length (underscored gs) + 1)))%nat by lia.
        exact HatD.
      + rewrite HtkD.
        assert (Hr : base_digit base (read_as c) = false).
        { unfold read_as. destruct (c =? EOF); [|exact Hc].
          destruct (base_digit base 0) eqn:H0; [|reflexivity].
          destruct (base_digit_facts base 0 H0) as (_ & Hz & _). congruence. }
        rewrite Hr. reflexivity. }
  destruct Hdig as (tokD & HatD & Hdig).
  destruct (at_char_next i (length pre + 2 + length (underscored gs)) tokU tokD h HatU)
    as (r & Hnext).
  { replace (S (length pre + 2 + length (underscored gs)))
      with (length pre + 2 + length (underscored gs) + 1)%nat by lia.
    exact HatD. }
  exists tok, tokD. split; [exact Hat|]. split; [exact HatD|].
  replace fuel with (S (fuel - 1)) by lia. rewrite Hnum.
  replace (fuel - 1)%nat with (length (concat gs) + (fuel - 1 - length (concat gs)))%nat by lia.
  assert (Hconv :
    _mytoml_parser_parse_base_unit
      (length (concat gs) + (fuel - 1 - length (concat gs))) base [] num_end (mkMachine tok2 h)
    = Done minus_one (mkMachine tokD h)).
  { rewrite Hrun.
    replace (fuel - 1 - length (concat gs))%nat
      with (S (fuel - 2 - length (concat gs))) by lia.
    apply (base_unit_underscore _ base (concat gs) num_end (mkMachine tokU h)
             (mkMachine tokD h) r).
    - exact HnuU.
    - exact HtkU.
    - exact Hlen.
    - apply (ends_apart_underscore base). exact He.
    - exact Hnext.
    - exact Hdig. }
  rewrite (bind_done _ _ _ _ _ Hconv). reflexivity.
Qed.



